(* ===== verification/_CoqProject ===== *)
-Q . S2P
Prelude.v
LinkedList.v
Ring.v
CLib.v
MmInterface.v
MmSimple.v
MmSimpleFacts.v
MmSimpleTheorems.v
MmBuddyTiling.v
MmBuddy.v
MmBuddyFacts.v
MmBuddyHeap.v
MmBuddyTheorems.v
Font.v
Video.v
VideoFacts.v
VideoTheorems.v
ScreenText.v
Exceptions.v
KState.v
ProcQueue.v
SchedCore.v
QueueFacts.v
SchedView.v
QueueTheorems.v
Semaphore.v
Pipe.v
Process.v
Keyboard.v
Scheduler.v
SchedFacts.v
SchedSwitch.v
SchedTheorems.v
SemFacts.v
SchedCalls.v
SemTheorems.v
PipeFacts.v
PipeTheorems.v
ProcPipes.v
ProcessTheorems.v
SchedCollect.v
Syscalls.v
KernelInv.v
KernelKeeps.v
KeyboardTheorems.v
Machine.v
SemSystem.v
SemFair.v
MachineTheorems.v
WaitTheorems.v
Loader.v
LoaderFacts.v
Packer.v
PackerFacts.v
LoaderTheorems.v
ULib.v
ULibTheorems.v
UProc.v
UPrograms.v
UShell.v
UTheorems.v
UKernel.v
ULine.v
UMmTest.v
Bmfs.v
BmfsFacts.v
BmfsTheorems.v
