(* ===== verification/Prelude.v ===== *)
(** * A verified model of an operating system kernel and its tools

    The repository holds a 64-bit kernel for one processor (src/Kernel), the
    programs that run on it (src/Userland), the program that packs them into an
    image (src/Toolchain) and the one that puts the image on a disk
    (src/Bootloader/BMFS).  This library translates their C code, function by
    function, into executable Rocq definitions and proves what makes them correct.

    ** How a component is modelled

    The state of a component is a record with a field per static variable; the
    kernel's is [KState.kstate], and the memory manager it is linked with is a
    parameter of it.  A function is a computation [M S A := S -> outcome S A] (this
    file): it returns ([Done]), hands the processor over ([Suspend], at [int 20h]
    and [hlt]) with what remains to be done, meets undefined behaviour of C
    ([Fault]: a null or dangling pointer, an index out of bounds), or never ends
    ([Diverge]).  Pointers to control blocks, headers and semaphores are keys of
    maps and lists, so links between them are the links of the code.  Integers are
    [Z] with the wrap-around of their type written out ([u8] ... [i64]).  [runs m s
    Q] says that [m] returns from [s], in a state and with a value that satisfy
    [Q]: it excludes faults, divergence and suspension, so it is total correctness.
    [suspends] is its counterpart for a computation that hands over; [leads] and
    [keeps] are for invariants, with states changed by others while suspended.

    A loop of the code whose bound is not a constant runs with fuel ([while_fuel]),
    taken from the state: the number of blocks, of control blocks, of written cells.
    The theorems with [runs] show that it is enough.  Where a process waits for
    others the number of times it is woken up in vain is a parameter, [wakeups];
    the rounds of the endless loops of the user programs are another, [patience].

    ** Parts of the program and files of the library

    - [CLib]: memory, lib.c.  [LinkedList], [Ring]: doubly and singly linked lists
      as segments of a map; circular buffers.
    - Memory managers: [MmInterface] is what the kernel expects of one.  [MmSimple]
      is mm_simple.c, [MmSimpleFacts] its invariant (the heap is tiled by blocks,
      no two free ones adjacent, the free list holds the free ones) and
      [MmSimpleTheorems] the properties and the instance of the interface.
      [MmBuddy] is mm_buddy.c; [MmBuddyTiling] is the theory of divisions into
      dyadic blocks, [MmBuddyFacts] the free lists, [MmBuddyHeap] what each function
      does to the division, [MmBuddyTheorems] the properties and the instance.
    - Kernel state and time: [KState].  Screen: [Font], [Video], [VideoFacts] (the
      driver returns), [VideoTheorems] (it draws on the screen only), [ScreenText]
      (what a line of text draws, and how erasing undoes it).
    - Text console, module loader, interrupt table: [Loader], [LoaderFacts].  The
      packer of the image: [Packer], [PackerFacts].  Both, and the interrupt table:
      [LoaderTheorems].  Exceptions: [Exceptions].
    - Processes: [ProcQueue] (the queues of process.c), [QueueFacts],
      [QueueTheorems]; [Process] (creation, descriptors, destruction), [ProcPipes]
      (the ends of pipes that a process holds), [ProcessTheorems].
    - Scheduler: [SchedCore] and [Scheduler] (scheduler.c, the keyboard interrupt and
      the timer interrupt); [SchedView] runs its operations on lists instead of
      links; [SchedFacts] is its invariant and the aging of processes,
      [SchedSwitch] the switch, [SchedTheorems] the properties.  [SchedCalls] adds
      the calls that find a process by its pid: together with the timer they refine
      an abstract scheduler.  [SchedCollect] is the end of a process.
    - Semaphores: [Semaphore], [SemFacts], [SemTheorems].  [SemSystem] runs processes
      that share semaphores on the machine, [SemFair] is about how long they wait.
      Pipes: [Pipe], [PipeFacts], [PipeTheorems].  Keyboard: [Keyboard],
      [KeyboardTheorems].
    - System calls: [Syscalls].  Boot and the steps of the machine: [Machine].
      [KernelInv] is an invariant of the whole kernel, [KernelKeeps] shows that every
      operation keeps it, and [MachineTheorems] that it holds in every reachable
      state.  [WaitTheorems] is about waiting for the end of a process.
    - User programs: [ULib] (strings, numbers, formats, the line cut into words),
      [ULibTheorems].  [UProc] is what the programs run on: the class [System] of
      the calls (asm/syscall.asm), the static variables of the library, and lib/.
      [UPrograms] holds the programs started as processes and the tests, [UShell]
      the shell.  [UTheorems] is about them on any system that keeps its promises
      ([Prints], [Piped], [Typed]); [UKernel] makes the kernel such a system.
      [ULine] is the line the shell reads and what its user sees of it.  [UMmTest]
      runs the memory test on the kernel, with any memory manager.
    - File system utility: [Bmfs] (bmfs.c), [BmfsFacts], [BmfsTheorems].

    The parts interact as in the code: the scheduler pushes and pops the queues;
    semaphores block and wake processes through the scheduler; a pipe has three
    semaphores; the keyboard interrupt signals a semaphore and the read system call
    waits on it; system calls are dispatched by number over all of them; a user
    program reaches them through [System] only.

    ** What the theorems show

    - Data structures: the linked queues refine lists; the keyboard buffer refines
      a bounded queue; the pipes are first in, first out.
    - Memory: allocation refines first fit on the list of free blocks, freeing
      merges neighbours and restores the heap, what is allocated is disjoint.  The
      buddy manager serves a request whenever an aligned free run is large enough,
      and the blocks in use determine its division.
    - Scheduling: while no process has ended, a timer interrupt, and blocking,
      unblocking and changing the priority of a process by pid, refine an abstract
      scheduler and keep its invariant; a process that ends without waiters is
      collected, and the invariant holds again; aging ends, only helps, and lets no
      ready process starve.
    - Synchronisation: who waits is queued in order, blocked and resumed; who
      signals wakes the first; identifiers are fresh; bytes of a pipe arrive.
      Whatever the interleaving, processes that share semaphores conserve the units,
      exclude each other and never get stuck; who waits goes on after boundedly many
      signals and is not overtaken.
    - Input: a key press reaches the process that waits longest; a line is read, and
      its echo leaves the picture of the line.
    - Processes: a new one has memory of its own, starts at its entry point and
      holds the ends of the pipes it was given; destroying it undoes the creation.
      Who waits for a process joins its waiters; concrete runs of the booted machine
      show what goes wrong when it ends.
    - The whole kernel: whatever the processes call and wherever interrupts fall but
      in the end of a process, all spin locks are free between two steps, the buffers
      are sound rings, indices name what exists, and the screen is drawn inside its
      frame buffer.
    - Loading and tools: the loader undoes the packer, the interrupt table leads to
      the handlers, the disk utility keeps files apart and their contents.
    - User programs: numbers written are read back, command lines are understood,
      the line editor reads what it shows, the filters of a pipeline compute what
      they are for, on any system and on this kernel; the memory test reports no
      error and gives back the blocks it takes.

    ** Not modelled, and why

    The boot loader and the other assembly files (only the frame of a new process,
    the spin lock and the timer handler are modelled): they are not C and depend
    on the processor.  The bytes of a control block inside the heap: a block is a
    record keyed by its address.  The text of messages on the host; of its files,
    whether they can be read or created and what they hold is modelled, other
    failures are not, and what argp_parse (a library) makes of a command line is a
    parameter.  A string of a user program is the list of its characters; memory a
    program shares with others is that of the system ([sys_mem]), and the addresses
    of its functions are taken to be above 0x10000, as the library assumes.
    System calls and handlers run with interrupts masked, so nothing preempts them.
    The end of a process ([scheduler_finish_current], called by [process_start]) runs
    with interrupts enabled; the machine takes it as one step, so its runs are those
    in which no interrupt falls there ([WaitTheorems.interrupted_end_hangs] shows
    what one can do).  Freshness of pids and identifiers is shown for one call, not for 2^64
    of them: the counters wrap around. *)
From stdpp Require Export base gmap list numbers sorting.
From Stdlib Require Export ZArith Lia.
#[global] Open Scope Z_scope.

(** ** Machine integers *)

Definition wrap (w x : Z) : Z := x mod 2 ^ w.
Definition swrap (w x : Z) : Z := (x + 2 ^ (w - 1)) mod 2 ^ w - 2 ^ (w - 1).

#[global] Arguments wrap w x : simpl never.
#[global] Arguments swrap w x : simpl never.

Abbreviation u8 := (wrap 8).
Abbreviation u16 := (wrap 16).
Abbreviation u32 := (wrap 32).
Abbreviation u64 := (wrap 64).
Abbreviation i8 := (swrap 8).
Abbreviation i32 := (swrap 32).
Abbreviation i64 := (swrap 64).

(** [~x] on a [w]-bit unsigned integer. *)
Definition bnot (w x : Z) : Z := 2 ^ w - 1 - x.

(** A C truth value. *)
Definition ctrue (x : Z) : bool := negb (x =? 0).
Definition cbool (b : bool) : Z := if b then 1 else 0.

Definition INT_MAX : Z := 2 ^ 31 - 1.

(** ** Record update

    [r <| f := v |>] is the record [r] with the field [f] set to [v].  A record
    declares its eta expansion once and one [Setter] instance per field. *)

Class Setter {R T : Type} (f : R -> T) := set_field : (T -> T) -> R -> R.
Arguments set_field {R T} f {_} _ _ /.

Ltac build_setter eta f :=
  let e := eval cbv delta [eta] in eta in
  match eval pattern f in e with
  | ?F _ =>
      let t := eval cbv beta in (fun u r => F (fun r0 => u (f r0)) r) in
      exact t
  end.

Declare Scope rec_scope.
Delimit Scope rec_scope with rec_upd.
Notation "r <| f := v |>" := (set_field f (fun _ => v) r)
  (at level 12, f at next level, left associativity,
   format "r  <| f  :=  v |>") : rec_scope.
Notation "r <| f ::= g |>" := (set_field f g r)
  (at level 12, f at next level, left associativity,
   format "r  <| f  ::=  g |>") : rec_scope.
#[global] Open Scope rec_scope.

(** ** Outcomes of a kernel computation *)

(** A trap hands the processor over: [TimerTick] is the software interrupt
    [int 20h] of [callTimerTick], [Halt] the [sti; hlt] of [_hlt]. *)
Inductive trap := TimerTick | Halt.

Inductive outcome (S A : Type) : Type :=
  | Done (a : A) (s : S)
  | Suspend (t : trap) (s : S) (k : S -> outcome S A)
  | Fault
  | Diverge.
Arguments Done {S A} a s.
Arguments Suspend {S A} t s k.
Arguments Fault {S A}.
Arguments Diverge {S A}.

Definition M (S A : Type) : Type := S -> outcome S A.

Fixpoint obind {S A B : Type} (o : outcome S A) (f : A -> S -> outcome S B) : outcome S B :=
  match o with
  | Done a s => f a s
  | Suspend t s k => Suspend t s (fun s' => obind (k s') f)
  | Fault => Fault
  | Diverge => Diverge
  end.

#[export] Instance M_ret (S : Type) : MRet (M S) := fun A a s => Done a s.
#[export] Instance M_bind (S : Type) : MBind (M S) := fun A B f m s => obind (m s) f.

Section Primitives.
Context {S : Type}.

Definition gets {A : Type} (f : S -> A) : M S A := fun s => Done (f s) s.
Definition modify (f : S -> S) : M S unit := fun s => Done tt (f s).
Definition fault {A : Type} : M S A := fun _ => Fault.
Definition diverge {A : Type} : M S A := fun _ => Diverge.
Definition suspend (t : trap) : M S unit := fun s => Suspend t s (fun s' => Done tt s').
Definition when (b : bool) (m : M S unit) : M S unit := if b then m else mret tt.
(** Reading through a partial function: an absent value is undefined behaviour. *)
Definition gets_opt {A : Type} (f : S -> option A) : M S A :=
  fun s => match f s with Some a => Done a s | None => Fault end.

(** [for (i = lo; n more rounds; i++) body]. *)
Fixpoint for_up (lo : Z) (n : nat) (body : Z -> M S unit) : M S unit :=
  match n with
  | O => mret tt
  | Datatypes.S n' => body lo ;; for_up (lo + 1) n' body
  end.

(** A counting loop whose body may leave the loop with a value. *)
Fixpoint for_first {B : Type} (lo : Z) (n : nat) (body : Z -> M S (option B)) : M S (option B) :=
  match n with
  | O => mret None
  | Datatypes.S n' =>
      r ← body lo;
      match r with Some b => mret (Some b) | None => for_first (lo + 1) n' body end
  end.

(** [while] with an explicit bound: [inl] goes on, [inr] leaves the loop. *)
Fixpoint while_fuel {A B : Type} (fuel : nat) (body : A -> M S (A + B)) (a : A) : M S B :=
  match fuel with
  | O => diverge
  | Datatypes.S n =>
      r ← body a;
      match r with inl a' => while_fuel n body a' | inr b => mret b end
  end.
End Primitives.

(** Running a computation on a part of the state. *)
Fixpoint ozoom {S T A : Type} (get : S -> T) (put : T -> S -> S) (s : S) (o : outcome T A) : outcome S A :=
  match o with
  | Done a t => Done a (put t s)
  | Suspend tr t k => Suspend tr (put t s) (fun s' => ozoom get put s' (k (get s')))
  | Fault => Fault
  | Diverge => Diverge
  end.
Definition zoom {S T A : Type} (get : S -> T) (put : T -> S -> S) (m : M T A) : M S A :=
  fun s => ozoom get put s (m (get s)).

(** ** Reasoning about outcomes *)

(** [runs m s Q]: from [s], [m] returns without suspending, faulting or
    running out of fuel, and [Q] holds of what it returns. *)
Definition runs {S A : Type} (m : M S A) (s : S) (Q : A -> S -> Prop) : Prop :=
  exists a s', m s = Done a s' /\ Q a s'.

(** [suspends m s tr Q]: from [s], [m] hands over with the trap [tr]; [Q] holds of
    the state it leaves and of what remains to be done. *)
Definition suspends {S A : Type} (m : M S A) (s : S) (tr : trap) (Q : S -> (S -> outcome S A) -> Prop) : Prop :=
  exists s' k, m s = Suspend tr s' k /\ Q s' k.

(** [owp I Q o]: rely-guarantee reading of an outcome.  Every state in which
    the computation hands over satisfies [I]; it may be resumed in any state
    that satisfies [I]; if it returns, [Q] holds. *)
Fixpoint owp {S A : Type} (I : S -> Prop) (Q : A -> S -> Prop) (o : outcome S A) : Prop :=
  match o with
  | Done a s => Q a s
  | Suspend _ s k => I s /\ forall s', I s' -> owp I Q (k s')
  | Fault => True
  | Diverge => True
  end.
(** [leads G I m J]: from a state that satisfies [I], [m] returns in one that
    satisfies [J], if it returns; while it is suspended the others keep [G].
    [keeps G I m]: [m] keeps [I]. *)
Definition leads {S A : Type} (G I : S -> Prop) (m : M S A) (J : S -> Prop) : Prop :=
  forall s, I s -> owp G (fun _ => J) (m s).
Abbreviation keeps G I m := (leads G I m I).

(** An outcome that neither faults nor runs out of fuel, whatever the states in
    which it is resumed. *)
Fixpoint osafe {S A : Type} (I : S -> Prop) (Q : A -> S -> Prop) (o : outcome S A) : Prop :=
  match o with
  | Done a s => Q a s
  | Suspend _ s k => I s /\ forall s', I s' -> osafe I Q (k s')
  | Fault => False
  | Diverge => False
  end.

(** The state a computation returns in. *)
Definition after {S A : Type} (m : M S A) (s : S) : S := match m s with Done _ s' => s' | _ => s end.
Lemma runs_after {S A : Type} (m : M S A) s (Q : A -> S -> Prop) : runs m s Q -> exists a, Q a (after m s).
Proof. intros (a & s' & E & HQ). exists a. unfold after. by rewrite E. Qed.

(** ** Lemmas on machine integers *)

(** Linear arithmetic with division and remainder by constants. *)
Ltac dlia := Z.to_euclidean_division_equations; lia.

Lemma wrap_range w x : 0 <= w -> 0 <= wrap w x < 2 ^ w.
Proof. intros. apply Z.mod_pos_bound. lia. Qed.

Lemma wrap_small w x : 0 <= x < 2 ^ w -> wrap w x = x.
Proof. apply Z.mod_small. Qed.

Lemma swrap_range w x : 0 < w -> - 2 ^ (w - 1) <= swrap w x < 2 ^ (w - 1).
Proof.
  intros Hw. unfold swrap.
  assert (2 ^ w = 2 * 2 ^ (w - 1)) as E.
  { rewrite <- Z.pow_succ_r by lia. f_equal. lia. }
  pose proof (Z.pow_pos_nonneg 2 (w - 1) ltac:(lia) ltac:(lia)) as Hp.
  pose proof (Z.mod_pos_bound (x + 2 ^ (w - 1)) (2 ^ w) ltac:(lia)). lia.
Qed.

Lemma swrap_small w x : 0 < w -> - 2 ^ (w - 1) <= x < 2 ^ (w - 1) -> swrap w x = x.
Proof.
  intros Hw Hx. unfold swrap.
  assert (2 ^ w = 2 * 2 ^ (w - 1)) as E.
  { rewrite <- Z.pow_succ_r by lia. f_equal. lia. }
  rewrite Z.mod_small by lia. lia.
Qed.

(** Numbers that differ by a multiple of [2^w] wrap to the same. *)
Lemma swrap_congr w x y : 0 < w -> (x - y) mod 2 ^ w = 0 -> swrap w x = swrap w y.
Proof.
  intros Hw E. unfold swrap. f_equal. apply Z.mod_divide in E as [k E]; [|lia].
  replace (x + 2 ^ (w - 1)) with (y + 2 ^ (w - 1) + k * 2 ^ w) by lia. apply Z_mod_plus_full.
Qed.
Lemma swrap_diff w x : 0 < w -> exists k, swrap w x = x + k * 2 ^ w.
Proof.
  intros Hw. exists (- ((x + 2 ^ (w - 1)) / 2 ^ w)). unfold swrap.
  rewrite Z.mod_eq by lia. lia.
Qed.
Lemma swrap_eq w x y k : 0 < w -> x = y + k * 2 ^ w -> swrap w x = swrap w y.
Proof. intros Hw ->. apply swrap_congr; [done|]. apply Z.mod_divide; [lia|]. exists k. lia. Qed.

(** The mask [~(2^k - 1)] clears the [k] low bits. *)
Lemma land_align w k x :
  0 <= k <= w -> 0 <= x < 2 ^ w -> Z.land x (bnot w (2 ^ k - 1)) = x - x mod 2 ^ k.
Proof.
  intros Hk Hx.
  assert (bnot w (2 ^ k - 1) = Z.ldiff (Z.ones w) (Z.ones k)) as ->.
  { unfold bnot. rewrite Z.ldiff_ones_r, Z.shiftr_div_pow2, Z.shiftl_mul_pow2 by lia.
    rewrite Z.ones_equiv, <- Z.sub_1_r.
    assert (2 ^ w = 2 ^ (w - k) * 2 ^ k) as E by (rewrite <- Z.pow_add_r by lia; f_equal; lia).
    rewrite E.
    assert ((2 ^ (w - k) * 2 ^ k - 1) / 2 ^ k = 2 ^ (w - k) - 1) as ->.
    { symmetry. apply (Z.div_unique _ _ _ (2 ^ k - 1)); [left|]; lia. }
    lia. }
  assert (Z.land x (Z.ldiff (Z.ones w) (Z.ones k)) = Z.ldiff x (Z.ones k)) as ->.
  { apply Z.bits_inj'. intros n Hn. rewrite Z.land_spec, !Z.ldiff_spec.
    destruct (decide (n < w)).
    - rewrite Z.ones_spec_low by lia. done.
    - destruct (decide (x = 0)) as [->|]; [by rewrite !Z.bits_0|].
      rewrite (Z.bits_above_log2 x n); [done|lia|].
      apply Z.log2_lt_pow2; [lia|]. apply Z.lt_le_trans with (2 ^ w); [apply Hx|].
      apply Z.pow_le_mono_r; lia. }
  rewrite Z.ldiff_ones_r, Z.shiftr_div_pow2, Z.shiftl_mul_pow2 by lia.
  pose proof (Z.div_mod x (2 ^ k) ltac:(lia)). lia.
Qed.

(** ** Rules for [runs] *)

Section RunRules.
Context {S : Type}.
Implicit Types s : S.

Lemma runs_mono {A} (m : M S A) s (Q Q' : A -> S -> Prop) :
  runs m s Q -> (forall a s', Q a s' -> Q' a s') -> runs m s Q'.
Proof. intros (a & s' & E & H) HQ. exists a, s'. auto. Qed.

Lemma runs_ret {A} (a : A) s (Q : A -> S -> Prop) : Q a s -> runs (mret a) s Q.
Proof. intros H. exists a, s. done. Qed.

Lemma runs_bind {A B} (m : M S A) (f : A -> M S B) s Q :
  runs m s (fun a s' => runs (f a) s' Q) -> runs (m ≫= f) s Q.
Proof.
  intros (a & s' & E & b & s'' & E' & H). exists b, s''. split; [|done].
  unfold mbind, M_bind. rewrite E. done.
Qed.

(** A specification of the first two steps of three. *)
Lemma runs_bind_assoc {A B C} (m : M S A) (f : A -> M S B) (g : B -> M S C) s Q :
  runs (m ≫= f) s (fun b s' => runs (g b) s' Q) -> runs (m ≫= fun a => f a ≫= g) s Q.
Proof.
  intros (b & t & E & c & u & E' & HQ). exists c, u. split; [|done]. unfold mbind, M_bind in *.
  destruct (m s) as [a s1|tr s1 k| |]; simpl in *; try discriminate. by rewrite E.
Qed.

Lemma suspends_bind {A B} (m : M S A) (f : A -> M S B) s tr Q :
  runs m s (fun a s' => suspends (f a) s' tr Q) -> suspends (m ≫= f) s tr Q.
Proof.
  intros (a & s' & E & s'' & k & E' & H). exists s'', k. split; [|done].
  unfold mbind, M_bind. by rewrite E.
Qed.

Lemma suspends_bind_rest {A B} (m : M S A) (f : A -> M S B) s tr (Q : S -> (S -> outcome S B) -> Prop) :
  suspends m s tr (fun s' k => Q s' (fun s'' => obind (k s'') f)) -> suspends (m ≫= f) s tr Q.
Proof.
  intros (s' & k & E & H). exists s', (fun s'' => obind (k s'') f). split; [|done].
  unfold mbind, M_bind. by rewrite E.
Qed.

Lemma runs_bind_ret (m : M S unit) s (Q : unit -> S -> Prop) :
  runs (m ≫= (fun _ => mret tt)) s Q -> runs m s Q.
Proof.
  intros (a & s' & E & HQ). destruct a. unfold mbind, M_bind in E.
  destruct (m s) as [[] t|t t' k| |] eqn:Em; try discriminate. injection E as <-. exists tt, t. done.
Qed.

Lemma runs_gets {A} (f : S -> A) s (Q : A -> S -> Prop) : Q (f s) s -> runs (gets f) s Q.
Proof. intros H. eexists _, _. split; [reflexivity|done]. Qed.

Lemma runs_modify (f : S -> S) s (Q : unit -> S -> Prop) : Q tt (f s) -> runs (modify f) s Q.
Proof. intros H. eexists _, _. split; [reflexivity|done]. Qed.

Lemma runs_gets_opt {A} (f : S -> option A) s a (Q : A -> S -> Prop) :
  f s = Some a -> Q a s -> runs (gets_opt f) s Q.
Proof. intros E H. exists a, s. unfold gets_opt. rewrite E. done. Qed.

Lemma runs_when b (m : M S unit) s (Q : unit -> S -> Prop) :
  (b = true -> runs m s Q) -> (b = false -> Q tt s) -> runs (when b m) s Q.
Proof. destruct b; intros H1 H2; [auto|]. apply runs_ret. auto. Qed.

Lemma runs_eq {A} (m : M S A) s a s' : m s = Done a s' <-> runs m s (fun b t => b = a /\ t = s').
Proof.
  split.
  - intros E. exists a, s'. done.
  - intros (b & t & E & -> & ->). done.
Qed.

(** A computation on a part of the state. *)
Lemma runs_zoom {T A} (get : S -> T) (put : T -> S -> S) (m : M T A) s (Q : A -> S -> Prop) :
  runs m (get s) (fun a t => Q a (put t s)) -> runs (zoom get put m) s Q.
Proof. intros (a & t & E & HQ). exists a, (put t s). unfold zoom. by rewrite E. Qed.

(** A counting loop establishes [I n] from [I 0] when each round goes from [I i] to [I (i+1)]. *)
Lemma runs_for_up (I : Z -> S -> Prop) n : forall lo body s (Q : unit -> S -> Prop),
  I lo s ->
  (forall i t, lo <= i < lo + Z.of_nat n -> I i t -> runs (body i) t (fun _ t' => I (i + 1) t')) ->
  (forall t, I (lo + Z.of_nat n) t -> Q tt t) ->
  runs (for_up lo n body) s Q.
Proof.
  induction n as [|n IH]; intros lo body s Q HI Hb HQ; simpl.
  - apply runs_ret, HQ. by rewrite Z.add_0_r.
  - apply runs_bind. eapply runs_mono; [apply Hb; [lia|done]|].
    intros [] t Ht. apply IH; [done| |].
    + intros i u Hi. apply Hb. lia.
    + intros u Hu. apply HQ. replace (lo + Z.of_nat (Datatypes.S n)) with (lo + 1 + Z.of_nat n) by lia. done.
Qed.

(** A [while] loop with a variant: [V] bounds the rounds left. *)
Lemma runs_while {A B} (I : A -> S -> Prop) (V : A -> S -> nat) (body : A -> M S (A + B)) :
  forall fuel a s (Q : B -> S -> Prop),
  I a s -> (V a s < fuel)%nat ->
  (forall a t, I a t -> runs (body a) t (fun r t' =>
     match r with inl a' => I a' t' /\ (V a' t' < V a t)%nat | inr b => Q b t' end)) ->
  runs (while_fuel fuel body a) s Q.
Proof.
  induction fuel as [|n IH]; intros a s Q HI HV Hb; simpl; [lia|].
  apply runs_bind. eapply runs_mono; [apply Hb; done|].
  intros [a'|b] t H.
  - destruct H as [HI' HV']. apply IH; [done|lia|done].
  - apply runs_ret, H.
Qed.
End RunRules.

(** ** Rules for [owp], [leads] and [keeps] *)

Section KeepRules.
Context {S : Type}.
Implicit Types G I J : S -> Prop.

Lemma owp_mono {A} G (Q Q' : A -> S -> Prop) o :
  owp G Q o -> (forall a s, Q a s -> Q' a s) -> owp G Q' o.
Proof.
  intros H HQ. induction o as [a s|t s k IH| |]; simpl in *; auto.
  destruct H as [H1 H2]. split; auto.
Qed.

Lemma owp_bind {A B} G (Q : B -> S -> Prop) (o : outcome S A) (f : A -> S -> outcome S B) :
  owp G (fun a s => owp G Q (f a s)) o -> owp G Q (obind o f).
Proof.
  intros H. induction o as [a s|t s k IH| |]; simpl in *; auto.
  destruct H as [H1 H2]. split; auto.
Qed.

Lemma leads_bind {A B} G I J L (m : M S A) (f : A -> M S B) :
  leads G I m J -> (forall a, leads G J (f a) L) -> leads G I (m ≫= f) L.
Proof.
  intros Hm Hf s Hs. apply owp_bind. eapply owp_mono; [apply Hm, Hs|].
  intros a t Ht. apply Hf, Ht.
Qed.

Lemma keeps_ret {A} G I (a : A) : keeps G I (mret a).
Proof. intros s Hs. done. Qed.
Lemma keeps_gets {A} G I (f : S -> A) : keeps G I (gets f).
Proof. intros s Hs. done. Qed.
Lemma keeps_gets_opt {A} G I (f : S -> option A) : keeps G I (gets_opt f).
Proof. intros s Hs. unfold gets_opt. destruct (f s); done. Qed.
(** What is read satisfies what the invariant says of it. *)
Lemma leads_gets_bind {A B} G I J (f : S -> A) (k : A -> M S B) :
  (forall s, I s -> leads G I (k (f s)) J) -> leads G I (gets f ≫= k) J.
Proof. intros H s Hs. by apply (H s). Qed.
Lemma leads_gets_opt_bind {A B} G I J (f : S -> option A) (k : A -> M S B) :
  (forall s a, I s -> f s = Some a -> leads G I (k a) J) -> leads G I (gets_opt f ≫= k) J.
Proof. intros H s Hs. unfold mbind, M_bind, gets_opt. destruct (f s) as [a|] eqn:E; [by apply (H s a)|done]. Qed.
Lemma leads_modify G I J (f : S -> S) : (forall s, I s -> J (f s)) -> leads G I (modify f) J.
Proof. intros H s Hs. apply H, Hs. Qed.
Lemma leads_fault {A} G I J : leads G I (@fault S A) J.
Proof. intros s Hs. done. Qed.
Lemma leads_diverge {A} G I J : leads G I (@diverge S A) J.
Proof. intros s Hs. done. Qed.
Lemma keeps_suspend I t : keeps I I (suspend t).
Proof. intros s Hs. simpl. auto. Qed.
Lemma leads_when G I J b (m : M S unit) :
  (forall s, I s -> J s) -> (b = true -> leads G I m J) -> leads G I (when b m) J.
Proof. intros HJ H. destruct b; [auto|]. intros s Hs. simpl. auto. Qed.
Lemma keeps_for_up G I n : forall lo body,
  (forall i, lo <= i < lo + Z.of_nat n -> keeps G I (body i)) -> keeps G I (for_up lo n body).
Proof.
  induction n as [|n IH]; intros lo body H; simpl; [apply keeps_ret|].
  eapply leads_bind; [apply H; lia|]. intros _. apply IH. intros i Hi. apply H. lia.
Qed.
Lemma keeps_for_first {B} G I n : forall lo (body : Z -> M S (option B)),
  (forall i, keeps G I (body i)) -> keeps G I (for_first lo n body).
Proof.
  induction n as [|n IH]; intros lo body H; simpl; [apply keeps_ret|].
  eapply leads_bind; [apply H|]. intros [b|]; [apply keeps_ret|apply IH, H].
Qed.
Lemma keeps_while {A B} G I fuel : forall (body : A -> M S (A + B)) a,
  (forall a, keeps G I (body a)) -> keeps G I (while_fuel fuel body a).
Proof.
  induction fuel as [|n IH]; intros body a H; simpl; [apply leads_diverge|].
  eapply leads_bind; [apply H|]. intros [a'|b]; [apply IH, H|apply keeps_ret].
Qed.

Lemma keeps_anything {A} (m : M S A) : keeps (fun _ => True) (fun _ => True) m.
Proof. intros s _. induction (m s); simpl; auto. Qed.
(** A computation on a part keeps what the whole asks of that part. *)
Lemma keeps_zoom {T A} (get : S -> T) (put : T -> S -> S) (L : T -> Prop) I (m : M T A) :
  (forall s, I s -> L (get s)) -> (forall s t, I s -> L t -> I (put t s)) ->
  keeps L L m -> keeps I I (zoom get put m).
Proof.
  intros Hget Hput Hm s Hs. unfold zoom. specialize (Hm _ (Hget _ Hs)).
  revert Hm. generalize (m (get s)). intros o Hm. revert s Hs.
  induction o as [a t|tr t k IH| |]; intros s' Hs'; simpl in *; auto.
  destruct Hm as [Ht Hk]. split; [auto|]. intros s'' Hs''. apply IH; auto.
Qed.
End KeepRules.

Create HintDb keeps.
#[export] Hint Resolve keeps_ret keeps_gets keeps_gets_opt leads_fault leads_diverge keeps_suspend : keeps.

(** [keep] splits a computation down to its steps and leaves the updates of the
    state.  A step is taken to keep what holds before it. *)
Ltac keep_one :=
  match goal with
  | |- forall _, _ => intros ?
  | |- leads _ _ (match ?x with _ => _ end) _ => destruct x
  | |- leads _ _ (if ?x then _ else _) _ => destruct x
  | |- leads _ _ (let '(_, _) := ?x in _) _ => destruct x
  | |- leads _ ?I (_ ≫= _) _ => eapply (leads_bind _ I I); [|intros ?]
  | |- leads _ _ (when _ _) _ => apply leads_when; [intros ? H_; exact H_|intros ?]
  | |- leads _ _ (for_up _ _ _) _ => apply keeps_for_up
  | |- leads _ _ (for_first _ _ _) _ => apply keeps_for_first
  | |- leads _ _ (while_fuel _ _ _) _ => apply keeps_while
  end.
Ltac keep := repeat first [progress (eauto with keeps nocore) | keep_one].
