(* ===== verification/LinkedList.v ===== *)
(** * Linked lists in a store

    The kernel threads its objects on intrusive lists: the process queues
    (src/Kernel/proc/process.c) and the free lists of both memory managers
    (src/Kernel/mm) are doubly linked, the waiters of a semaphore and of a
    process are singly linked.  This file relates the links found in a store
    to the list of nodes they thread, once for all of them. *)
From S2P Require Import Prelude.

Lemma list_split_unique {A : Type} (l1 : list A) : forall x l2 k1 k2,
  NoDup (l1 ++ x :: l2) -> l1 ++ x :: l2 = k1 ++ x :: k2 -> k1 = l1 /\ k2 = l2.
Proof.
  induction l1 as [|y l1 IH]; intros x l2 k1 k2 Hnd E; destruct k1 as [|z k1]; simpl in *.
  - by injection E as ->.
  - injection E as -> E. apply NoDup_cons in Hnd as [Hx _]. destruct Hx.
    rewrite E. apply elem_of_app. right. by left.
  - injection E as -> _. apply NoDup_cons in Hnd as [Hx _]. destruct Hx.
    apply elem_of_app. right. by left.
  - injection E as -> E. apply NoDup_cons in Hnd as [_ Hnd].
    by destruct (IH _ _ _ _ Hnd E) as [-> ->].
Qed.

(** What follows a segment, what precedes it. *)
Definition first {K : Type} (e : K) (l : list K) : K := default e (head l).
Definition final {K : Type} (e : K) (l : list K) : K := default e (last l).

Section Links.
Context {K : Type} `{EqDecision K}.
Implicit Types (lk : K -> option (K * K)) (nx : K -> option K) (l : list K).

(** [dll lk a l b]: by the links [lk] (previous, next), the nodes of [l] form
    a doubly linked segment that starts after [a] and ends before [b]. *)
Fixpoint dll lk (a : K) (l : list K) (b : K) : Prop :=
  match l with
  | [] => True
  | p :: l' => lk p = Some (a, first b l') /\ dll lk p l' b
  end.

(** [sll nx l b]: a singly linked segment that ends before [b]. *)
Fixpoint sll nx (l : list K) (b : K) : Prop :=
  match l with
  | [] => True
  | p :: l' => nx p = Some (first b l') /\ sll nx l' b
  end.

Definition set_next lk (p n : K) : K -> option (K * K) :=
  fun x => if decide (x = p) then (fun pn => (pn.1, n)) <$> lk x else lk x.
Definition set_prev lk (p n : K) : K -> option (K * K) :=
  fun x => if decide (x = p) then (fun pn => (n, pn.2)) <$> lk x else lk x.

Lemma first_app e l1 l2 : first e (l1 ++ l2) = first (first e l2) l1.
Proof. destruct l1; done. Qed.

Lemma final_app e l1 l2 : final e (l1 ++ l2) = final (final e l1) l2.
Proof.
  unfold final. rewrite last_app. destruct (last l2); done.
Qed.

Lemma final_snoc e l p : final e (l ++ [p]) = p.
Proof. by rewrite final_app. Qed.

Lemma first_elem e l : l <> [] -> first e l ∈ l.
Proof. destruct l; [done|]. intros _. by left. Qed.

Lemma final_elem e l : l <> [] -> final e l ∈ l.
Proof.
  destruct l as [|x l _] using rev_ind; [done|]. intros _. rewrite final_snoc.
  apply elem_of_app. right. by left.
Qed.

Lemma dll_app lk l1 : forall a l2 b,
  dll lk a (l1 ++ l2) b <-> dll lk a l1 (first b l2) /\ dll lk (final a l1) l2 b.
Proof.
  induction l1 as [|p l1 IH]; intros a l2 b; simpl.
  - tauto.
  - rewrite IH, first_app. replace (final a (p :: l1)) with (final p l1); [tauto|].
    unfold final. destruct l1; [done|]. rewrite !last_cons_cons. simpl.
    destruct (last (k :: l1)) eqn:E; [done|]. by apply last_None in E.
Qed.

Lemma dll_ext lk lk' l : forall a b,
  dll lk a l b -> (forall p, p ∈ l -> lk' p = lk p) -> dll lk' a l b.
Proof.
  induction l as [|p l IH]; intros a b H E; simpl in *; [done|].
  destruct H as [H1 H2]. split.
  - rewrite E; [done|by left].
  - apply IH; [done|]. intros q Hq. apply E. by right.
Qed.

Lemma dll_lookup lk l : forall a b l1 p l2,
  dll lk a l b -> l = l1 ++ p :: l2 -> lk p = Some (final a l1, first b l2).
Proof.
  intros a b l1 p l2 H ->. apply dll_app in H as [_ H]. simpl in H. apply H.
Qed.

Lemma dll_defined lk l a b p : dll lk a l b -> p ∈ l -> is_Some (lk p).
Proof.
  intros H Hp. apply list_elem_of_split in Hp as (l1 & l2 & ->).
  eexists. by eapply dll_lookup.
Qed.

(** The next pointer of the last node, the previous pointer of the first. *)
Lemma dll_set_next lk l p a b b' :
  NoDup (l ++ [p]) -> dll lk a (l ++ [p]) b -> dll (set_next lk p b') a (l ++ [p]) b'.
Proof.
  intros Hnd H. apply dll_app in H as [H1 H2]. apply dll_app.
  apply NoDup_app in Hnd as (_ & Hd & _). split.
  - eapply dll_ext; [exact H1|]. intros q Hq. unfold set_next.
    rewrite decide_False; [done|]. intros ->. apply (Hd p Hq). by left.
  - simpl in *. destruct H2 as [H2 _]. split; [|done].
    unfold set_next. rewrite decide_True by done. rewrite H2. done.
Qed.

Lemma dll_set_prev lk l p a a' b :
  NoDup (p :: l) -> dll lk a (p :: l) b -> dll (set_prev lk p a') a' (p :: l) b.
Proof.
  intros Hnd [H1 H2]. apply NoDup_cons in Hnd as [Hp _]. split.
  - unfold set_prev. rewrite decide_True by done. rewrite H1. done.
  - eapply dll_ext; [exact H2|]. intros q Hq. unfold set_prev.
    rewrite decide_False; [done|]. by intros ->.
Qed.

Definition relink_next lk (l : list K) (n : K) : K -> option (K * K) :=
  match last l with Some p => set_next lk p n | None => lk end.
Definition relink_prev lk (l : list K) (n : K) : K -> option (K * K) :=
  match head l with Some p => set_prev lk p n | None => lk end.

Lemma dll_relink_next lk l a b b' :
  NoDup l -> dll lk a l b -> dll (relink_next lk l b') a l b'.
Proof.
  destruct l as [|p l _] using rev_ind; [done|]. intros Hnd H.
  unfold relink_next. rewrite last_snoc. by eapply dll_set_next.
Qed.

Lemma dll_relink_prev lk l a a' b :
  NoDup l -> dll lk a l b -> dll (relink_prev lk l a') a' l b.
Proof. destruct l as [|p l]; [done|]. apply dll_set_prev. Qed.

Lemma relink_next_other lk l n q : q ∉ l -> relink_next lk l n q = lk q.
Proof.
  intros Hq. unfold relink_next. destruct (last l) as [p|] eqn:E; [|done].
  unfold set_next. rewrite decide_False; [done|]. intros ->.
  apply Hq. by apply last_Some_elem_of.
Qed.

Lemma relink_prev_other lk l n q : q ∉ l -> relink_prev lk l n q = lk q.
Proof.
  intros Hq. unfold relink_prev. destruct (head l) as [p|] eqn:E; [|done].
  unfold set_prev. rewrite decide_False; [done|]. intros ->.
  apply Hq. by apply head_Some_elem_of.
Qed.

(** Unlinking [p]: its neighbours are linked to each other. *)
Lemma dll_remove lk l1 p l2 a b :
  NoDup (l1 ++ p :: l2) -> dll lk a (l1 ++ p :: l2) b ->
  dll (relink_prev (relink_next lk l1 (first b l2)) l2 (final a l1)) a (l1 ++ l2) b.
Proof.
  intros Hnd H. apply dll_app in H as [H1 [_ H2]]. apply dll_app.
  apply NoDup_app in Hnd as (Hn1 & Hd & Hn2). apply NoDup_cons in Hn2 as [_ Hn2].
  split.
  - eapply dll_ext; [by eapply dll_relink_next|]. intros q Hq.
    apply relink_prev_other. intros Hq2. apply (Hd q Hq). by right.
  - apply (dll_relink_prev _ _ p); [done|]. eapply dll_ext; [exact H2|].
    intros q Hq. apply relink_next_other. intros Hq1. apply (Hd q Hq1). by right.
Qed.

(** Linking [p] after the last node. *)
Lemma dll_snoc lk l p a b b' :
  NoDup (l ++ [p]) -> dll lk a l b -> lk p = Some (final a l, b') ->
  dll (relink_next lk l p) a (l ++ [p]) b'.
Proof.
  intros Hnd H Hp. apply NoDup_app in Hnd as (Hn & Hd & _).
  assert (p ∉ l) as Hpl by (intros Hq; apply (Hd p Hq); by left).
  apply dll_app. split; [by eapply dll_relink_next|].
  simpl. split; [|done]. by rewrite relink_next_other.
Qed.

(** Linking [q] after the node [p]. *)
Lemma dll_insert_after lk l1 p q l2 a b :
  NoDup (l1 ++ p :: q :: l2) -> dll lk a (l1 ++ p :: l2) b -> lk q = Some (p, first b l2) ->
  dll (set_next (relink_prev lk l2 q) p q) a (l1 ++ p :: q :: l2) b.
Proof.
  intros (Hn1 & Hd & [Hp [Hq Hn2]%NoDup_cons]%NoDup_cons)%NoDup_app H Hlk.
  apply dll_app in H as [H1 [Hp0 H2]].
  assert (forall x, x ∉ l2 -> x <> p -> set_next (relink_prev lk l2 q) p q x = lk x) as Hoth.
  { intros x Hx2 Hxp. unfold set_next. rewrite decide_False by done. by apply relink_prev_other. }
  assert (p <> q) as Hpq by (intros ->; apply Hp; by left).
  apply dll_app. split; [|split; [|split]].
  - eapply dll_ext; [exact H1|]. intros x Hx. apply Hoth.
    + intros Hx2. apply (Hd x Hx). by do 2 right.
    + intros ->. apply (Hd p Hx). by left.
  - unfold set_next. rewrite decide_True by done. rewrite relink_prev_other.
    + by rewrite Hp0.
    + intros Hx. apply Hp. by right.
  - rewrite Hoth; [done|done|by apply not_eq_sym].
  - eapply dll_ext; [by eapply dll_relink_prev|]. intros x Hx. unfold set_next.
    rewrite decide_False; [done|]. intros ->. apply Hp. by right.
Qed.

(** Linking [p] before the first node. *)
Lemma dll_cons lk l p a a' b :
  p ∉ l -> NoDup l -> dll lk a' l b -> lk p = Some (a, first b l) ->
  dll (relink_prev lk l p) a (p :: l) b.
Proof.
  intros Hpl Hn H Hp. simpl. split.
  - by rewrite relink_prev_other.
  - by eapply dll_relink_prev.
Qed.

Lemma sll_app nx l1 : forall l2 b,
  sll nx (l1 ++ l2) b <-> sll nx l1 (first b l2) /\ sll nx l2 b.
Proof.
  induction l1 as [|p l1 IH]; intros l2 b; simpl; [tauto|].
  rewrite IH, first_app. tauto.
Qed.

Lemma sll_ext nx nx' l : forall b,
  sll nx l b -> (forall p, p ∈ l -> nx' p = nx p) -> sll nx' l b.
Proof.
  induction l as [|p l IH]; intros b H E; simpl in *; [done|].
  destruct H as [H1 H2]. split.
  - rewrite E; [done|by left].
  - apply IH; [done|]. intros q Hq. apply E. by right.
Qed.

#[export] Instance dll_proper : Proper (pointwise_relation K eq ==> eq ==> eq ==> eq ==> iff) dll.
Proof.
  intros lk lk' E a ? <- l ? <- b ? <-.
  split; intros H; (eapply dll_ext; [exact H|]); intros; by rewrite E.
Qed.
#[export] Instance set_next_proper :
  Proper (pointwise_relation K eq ==> eq ==> eq ==> pointwise_relation K eq) set_next.
Proof. intros lk lk' E p ? <- n ? <- x. unfold set_next. by rewrite E. Qed.
#[export] Instance set_prev_proper :
  Proper (pointwise_relation K eq ==> eq ==> eq ==> pointwise_relation K eq) set_prev.
Proof. intros lk lk' E p ? <- n ? <- x. unfold set_prev. by rewrite E. Qed.

#[export] Instance relink_next_proper :
  Proper (pointwise_relation K eq ==> eq ==> eq ==> pointwise_relation K eq) relink_next.
Proof.
  intros lk lk' E l ? <- n ? <- x. unfold relink_next. destruct (last l); [by apply set_next_proper|done].
Qed.
#[export] Instance relink_prev_proper :
  Proper (pointwise_relation K eq ==> eq ==> eq ==> pointwise_relation K eq) relink_prev.
Proof.
  intros lk lk' E l ? <- n ? <- x. unfold relink_prev. destruct (head l); [by apply set_prev_proper|done].
Qed.

(** A circular doubly linked list through the sentinel [s]. *)
Definition cdll lk (s : K) (l : list K) : Prop :=
  NoDup (s :: l) /\ dll lk (final s l) (s :: l) s.

#[export] Instance cdll_proper : Proper (pointwise_relation K eq ==> eq ==> eq ==> iff) cdll.
Proof. intros lk lk' E s ? <- l ? <-. unfold cdll. by rewrite E. Qed.

Lemma last_cons_final s l : last (s :: l) = Some (final s l).
Proof.
  unfold final. destruct l as [|x l _] using rev_ind; [done|].
  rewrite app_comm_cons, !last_snoc. done.
Qed.

Lemma cdll_nil lk s : lk s = Some (s, s) -> cdll lk s [].
Proof. intros H. split; [apply NoDup_singleton|]. by split. Qed.

Lemma cdll_sentinel lk s l : cdll lk s l -> lk s = Some (final s l, first s l).
Proof. intros [_ [H _]]. done. Qed.

Lemma cdll_first_defined lk s l : cdll lk s l -> is_Some (lk (first s l)).
Proof.
  intros [_ H]. eapply dll_defined; [exact H|]. destruct l; [by left|right; by left].
Qed.

Lemma cdll_lookup lk s l1 p l2 :
  cdll lk s (l1 ++ p :: l2) -> lk p = Some (final s l1, first s l2).
Proof.
  intros [_ H].
  rewrite (dll_lookup lk (s :: l1 ++ p :: l2) _ s (s :: l1) p l2 H eq_refl).
  f_equal. f_equal. unfold final at 1. by rewrite last_cons_final.
Qed.

Lemma cdll_remove lk s l1 p l2 :
  cdll lk s (l1 ++ p :: l2) ->
  cdll (set_prev (set_next lk (final s l1) (first s l2)) (first s l2) (final s l1)) s (l1 ++ l2).
Proof.
  intros [Hnd H]. rewrite app_comm_cons in H, Hnd.
  pose proof Hnd as (Hn1 & Hd & [_ Hn2]%NoDup_cons)%NoDup_app.
  split.
  { rewrite app_comm_cons. apply NoDup_app. split_and!; [done| |done].
    intros x Hx Hx2. apply (Hd x Hx). by right. }
  apply dll_app in H as [H1 [_ H2]]. rewrite app_comm_cons. apply dll_app.
  assert (final (final s (l1 ++ l2)) (s :: l1) = final s l1) as ->.
  { unfold final at 1. by rewrite last_cons_final. }
  set (lk1 := set_next lk (final s l1) (first s l2)).
  assert (dll lk1 (final s (l1 ++ p :: l2)) (s :: l1) (first s l2)) as H1'.
  { pose proof (dll_relink_next _ _ _ _ (first s l2) Hn1 H1) as R.
    unfold relink_next in R. by rewrite last_cons_final in R. }
  assert (dll lk1 p l2 s) as H2'.
  { eapply dll_ext; [exact H2|]. intros q Hq. unfold lk1, set_next.
    rewrite decide_False; [done|]. intros ->. apply (Hd (final s l1)); [|by right].
    apply last_Some_elem_of. apply last_cons_final. }
  destruct l2 as [|q l2].
  - split; [|done]. rewrite app_nil_r. by eapply dll_set_prev.
  - split.
    + eapply dll_ext.
      * replace (final s (l1 ++ q :: l2)) with (final s (l1 ++ p :: q :: l2)); [exact H1'|].
        rewrite !final_app. done.
      * intros x Hx. unfold set_prev. rewrite decide_False; [done|]. intros ->.
        apply (Hd _ Hx). right. by left.
    + by eapply dll_set_prev.
Qed.

Lemma cdll_insert lk s p l :
  cdll lk s l -> p ∉ s :: l -> lk p = Some (s, first s l) ->
  cdll (set_next (set_prev lk (first s l) p) s p) s (p :: l).
Proof.
  intros [Hnd H] Hp Hlk. apply not_elem_of_cons in Hp as [Hps Hpl].
  pose proof Hnd as [Hs Hn]%NoDup_cons. destruct H as [Hs0 H].
  assert (forall n, set_next n s p p = n p) as Esn.
  { intros n. unfold set_next. by rewrite decide_False. }
  assert (first s l <> p) as Hfp.
  { intros E. destruct l as [|q l]; simpl in E; [done|]. apply Hpl. rewrite <- E. by left. }
  split.
  { apply NoDup_cons. split; [|by apply NoDup_cons]. intros [|]%elem_of_cons; done. }
  simpl. split_and!.
  - unfold set_next. rewrite decide_True by done. unfold set_prev. rewrite Hs0.
    destruct l as [|q l]; simpl.
    + by rewrite decide_True.
    + rewrite decide_False; [done|]. unfold first. simpl. intros E. apply Hs. rewrite E. by left.
  - rewrite Esn. unfold set_prev. rewrite decide_False by done. done.
  - eapply dll_ext; [by eapply dll_relink_prev|].
    intros q Hq. unfold relink_prev, set_next. rewrite decide_False by (by intros ->).
    destruct l as [|x l]; [by apply not_elem_of_nil in Hq|]. done.
Qed.

(** A node of a circular list: its neighbours are nodes and are not the node itself. *)
Lemma cdll_neighbours lk s l1 p l2 :
  cdll lk s (l1 ++ p :: l2) ->
  is_Some (lk (final s l1)) /\ is_Some (lk (first s l2)) /\
  final s l1 <> p /\ first s l2 <> p /\ p ∉ s :: l1 ++ l2.
Proof.
  intros [Hnd Hd].
  assert (final s l1 ∈ s :: l1) as Hf1 by (apply last_Some_elem_of, last_cons_final).
  assert (first s l2 ∈ s :: l2) as Hf2 by (destruct l2; [by left|right; by left]).
  assert (p ∉ s :: l1 ++ l2) as Hpn.
  { intros Hin. apply NoDup_cons in Hnd as [Hs Hnd].
    apply elem_of_cons in Hin as [->|Hin]; [apply Hs, elem_of_app; right; by left|].
    apply NoDup_app in Hnd as (_ & Hdis & [Hpl _]%NoDup_cons).
    apply elem_of_app in Hin as [Hin|Hin]; [|done]. apply (Hdis _ Hin). by left. }
  assert (forall x, x ∈ s :: l1 -> x ∈ s :: l1 ++ l2) as S1.
  { intros x. rewrite !elem_of_cons, elem_of_app. tauto. }
  assert (forall x, x ∈ s :: l2 -> x ∈ s :: l1 ++ l2) as S2.
  { intros x. rewrite !elem_of_cons, elem_of_app. tauto. }
  assert (forall x, x ∈ s :: l1 ++ l2 -> is_Some (lk x)) as Hdef.
  { intros x Hx. eapply dll_defined; [exact Hd|].
    rewrite !elem_of_cons, elem_of_app, elem_of_cons in *. tauto. }
  split_and!; [auto|auto|..|done]; intros E; apply Hpn; rewrite <- E; auto.
Qed.

(** The nodes of a list that are all in a finite store are no more than the store holds. *)
Lemma length_le_size {V} `{Countable K} (m : gmap K V) l :
  NoDup l -> (forall p, p ∈ l -> is_Some (m !! p)) -> (length l <= size m)%nat.
Proof.
  intros Hnd Hin. rewrite <- size_dom.
  rewrite <- (size_list_to_set (C := gset K) l Hnd).
  apply subseteq_size. intros p Hp. apply elem_of_dom, Hin. by apply elem_of_list_to_set in Hp.
Qed.
End Links.

#[global] Arguments first : simpl nomatch.
#[global] Arguments final : simpl nomatch.
