(* ===== verification/Ring.v ===== *)
(** * Ring buffers

    The keyboard (256 characters) and every pipe (4096 bytes) keep a circular
    buffer as an array, a read index, a write index and a count.  [ring] is what
    such a buffer holds, oldest first. *)
From S2P Require Import Prelude.

Section Ring.
Context (N : Z) (HN : 0 < N).
Implicit Types (buf : gmap Z Z) (r w n c : Z).

Definition cell_at buf i : Z := default 0 (buf !! i).
Definition ring buf r n : list Z :=
  (fun i => cell_at buf ((r + Z.of_nat i) mod N)) <$> seq 0 (Z.to_nat n).

(** The indices of a buffer that holds [n] characters. *)
Definition ring_wf r w n : Prop := 0 <= r < N /\ 0 <= n <= N /\ w = (r + n) mod N.

Lemma ring_length buf r n : length (ring buf r n) = Z.to_nat n.
Proof. unfold ring. by rewrite length_fmap, length_seq. Qed.

Lemma ring_push buf r w n c :
  ring_wf r w n -> n < N ->
  ring_wf r ((w + 1) mod N) (n + 1) /\ ring (<[w := c]> buf) r (n + 1) = ring buf r n ++ [c].
Proof.
  intros (Hr & Hn & ->) Hlt. split.
  { split; [done|]. split; [lia|]. rewrite Z.add_mod_idemp_l by lia. f_equal. lia. }
  unfold ring. replace (Z.to_nat (n + 1)) with (S (Z.to_nat n)) by lia.
  rewrite seq_S, fmap_app. simpl. f_equal.
  - apply list_fmap_ext. intros k i Hi. apply lookup_seq in Hi as [-> Hk]. unfold cell_at.
    rewrite lookup_insert_ne; [done|]. intros E.
    rewrite !(Z.mod_eq _ N) in E by lia.
    assert (N * ((r + n) / N - (r + Z.of_nat (0 + k)) / N) = n - Z.of_nat (0 + k)) as E' by lia.
    set (q := (r + n) / N - (r + Z.of_nat (0 + k)) / N) in *.
    assert (q <= 0 \/ 1 <= q) as [|] by lia; nia.
  - f_equal. unfold cell_at. rewrite Z2Nat.id by lia. by rewrite lookup_insert_eq.
Qed.

Lemma ring_pop buf r w n :
  ring_wf r w n -> 0 < n ->
  ring_wf ((r + 1) mod N) w (n - 1) /\ ring buf r n = cell_at buf r :: ring buf ((r + 1) mod N) (n - 1).
Proof.
  intros (Hr & Hn & ->) Hlt. split.
  { split; [apply Z.mod_pos_bound; lia|]. split; [lia|]. rewrite Z.add_mod_idemp_l by lia. f_equal. lia. }
  unfold ring. replace (Z.to_nat n) with (S (Z.to_nat (n - 1))) by lia. cbn [seq]. rewrite fmap_cons. f_equal.
  - rewrite Z.add_0_r. by rewrite Z.mod_small.
  - rewrite <- fmap_S_seq, <- list_fmap_compose. apply list_fmap_ext. intros k i _. unfold compose.
    rewrite Z.add_mod_idemp_l by lia. do 2 f_equal. lia.
Qed.

Lemma ring_empty buf r : ring buf r 0 = [].
Proof. done. Qed.
End Ring.
