(* ===== verification/CLib.v ===== *)
(** * Memory and the C library of the kernel (src/Kernel/lib/lib.c)

    Physical memory is a map from addresses to bytes; a cell that was never
    written reads as 0.  Addresses do not wrap. *)
From S2P Require Import Prelude.

Abbreviation memory := (gmap Z Z).

Definition load8 (m : memory) (a : Z) : Z := default 0 (m !! a).
Definition store8 (a v : Z) (m : memory) : memory := <[a := u8 v]> m.

(** Little-endian words of [n] bytes. *)
Fixpoint load_le (n : nat) (m : memory) (a : Z) : Z :=
  match n with O => 0 | S n' => load8 m a + 256 * load_le n' m (a + 1) end.
Fixpoint store_le (n : nat) (a v : Z) (m : memory) : memory :=
  match n with O => m | S n' => store_le n' (a + 1) (v / 256) (store8 a v m) end.
Definition load32 := load_le 4.
Definition load64 := load_le 8.
Definition store32 := store_le 4.
Definition store64 := store_le 8.

(** [for (i = 0; i < n; i++) body(i)] on memory. *)
Fixpoint mem_for (i : Z) (n : nat) (body : Z -> memory -> memory) (m : memory) : memory :=
  match n with O => m | S n' => mem_for (i + 1) n' body (body i m) end.

(** [while (length--) dst[length] = chr;] *)
Fixpoint memset_loop (length : nat) (dst chr : Z) (m : memory) : memory :=
  match length with O => m | S n => memset_loop n dst chr (store8 (dst + Z.of_nat n) chr m) end.
Definition memset (destination c length : Z) (m : memory) : memory :=
  memset_loop (Z.to_nat length) destination (u8 c) m.

Definition memcpy (destination source length : Z) (m : memory) : memory :=
  if (destination mod 4 =? 0) && (source mod 4 =? 0) && (length mod 4 =? 0) then
    mem_for 0 (Z.to_nat (length / 4))
      (fun i m => store32 (destination + 4 * i) (load32 m (source + 4 * i)) m) m
  else
    mem_for 0 (Z.to_nat length) (fun i m => store8 (destination + i) (load8 m (source + i)) m) m.

(** Every character of the string is a cell that was written, so the number of
    cells bounds the walk. *)
Fixpoint strlen_loop (fuel : nat) (m : memory) (s len : Z) : option Z :=
  match fuel with
  | O => None
  | S n => if load8 m (s + len) =? 0 then Some len else strlen_loop n m s (len + 1)
  end.
Definition strlen (m : memory) (s : Z) : option Z :=
  if s =? 0 then Some 0 else strlen_loop (S (size m)) m s 0.

(** A [char *] is an address, or a literal of the program. *)
Inductive cstring := CAddr (a : Z) | CLit (l : list Z).
Definition char_at (m : memory) (s : cstring) (i : Z) : Z :=
  match s with CAddr a => load8 m (a + i) | CLit l => default 0 (l !! Z.to_nat i) end.
Definition cstring_is_null (s : cstring) : bool := match s with CAddr a => a =? 0 | CLit _ => false end.

(** The [n] bytes at [a]. *)
Definition bytes_at (m : memory) (a : Z) (n : nat) : list Z := (fun i => load8 m (a + Z.of_nat i)) <$> seq 0 n.
Fixpoint store_bytes (a : Z) (l : list Z) (m : memory) : memory :=
  match l with [] => m | b :: l' => store_bytes (a + 1) l' (store8 a b m) end.

(** ** Words *)

Lemma load8_store8 m a v b : load8 (store8 a v m) b = if decide (b = a) then u8 v else load8 m b.
Proof. unfold load8, store8. rewrite lookup_insert. repeat case_decide; done. Qed.

Lemma load_le_ext n : forall m m' a,
  (forall i, a <= i < a + Z.of_nat n -> load8 m i = load8 m' i) -> load_le n m a = load_le n m' a.
Proof.
  induction n as [|n IH]; intros m m' a H; [done|]. simpl.
  rewrite (H a) by lia. rewrite (IH m m'); [done|]. intros i Hi. apply H. lia.
Qed.

Lemma load8_store_le n : forall m a v b,
  load8 (store_le n a v m) b =
    if decide (a <= b < a + Z.of_nat n) then u8 (v / 256 ^ (b - a)) else load8 m b.
Proof.
  induction n as [|n IH]; intros m a v b; simpl.
  - rewrite decide_False by lia. done.
  - rewrite IH, load8_store8. destruct (decide (a + 1 <= b < a + 1 + Z.of_nat n)).
    + rewrite decide_True by lia. f_equal.
      replace (b - a) with (Z.succ (b - (a + 1))) by lia.
      rewrite Z.pow_succ_r by lia. by rewrite Z.div_div by lia.
    + destruct (decide (b = a)) as [->|].
      * rewrite decide_True by lia. by rewrite Z.sub_diag, Z.pow_0_r, Z.div_1_r.
      * by rewrite decide_False by lia.
Qed.

Lemma load_store_le n : forall m a v, load_le n (store_le n a v m) a = v mod 256 ^ Z.of_nat n.
Proof.
  induction n as [|n IH]; intros m a v; [simpl; by rewrite Z.mod_1_r|].
  cbn [load_le store_le]. rewrite IH, load8_store_le.
  rewrite decide_False by lia. rewrite load8_store8, decide_True by done.
  rewrite Nat2Z.inj_succ, Z.pow_succ_r by lia. rewrite (Z.rem_mul_r v 256) by lia. done.
Qed.

Lemma load_store_le_ne n k m a v b :
  b + Z.of_nat n <= a \/ a + Z.of_nat k <= b -> load_le n (store_le k a v m) b = load_le n m b.
Proof.
  intros H. apply load_le_ext. intros i Hi. rewrite load8_store_le, decide_False by lia. done.
Qed.

Lemma store_bytes_snoc l : forall a c m, store_bytes a (l ++ [c]) m = store8 (a + Z.of_nat (length l)) c (store_bytes a l m).
Proof.
  induction l as [|b l IH]; intros a c m; simpl; [by rewrite Z.add_0_r|]. rewrite IH. f_equal. lia.
Qed.

Lemma load8_store_bytes l : forall a m b, (forall c, c ∈ l -> 0 <= c < 256) ->
  load8 (store_bytes a l m) b = if decide (a <= b < a + Z.of_nat (length l)) then default 0 (l !! Z.to_nat (b - a)) else load8 m b.
Proof.
  induction l as [|c l IH]; intros a m b Hl; simpl; [by rewrite decide_False by lia|].
  rewrite IH by (intros x Hx; apply Hl; by right). rewrite load8_store8.
  destruct (decide (b = a)) as [->|].
  - rewrite decide_False, decide_True by lia. rewrite Z.sub_diag. simpl. apply wrap_small. apply Hl. by left.
  - destruct (decide (a + 1 <= b < a + 1 + Z.of_nat (length l))).
    + rewrite decide_True by lia. replace (Z.to_nat (b - a)) with (S (Z.to_nat (b - (a + 1)))) by lia. done.
    + by rewrite decide_False by lia.
Qed.

Lemma bytes_at_length m a n : length (bytes_at m a n) = n.
Proof. unfold bytes_at. by rewrite length_fmap, length_seq. Qed.

Lemma bytes_at_snoc m a n : bytes_at m a (S n) = bytes_at m a n ++ [load8 m (a + Z.of_nat n)].
Proof. unfold bytes_at. by rewrite seq_S, fmap_app. Qed.

(** What was stored is read back. *)
Lemma bytes_at_store_bytes m a l : (forall c, c ∈ l -> 0 <= c < 256) -> bytes_at (store_bytes a l m) a (length l) = l.
Proof.
  intros Hl. apply list_eq. intros i. unfold bytes_at. rewrite list_lookup_fmap.
  destruct (decide (i < length l)%nat) as [Hi|Hi].
  - rewrite lookup_seq_lt by done. simpl. rewrite load8_store_bytes, decide_True by (done || lia).
    replace (Z.to_nat (a + Z.of_nat i - a)) with i by lia.
    destruct (lookup_lt_is_Some_2 l i Hi) as [c Hc]. by rewrite Hc.
  - rewrite (lookup_ge_None_2 l i) by lia. by rewrite lookup_seq_ge by lia.
Qed.

(** The cells from [a] on hold [l]. *)
Definition holds (m : memory) (a : Z) (l : list Z) : Prop :=
  forall i, (i < length l)%nat -> load8 m (a + Z.of_nat i) = default 0 (l !! i).

Lemma holds_app m a l1 l2 : holds m a (l1 ++ l2) <-> holds m a l1 /\ holds m (a + Z.of_nat (length l1)) l2.
Proof.
  split.
  - intros H. split; intros i Hi.
    + rewrite (H i) by (rewrite length_app; lia). by rewrite lookup_app_l.
    + specialize (H (length l1 + i)%nat). rewrite length_app, lookup_app_r in H by lia.
      replace (length l1 + i - length l1)%nat with i in H by lia. rewrite <- H by lia. f_equal. lia.
  - intros [H1 H2] i Hi. rewrite length_app in Hi. destruct (decide (i < length l1)%nat).
    + rewrite lookup_app_l by done. by apply H1.
    + rewrite lookup_app_r by lia. rewrite <- H2 by lia. f_equal. lia.
Qed.

Lemma holds_bytes_at m a l : holds m a l -> bytes_at m a (length l) = l.
Proof.
  intros H. apply list_eq. intros i. unfold bytes_at. rewrite list_lookup_fmap.
  destruct (decide (i < length l)%nat) as [Hi|Hi].
  - rewrite lookup_seq_lt by done. simpl. rewrite H by done. destruct (lookup_lt_is_Some_2 l i Hi) as [c ->]. done.
  - rewrite (lookup_ge_None_2 l i) by lia. by rewrite lookup_seq_ge by lia.
Qed.

Lemma holds_ext m m' a l : holds m a l -> (forall b, a <= b < a + Z.of_nat (length l) -> load8 m' b = load8 m b) -> holds m' a l.
Proof. intros H E i Hi. rewrite E by lia. by apply H. Qed.

Lemma holds_store_bytes m a l : (forall c, c ∈ l -> 0 <= c < 256) -> holds (store_bytes a l m) a l.
Proof.
  intros Hl i Hi. rewrite load8_store_bytes, decide_True by (done || lia). do 2 f_equal. lia.
Qed.

(** ** Loops *)

Lemma mem_for_step n : forall i body m, mem_for i (S n) body m = body (i + Z.of_nat n) (mem_for i n body m).
Proof.
  induction n as [|n IH]; intros i body m; [simpl; by rewrite Z.add_0_r|].
  change (mem_for i (S (S n)) body m) with (mem_for (i + 1) (S n) body (body i m)).
  rewrite IH. replace (i + 1 + Z.of_nat n) with (i + Z.of_nat (S n)) by lia. done.
Qed.

Lemma memset_loop_spec n : forall dst c m b,
  load8 (memset_loop n dst c m) b = if decide (dst <= b < dst + Z.of_nat n) then u8 c else load8 m b.
Proof.
  induction n as [|n IH]; intros dst c m b; simpl.
  - by rewrite decide_False by lia.
  - rewrite IH, load8_store8. destruct (decide (dst <= b < dst + Z.of_nat n)).
    + by rewrite decide_True by lia.
    + destruct (decide (b = dst + Z.of_nat n)) as [->|].
      * by rewrite decide_True by lia.
      * by rewrite decide_False by lia.
Qed.

(** Copying forward between regions that do not overlap. *)
Definition is_bytes (m : memory) : Prop := forall a, 0 <= load8 m a < 256.

Lemma copy_bytes_spec n : forall d s m b,
  is_bytes m -> d + Z.of_nat n <= s \/ s + Z.of_nat n <= d ->
  load8 (mem_for 0 n (fun i m => store8 (d + i) (load8 m (s + i)) m) m) b =
    if decide (d <= b < d + Z.of_nat n) then load8 m (s + (b - d)) else load8 m b.
Proof.
  induction n as [|n IH]; intros d s m b Hm Hd.
  - simpl. by rewrite decide_False by lia.
  - rewrite mem_for_step, load8_store8, !IH by (done || lia). rewrite Z.add_0_l.
    rewrite (decide_False (P := d <= s + Z.of_nat n < d + Z.of_nat n)) by lia.
    rewrite wrap_small by apply Hm. destruct (decide (b = d + Z.of_nat n)) as [->|].
    + rewrite decide_True by lia. f_equal. lia.
    + destruct (decide (d <= b < d + Z.of_nat n)); [by rewrite decide_True by lia|by rewrite decide_False by lia].
Qed.

Lemma load_le_byte n : forall m a i, is_bytes m -> 0 <= i < Z.of_nat n ->
  u8 (load_le n m a / 256 ^ i) = load8 m (a + i).
Proof.
  induction n as [|n IH]; intros m a i Hm Hi; [lia|]. cbn [load_le].
  pose proof (Hm a) as Ha. destruct (decide (i = 0)) as [->|].
  - rewrite Z.pow_0_r, Z.div_1_r, Z.add_0_r. unfold wrap. change (2 ^ 8) with 256.
    rewrite Z.mul_comm, Z.mod_add by lia. by apply Z.mod_small.
  - replace i with (Z.succ (i - 1)) at 1 by lia. rewrite Z.pow_succ_r, <- Z.div_div by lia.
    rewrite Z.mul_comm, Z.div_add by lia. rewrite (Z.div_small (load8 m a)), Z.add_0_l by done.
    rewrite IH by (done || lia). f_equal. lia.
Qed.

Lemma copy_words_spec n : forall d s m b,
  is_bytes m -> d + 4 * Z.of_nat n <= s \/ s + 4 * Z.of_nat n <= d ->
  load8 (mem_for 0 n (fun i m => store32 (d + 4 * i) (load32 m (s + 4 * i)) m) m) b =
    if decide (d <= b < d + 4 * Z.of_nat n) then load8 m (s + (b - d)) else load8 m b.
Proof.
  induction n as [|n IH]; intros d s m b Hm Hd.
  - simpl. by rewrite decide_False by lia.
  - rewrite mem_for_step. unfold store32 at 1. rewrite load8_store_le, Z.add_0_l.
    assert (is_bytes (mem_for 0 n (fun i m => store32 (d + 4 * i) (load32 m (s + 4 * i)) m) m)) as Hm'.
    { intros a. rewrite IH by (done || lia). case_decide; apply Hm. }
    change (Z.of_nat 4) with 4.
    destruct (decide (d + 4 * Z.of_nat n <= b < d + 4 * Z.of_nat n + 4)).
    + rewrite decide_True by lia. unfold load32. rewrite load_le_byte by (done || lia).
      rewrite IH by (done || lia). rewrite decide_False by lia. f_equal. lia.
    + rewrite IH by (done || lia).
      destruct (decide (d <= b < d + 4 * Z.of_nat n)); [by rewrite decide_True by lia|by rewrite decide_False by lia].
Qed.

Lemma memcpy_spec d s n m b :
  is_bytes m -> 0 <= n -> d + n <= s \/ s + n <= d ->
  load8 (memcpy d s n m) b = if decide (d <= b < d + n) then load8 m (s + (b - d)) else load8 m b.
Proof.
  intros Hm Hn Hd. unfold memcpy. destruct (_ && _) eqn:E.
  - apply andb_true_iff in E as [_ E]. apply Z.eqb_eq in E.
    rewrite copy_words_spec by (done || (rewrite Z2Nat.id by dlia; dlia)).
    rewrite Z2Nat.id by dlia. replace (4 * (n / 4)) with n by dlia. done.
  - rewrite copy_bytes_spec by (done || (rewrite Z2Nat.id by lia; lia)). by rewrite Z2Nat.id by lia.
Qed.

(** ** Strings *)

Lemma strlen_loop_spec fuel : forall m s len n,
  strlen_loop fuel m s len = Some n ->
  len <= n /\ load8 m (s + n) = 0 /\ forall i, len <= i < n -> load8 m (s + i) <> 0.
Proof.
  induction fuel as [|f IH]; intros m s len n H; simpl in H; [done|].
  destruct (Z.eqb_spec (load8 m (s + len)) 0) as [E|E].
  - injection H as <-. split; [done|]. split; [done|]. lia.
  - apply IH in H as (H1 & H2 & H3). split; [lia|]. split; [done|].
    intros i Hi. destruct (decide (i = len)) as [->|]; [done|]. apply H3. lia.
Qed.

Lemma strlen_loop_total fuel : forall m s len,
  (forall l : list Z, NoDup l -> (forall a, a ∈ l -> s + len <= a /\ is_Some (m !! a)) -> (length l < fuel)%nat) ->
  is_Some (strlen_loop fuel m s len).
Proof.
  induction fuel as [|f IH]; intros m s len H; simpl.
  - specialize (H [] ltac:(apply NoDup_nil_2) ltac:(by intros a ?%elem_of_nil)). simpl in H. lia.
  - destruct (Z.eqb_spec (load8 m (s + len)) 0) as [E|E]; [by eexists|].
    apply IH. intros l Hnd Hl.
    assert (length ((s + len)%Z :: l) < S f)%nat as Hlen; [|simpl in Hlen; lia].
    apply H.
    + apply NoDup_cons. split; [|done]. intros Hin. destruct (Hl _ Hin). lia.
    + intros a [->|Ha]%elem_of_cons.
      * split; [lia|]. unfold load8 in E. destruct (m !! (s + len)); [by eexists|done].
      * destruct (Hl a Ha). split; [lia|done].
Qed.

Lemma nodup_in_map m (l : list Z) :
  NoDup l -> (forall a, a ∈ l -> is_Some ((m : memory) !! a)) -> (length l <= size m)%nat.
Proof.
  intros Hnd Hl. rewrite <- size_dom. rewrite <- (size_list_to_set (C := gset Z) l Hnd).
  apply subseteq_size. intros a Ha. apply elem_of_dom, Hl. by apply elem_of_list_to_set in Ha.
Qed.

Lemma strlen_total m s : is_Some (strlen m s).
Proof.
  unfold strlen. destruct (s =? 0); [by eexists|]. apply strlen_loop_total.
  intros l Hnd Hl. pose proof (nodup_in_map m l Hnd ltac:(intros a Ha; apply (Hl a Ha))). lia.
Qed.

(** ** The properties *)

(** [memset] writes the byte to every cell of the region and nowhere else. *)
Theorem memset_fills d c n m b :
  0 <= n -> load8 (memset d c n m) b = if decide (d <= b < d + n) then u8 c else load8 m b.
Proof.
  intros Hn. unfold memset. rewrite memset_loop_spec, Z2Nat.id by done. unfold wrap. by rewrite Z.mod_mod by done.
Qed.

Lemma memset_fills_witness : load8 (memset 16 0x141 8 ∅) 20 = 0x41.
Proof. exact (memset_fills 16 0x141 8 ∅ 20 ltac:(lia)). Defined.

(** On regions that do not overlap [memcpy] copies every byte, whether it
    takes the branch that moves words or the one that moves bytes. *)
Theorem memcpy_copies d s n m b :
  is_bytes m -> 0 <= n -> d + n <= s \/ s + n <= d ->
  load8 (memcpy d s n m) b = if decide (d <= b < d + n) then load8 m (s + (b - d)) else load8 m b.
Proof. apply memcpy_spec. Qed.

Lemma memcpy_copies_witness :
  load8 (memcpy 64 16 8 (store_bytes 16 [1; 2; 3; 4; 5; 6; 7; 8] ∅)) 69 = 6.
Proof.
  rewrite (memcpy_copies 64 16 8 _ 69); [reflexivity| |lia|lia].
  intros a. cbn [store_bytes]. rewrite !load8_store8.
  repeat case_decide; vm_compute; (split; [discriminate|reflexivity]).
Defined.

(** [strlen] always returns, and returns the distance to the first null. *)
Theorem strlen_first_null m s :
  s <> 0 -> exists n, strlen m s = Some n /\ 0 <= n /\ load8 m (s + n) = 0 /\
    forall i, 0 <= i < n -> load8 m (s + i) <> 0.
Proof.
  intros Hs. destruct (strlen_total m s) as [n E]. exists n. split; [done|].
  unfold strlen in E. apply Z.eqb_neq in Hs. rewrite Hs in E. by apply strlen_loop_spec in E.
Qed.

Lemma strlen_first_null_witness :
  exists n, strlen (store_bytes 16 [104; 105] ∅) 16 = Some n /\ 0 <= n /\
    load8 (store_bytes 16 [104; 105] ∅) (16 + n) = 0 /\
    forall i, 0 <= i < n -> load8 (store_bytes 16 [104; 105] ∅) (16 + i) <> 0.
Proof. exact (strlen_first_null (store_bytes 16 [104; 105] ∅) 16 ltac:(done)). Defined.
