(* ===== verification/MmInterface.v ===== *)
(** * What a memory manager promises to the rest of the kernel

    The kernel is linked with one of two managers, [mm_simple.c] or
    [mm_buddy.c].  The components that allocate are proved against this
    interface; [MmSimpleTheorems] and [MmBuddyTheorems] discharge it. *)
From S2P Require Import Prelude.

(** [mm_stats_t] of include/mm.h, in the order of its fields. *)
Record mm_stats_t := mk_mm_stats {
  total_bytes : Z; used_bytes : Z; free_bytes : Z; largest_free_block : Z;
  allocations : Z; frees : Z; failed_allocations : Z }.

(** The functions of include/mm.h the other parts call. *)
Class MemManager (st : Type) := {
  malloc : Z -> M st Z;
  mfree : Z -> M st unit;
  mm_init_heap : M st unit;
  mm_stats : M st mm_stats_t;
  mm_manager_name : list Z;
}.

(** [mm_live s live]: [s] is sound and [live] maps every payload in the hands of
    a client to its capacity in bytes. *)
Class MemManagerLaws (st : Type) `{MemManager st} := {
  mm_live : st -> gmap Z Z -> Prop;
  live_bounds s live p n :
    mm_live s live -> live !! p = Some n -> 0 < p /\ 0 < n /\ p + n < 2 ^ 63;
  live_disjoint s live p n q m :
    mm_live s live -> live !! p = Some n -> live !! q = Some m -> p <> q -> p + n <= q \/ q + m <= p;
  malloc_law s live n :
    mm_live s live -> 0 < n <= 2 ^ 62 ->
    runs (malloc n) s (fun p s' =>
      p = 0 /\ mm_live s' live \/
      exists m, n <= m /\ p <> 0 /\ live !! p = None /\ mm_live s' (<[p := m]> live));
  mfree_law s live p n :
    mm_live s live -> live !! p = Some n -> runs (mfree p) s (fun _ s' => mm_live s' (delete p live));
  mfree_null_law s live : mm_live s live -> runs (mfree 0) s (fun _ s' => mm_live s' live);
}.

Section Clients.
Context {st : Type} `{MemManagerLaws st}.

(** Allocating twice gives two regions that do not overlap. *)
Lemma malloc_pair s live n m :
  mm_live s live -> 0 < n <= 2 ^ 62 -> 0 < m <= 2 ^ 62 ->
  runs (p ← malloc n; q ← malloc m; mret (p, q)) s (fun '(p, q) s' =>
    p = 0 \/ q = 0 \/ p + n <= q \/ q + m <= p).
Proof.
  intros Hs Hn Hm. apply runs_bind. eapply runs_mono; [by apply malloc_law|].
  intros p s1 [[-> H1]|(n' & Hn' & Hp & Hl & H1)].
  - apply runs_bind. eapply runs_mono; [by apply malloc_law|]. intros q s2 _. apply runs_ret. tauto.
  - apply runs_bind. eapply runs_mono; [by apply malloc_law|].
    intros q s2 [[-> H2]|(m' & Hm' & Hq & Hl' & H2)]; apply runs_ret; [tauto|].
    apply lookup_insert_None in Hl' as [_ Hne].
    assert (<[q := m']> (<[p := n']> live) !! p = Some n') as L1
      by (rewrite lookup_insert_ne by done; apply lookup_insert_eq).
    pose proof (live_disjoint _ _ _ _ q m' H2 L1 (lookup_insert_eq _ _ _) Hne). lia.
Qed.

(** What was allocated can be given back. *)
Lemma malloc_mfree s live n :
  mm_live s live -> 0 < n <= 2 ^ 62 ->
  runs (p ← malloc n; mfree p) s (fun _ s' => mm_live s' live).
Proof.
  intros Hs Hn. apply runs_bind. eapply runs_mono; [by apply malloc_law|].
  intros p s1 [[-> H1]|(n' & Hn' & Hp & Hl & H1)]; [by apply mfree_null_law|].
  eapply runs_mono; [eapply mfree_law; [done|apply lookup_insert_eq]|].
  intros [] s2 H2. by rewrite delete_insert_id in H2.
Qed.
End Clients.
