(* ===== verification/MmSimple.v ===== *)
(** * The first-fit memory manager (src/Kernel/mm/mm_simple.c)

    Blocks tile the heap; each starts with a [block_header] that links it to its
    physical neighbours and, while free, into a circular doubly linked free list
    through [free_list_sentinel].  Pointers to headers are [bptr]: NULL, the
    address of the sentinel (a static variable), or an address in the heap.
    A header that was absorbed by a neighbour stays in memory, as in C. *)
From S2P Require Import Prelude LinkedList MmInterface.

Definition MM_DEFAULT_HEAP_LIMIT : Z := 0x20000000.
Definition MM_PAGE_SIZE : Z := 0x1000.
Definition MM_KERNEL_STACK_PAGES : Z := 8.
Definition MM_ALIGNMENT : Z := 16.
Definition BLOCK_ALLOCATED_FLAG : Z := 1.
Definition sizeof_block_header : Z := 40.

Inductive bptr := BNull | BSentinel | BBlk (a : Z).
#[export] Instance bptr_eq_dec : EqDecision bptr.
Proof. solve_decision. Defined.

Record block_header := mk_block_header {
  size_and_flags : Z;
  prev_phys : bptr;
  next_phys : bptr;
  prev_free : bptr;
  next_free : bptr }.
Definition eta_block_header (b : block_header) :=
  mk_block_header (size_and_flags b) (prev_phys b) (next_phys b) (prev_free b) (next_free b).
#[export] Instance set_size_and_flags : Setter size_and_flags := ltac:(build_setter eta_block_header size_and_flags).
#[export] Instance set_prev_phys : Setter prev_phys := ltac:(build_setter eta_block_header prev_phys).
#[export] Instance set_next_phys : Setter next_phys := ltac:(build_setter eta_block_header next_phys).
#[export] Instance set_prev_free : Setter prev_free := ltac:(build_setter eta_block_header prev_free).
#[export] Instance set_next_free : Setter next_free := ltac:(build_setter eta_block_header next_free).

(** The static variables of the file, and the headers found in the heap. *)
Record mm := mk_mm {
  free_list_sentinel : block_header;
  heap : gmap Z block_header;
  mm_initialized_flag : Z;
  heap_capacity_bytes : Z;
  heap_used_bytes : Z;
  heap_allocation_count : Z;
  heap_free_count : Z;
  heap_failed_allocations : Z }.
Definition eta_mm (s : mm) :=
  mk_mm (free_list_sentinel s) (heap s) (mm_initialized_flag s) (heap_capacity_bytes s)
    (heap_used_bytes s) (heap_allocation_count s) (heap_free_count s) (heap_failed_allocations s).
#[export] Instance set_free_list_sentinel : Setter free_list_sentinel := ltac:(build_setter eta_mm free_list_sentinel).
#[export] Instance set_heap : Setter heap := ltac:(build_setter eta_mm heap).
#[export] Instance set_mm_initialized_flag : Setter mm_initialized_flag := ltac:(build_setter eta_mm mm_initialized_flag).
#[export] Instance set_heap_capacity_bytes : Setter heap_capacity_bytes := ltac:(build_setter eta_mm heap_capacity_bytes).
#[export] Instance set_heap_used_bytes : Setter heap_used_bytes := ltac:(build_setter eta_mm heap_used_bytes).
#[export] Instance set_heap_allocation_count : Setter heap_allocation_count := ltac:(build_setter eta_mm heap_allocation_count).
#[export] Instance set_heap_free_count : Setter heap_free_count := ltac:(build_setter eta_mm heap_free_count).
#[export] Instance set_heap_failed_allocations : Setter heap_failed_allocations := ltac:(build_setter eta_mm heap_failed_allocations).

Definition blank_header : block_header := mk_block_header 0 BNull BNull BNull BNull.
(** The state at boot: every static variable is zero. *)
Definition mm_boot : mm := mk_mm blank_header ∅ 0 0 0 0 0 0.

(** ** Access to headers *)

Definition load (p : bptr) : M mm block_header :=
  match p with
  | BNull => fault
  | BSentinel => gets free_list_sentinel
  | BBlk a => gets_opt (fun s => heap s !! a)
  end.
Definition store (p : bptr) (f : block_header -> block_header) : M mm unit :=
  match p with
  | BNull => fault
  | BSentinel => modify (fun s => s <| free_list_sentinel ::= f |>)
  | BBlk a => modify (fun s => s <| heap ::= fun h => <[a := f (default blank_header (h !! a))]> h |>)
  end.
Definition badd (p : bptr) (n : Z) : M mm bptr :=
  match p with BBlk a => mret (BBlk (u64 (a + n))) | _ => fault end.

Definition align_up (value alignment : Z) : Z :=
  Z.land (u64 (value + alignment - 1)) (bnot 64 (u64 (alignment - 1))).

Definition block_size (b : bptr) : M mm Z :=
  h ← load b; mret (Z.land (size_and_flags h) (bnot 64 BLOCK_ALLOCATED_FLAG)).
Definition block_is_allocated (b : bptr) : M mm bool :=
  h ← load b; mret (negb (Z.land (size_and_flags h) BLOCK_ALLOCATED_FLAG =? 0)).
Definition block_mark_allocated (b : bptr) : M mm unit :=
  h ← load b; store b (fun h' => h' <| size_and_flags := Z.lor (size_and_flags h) BLOCK_ALLOCATED_FLAG |>).
Definition block_mark_free (b : bptr) : M mm unit :=
  h ← load b; store b (fun h' => h' <| size_and_flags := Z.land (size_and_flags h) (bnot 64 BLOCK_ALLOCATED_FLAG) |>).

(** ** The free list *)

Definition free_list_init : M mm unit :=
  store BSentinel (fun h => h <| prev_free := BSentinel |>) ;;
  store BSentinel (fun h => h <| next_free := BSentinel |>).

Definition free_list_insert (block : bptr) : M mm unit :=
  store block (fun h => h <| prev_free := BSentinel |>) ;;
  s ← load BSentinel;
  store block (fun h => h <| next_free := next_free s |>) ;;
  s ← load BSentinel;
  store (next_free s) (fun h => h <| prev_free := block |>) ;;
  store BSentinel (fun h => h <| next_free := block |>).

Definition free_list_remove (block : bptr) : M mm unit :=
  b ← load block;
  store (prev_free b) (fun h => h <| next_free := next_free b |>) ;;
  b ← load block;
  store (next_free b) (fun h => h <| prev_free := prev_free b |>) ;;
  store block (fun h => h <| prev_free := BNull |>) ;;
  store block (fun h => h <| next_free := BNull |>).

(** The walk is bounded by the number of headers: a longer one is a cycle. *)
Definition find_first_fit_step (required_size : Z) (current : bptr) : M mm (bptr + bptr) :=
  if decide (current = BSentinel) then mret (inr BNull) else
  current_size ← block_size current;
  if current_size >=? required_size then mret (inr current) else
  h ← load current;
  mret (inl (next_free h)).
Definition find_first_fit (required_size : Z) : M mm bptr :=
  n ← gets (fun s => size (heap s));
  s ← load BSentinel;
  while_fuel (S (S n)) (find_first_fit_step required_size) (next_free s).

(** ** Splitting and coalescing *)

Definition split_block_if_possible (block : bptr) (required_size : Z) : M mm bptr :=
  total_size ← block_size block;
  let header_size := sizeof_block_header in
  let min_block_size := header_size + MM_ALIGNMENT in
  if total_size <? u64 (required_size + min_block_size) then mret block else
  let remaining_size := u64 (total_size - required_size) in
  new_block ← badd block required_size;
  store new_block (fun h => h <| size_and_flags := remaining_size |>) ;;
  store new_block (fun h => h <| prev_phys := block |>) ;;
  b ← load block;
  store new_block (fun h => h <| next_phys := next_phys b |>) ;;
  n ← load new_block;
  when (bool_decide (next_phys n <> BNull))
    (store (next_phys n) (fun h => h <| prev_phys := new_block |>)) ;;
  store block (fun h => h <| next_phys := new_block |>) ;;
  b ← load block;
  store block (fun h => h <| size_and_flags :=
    Z.lor required_size (Z.land (size_and_flags b) BLOCK_ALLOCATED_FLAG) |>) ;;
  block_mark_free new_block ;;
  store new_block (fun h => h <| prev_free := BNull |>) ;;
  store new_block (fun h => h <| next_free := BNull |>) ;;
  free_list_insert new_block ;;
  mret block.

(** [p != NULL && !block_is_allocated(p)] *)
Definition is_free_neighbour (p : bptr) : M mm bool :=
  if decide (p = BNull) then mret false else
  a ← block_is_allocated p; mret (negb a).

Definition coalesce_with_neighbors (block : bptr) : M mm bptr :=
  b ← load block;
  let prev := prev_phys b in
  let next := next_phys b in
  free_prev ← is_free_neighbour prev;
  block ← (if free_prev : bool then
      free_list_remove prev ;;
      sp ← block_size prev;
      sb ← block_size block;
      store prev (fun h => h <| size_and_flags := u64 (sp + sb) |>) ;;
      b ← load block;
      store prev (fun h => h <| next_phys := next_phys b |>) ;;
      b ← load block;
      when (bool_decide (next_phys b <> BNull))
        (store (next_phys b) (fun h => h <| prev_phys := prev |>)) ;;
      mret prev
    else mret block);
  free_next ← is_free_neighbour next;
  (if free_next : bool then
      free_list_remove next ;;
      sb ← block_size block;
      sn ← block_size next;
      store block (fun h => h <| size_and_flags := u64 (sb + sn) |>) ;;
      n ← load next;
      store block (fun h => h <| next_phys := next_phys n |>) ;;
      n ← load next;
      when (bool_decide (next_phys n <> BNull))
        (store (next_phys n) (fun h => h <| prev_phys := block |>))
    else mret tt) ;;
  mret block.

(** ** Entry points *)

Definition min_block_size : Z := sizeof_block_header + MM_ALIGNMENT.

Definition mm_reset_counters (s : mm) : mm :=
  s <| heap_used_bytes := 0 |> <| heap_allocation_count := 0 |>
    <| heap_free_count := 0 |> <| heap_failed_allocations := 0 |>.
(** The two early exits that clear every static counter. *)
Definition mm_init_abandon (s : mm) : mm :=
  mm_reset_counters (s <| mm_initialized_flag := 0 |> <| heap_capacity_bytes := 0 |>).

Definition mm_init (heap_start heap_size : Z) : M mm unit :=
  if heap_size <? min_block_size then modify mm_init_abandon else
  let aligned_start := align_up heap_start MM_ALIGNMENT in
  if aligned_start <? heap_start then modify (fun s => s <| mm_initialized_flag := 0 |>) else
  let alignment_loss := u64 (aligned_start - heap_start) in
  if alignment_loss >=? heap_size then modify (fun s => s <| mm_initialized_flag := 0 |>) else
  let usable_bytes := u64 (heap_size - alignment_loss) in
  let usable_bytes := Z.land usable_bytes (bnot 64 (MM_ALIGNMENT - 1)) in
  if usable_bytes <? min_block_size then modify mm_init_abandon else
  free_list_init ;;
  let initial_block := BBlk aligned_start in
  store initial_block (fun h => h <| size_and_flags := usable_bytes |>) ;;
  store initial_block (fun h => h <| prev_phys := BNull |>) ;;
  store initial_block (fun h => h <| next_phys := BNull |>) ;;
  block_mark_free initial_block ;;
  free_list_insert initial_block ;;
  modify (fun s => s <| heap_capacity_bytes := u64 (usable_bytes - sizeof_block_header) |>) ;;
  modify mm_reset_counters ;;
  modify (fun s => s <| mm_initialized_flag := 1 |>).

Section WithLinker.
(** [&endOfKernel]: the address the linker gives to the end of the kernel. *)
Variable endOfKernel : Z.

(** The out-parameters [start] and [size]. *)
Definition mm_default_region : Z * Z :=
  let raw_start := u64 (endOfKernel + MM_PAGE_SIZE * MM_KERNEL_STACK_PAGES) in
  let aligned_start := align_up raw_start MM_ALIGNMENT in
  let heap_limit := MM_DEFAULT_HEAP_LIMIT in
  if aligned_start >=? heap_limit then (0, 0)
  else (aligned_start, u64 (heap_limit - aligned_start)).

Definition mm_init_default : M mm unit :=
  let '(start, size) := mm_default_region in
  when (negb (start =? 0) && (size >? 0)) (mm_init start size).

(** [if (!mm_initialized_flag) { mm_init_default(); ... }]: whether the heap is usable. *)
Definition mm_ensure : M mm bool :=
  i ← gets mm_initialized_flag;
  if ctrue i then mret true else
  mm_init_default ;;
  i ← gets mm_initialized_flag;
  mret (ctrue i).

Definition required_size_for (size : Z) : Z :=
  let aligned_size := align_up size MM_ALIGNMENT in
  let required_size := u64 (aligned_size + sizeof_block_header) in
  if required_size <? min_block_size then min_block_size else required_size.

Definition mm_alloc (size : Z) : M mm Z :=
  ok ← mm_ensure;
  if negb ok then
    modify (fun s => s <| heap_failed_allocations ::= fun n => u64 (n + 1) |>) ;; mret 0
  else
  if size =? 0 then mret 0 else
  let required_size := required_size_for size in
  block ← find_first_fit required_size;
  if decide (block = BNull) then
    modify (fun s => s <| heap_failed_allocations ::= fun n => u64 (n + 1) |>) ;; mret 0
  else
  free_list_remove block ;;
  block ← split_block_if_possible block required_size;
  block_mark_allocated block ;;
  bs ← block_size block;
  let payload_size := u64 (bs - sizeof_block_header) in
  modify (fun s => s <| heap_used_bytes ::= fun n => u64 (n + payload_size) |>) ;;
  modify (fun s => if heap_used_bytes s >? heap_capacity_bytes s
                   then s <| heap_used_bytes := heap_capacity_bytes s |> else s) ;;
  modify (fun s => s <| heap_allocation_count ::= fun n => u64 (n + 1) |>) ;;
  result ← badd block sizeof_block_header;
  match result with BBlk a => mret a | _ => fault end.

Definition mm_free (ptr : Z) : M mm unit :=
  i ← gets mm_initialized_flag;
  if (ptr =? 0) || negb (ctrue i) then mret tt else
  let block := BBlk (u64 (ptr - sizeof_block_header)) in
  a ← block_is_allocated block;
  if negb a then mret tt else
  block_mark_free block ;;
  modify (fun s => s <| heap_free_count ::= fun n => u64 (n + 1) |>) ;;
  bs ← block_size block;
  let payload_size := u64 (bs - sizeof_block_header) in
  modify (fun s => s <| heap_used_bytes ::= fun n =>
    if n >=? payload_size then u64 (n - payload_size) else 0 |>) ;;
  store block (fun h => h <| prev_free := BNull |>) ;;
  store block (fun h => h <| next_free := BNull |>) ;;
  block ← coalesce_with_neighbors block;
  free_list_insert block.
End WithLinker.

Definition largest_step (p : bptr * Z) : M mm ((bptr * Z) + Z) :=
  let '(current, largest_block) := p in
  if decide (current = BSentinel) then mret (inr largest_block) else
  current_size ← block_size current;
  let largest_block := if current_size >? largest_block then current_size else largest_block in
  h ← load current;
  mret (inl (next_free h, largest_block)).

Definition mm_get_stats : M mm mm_stats_t :=
  n ← gets (fun s => size (heap s));
  s ← load BSentinel;
  largest_block ← while_fuel (S (S n)) largest_step (next_free s, 0);
  let largest_block :=
    if largest_block >=? sizeof_block_header then u64 (largest_block - sizeof_block_header) else 0 in
  gets (fun s => mk_mm_stats (heap_capacity_bytes s) (heap_used_bytes s)
    (if heap_capacity_bytes s >? heap_used_bytes s
     then u64 (heap_capacity_bytes s - heap_used_bytes s) else 0)
    largest_block (heap_allocation_count s) (heap_free_count s) (heap_failed_allocations s)).

Definition mm_is_initialized : M mm Z := gets mm_initialized_flag.
(** "simple" *)
Definition mm_get_manager_name : list Z := [115; 105; 109; 112; 108; 101].

#[export] Instance simple_manager (eok : Z) : MemManager mm := {
  malloc := mm_alloc eok;
  mfree := mm_free;
  mm_init_heap := mm_init_default eok;
  mm_stats := mm_get_stats;
  mm_manager_name := mm_get_manager_name }.
