(* ===== verification/MmSimpleFacts.v ===== *)
(** * Correctness of the first-fit memory manager

    The heap is read through three views of its headers: sizes ([sv]), physical
    links ([pv]) and free-list links ([fv]); every store changes one of them.
    [heap_wf] says that the views describe a tiling of the heap by blocks. *)
From S2P Require Import Prelude LinkedList MmSimple.

(** ** Views *)

Definition node (s : mm) (p : bptr) : option block_header :=
  match p with BNull => None | BSentinel => Some (free_list_sentinel s) | BBlk a => heap s !! a end.
Definition sv (s : mm) (p : bptr) : option Z := size_and_flags <$> node s p.
Definition pv (s : mm) (p : bptr) : option (bptr * bptr) := (fun b => (prev_phys b, next_phys b)) <$> node s p.
Definition fv (s : mm) (p : bptr) : option (bptr * bptr) := (fun b => (prev_free b, next_free b)) <$> node s p.
Definition counters (s : mm) :=
  (mm_initialized_flag s, heap_capacity_bytes s, heap_used_bytes s,
   heap_allocation_count s, heap_free_count s, heap_failed_allocations s).

Definition upd (s : mm) (p : bptr) (f : block_header -> block_header) : mm :=
  match p with
  | BNull => s
  | BSentinel => s <| free_list_sentinel ::= f |>
  | BBlk a => s <| heap ::= fun h => <[a := f (default blank_header (h !! a))]> h |>
  end.

Abbreviation same := (pointwise_relation bptr eq).

(** What the free-list operations leave alone, and what the others do. *)
Definition frame_free (s s' : mm) : Prop :=
  same (sv s') (sv s) /\ same (pv s') (pv s) /\ counters s' = counters s.
Definition frame_phys (s s' : mm) : Prop :=
  same (fv s') (fv s) /\ counters s' = counters s.

(** ** The tiling *)

Record tile := mk_tile { t_addr : Z; t_size : Z; t_used : bool }.
Definition tptr (t : tile) : bptr := BBlk (t_addr t).
Definition tflags (t : tile) : Z := t_size t + cbool (t_used t).
Definition tpayload (t : tile) : Z := t_size t - sizeof_block_header.

Fixpoint contiguous (a : Z) (ts : list tile) (e : Z) : Prop :=
  match ts with
  | [] => a = e
  | t :: ts' => t_addr t = a /\ contiguous (a + t_size t) ts' e
  end.
(** No two free blocks touch. *)
Fixpoint coalesced (ts : list tile) : Prop :=
  match ts with
  | t :: ((u :: _) as ts') => (t_used t || t_used u = true) /\ coalesced ts'
  | _ => True
  end.
Definition free_addrs (ts : list tile) : list Z := t_addr <$> filter (fun t => t_used t = false) ts.
Definition used_bytes_of (ts : list tile) : Z :=
  foldr (fun t n => (if t_used t then tpayload t else 0) + n) 0 ts.

(** The tiles are what the headers in memory describe. *)
Record tiles_ok (s : mm) (base limit : Z) (ts : list tile) : Prop := {
  ok_range : 0 < base /\ limit < 2 ^ 63;
  ok_tiling : contiguous base ts limit;
  ok_sizes : Forall (fun t => min_block_size <= t_size t /\ t_size t mod 8 = 0) ts;
  ok_flags : Forall (fun t => sv s (tptr t) = Some (tflags t)) ts;
  ok_phys : dll (pv s) BNull (tptr <$> ts) BNull }.

(** The invariant of an initialised heap: [ts] are its blocks by address, [fl]
    the free ones in the order of the free list. *)
Record heap_wf (s : mm) (base limit : Z) (ts : list tile) (fl : list Z) : Prop := {
  wf_init : mm_initialized_flag s = 1;
  wf_tiles : tiles_ok s base limit ts;
  wf_free : cdll (fv s) BSentinel (BBlk <$> fl);
  wf_fl : fl ≡ₚ free_addrs ts;
  wf_coalesced : coalesced ts;
  wf_capacity : heap_capacity_bytes s = limit - base - sizeof_block_header;
  wf_used : heap_used_bytes s = used_bytes_of ts }.

(** ** The abstract allocator

    First fit in the order of the free list; the block found is carved; a freed
    block is joined with its free neighbours. *)

Definition tile_size (ts : list tile) (a : Z) : Z :=
  foldr (fun t n => if t_addr t =? a then t_size t else n) 0 ts.
Fixpoint first_fit (size_of : Z -> Z) (req : Z) (fl : list Z) : option Z :=
  match fl with
  | [] => None
  | a :: fl' => if size_of a >=? req then Some a else first_fit size_of req fl'
  end.
Definition carve_tile (a req : Z) (t : tile) : list tile :=
  if t_addr t =? a then
    if t_size t <? req + min_block_size then [mk_tile a (t_size t) true]
    else [mk_tile a req true; mk_tile (a + req) (t_size t - req) false]
  else [t].
Definition carve (a req : Z) (ts : list tile) : list tile := ts ≫= carve_tile a req.

Definition cons_merge (t : tile) (ts : list tile) : list tile :=
  match ts with
  | u :: ts' =>
      if t_used t || t_used u then t :: ts
      else mk_tile (t_addr t) (t_size t + t_size u) false :: ts'
  | [] => [t]
  end.
Definition merge (ts : list tile) : list tile := foldr cons_merge [] ts.
Definition free_tile (a : Z) (t : tile) : tile := if t_addr t =? a then mk_tile a (t_size t) false else t.
Definition release (a : Z) (ts : list tile) : list tile := merge (free_tile a <$> ts).

Ltac mm_consts :=
  change min_block_size with 56 in *; change sizeof_block_header with 40 in *; change MM_ALIGNMENT with 16 in *.

(** ** Lemmas on the views *)

Lemma runs_load p s b Q : node s p = Some b -> Q b s -> runs (load p) s Q.
Proof.
  intros E HQ. destruct p as [| |a]; simpl in *; [done| |].
  - injection E as <-. by apply runs_gets.
  - by eapply runs_gets_opt.
Qed.

Lemma runs_store p f s Q : p <> BNull -> Q tt (upd s p f) -> runs (store p f) s Q.
Proof. intros Hp HQ. destruct p as [| |a]; [done|..]; by apply runs_modify. Qed.

Lemma node_upd s p f q :
  p <> BNull ->
  node (upd s p f) q = if decide (q = p) then Some (f (default blank_header (node s p))) else node s q.
Proof.
  intros Hp. destruct p as [| |a]; [done|..]; destruct q as [| |c]; simpl; try done.
  rewrite lookup_insert. repeat case_decide; congruence.
Qed.

Lemma node_view {A} (f : block_header -> A) s p v :
  f <$> node s p = Some v -> exists b, node s p = Some b /\ f b = v.
Proof. intros (b & E & ->)%fmap_Some. eauto. Qed.

Lemma node_not_null s p : is_Some (node s p) -> p <> BNull.
Proof. intros [? E] ->. done. Qed.

Lemma counters_upd s p f : counters (upd s p f) = counters s.
Proof. destruct p; done. Qed.

Section Upd.
Context (s : mm) (p : bptr) (Hp : is_Some (node s p)).

Lemma view_upd {A} (v : block_header -> A) f q :
  (forall b, v (f b) = v b) -> v <$> node (upd s p f) q = v <$> node s q.
Proof.
  intros Hv. rewrite node_upd by by eapply node_not_null.
  case_decide; [|done]. subst q. destruct Hp as [b ->]. apply (f_equal Some), Hv.
Qed.

Lemma fv_upd_next n : same (fv (upd s p (fun h => h <| next_free := n |>))) (set_next (fv s) p n).
Proof.
  intros q. unfold fv, set_next. rewrite node_upd by by eapply node_not_null.
  case_decide; [|done]. subst q. destruct Hp as [b ->]. done.
Qed.
Lemma fv_upd_prev n : same (fv (upd s p (fun h => h <| prev_free := n |>))) (set_prev (fv s) p n).
Proof.
  intros q. unfold fv, set_prev. rewrite node_upd by by eapply node_not_null.
  case_decide; [|done]. subst q. destruct Hp as [b ->]. done.
Qed.
Lemma pv_upd_next n : same (pv (upd s p (fun h => h <| next_phys := n |>))) (set_next (pv s) p n).
Proof.
  intros q. unfold pv, set_next. rewrite node_upd by by eapply node_not_null.
  case_decide; [|done]. subst q. destruct Hp as [b ->]. done.
Qed.
Lemma pv_upd_prev n : same (pv (upd s p (fun h => h <| prev_phys := n |>))) (set_prev (pv s) p n).
Proof.
  intros q. unfold pv, set_prev. rewrite node_upd by by eapply node_not_null.
  case_decide; [|done]. subst q. destruct Hp as [b ->]. done.
Qed.
Lemma sv_upd_size n q :
  sv (upd s p (fun h => h <| size_and_flags := n |>)) q = if decide (q = p) then Some n else sv s q.
Proof.
  unfold sv. rewrite node_upd by by eapply node_not_null. case_decide; done.
Qed.

Lemma is_node_upd f q : is_Some (node s q) -> is_Some (node (upd s p f) q).
Proof.
  intros Hq. rewrite node_upd by by eapply node_not_null. case_decide; eauto.
Qed.
End Upd.

#[export] Instance frame_free_refl : Reflexive frame_free.
Proof. intros s. done. Qed.
#[export] Instance frame_free_trans : Transitive frame_free.
Proof.
  intros s t u (A1 & B1 & C1) (A2 & B2 & C2). split; [|split]; [by rewrite A2|by rewrite B2|congruence].
Qed.
#[export] Instance frame_phys_refl : Reflexive frame_phys.
Proof. intros s. done. Qed.
#[export] Instance frame_phys_trans : Transitive frame_phys.
Proof. intros s t u (A1 & B1) (A2 & B2). split; [by rewrite A2|congruence]. Qed.

Lemma frame_free_upd s p f :
  is_Some (node s p) ->
  (forall b, size_and_flags (f b) = size_and_flags b /\ prev_phys (f b) = prev_phys b /\ next_phys (f b) = next_phys b) ->
  frame_free s (upd s p f).
Proof.
  intros Hp Hf. split; [|split; [|apply counters_upd]]; intros q; apply view_upd; try done;
    intros b; destruct (Hf b) as (? & ? & ?); congruence.
Qed.

Lemma frame_phys_upd s p f :
  is_Some (node s p) ->
  (forall b, prev_free (f b) = prev_free b /\ next_free (f b) = next_free b) ->
  frame_phys s (upd s p f).
Proof.
  intros Hp Hf. split; [|apply counters_upd]. intros q. apply view_upd; [done|].
  intros b. destruct (Hf b) as (? & ?); congruence.
Qed.

Lemma fv_is_node s p : is_Some (fv s p) -> is_Some (node s p).
Proof. unfold fv. by intros [? (b & -> & _)%fmap_Some]. Qed.
Lemma sv_is_node s p : is_Some (sv s p) -> is_Some (node s p).
Proof. unfold sv. by intros [? (b & -> & _)%fmap_Some]. Qed.
Lemma pv_is_node s p : is_Some (pv s p) -> is_Some (node s p).
Proof. unfold pv. by intros [? (b & -> & _)%fmap_Some]. Qed.

Lemma frame_free_node s s' p : frame_free s s' -> is_Some (node s p) -> is_Some (node s' p).
Proof.
  intros (E & _) [b Hb]. apply sv_is_node. rewrite E. unfold sv. rewrite Hb. by eexists.
Qed.

(** ** Rules for one load or one store *)

Section Steps.
Context {B : Type} (Q : B -> mm -> Prop).

Lemma step_load_fv s p x y (k : block_header -> M mm B) :
  fv s p = Some (x, y) ->
  (forall b, prev_free b = x -> next_free b = y -> runs (k b) s Q) ->
  runs (load p ≫= k) s Q.
Proof.
  intros (b & Eb & Vb)%node_view Hk. injection Vb as Vx Vy.
  apply runs_bind, (runs_load _ _ _ _ Eb). auto.
Qed.

Lemma step_load_pv s p x y (k : block_header -> M mm B) :
  pv s p = Some (x, y) ->
  (forall b, prev_phys b = x -> next_phys b = y -> runs (k b) s Q) ->
  runs (load p ≫= k) s Q.
Proof.
  intros (b & Eb & Vb)%node_view Hk. injection Vb as Vx Vy.
  apply runs_bind, (runs_load _ _ _ _ Eb). auto.
Qed.

Lemma step_load_sv s p n (k : block_header -> M mm B) :
  sv s p = Some n ->
  (forall b, size_and_flags b = n -> runs (k b) s Q) ->
  runs (load p ≫= k) s Q.
Proof.
  intros (b & Eb & Vb)%node_view Hk. apply runs_bind, (runs_load _ _ _ _ Eb). auto.
Qed.

Lemma step_store_fv s p f g (k : unit -> M mm B) :
  is_Some (node s p) ->
  (forall b, size_and_flags (f b) = size_and_flags b /\ prev_phys (f b) = prev_phys b /\ next_phys (f b) = next_phys b) ->
  same (fv (upd s p f)) g ->
  (forall s', same (fv s') g -> frame_free s s' -> runs (k tt) s' Q) ->
  runs (store p f ≫= k) s Q.
Proof.
  intros Hp Hf Hg Hk. apply runs_bind, runs_store; [by eapply node_not_null|].
  apply Hk; [done|]. by apply frame_free_upd.
Qed.

Lemma step_set_next_free s p n (k : unit -> M mm B) :
  is_Some (node s p) ->
  (forall s', same (fv s') (set_next (fv s) p n) -> frame_free s s' -> runs (k tt) s' Q) ->
  runs (store p (fun h => h <| next_free := n |>) ≫= k) s Q.
Proof. intros Hp. apply step_store_fv; [done|done|by apply fv_upd_next]. Qed.

Lemma step_set_prev_free s p n (k : unit -> M mm B) :
  is_Some (node s p) ->
  (forall s', same (fv s') (set_prev (fv s) p n) -> frame_free s s' -> runs (k tt) s' Q) ->
  runs (store p (fun h => h <| prev_free := n |>) ≫= k) s Q.
Proof. intros Hp. apply step_store_fv; [done|done|by apply fv_upd_prev]. Qed.

(** Stores that leave the free list alone. *)
Lemma step_store_phys s p f (k : unit -> M mm B) :
  is_Some (node s p) ->
  (forall b, prev_free (f b) = prev_free b /\ next_free (f b) = next_free b) ->
  (forall s', (forall q, is_Some (node s q) -> is_Some (node s' q)) ->
     (forall A (v : block_header -> A), (forall b, v (f b) = v b) -> forall q, v <$> node s' q = v <$> node s q) ->
     (forall q, node s' q = if decide (q = p) then f <$> node s p else node s q) ->
     frame_phys s s' -> runs (k tt) s' Q) ->
  runs (store p f ≫= k) s Q.
Proof.
  intros Hp Hf Hk. apply runs_bind, runs_store; [by eapply node_not_null|].
  apply Hk.
  - intros q Hq. by apply is_node_upd.
  - intros A v Hv q. by apply view_upd.
  - intros q. rewrite node_upd by by eapply node_not_null.
    case_decide; [|done]. destruct Hp as [b ->]. done.
  - by apply frame_phys_upd.
Qed.

Lemma step_set_size s p n (k : unit -> M mm B) :
  is_Some (node s p) ->
  (forall s', (forall q, sv s' q = if decide (q = p) then Some n else sv s q) ->
     same (pv s') (pv s) -> frame_phys s s' -> runs (k tt) s' Q) ->
  runs (store p (fun h => h <| size_and_flags := n |>) ≫= k) s Q.
Proof.
  intros Hp Hk. apply step_store_phys; [done|done|]. intros s' _ Hv Hn Hf. apply Hk; [| |done].
  - intros q. unfold sv. rewrite Hn. case_decide; [|done]. destruct Hp as [b ->]. done.
  - intros q. by apply Hv.
Qed.

Lemma step_set_next_phys s p n (k : unit -> M mm B) :
  is_Some (node s p) ->
  (forall s', same (pv s') (set_next (pv s) p n) -> same (sv s') (sv s) -> frame_phys s s' ->
     runs (k tt) s' Q) ->
  runs (store p (fun h => h <| next_phys := n |>) ≫= k) s Q.
Proof.
  intros Hp Hk. apply runs_bind, runs_store; [by eapply node_not_null|].
  apply Hk; [by apply pv_upd_next| |by apply frame_phys_upd]. intros q. by apply view_upd.
Qed.

Lemma step_set_prev_phys s p n (k : unit -> M mm B) :
  is_Some (node s p) ->
  (forall s', same (pv s') (set_prev (pv s) p n) -> same (sv s') (sv s) -> frame_phys s s' ->
     runs (k tt) s' Q) ->
  runs (store p (fun h => h <| prev_phys := n |>) ≫= k) s Q.
Proof.
  intros Hp Hk. apply runs_bind, runs_store; [by eapply node_not_null|].
  apply Hk; [by apply pv_upd_prev| |by apply frame_phys_upd]. intros q. by apply view_upd.
Qed.
End Steps.

(** ** The free list *)

Lemma free_list_remove_spec s l1 p l2 (Q : unit -> mm -> Prop) :
  cdll (fv s) BSentinel (l1 ++ p :: l2) ->
  (forall s', cdll (fv s') BSentinel (l1 ++ l2) -> frame_free s s' -> Q tt s') ->
  runs (free_list_remove p) s Q.
Proof.
  intros Hc HQ. set (S0 := BSentinel) in *.
  pose proof (cdll_lookup _ _ _ _ _ Hc) as Hp.
  pose proof (cdll_remove _ _ _ _ _ Hc) as Hr.
  destruct (cdll_neighbours _ _ _ _ _ Hc) as (N1 & N2 & Hne1 & Hne2 & Hpn).
  apply fv_is_node in N1, N2.
  unfold free_list_remove.
    apply (step_load_fv _ _ _ _ _ _ Hp). intros b -> ->.
  apply step_set_next_free; [done|]. intros s1 V1 F1.
  eapply (step_load_fv _ s1 p).
  { rewrite V1. unfold set_next. rewrite decide_False by done. exact Hp. }
  intros b1 -> ->.
  apply step_set_prev_free; [by eapply frame_free_node|]. intros s2 V2 F2.
  rewrite V1 in V2. rewrite <- V2 in Hr.
  assert (is_Some (node s2 p)) as N3.
  { eapply frame_free_node; [exact F2|]. eapply frame_free_node; [exact F1|]. apply fv_is_node. by eexists. }
  apply step_set_prev_free; [done|]. intros s3 V3 F3.
  apply runs_bind_ret, step_set_next_free; [by eapply frame_free_node|]. intros s4 V4 F4.
  apply runs_ret, HQ.
  - rewrite V4, V3. destruct Hr as [Hr1 Hr2]. split; [done|]. eapply dll_ext; [exact Hr2|].
    intros q Hq. unfold set_next, set_prev. by rewrite !decide_False by (intros ->; done).
  - do 3 (etrans; [eassumption|]). done.
Qed.

Lemma free_list_insert_spec s l p (Q : unit -> mm -> Prop) :
  cdll (fv s) BSentinel l -> p ∉ BSentinel :: l -> is_Some (node s p) ->
  (forall s', cdll (fv s') BSentinel (p :: l) -> frame_free s s' -> Q tt s') ->
  runs (free_list_insert p) s Q.
Proof.
  intros Hc Hp Np HQ. set (S0 := BSentinel) in *.
  pose proof (cdll_sentinel _ _ _ Hc) as Hs.
  assert (is_Some (node s (first S0 l))) as Nf by (apply fv_is_node; by eapply cdll_first_defined).
  assert (p <> S0) as HpS by (intros ->; apply Hp; by left).
  unfold free_list_insert.
  apply step_set_prev_free; [done|]. intros s1 V1 F1.
  eapply (step_load_fv _ s1 S0).
  { rewrite V1. unfold set_prev. rewrite decide_False by done. exact Hs. }
  intros b1 _ ->.
  apply step_set_next_free; [by eapply frame_free_node|]. intros s2 V2 F2. rewrite V1 in V2.
  eapply (step_load_fv _ s2 S0).
  { rewrite V2. unfold set_next, set_prev. rewrite !decide_False by done. exact Hs. }
  intros b2 _ ->.
  apply step_set_prev_free; [by do 2 (eapply frame_free_node; [eassumption|])|]. intros s3 V3 F3.
  apply runs_bind_ret, step_set_next_free; [by eexists|]. intros s4 V4 F4.
  apply runs_ret, HQ.
  - rewrite V4, V3. apply cdll_insert; [|done|].
    + destruct Hc as [Hc1 Hc2]. split; [done|]. eapply dll_ext; [exact Hc2|].
      intros q Hq. rewrite V2. unfold set_next, set_prev.
      by rewrite !decide_False by (intros ->; done).
    + rewrite V2. unfold set_next, set_prev. rewrite !decide_True by done.
      unfold fv. destruct Np as [b ->]. done.
  - do 3 (etrans; [eassumption|]). done.
Qed.

(** ** Sizes and flags *)

Definition good_size (n : Z) : Prop := 0 <= n < 2 ^ 63 /\ n mod 8 = 0.

Lemma good_size_even n : good_size n -> n mod 2 = 0.
Proof. intros [_ E]. dlia. Qed.

Lemma flags_size n u : good_size n -> Z.land (n + cbool u) (bnot 64 BLOCK_ALLOCATED_FLAG) = n.
Proof.
  intros Hn. pose proof (good_size_even n Hn) as He. destruct Hn as [Hn _].
  assert (0 <= cbool u <= 1) as Hu by (destruct u; done).
  change BLOCK_ALLOCATED_FLAG with (2 ^ 1 - 1). rewrite land_align by lia. change (2 ^ 1) with 2. dlia.
Qed.

Lemma flags_bit n u : good_size n -> Z.land (n + cbool u) BLOCK_ALLOCATED_FLAG = cbool u.
Proof.
  intros Hn. pose proof (good_size_even n Hn) as He.
  assert (0 <= cbool u <= 1) as Hu by (destruct u; done).
  change BLOCK_ALLOCATED_FLAG with (Z.ones 1). rewrite Z.land_ones by done. change (2 ^ 1) with 2. dlia.
Qed.

Lemma flags_set n : good_size n -> Z.lor n BLOCK_ALLOCATED_FLAG = n + 1.
Proof.
  intros Hn. pose proof (good_size_even n Hn) as He. destruct Hn as [Hn _].
  apply Z.mod_divide in He as [k ->]; [|done]. rewrite Z.mul_comm. destruct k; done || lia.
Qed.

Lemma good_size_add m n : good_size m -> good_size n -> m + n < 2 ^ 63 -> good_size (m + n).
Proof. intros [Hm Em] [Hn En] H. split; dlia. Qed.
Lemma good_size_sub m n : good_size m -> good_size n -> n <= m -> good_size (m - n).
Proof. intros [Hm Em] [Hn En] H. split; dlia. Qed.
Create HintDb mm.
#[export] Hint Resolve good_size_add good_size_sub : mm.

Section FlagSteps.
Context {B : Type} (Q : B -> mm -> Prop) (s : mm) (p : bptr) (n : Z) (u : bool)
  (Hs : sv s p = Some (n + cbool u)) (Hn : good_size n).

Lemma step_block_size (k : Z -> M mm B) : runs (k n) s Q -> runs (block_size p ≫= k) s Q.
Proof.
  intros Hk. apply runs_bind. unfold block_size.
  apply (step_load_sv _ _ _ _ _ Hs). intros b ->. apply runs_ret. by rewrite flags_size.
Qed.

Lemma step_is_allocated (k : bool -> M mm B) : runs (k u) s Q -> runs (block_is_allocated p ≫= k) s Q.
Proof.
  intros Hk. apply runs_bind. unfold block_is_allocated.
  apply (step_load_sv _ _ _ _ _ Hs). intros b ->. apply runs_ret. rewrite flags_bit by done.
  by destruct u.
Qed.
End FlagSteps.

Lemma step_is_free_neighbour {B} (Q : B -> mm -> Prop) s p n u (k : bool -> M mm B) :
  sv s p = Some (n + cbool u) -> good_size n ->
  runs (k (negb u)) s Q -> runs (is_free_neighbour p ≫= k) s Q.
Proof.
  intros Hs Hn Hk. apply runs_bind. unfold is_free_neighbour. rewrite decide_False.
  - by eapply step_is_allocated, runs_ret.
  - eapply node_not_null, sv_is_node. by eexists.
Qed.

Lemma step_mark_allocated {B} (Q : B -> mm -> Prop) s p n u (k : unit -> M mm B) :
  sv s p = Some (n + cbool u) -> good_size n ->
  (forall s', (forall q, sv s' q = if decide (q = p) then Some (n + cbool true) else sv s q) ->
     same (pv s') (pv s) -> frame_phys s s' -> runs (k tt) s' Q) ->
  runs (block_mark_allocated p ≫= k) s Q.
Proof.
  intros Hs Hn Hk. apply runs_bind. unfold block_mark_allocated.
  apply (step_load_sv _ _ _ _ _ Hs). intros b ->. apply runs_bind_ret, step_set_size.
  { apply sv_is_node. by eexists. }
  intros s' V1 V2 F. apply runs_ret, Hk; [|done|done]. intros q. rewrite V1.
  case_decide; [|done]. f_equal. destruct u; simpl.
  - rewrite <- (flags_set n) by done. by rewrite <- Z.lor_assoc.
  - rewrite Z.add_0_r. by apply flags_set.
Qed.

Lemma step_mark_free {B} (Q : B -> mm -> Prop) s p n u (k : unit -> M mm B) :
  sv s p = Some (n + cbool u) -> good_size n ->
  (forall s', (forall q, sv s' q = if decide (q = p) then Some (n + cbool false) else sv s q) ->
     same (pv s') (pv s) -> frame_phys s s' -> runs (k tt) s' Q) ->
  runs (block_mark_free p ≫= k) s Q.
Proof.
  intros Hs Hn Hk. apply runs_bind. unfold block_mark_free.
  apply (step_load_sv _ _ _ _ _ Hs). intros b ->. apply runs_bind_ret, step_set_size.
  { apply sv_is_node. by eexists. }
  intros s' V1 V2 F. apply runs_ret, Hk; [|done|done]. intros q. rewrite V1.
  rewrite flags_size by done. simpl. by rewrite Z.add_0_r.
Qed.

(** ** Merging a block into the one before it *)

Lemma absorb_spec {B} (Q : B -> mm -> Prop) s l1 x y l2 nx ux ny uy
    (P : unit -> mm -> Prop) (tail : M mm unit -> M mm B) :
  (forall m s', runs m s' P -> runs (tail m) s' Q) ->
  NoDup (l1 ++ x :: y :: l2) ->
  dll (pv s) BNull (l1 ++ x :: y :: l2) BNull ->
  sv s x = Some (nx + cbool ux) -> good_size nx ->
  sv s y = Some (ny + cbool uy) -> good_size ny -> nx + ny < 2 ^ 63 ->
  (forall s', dll (pv s') BNull (l1 ++ x :: l2) BNull ->
     (forall q, sv s' q = if decide (q = x) then Some (nx + ny) else sv s q) ->
     frame_phys s s' -> P tt s') ->
  runs (sx ← block_size x; sy ← block_size y;
        store x (fun h => h <| size_and_flags := u64 (sx + sy) |>) ;;
        b ← load y;
        store x (fun h => h <| next_phys := next_phys b |>) ;;
        b ← load y;
        tail (when (bool_decide (next_phys b <> BNull))
          (store (next_phys b) (fun h => h <| prev_phys := x |>)))) s Q.
Proof.
  intros Htail Hnd Hd Hx Gx Hy Gy Hlt Hk.
  assert (x <> y) as Hxy.
  { apply NoDup_app in Hnd as (_ & _ & [Hx' _]%NoDup_cons). intros ->. apply Hx'. by left. }
  pose proof (dll_lookup _ _ _ _ (l1 ++ [x]) y l2 Hd ltac:(by rewrite <- app_assoc)) as Py.
  rewrite (cons_middle x) in Hnd, Hd. rewrite (app_assoc l1) in Hnd, Hd.
  pose proof (dll_remove _ _ _ _ _ _ Hnd Hd) as Hr.
  rewrite final_snoc in *. unfold relink_next in Hr. rewrite last_snoc in Hr.
  eapply step_block_size; [done|done|]. eapply step_block_size; [done|done|].
  apply step_set_size; [apply sv_is_node; by eexists|]. intros s1 S1 P1 F1.
  eapply (step_load_pv _ s1). { rewrite P1. exact Py. } intros b _ ->.
  apply step_set_next_phys; [apply sv_is_node; rewrite S1, decide_True by done; by eexists|].
  intros s2 P2 S2 F2. rewrite P1 in P2.
  eapply (step_load_pv _ s2). { rewrite P2. unfold set_next. by rewrite decide_False by done. }
  intros b' _ ->.
  assert (forall q, sv s2 q = if decide (q = x) then Some (nx + ny) else sv s q) as S2'.
  { intros q. rewrite S2, S1. case_decide; [|done]. rewrite wrap_small; [done|].
    destruct Gx, Gy. lia. }
  assert (frame_phys s s2) as F2' by by etrans.
  rewrite <- app_assoc in Hr. rewrite <- P2 in Hr.
  destruct l2 as [|z l2]; simpl.
  - apply Htail, runs_ret. apply Hk; done.
  - assert (is_Some (node s2 z)) as Nz.
    { apply pv_is_node. rewrite P2. unfold set_next. case_decide.
      - subst z. rewrite (dll_lookup _ _ _ _ l1 x (y :: x :: l2) Hd); [by eexists|by rewrite <- app_assoc].
      - eapply dll_defined; [exact Hd|]. rewrite !elem_of_app, !elem_of_cons. tauto. }
    unfold first. simpl. rewrite bool_decide_true by by eapply node_not_null.
    apply Htail. simpl. apply runs_bind_ret, step_set_prev_phys; [done|]. intros s3 P3 S3 F3. apply runs_ret, Hk.
    + by rewrite P3.
    + intros q. by rewrite S3, S2'.
    + by etrans.
Qed.

(** ** Tilings *)

Lemma contiguous_app ts1 : forall a ts2 e,
  contiguous a (ts1 ++ ts2) e <-> exists m, contiguous a ts1 m /\ contiguous m ts2 e.
Proof.
  induction ts1 as [|t ts1 IH]; intros a ts2 e; simpl.
  - split; [by exists a|by intros (m & -> & H)].
  - rewrite IH. split.
    + intros (E & m & H1 & H2). by exists m.
    + intros (m & (E & H1) & H2). split; [done|by exists m].
Qed.

Lemma contiguous_le ts : forall a e,
  contiguous a ts e -> Forall (fun t => min_block_size <= t_size t /\ t_size t mod 8 = 0) ts -> a <= e.
Proof.
  induction ts as [|t ts IH]; intros a e H Hs; simpl in H; [lia|].
  apply Forall_cons in Hs as [[Ht _] Hs]. destruct H as [_ H].
  pose proof (IH _ _ H Hs). mm_consts. lia.
Qed.

Lemma contiguous_bounds ts a e t :
  contiguous a ts e -> Forall (fun t => min_block_size <= t_size t /\ t_size t mod 8 = 0) ts ->
  t ∈ ts -> a <= t_addr t /\ t_addr t + t_size t <= e.
Proof.
  intros H Hs (l1 & l2 & ->)%list_elem_of_split.
  apply contiguous_app in H as (m & H1 & <- & H2). apply Forall_app in Hs as [Hs1 [Ht Hs2]%Forall_cons].
  apply contiguous_le in H1; [|done]. apply contiguous_le in H2; [|done]. lia.
Qed.

Lemma contiguous_nodup ts : forall a e,
  contiguous a ts e -> Forall (fun t => min_block_size <= t_size t /\ t_size t mod 8 = 0) ts ->
  NoDup (t_addr <$> ts).
Proof.
  induction ts as [|t ts IH]; intros a e H Hs; simpl; [apply NoDup_nil_2|].
  destruct H as [<- H]. apply Forall_cons in Hs as [[Ht _] Hs].
  apply NoDup_cons. split; [|by eapply IH].
  intros (u & E & Hu)%list_elem_of_fmap. pose proof (contiguous_bounds _ _ _ _ H Hs Hu).
  mm_consts. lia.
Qed.

Section TilesOk.
Context (s : mm) (base limit : Z) (ts : list tile) (Hok : tiles_ok s base limit ts).

Lemma ok_nodup : NoDup (tptr <$> ts).
Proof.
  unfold tptr. rewrite (list_fmap_compose t_addr BBlk). apply NoDup_fmap; [by intros ?? [= ->]|].
  destruct Hok. by eapply contiguous_nodup.
Qed.

Lemma ok_bounds t : t ∈ ts -> 0 < t_addr t /\ t_addr t + t_size t < 2 ^ 63.
Proof.
  intros Ht. destruct Hok as [[H1 H2] H3 H4 _ _].
  pose proof (contiguous_bounds _ _ _ _ H3 H4 Ht). lia.
Qed.

Lemma ok_good t : t ∈ ts -> good_size (t_size t) /\ min_block_size <= t_size t.
Proof.
  intros Ht. pose proof (ok_bounds t Ht). destruct Hok as [_ _ Hs _ _].
  rewrite Forall_forall in Hs. destruct (Hs t Ht) as [Hm E].
  unfold good_size. mm_consts. repeat split; lia.
Qed.

Lemma ok_flag t : t ∈ ts -> sv s (tptr t) = Some (t_size t + cbool (t_used t)).
Proof. intros Ht. destruct Hok as [_ _ _ Hf _]. rewrite Forall_forall in Hf. by apply Hf. Qed.

Lemma ok_addr_inj t u : t ∈ ts -> u ∈ ts -> t_addr t = t_addr u -> t = u.
Proof.
  intros Ht Hu E. destruct Hok as [_ H3 H4 _ _]. pose proof (contiguous_nodup _ _ _ H3 H4) as Hnd.
  apply list_elem_of_lookup in Ht as [i Hi], Hu as [j Hj].
  assert (i = j) as ->; [|congruence].
  eapply NoDup_lookup; [exact Hnd|..]; rewrite list_lookup_fmap; [by rewrite Hi|by rewrite Hj, E].
Qed.
End TilesOk.

(** Joining two neighbours keeps the description of the heap. *)
Lemma tiles_ok_join s s' base limit l1 t u l2 :
  tiles_ok s base limit (l1 ++ t :: u :: l2) ->
  dll (pv s') BNull ((tptr <$> l1) ++ tptr t :: (tptr <$> l2)) BNull ->
  (forall q, sv s' q = if decide (q = tptr t) then Some (t_size t + t_size u) else sv s q) ->
  tiles_ok s' base limit (l1 ++ mk_tile (t_addr t) (t_size t + t_size u) false :: l2).
Proof.
  intros Hok Hd Hs. pose proof (ok_nodup _ _ _ _ Hok) as Hnd. destruct Hok as [Hr Ht Hz Hf _].
  apply contiguous_app in Ht as (m & Ht1 & <- & Eu & Ht2).
  apply Forall_app in Hz as [Hz1 [Hzt [Hzu Hz2]%Forall_cons]%Forall_cons].
  apply Forall_app in Hf as [Hf1 [Hft [Hfu Hf2]%Forall_cons]%Forall_cons].
  rewrite fmap_app in Hnd. simpl in Hnd. apply NoDup_app in Hnd as (_ & Hdis & [Hnt _]%NoDup_cons).
  assert (forall l, (tptr t) ∉ tptr <$> l -> Forall (fun t => sv s (tptr t) = Some (tflags t)) l ->
    Forall (fun t => sv s' (tptr t) = Some (tflags t)) l) as Hkeep.
  { intros l Hl Hfl. apply Forall_forall. intros x Hx. rewrite Forall_forall in Hfl.
    rewrite Hs, decide_False; [by apply Hfl|]. intros E. apply Hl. by eapply list_elem_of_fmap_2'. }
  split.
  - done.
  - apply contiguous_app. exists (t_addr t). split; [done|]. split; [done|]. cbn [t_size]. by rewrite Z.add_assoc.
  - apply Forall_app. split; [done|]. apply Forall_cons. split; [|done]. simpl. mm_consts.
    split; [lia|dlia].
  - apply Forall_app. split; [|apply Forall_cons; split].
    + apply Hkeep; [|done]. intros Hx. apply (Hdis _ Hx). by left.
    + rewrite Hs, decide_True by done. unfold tflags. simpl. by rewrite Z.add_0_r.
    + apply Hkeep; [|done]. intros Hx. apply Hnt. by right.
  - rewrite fmap_app. done.
Qed.

(** ** Coalescing *)

(** A heap in which the block [t] is marked free and is not yet in the free list. *)
Record limbo (s : mm) (base limit : Z) (l1 : list tile) (t : tile) (l2 : list tile) (fl : list Z) : Prop := {
  lb_tiles : tiles_ok s base limit (l1 ++ t :: l2);
  lb_used : t_used t = false;
  lb_free : cdll (fv s) BSentinel (BBlk <$> fl);
  lb_fl : fl ≡ₚ free_addrs (l1 ++ l2) }.

Lemma free_addrs_app l1 l2 : free_addrs (l1 ++ l2) = free_addrs l1 ++ free_addrs l2.
Proof. unfold free_addrs. by rewrite filter_app, fmap_app. Qed.
Lemma free_addrs_free t : t_used t = false -> free_addrs [t] = [t_addr t].
Proof. intros E. unfold free_addrs. by rewrite filter_cons_True. Qed.
Lemma free_addrs_used t : t_used t = true -> free_addrs [t] = [].
Proof. intros E. unfold free_addrs. rewrite filter_cons_False; [done|]. by rewrite E. Qed.

(** Taking a block off the free list. *)
Lemma unlink_spec s t (l : list tile) fl (Q : unit -> mm -> Prop) :
  cdll (fv s) BSentinel (BBlk <$> fl) -> fl ≡ₚ t_addr t :: free_addrs l ->
  (forall s' fl', cdll (fv s') BSentinel (BBlk <$> fl') -> fl' ≡ₚ free_addrs l ->
     (forall f1 f2, fl = f1 ++ t_addr t :: f2 -> fl' = f1 ++ f2) ->
     frame_free s s' -> Q tt s') ->
  runs (free_list_remove (tptr t)) s Q.
Proof.
  intros Hc Hp HQ.
  assert (t_addr t ∈ fl) as (f1 & f2 & ->)%list_elem_of_split by (rewrite Hp; by left).
  pose proof Hc as [[_ Hnd]%NoDup_cons _].
  rewrite fmap_app in Hc. simpl in Hc. eapply (free_list_remove_spec _ _ _ _ _ Hc).
  intros s' Hc' Hf. eapply (HQ s' (f1 ++ f2)); [by rewrite fmap_app| | |done].
  - rewrite <- Permutation_middle in Hp. by apply Permutation_cons_inv in Hp.
  - intros g1 g2 E. apply (NoDup_fmap_1 BBlk) in Hnd.
    destruct (list_split_unique _ _ _ _ _ Hnd E) as [-> ->]. done.
Qed.

Lemma frame_free_tiles s s' base limit ts :
  frame_free s s' -> tiles_ok s base limit ts -> tiles_ok s' base limit ts.
Proof.
  intros (E1 & E2 & _) [H1 H2 H3 H4 H5]. split; [done..| |by rewrite E2].
  eapply Forall_impl; [exact H4|]. intros t Ht. by rewrite E1.
Qed.

Lemma frame_phys_free s s' l : frame_phys s s' -> cdll (fv s) BSentinel l -> cdll (fv s') BSentinel l.
Proof. intros [E _] H. by rewrite E. Qed.

(** What looking at one side of the block does to it. *)
Inductive join_left (l1 : list tile) (t : tile) : list tile -> tile -> Prop :=
  | jl_none : (forall u, last l1 = Some u -> t_used u = true) -> join_left l1 t l1 t
  | jl_join k u : l1 = k ++ [u] -> t_used u = false ->
      join_left l1 t k (mk_tile (t_addr u) (t_size u + t_size t) false).
Inductive join_right (t : tile) (l2 : list tile) : tile -> list tile -> Prop :=
  | jr_none : (forall u, head l2 = Some u -> t_used u = true) -> join_right t l2 t l2
  | jr_join k u : l2 = u :: k -> t_used u = false ->
      join_right t l2 (mk_tile (t_addr t) (t_size t + t_size u) false) k.

Lemma final_tptr l : final BNull (tptr <$> l) = match last l with Some u => tptr u | None => BNull end.
Proof. unfold final. rewrite fmap_last. by destruct (last l). Qed.
Lemma first_tptr l : first BNull (tptr <$> l) = match head l with Some u => tptr u | None => BNull end.
Proof. by destruct l. Qed.

Section Limbo.
Context (base limit : Z).
Implicit Types (s : mm) (t u : tile) (fl : list Z).

Lemma limbo_phys s l1 t l2 fl :
  limbo s base limit l1 t l2 fl ->
  pv s (tptr t) = Some (final BNull (tptr <$> l1), first BNull (tptr <$> l2)).
Proof.
  intros [[_ _ _ _ Hd] _ _ _]. eapply dll_lookup; [exact Hd|]. by rewrite fmap_app.
Qed.

(** The body shared by the two sides: [x] absorbs its right neighbour [y]. *)
Lemma join_spec {B} (Q : B -> mm -> Prop) s l1 x y l2
    (P : unit -> mm -> Prop) (tail : M mm unit -> M mm B) :
  (forall m s', runs m s' P -> runs (tail m) s' Q) ->
  tiles_ok s base limit (l1 ++ x :: y :: l2) ->
  (forall s', tiles_ok s' base limit (l1 ++ mk_tile (t_addr x) (t_size x + t_size y) false :: l2) ->
     frame_phys s s' -> P tt s') ->
  runs (sx ← block_size (tptr x); sy ← block_size (tptr y);
        store (tptr x) (fun h => h <| size_and_flags := u64 (sx + sy) |>) ;;
        b ← load (tptr y);
        store (tptr x) (fun h => h <| next_phys := next_phys b |>) ;;
        b ← load (tptr y);
        tail (when (bool_decide (next_phys b <> BNull))
          (store (next_phys b) (fun h => h <| prev_phys := tptr x |>)))) s Q.
Proof.
  intros Htail Hok Hk.
  assert (x ∈ l1 ++ x :: y :: l2) as Hx by (rewrite elem_of_app, elem_of_cons; tauto).
  assert (y ∈ l1 ++ x :: y :: l2) as Hy by (rewrite elem_of_app, !elem_of_cons; tauto).
  destruct (ok_good _ _ _ _ Hok x Hx) as [Gx Mx]. destruct (ok_good _ _ _ _ Hok y Hy) as [Gy My].
  pose proof (ok_nodup _ _ _ _ Hok) as Hnd. rewrite fmap_app in Hnd.
  pose proof (ok_phys _ _ _ _ Hok) as Hd. rewrite fmap_app in Hd.
  eapply (absorb_spec _ _ _ _ _ _ _ _ _ _ _ _ Htail Hnd Hd);
    [by eapply ok_flag|done|by eapply ok_flag|done| |].
  - pose proof (ok_bounds _ _ _ _ Hok y Hy). pose proof (ok_bounds _ _ _ _ Hok x Hx).
    destruct Hok as [_ Ht _ _ _]. apply contiguous_app in Ht as (m & _ & E1 & E2 & _). lia.
  - intros s' Hd' Hs' Hf. apply Hk; [|done]. eapply tiles_ok_join; [exact Hok|done|done].
Qed.

Lemma join_prev_spec {B} (Q : B -> mm -> Prop) s l1 t l2 fl (k : bptr -> M mm B) :
  limbo s base limit l1 t l2 fl ->
  (forall s' l1' t' fl', join_left l1 t l1' t' -> limbo s' base limit l1' t' l2 fl' ->
     fl' `sublist_of` fl -> counters s' = counters s -> runs (k (tptr t')) s' Q) ->
  let prev := final BNull (tptr <$> l1) in
  runs (free_prev ← is_free_neighbour prev;
        (if free_prev : bool then
           free_list_remove prev ;;
           sp ← block_size prev; sb ← block_size (tptr t);
           store prev (fun h => h <| size_and_flags := u64 (sp + sb) |>) ;;
           b ← load (tptr t);
           store prev (fun h => h <| next_phys := next_phys b |>) ;;
           b ← load (tptr t);
           when (bool_decide (next_phys b <> BNull))
             (store (next_phys b) (fun h => h <| prev_phys := prev |>)) ;;
           mret prev
         else mret (tptr t)) ≫= k) s Q.
Proof.
  intros Hl Hk prev. subst prev.
  destruct l1 as [|u l1 _] using rev_ind.
  { apply runs_bind, runs_ret. cbn iota. apply runs_bind, runs_ret.
    eapply Hk; [by constructor|done|done|done]. }
  destruct Hl as [Hok Hu Hfree Hfl]. rewrite final_tptr, last_snoc.
  rewrite <- app_assoc in Hok. cbn [app] in Hok.
  assert (u ∈ l1 ++ u :: t :: l2) as Hin by (rewrite elem_of_app, elem_of_cons; tauto).
  eapply step_is_free_neighbour; [by eapply ok_flag|by eapply ok_good|].
  destruct (t_used u) eqn:Eu; simpl negb; cbn iota.
  - apply runs_bind, runs_ret. apply (Hk s (l1 ++ [u]) t fl); [|split; [by rewrite <- app_assoc|done..]|done|done].
    apply jl_none. intros u'. rewrite last_snoc. by intros [= ->].
  - apply runs_bind. apply runs_bind.
    assert (free_addrs ((l1 ++ [u]) ++ l2) ≡ₚ t_addr u :: free_addrs (l1 ++ l2)) as Efa.
    { rewrite !free_addrs_app, free_addrs_free by done. rewrite <- app_assoc. simpl.
      by rewrite Permutation_middle. }
    rewrite Efa in Hfl. apply (unlink_spec _ _ _ _ _ Hfree Hfl).
    intros s1 fl' Hfree' Hfl' Hord F1.
    pose proof (frame_free_tiles _ _ _ _ _ F1 Hok) as Hok1.
    eapply (join_spec _ s1 l1 u t l2 _ (fun m => m ;; mret (tptr u))); [intros m' s' Hm; exact (runs_bind _ _ _ _ Hm)|done|].
    intros s2 Hok2 F2.
    apply runs_ret. eapply (Hk s2 l1 (mk_tile (t_addr u) (t_size u + t_size t) false)).
    + by eapply jl_join.
    + split; [done|done|by eapply frame_phys_free|done].
    + assert (t_addr u ∈ fl) as (f1 & f2 & E)%list_elem_of_split by (rewrite Hfl; by left).
      rewrite (Hord _ _ E), E. apply sublist_app; [done|]. by constructor.
    + destruct F1 as (_ & _ & E1), F2 as (_ & E2). congruence.
Qed.

Lemma join_next_spec {B} (Q : B -> mm -> Prop) s l1 t l2 fl (k : unit -> M mm B) :
  limbo s base limit l1 t l2 fl ->
  (forall s' t' l2' fl', join_right t l2 t' l2' -> limbo s' base limit l1 t' l2' fl' ->
     fl' `sublist_of` fl -> counters s' = counters s -> t_addr t' = t_addr t -> runs (k tt) s' Q) ->
  let next := first BNull (tptr <$> l2) in
  runs (free_next ← is_free_neighbour next;
        (if free_next : bool then
           free_list_remove next ;;
           sb ← block_size (tptr t); sn ← block_size next;
           store (tptr t) (fun h => h <| size_and_flags := u64 (sb + sn) |>) ;;
           n ← load next;
           store (tptr t) (fun h => h <| next_phys := next_phys n |>) ;;
           n ← load next;
           when (bool_decide (next_phys n <> BNull))
             (store (next_phys n) (fun h => h <| prev_phys := tptr t |>))
         else mret tt) ≫= k) s Q.
Proof.
  intros Hl Hk next. subst next.
  destruct l2 as [|u l2].
  { apply runs_bind, runs_ret. cbn iota. apply runs_bind, runs_ret.
    apply (Hk s t [] fl); [by apply jr_none|done..]. }
  destruct Hl as [Hok Hu Hfree Hfl]. rewrite first_tptr. cbn [head].
  assert (u ∈ l1 ++ t :: u :: l2) as Hin by (rewrite elem_of_app, !elem_of_cons; tauto).
  eapply step_is_free_neighbour; [by eapply ok_flag|by eapply ok_good|].
  destruct (t_used u) eqn:Eu; simpl negb; cbn iota.
  - apply runs_bind, runs_ret. apply (Hk s t (u :: l2) fl); [|done..].
    apply jr_none. by intros u' [= ->].
  - apply runs_bind. apply runs_bind.
    assert (free_addrs (l1 ++ u :: l2) ≡ₚ t_addr u :: free_addrs (l1 ++ l2)) as Efa.
    { change (u :: l2) with ([u] ++ l2). rewrite !free_addrs_app, free_addrs_free by done. simpl.
      by rewrite Permutation_middle. }
    rewrite Efa in Hfl. apply (unlink_spec _ _ _ _ _ Hfree Hfl).
    intros s1 fl' Hfree' Hfl' Hord F1.
    pose proof (frame_free_tiles _ _ _ _ _ F1 Hok) as Hok1.
    eapply (join_spec _ s1 l1 t u l2 _ (fun m => m)); [done|done|].
    intros s2 Hok2 F2. apply (Hk s2 (mk_tile (t_addr t) (t_size t + t_size u) false) l2 fl').
    + by eapply jr_join.
    + split; [done|done|by eapply frame_phys_free|done].
    + assert (t_addr u ∈ fl) as (f1 & f2 & E)%list_elem_of_split by (rewrite Hfl; by left).
      rewrite (Hord _ _ E), E. apply sublist_app; [done|]. by constructor.
    + destruct F1 as (_ & _ & E1), F2 as (_ & E2). congruence.
    + done.
Qed.

Lemma coalesce_spec s l1 t l2 fl (Q : bptr -> mm -> Prop) :
  limbo s base limit l1 t l2 fl ->
  (forall s' l1' t1 t' l2' fl', join_left l1 t l1' t1 -> join_right t1 l2 t' l2' ->
     limbo s' base limit l1' t' l2' fl' -> fl' `sublist_of` fl -> counters s' = counters s ->
     Q (tptr t') s') ->
  runs (coalesce_with_neighbors (tptr t)) s Q.
Proof.
  intros Hl HQ. unfold coalesce_with_neighbors.
  apply (step_load_pv _ _ _ _ _ _ (limbo_phys _ _ _ _ _ Hl)). intros b -> ->.
  eapply join_prev_spec; [done|]. intros s1 l1' t1 fl1 J1 L1 F1 C1.
  eapply join_next_spec; [done|]. intros s2 t2 l2' fl2 J2 L2 F2 C2 Ea.
  apply runs_ret. unfold tptr. rewrite <- Ea.
  eapply HQ; [done|done|done|by etrans|congruence].
Qed.
End Limbo.

(** ** Merging a coalesced heap around one freed block *)

Lemma cons_merge_used t l : t_used t = true -> cons_merge t l = t :: l.
Proof. intros E. destruct l; simpl; [done|]. by rewrite E. Qed.

Lemma merge_coalesced l : coalesced l -> merge l = l.
Proof.
  induction l as [|t l IH]; [done|]. intros H. unfold merge. simpl. fold (merge l).
  destruct l as [|u l]; [done|]. destruct H as [E H]. rewrite IH by done. simpl. by rewrite E.
Qed.

Lemma coalesced_app l1 l2 : coalesced (l1 ++ l2) -> coalesced l1 /\ coalesced l2.
Proof.
  induction l1 as [|t l1 IH]; [done|]. intros H.
  destruct l1 as [|u l1]; simpl in *.
  - split; [done|]. destruct l2; tauto.
  - destruct H as [H1 H2]. apply IH in H2. tauto.
Qed.

Lemma fold_merge_app l : forall x r,
  coalesced (l ++ [x]) -> (exists y r', r = y :: r' /\ t_used y = t_used x) ->
  foldr cons_merge r l = l ++ r.
Proof.
  induction l as [|t l IH]; intros x r H (y & r' & -> & E); [done|]. simpl.
  rewrite (IH x) by (destruct l; simpl in *; tauto || (exists y, r'; done)).
  destruct l as [|u l]; simpl in *.
  - rewrite E. destruct H as [-> _]. done.
  - destruct H as [-> _]. done.
Qed.

Lemma fold_merge_snoc l u : forall r,
  coalesced (l ++ [u]) -> t_used u = true -> foldr cons_merge r (l ++ [u]) = l ++ u :: r.
Proof.
  intros r H E. rewrite foldr_app. simpl. rewrite cons_merge_used by done.
  apply (fold_merge_app _ u); [done|]. by exists u, r.
Qed.

Lemma coalesced_glue k x x' l :
  coalesced (k ++ [x]) -> coalesced (x' :: l) -> t_used x = t_used x' -> coalesced (k ++ x' :: l).
Proof.
  intros H1 H2 E. induction k as [|t k IH]; [done|].
  destruct k as [|u k].
  - destruct H1 as [H1 _]. split; [by rewrite <- E|done].
  - destruct H1 as [H1 H1']. split; [done|]. by apply IH.
Qed.

Lemma coalesced_head x x' l : coalesced (x :: l) -> t_used x = t_used x' -> coalesced (x' :: l).
Proof. intros H E. destruct l as [|u l]; [done|]. destruct H as [H1 H2]. split; [by rewrite <- E|done]. Qed.

(** A block whose left neighbour is in use ends up in front of what is on its right. *)
Lemma coalesced_after_used l1 r :
  coalesced l1 -> coalesced r -> (forall u, last l1 = Some u -> t_used u = true) -> coalesced (l1 ++ r).
Proof.
  intros H1 H2 Hl. destruct l1 as [|u l1 _] using rev_ind; [done|].
  rewrite <- app_assoc. apply (coalesced_glue _ u); [done| |done]. simpl.
  destruct r; [done|]. by rewrite (Hl u) by by rewrite last_snoc.
Qed.

Lemma fold_merge_after_used l1 r :
  coalesced l1 -> (forall u, last l1 = Some u -> t_used u = true) -> foldr cons_merge r l1 = l1 ++ r.
Proof.
  intros H1 Hl. destruct l1 as [|u l1 _] using rev_ind; [done|].
  rewrite fold_merge_snoc, <- app_assoc; [done|done|]. apply Hl. by rewrite last_snoc.
Qed.

(** The two joins compute the merge of the whole heap. *)
Lemma join_merge l1 t l2 l1' t1 t' l2' :
  coalesced l1 -> coalesced l2 -> t_used t = false ->
  join_left l1 t l1' t1 -> join_right t1 l2 t' l2' ->
  merge (l1 ++ t :: l2) = l1' ++ t' :: l2' /\ coalesced (l1' ++ t' :: l2').
Proof.
  intros H1 H2 Et J1 J2.
  assert (merge (l1 ++ t :: l2) = foldr cons_merge (cons_merge t l2) l1) as ->.
  { unfold merge. rewrite foldr_app. simpl. fold (merge l2). by rewrite merge_coalesced. }
  assert (forall x, t_used x = false -> (forall v, head l2 = Some v -> t_used v = true) -> coalesced (x :: l2)) as C2.
  { intros x _ Hv. destruct l2 as [|v l2]; [done|]. split; [|done]. rewrite (Hv v) by done. apply orb_true_r. }
  assert (forall x, (forall v, head l2 = Some v -> t_used v = true) -> cons_merge x l2 = x :: l2) as M2.
  { intros x Hv. destruct l2 as [|v l2]; [done|]. simpl. rewrite (Hv v) by done. by rewrite orb_true_r. }
  inversion J1 as [Hu|k u Hk Hu]; subst; inversion J2 as [Hv|k' v Hk' Hv]; subst.
  - rewrite M2 by done. split; [by apply fold_merge_after_used|]. apply coalesced_after_used; auto.
  - simpl. rewrite Et, Hv. simpl. split; [by apply fold_merge_after_used|].
    apply coalesced_after_used; [done| |done]. by apply (coalesced_head v).
  - rewrite M2 by done. rewrite foldr_app. simpl. rewrite Hu, Et. simpl. split.
    + apply (fold_merge_app _ u); [done|]. by eexists _, _.
    + apply (coalesced_glue _ u); [done|by apply C2|done].
  - simpl. rewrite Et, Hv. simpl. rewrite foldr_app. simpl. rewrite Hu. simpl. rewrite Z.add_assoc. split.
    + apply (fold_merge_app _ u); [done|]. by eexists _, _.
    + apply (coalesced_glue _ u); [done| |done]. by apply (coalesced_head v).
Qed.

(** ** Looking for a block *)

(** A free tile is in the list, and only free tiles are. *)
Lemma free_addrs_elem ts a : a ∈ free_addrs ts <-> exists t, t ∈ ts /\ t_addr t = a /\ t_used t = false.
Proof.
  unfold free_addrs. rewrite list_elem_of_fmap. split.
  - intros (t & -> & [E H]%list_elem_of_filter). eauto.
  - intros (t & H & <- & E). exists t. by rewrite list_elem_of_filter.
Qed.

Lemma first_fit_some size_of req fl a : first_fit size_of req fl = Some a -> a ∈ fl /\ req <= size_of a.
Proof.
  induction fl as [|b fl IH]; simpl; [done|]. rewrite Z.geb_leb.
  destruct (Z.leb_spec req (size_of b)); [intros [= ->]; split; [by left|done]|].
  intros [? ?]%IH. split; [by right|done].
Qed.

Lemma tile_size_notin ts a : a ∉ t_addr <$> ts -> tile_size ts a = 0.
Proof.
  induction ts as [|t ts IH]; intros H; [done|]. simpl in *. apply not_elem_of_cons in H as [H1 H2].
  destruct (Z.eqb_spec (t_addr t) a); [congruence|]. by apply IH.
Qed.

Lemma tile_size_in l1 t l2 : t_addr t ∉ t_addr <$> l1 -> tile_size (l1 ++ t :: l2) (t_addr t) = t_size t.
Proof.
  induction l1 as [|u l1 IH]; intros H; simpl in *; [by rewrite Z.eqb_refl|].
  apply not_elem_of_cons in H as [H1 H2]. destruct (Z.eqb_spec (t_addr u) (t_addr t)); [congruence|].
  by apply IH.
Qed.

Section Wf.
Context (s : mm) (base limit : Z) (ts : list tile) (fl : list Z) (H : heap_wf s base limit ts fl).

Lemma wf_split t : t ∈ ts -> exists l1 l2, ts = l1 ++ t :: l2 /\
  (t_addr t ∉ t_addr <$> l1) /\ (t_addr t ∉ t_addr <$> l2).
Proof.
  intros (l1 & l2 & ->)%list_elem_of_split. exists l1, l2. split; [done|].
  destruct (wf_tiles _ _ _ _ _ H) as [_ H3 H4 _ _]. pose proof (contiguous_nodup _ _ _ H3 H4) as Hnd.
  rewrite fmap_app in Hnd. apply NoDup_app in Hnd as (_ & Hd & [H2 _]%NoDup_cons).
  split; [|done]. intros H1. apply (Hd _ H1). by left.
Qed.

Lemma wf_free_tile a : a ∈ fl -> exists t, t ∈ ts /\ t_addr t = a /\ t_used t = false.
Proof. rewrite (wf_fl _ _ _ _ _ H). apply free_addrs_elem. Qed.

Lemma wf_free_size a : a ∈ fl ->
  sv s (BBlk a) = Some (tile_size ts a + cbool false) /\ good_size (tile_size ts a) /\
  min_block_size <= tile_size ts a.
Proof.
  intros (t & Ht & <- & Eu)%wf_free_tile.
  destruct (wf_split t Ht) as (l1 & l2 & E & Hn & _).
  rewrite E, tile_size_in, <- Eu by done. split; [|exact (ok_good _ _ _ _ (wf_tiles _ _ _ _ _ H) t Ht)].
  rewrite <- (ok_flag _ _ _ _ (wf_tiles _ _ _ _ _ H) t Ht). done.
Qed.

Lemma wf_fl_length : (length fl <= size (heap s))%nat.
Proof.
  destruct (wf_free _ _ _ _ _ H) as [[_ Hnd]%NoDup_cons _]. apply (NoDup_fmap_1 BBlk) in Hnd.
  apply length_le_size; [done|]. intros a Ha.
  destruct (wf_free_size a Ha) as [Hs _]. by apply (sv_is_node s (BBlk a)).
Qed.

Lemma wf_next f1 a f2 : fl = f1 ++ a :: f2 ->
  exists x, fv s (BBlk a) = Some (x, first BSentinel (BBlk <$> f2)).
Proof.
  intros E. pose proof (wf_free _ _ _ _ _ H) as Hc. rewrite E, fmap_app, fmap_cons in Hc.
  eexists. by apply cdll_lookup in Hc.
Qed.

(** The walk over the rest [f2] of the free list. *)
Lemma find_first_fit_loop req f2 : forall f1 fuel (Q : bptr -> mm -> Prop),
  fl = f1 ++ f2 -> (length f2 < fuel)%nat ->
  Q (match first_fit (tile_size ts) req f2 with Some a => BBlk a | None => BNull end) s ->
  runs (while_fuel fuel (find_first_fit_step req) (first BSentinel (BBlk <$> f2))) s Q.
Proof.
  induction f2 as [|a f2 IH]; intros f1 fuel Q E Hfuel HQ; (destruct fuel as [|n]; [simpl in *; lia|]).
  - apply runs_bind, runs_ret, runs_ret. done.
  - simpl in HQ, Hfuel. cbn [while_fuel]. apply runs_bind. unfold find_first_fit_step. simpl first.
    assert (a ∈ fl) as Ha by (rewrite E, elem_of_app; right; by left).
    destruct (wf_free_size a Ha) as (Hs & Hg & _). destruct (wf_next f1 a f2 E) as [x Hx].
    rewrite decide_False by done.
    eapply step_block_size; [done|done|]. destruct (tile_size ts a >=? req).
    + by apply runs_ret, runs_ret.
    + apply (step_load_fv _ _ _ _ _ _ Hx). intros b _ ->. apply runs_ret.
      apply (IH (f1 ++ [a])); [by rewrite <- app_assoc|lia|done].
Qed.

Lemma find_first_fit_spec req (Q : bptr -> mm -> Prop) :
  Q (match first_fit (tile_size ts) req fl with Some a => BBlk a | None => BNull end) s ->
  runs (find_first_fit req) s Q.
Proof.
  intros HQ. unfold find_first_fit. apply runs_bind, runs_gets.
  apply (step_load_fv _ _ _ _ _ _ (cdll_sentinel _ _ _ (wf_free _ _ _ _ _ H))).
  intros b _ ->. apply (find_first_fit_loop req fl []); [done| |done].
  pose proof wf_fl_length. lia.
Qed.
End Wf.

(** ** Splitting a block *)

Lemma step_store_new {B} (Q : B -> mm -> Prop) s a n (k : unit -> M mm B) :
  (forall s', (forall q, sv s' q = if decide (q = BBlk a) then Some n else sv s q) ->
     (forall q, q <> BBlk a -> pv s' q = pv s q) -> (forall q, q <> BBlk a -> fv s' q = fv s q) ->
     counters s' = counters s -> runs (k tt) s' Q) ->
  runs (store (BBlk a) (fun h => h <| size_and_flags := n |>) ≫= k) s Q.
Proof.
  intros Hk. apply runs_bind, runs_store; [done|].
  apply Hk; [| | |apply counters_upd]; intros q; unfold sv, pv, fv; rewrite node_upd by done;
    case_decide; done.
Qed.

Section Tiles.
Context (base limit : Z).

Lemma ok_inside s ts t k :
  tiles_ok s base limit ts -> t ∈ ts -> 0 < k < t_size t -> BBlk (t_addr t + k) ∉ tptr <$> ts.
Proof.
  intros Hok (l1 & l2 & ->)%list_elem_of_split Hk (u & E & Hu)%list_elem_of_fmap.
  destruct Hok as [_ H3 H4 _ _]. unfold tptr in E. injection E as E.
  apply contiguous_app in H3 as (m & H1 & <- & H2). apply Forall_app in H4 as [Hz1 [_ Hz2]%Forall_cons].
  apply elem_of_app in Hu as [Hu|[->|Hu]%elem_of_cons].
  - rewrite Forall_forall in Hz1. pose proof (contiguous_bounds _ _ _ _ H1 ltac:(by apply Forall_forall) Hu).
    destruct (Hz1 u Hu). mm_consts. lia.
  - lia.
  - pose proof (contiguous_bounds _ _ _ _ H2 Hz2 Hu). lia.
Qed.

(** Rewriting the header of one block as that of two. *)
Lemma tiles_ok_cut s s' l1 t req u v l2 :
  tiles_ok s base limit (l1 ++ t :: l2) ->
  min_block_size <= req -> req mod 8 = 0 -> min_block_size <= t_size t - req ->
  dll (pv s') BNull ((tptr <$> l1) ++ tptr t :: BBlk (t_addr t + req) :: (tptr <$> l2)) BNull ->
  (forall q, sv s' q = if decide (q = tptr t) then Some (req + cbool u) else
                       if decide (q = BBlk (t_addr t + req)) then Some (t_size t - req + cbool v) else sv s q) ->
  tiles_ok s' base limit (l1 ++ mk_tile (t_addr t) req u :: mk_tile (t_addr t + req) (t_size t - req) v :: l2).
Proof.
  intros Hok Hm He Hr Hd Hs. pose proof (ok_nodup _ _ _ _ Hok) as Hnd.
  assert (BBlk (t_addr t + req) ∉ tptr <$> (l1 ++ t :: l2)) as Hnew.
  { apply (ok_inside s); [done|rewrite elem_of_app, elem_of_cons; tauto|mm_consts; lia]. }
  destruct Hok as [Hb Ht Hz Hf _].
  apply contiguous_app in Ht as (m & Ht1 & <- & Ht2).
  apply Forall_app in Hz as [Hz1 [Hzt Hz2]%Forall_cons].
  apply Forall_app in Hf as [Hf1 [Hft Hf2]%Forall_cons].
  rewrite fmap_app in Hnd, Hnew. apply NoDup_app in Hnd as (_ & Hdis & [Hnt _]%NoDup_cons).
  apply not_elem_of_app in Hnew as [Hnew1 [_ Hnew2]%not_elem_of_cons].
  assert (forall l, tptr t ∉ tptr <$> l -> BBlk (t_addr t + req) ∉ tptr <$> l ->
    Forall (fun t => sv s (tptr t) = Some (tflags t)) l ->
    Forall (fun t => sv s' (tptr t) = Some (tflags t)) l) as Hkeep.
  { intros l Hl1 Hl2 Hfl. apply Forall_forall. intros x Hx. rewrite Forall_forall in Hfl.
    rewrite Hs, !decide_False; [by apply Hfl|..].
    - intros E. apply Hl2. rewrite <- E. by apply list_elem_of_fmap_2.
    - intros E. apply Hl1. rewrite <- E. by apply list_elem_of_fmap_2. }
  assert (tptr t ∉ tptr <$> l1) as Hnt1 by (intros Hx; apply (Hdis _ Hx); by left).
  split.
  - done.
  - apply contiguous_app. exists (t_addr t). split; [done|]. split; [done|]. split; [done|].
    cbn [t_size]. replace (t_addr t + req + (t_size t - req)) with (t_addr t + t_size t) by lia. done.
  - apply Forall_app. split; [done|]. apply Forall_cons. split; [by split|].
    apply Forall_cons. split; [|done]. split; [done|]. simpl. destruct Hzt. dlia.
  - apply Forall_app. split; [by apply Hkeep|]. apply Forall_cons. split; [|apply Forall_cons; split].
    + rewrite Hs, decide_True by done. done.
    + rewrite Hs, decide_False, decide_True; [done|done|]. intros [= E]. mm_consts. lia.
    + by apply Hkeep.
  - rewrite fmap_app. done.
Qed.

(** Rewriting the allocation bit of a header. *)
Lemma tiles_ok_mark s s' l1 t u l2 :
  tiles_ok s base limit (l1 ++ t :: l2) ->
  same (pv s') (pv s) ->
  (forall q, sv s' q = if decide (q = tptr t) then Some (t_size t + cbool u) else sv s q) ->
  tiles_ok s' base limit (l1 ++ mk_tile (t_addr t) (t_size t) u :: l2).
Proof.
  intros Hok Hp Hs. pose proof (ok_nodup _ _ _ _ Hok) as Hnd. destruct Hok as [Hb Ht Hz Hf Hd].
  apply Forall_app in Hz as [Hz1 [Hzt Hz2]%Forall_cons].
  apply Forall_app in Hf as [Hf1 [Hft Hf2]%Forall_cons].
  rewrite fmap_app in Hnd. apply NoDup_app in Hnd as (_ & Hdis & [Hnt _]%NoDup_cons).
  assert (forall l, tptr t ∉ tptr <$> l ->
    Forall (fun t => sv s (tptr t) = Some (tflags t)) l ->
    Forall (fun t => sv s' (tptr t) = Some (tflags t)) l) as Hkeep.
  { intros l Hl Hfl. apply Forall_forall. intros x Hx. rewrite Forall_forall in Hfl.
    rewrite Hs, decide_False; [by apply Hfl|]. intros E. apply Hl. rewrite <- E. by apply list_elem_of_fmap_2. }
  assert (tptr t ∉ tptr <$> l1) as Hnt1 by (intros Hx; apply (Hdis _ Hx); by left).
  split; [done|..].
  - apply contiguous_app. apply contiguous_app in Ht. done.
  - apply Forall_app. split; [done|]. by apply Forall_cons.
  - apply Forall_app. split; [by apply Hkeep|]. apply Forall_cons. split; [|by apply Hkeep].
    rewrite Hs, decide_True by done. done.
  - rewrite Hp. rewrite fmap_app in Hd |- *. done.
Qed.
End Tiles.

Lemma step_relink_prev {B} (Q : B -> mm -> Prop) s l y (k : unit -> M mm B) :
  (forall q, q ∈ l -> is_Some (node s q)) ->
  (forall s', same (pv s') (relink_prev (pv s) l y) -> same (sv s') (sv s) -> frame_phys s s' ->
     runs (k tt) s' Q) ->
  runs (when (bool_decide (first BNull l <> BNull))
          (store (first BNull l) (fun h => h <| prev_phys := y |>)) ≫= k) s Q.
Proof.
  intros Hl Hk. destruct l as [|z l]; [by apply runs_bind, runs_ret, Hk|].
  assert (is_Some (node s z)) as Nz by (apply Hl; by left).
  unfold first. cbn [head default]. rewrite bool_decide_true by by eapply node_not_null.
  apply step_set_prev_phys; [done|]. intros s' P S F. by apply Hk.
Qed.

(** The stores that put the header [y] between [x] and what follows it. *)
Lemma cut_stores_spec {B} (Q : B -> mm -> Prop) s l1 x a l2 nx req n (k : unit -> M mm B) :
  let y := BBlk a in
  NoDup (l1 ++ x :: l2) -> y ∉ l1 ++ x :: l2 ->
  dll (pv s) BNull (l1 ++ x :: l2) BNull ->
  sv s x = Some (nx + cbool false) -> good_size nx ->
  (forall s', dll (pv s') BNull (l1 ++ x :: y :: l2) BNull ->
     (forall q, sv s' q = if decide (q = x) then Some req else if decide (q = y) then Some n else sv s q) ->
     (forall q, q <> y -> fv s' q = fv s q) -> counters s' = counters s -> runs (k tt) s' Q) ->
  runs (store y (fun h => h <| size_and_flags := n |>) ;;
        store y (fun h => h <| prev_phys := x |>) ;;
        b ← load x;
        store y (fun h => h <| next_phys := next_phys b |>) ;;
        m ← load y;
        when (bool_decide (next_phys m <> BNull)) (store (next_phys m) (fun h => h <| prev_phys := y |>)) ;;
        store x (fun h => h <| next_phys := y |>) ;;
        b ← load x;
        store x (fun h => h <| size_and_flags := Z.lor req (Z.land (size_and_flags b) BLOCK_ALLOCATED_FLAG) |>) ≫= k)
       s Q.
Proof.
  intros y Hnd Hy Hd Sx Gx Hk.
  apply not_elem_of_app in Hy as [Hy1 [Hyx Hy2]%not_elem_of_cons].
  pose proof (dll_lookup _ _ _ _ _ _ _ Hd eq_refl) as Px.
  assert (x ∉ l2) as Hx2 by (apply NoDup_app in Hnd as (_ & _ & [? _]%NoDup_cons); done).
  apply step_store_new. intros s1 S1 P1 F1 C1.
  assert (is_Some (node s1 y)) as Ny1 by (apply sv_is_node; rewrite S1, decide_True by done; eauto).
  apply step_set_prev_phys; [done|]. intros s2 P2 S2 F2.
  assert (pv s2 x = pv s x) as Px2.
  { rewrite P2. unfold set_prev. rewrite decide_False by (intros E; by apply Hyx). by apply P1. }
  rewrite Px in Px2.
  apply (step_load_pv _ _ _ _ _ _ Px2). intros b _ ->.
  assert (is_Some (node s2 y)) as Ny2 by (apply sv_is_node; rewrite S2, S1, decide_True by done; eauto).
  apply step_set_next_phys; [done|]. intros s3 P3 S3 F3.
  assert (pv s3 y = Some (x, first BNull l2)) as Py.
  { rewrite P3. unfold set_next. rewrite decide_True, P2 by done. unfold set_prev. rewrite decide_True by done.
    unfold pv. destruct Ny1 as [b1 ->]. done. }
  assert (dll (pv s3) BNull (l1 ++ x :: l2) BNull) as Hd3.
  { eapply dll_ext; [exact Hd|]. intros q Hq.
    assert (q <> y) as Hqy by (intros ->; rewrite elem_of_app, elem_of_cons in Hq; tauto).
    rewrite P3. unfold set_next. rewrite decide_False, P2 by done. unfold set_prev.
    rewrite decide_False by done. by apply P1. }
  assert (NoDup (l1 ++ x :: y :: l2)) as Hnd3.
  { apply NoDup_app in Hnd as (N1 & N2 & [N3 N4]%NoDup_cons). apply NoDup_app. split; [done|]. split.
    - intros q Hq. rewrite !not_elem_of_cons. specialize (N2 q Hq). rewrite not_elem_of_cons in N2.
      split; [tauto|]. split; [by intros ->|tauto].
    - apply NoDup_cons. rewrite not_elem_of_cons. split; [split; [by intros <-|done]|]. by apply NoDup_cons. }
  pose proof (dll_insert_after _ _ _ _ _ _ _ Hnd3 Hd3 Py) as Hd4.
  apply (step_load_pv _ _ _ _ _ _ Py). intros b1 _ ->.
  apply step_relink_prev.
  { intros q Hq. apply pv_is_node. eapply dll_defined; [exact Hd3|]. rewrite elem_of_app, elem_of_cons. tauto. }
  intros s4 P4 S4 F4. rewrite <- P4 in Hd4.
  assert (sv s4 x = Some (nx + cbool false)) as Sx4.
  { rewrite S4, S3, S2, S1, decide_False; [done|]. intros E. by apply Hyx. }
  apply step_set_next_phys; [apply sv_is_node; by eexists|]. intros s5 P5 S5 F5.
  rewrite <- P5 in Hd4. rewrite <- S5 in Sx4.
  apply (step_load_sv _ _ _ _ _ Sx4). intros b2 ->. rewrite flags_bit by done. rewrite Z.lor_0_r.
  apply step_set_size; [apply sv_is_node; by eexists|]. intros s6 S6 P6 F6.
  apply Hk.
  - by rewrite P6.
  - intros q. rewrite S6. case_decide; [done|]. by rewrite S5, S4, S3, S2, S1.
  - intros q Hq. destruct F2 as [F2 _], F3 as [F3 _], F4 as [F4 _], F5 as [F5 _], F6 as [F6 _].
    rewrite F6, F5, F4, F3, F2. by apply F1.
  - destruct F2 as [_ ?], F3 as [_ ?], F4 as [_ ?], F5 as [_ ?], F6 as [_ ?]. congruence.
Qed.

(** A block outside the free list is put in front of it. *)
Lemma clear_links_spec {B} (Q : B -> mm -> Prop) s p l (k : unit -> M mm B) :
  is_Some (node s p) -> p ∉ BSentinel :: l -> cdll (fv s) BSentinel l ->
  (forall s', cdll (fv s') BSentinel l -> frame_free s s' -> runs (k tt) s' Q) ->
  runs (store p (fun h => h <| prev_free := BNull |>) ;;
        store p (fun h => h <| next_free := BNull |>) ≫= k) s Q.
Proof.
  intros Np Hp [Hnd Hc] Hk.
  apply step_set_prev_free; [done|]. intros s1 V1 F1.
  apply step_set_next_free; [by eapply frame_free_node|]. intros s2 V2 F2.
  apply Hk; [|by etrans]. split; [done|]. eapply dll_ext; [exact Hc|].
  intros q Hq. rewrite V2. unfold set_next. rewrite decide_False by by intros ->.
  rewrite V1. unfold set_prev. by rewrite decide_False by by intros ->.
Qed.

(** The block found, off the free list, is cut at [req]; the rest is free. *)
Lemma split_spec s base limit l1 t l2 fl req (Q : bptr -> mm -> Prop) :
  limbo s base limit l1 t l2 fl -> min_block_size <= req <= t_size t -> req mod 8 = 0 ->
  (t_size t < req + min_block_size -> Q (tptr t) s) ->
  (req + min_block_size <= t_size t -> forall s',
     limbo s' base limit l1 (mk_tile (t_addr t) req false)
       (mk_tile (t_addr t + req) (t_size t - req) false :: l2) (t_addr t + req :: fl) ->
     counters s' = counters s -> Q (tptr t) s') ->
  runs (split_block_if_possible (tptr t) req) s Q.
Proof.
  intros [Hok Hu Hfree Hfl] [Hm Hreq] He HQ1 HQ2.
  assert (t ∈ l1 ++ t :: l2) as Hin by (rewrite elem_of_app, elem_of_cons; tauto).
  destruct (ok_good _ _ _ _ Hok t Hin) as [Gt _]. pose proof (ok_flag _ _ _ _ Hok t Hin) as St.
  pose proof (ok_bounds _ _ _ _ Hok t Hin) as Bt.
  unfold split_block_if_possible. eapply step_block_size; [done|done|].
  change (sizeof_block_header + MM_ALIGNMENT) with min_block_size.
  rewrite (wrap_small 64 (req + min_block_size)) by (unfold good_size in *; mm_consts; lia).
  destruct (Z.ltb_spec (t_size t) (req + min_block_size)) as [Hlt|Hge]; [by apply runs_ret, HQ1|].
  assert (good_size (t_size t - req)) as Gn by (unfold good_size in *; mm_consts; split; dlia).
  rewrite (wrap_small 64 (t_size t - req)) by (unfold good_size in *; lia).
  apply runs_bind, runs_ret. rewrite (wrap_small 64 (t_addr t + req)) by (mm_consts; lia).
  pose proof (ok_inside base limit s _ t req Hok Hin ltac:(mm_consts; lia)) as Hnew.
  pose proof (ok_nodup _ _ _ _ Hok) as Hnd. pose proof (ok_phys _ _ _ _ Hok) as Hd.
  rewrite fmap_app in Hnd, Hnew, Hd. rewrite Hu in St.
  eapply (cut_stores_spec _ s _ _ _ _ _ _ _ _ Hnd Hnew Hd St Gt). intros s1 P1 S1 F1 C1.
  assert (BBlk (t_addr t + req) <> tptr t) as Hne by (intros [= E]; mm_consts; lia).
  eapply (step_mark_free _ s1 _ (t_size t - req) false); [|done|].
  { rewrite S1, decide_False, decide_True by done. by rewrite Z.add_0_r. }
  intros s2 S2 P2 [F2 C2].
  assert (BBlk (t_addr t + req) ∉ BSentinel :: (BBlk <$> fl)) as Hnl.
  { apply not_elem_of_cons. split; [done|]. intros (a & [= <-] & Ha)%list_elem_of_fmap.
    rewrite Hfl in Ha. apply free_addrs_elem in Ha as (u & Hiu & Ea & _).
    apply (ok_inside base limit s _ t req Hok Hin ltac:(mm_consts; lia)).
    rewrite <- Ea. apply (list_elem_of_fmap_2 tptr). rewrite elem_of_app, elem_of_cons.
    apply elem_of_app in Hiu. tauto. }
  assert (cdll (fv s2) BSentinel (BBlk <$> fl)) as Hc2.
  { rewrite F2. destruct Hfree as [Hn Hc]. split; [done|]. eapply dll_ext; [exact Hc|].
    intros q Hq. apply F1. by intros ->. }
  assert (is_Some (node s2 (BBlk (t_addr t + req)))) as Nn.
  { apply sv_is_node. rewrite S2, decide_True by done. by eexists. }
  apply clear_links_spec with (BBlk <$> fl); [done|done|done|]. intros s3 Hc3 F3.
  apply runs_bind. apply (free_list_insert_spec _ _ _ _ Hc3 Hnl); [by eapply frame_free_node|].
  intros s4 Hc4 F4. apply runs_ret. assert (frame_free s2 s4) as (S4 & P4 & C4) by by etrans.
  apply HQ2; [done| |congruence]. split; [|done|done|].
  - eapply (tiles_ok_cut base limit s s4); [done|done|done|lia| |].
    + by rewrite P4, P2.
    + intros q. rewrite S4, S2. case_decide; [|by rewrite S1; repeat case_decide; rewrite ?Z.add_0_r].
      rewrite decide_False by congruence. done.
  - simpl. rewrite Hfl, !free_addrs_app. rewrite (Permutation_middle (free_addrs l1)). done.
Qed.

(** ** Accounting *)

Lemma used_bytes_app l1 l2 : used_bytes_of (l1 ++ l2) = used_bytes_of l1 + used_bytes_of l2.
Proof. induction l1 as [|t l1 IH]; simpl; [done|]. unfold used_bytes_of in *. simpl. lia. Qed.

Lemma used_bytes_cons t l : used_bytes_of (t :: l) = (if t_used t then tpayload t else 0) + used_bytes_of l.
Proof. done. Qed.

Lemma used_bytes_bounds ts : forall a e,
  contiguous a ts e -> Forall (fun t => min_block_size <= t_size t /\ t_size t mod 8 = 0) ts ->
  0 <= used_bytes_of ts <= e - a - sizeof_block_header * Z.of_nat (length ts).
Proof.
  induction ts as [|t ts IH]; intros a e H Hz; [simpl in *; lia|].
  destruct H as [_ H]. apply Forall_cons in Hz as [[Ht _] Hz]. specialize (IH _ _ H Hz).
  rewrite used_bytes_cons, length_cons, Nat2Z.inj_succ. unfold tpayload. mm_consts. destruct (t_used t); lia.
Qed.

Lemma used_bytes_merge ts : used_bytes_of (merge ts) = used_bytes_of ts.
Proof.
  induction ts as [|t ts IH]; [done|]. change (merge (t :: ts)) with (cons_merge t (merge ts)).
  rewrite used_bytes_cons, <- IH. destruct (merge ts) as [|u l]; [done|]. cbn [cons_merge].
  destruct (t_used t) eqn:Et; cbn [orb]; [by rewrite used_bytes_cons, Et|].
  destruct (t_used u) eqn:Eu; rewrite !used_bytes_cons, ?Et, ?Eu; cbn [t_used]; lia.
Qed.

Lemma required_size_good size :
  min_block_size <= required_size_for size < 2 ^ 64 /\ required_size_for size mod 8 = 0.
Proof.
  unfold required_size_for, align_up. mm_consts.
  change (bnot 64 (u64 (16 - 1))) with (bnot 64 (2 ^ 4 - 1)).
  pose proof (wrap_range 64 (size + 16 - 1) ltac:(lia)) as Hr. rewrite land_align by lia.
  set (x := u64 (size + 16 - 1)) in *.
  set (y := x - x mod 2 ^ 4 + 40).
  pose proof (wrap_range 64 y ltac:(lia)) as Hy.
  destruct (Z.ltb_spec (u64 y) 56); [done|]. split; [lia|].
  unfold wrap, y in *. clearbody x. change (2 ^ 4) with 16 in *. clear y. dlia.
Qed.

(** No overflow: the size is rounded up to the alignment and the header added. *)
Lemma required_size_exact size :
  0 < size <= 2 ^ 64 - 64 -> required_size_for size = (size + 15) / 16 * 16 + sizeof_block_header.
Proof.
  intros Hs. unfold required_size_for, align_up. mm_consts.
  change (bnot 64 (u64 (16 - 1))) with (bnot 64 (2 ^ 4 - 1)).
  rewrite (wrap_small 64 (size + 16 - 1)) by lia. rewrite land_align by lia.
  change (2 ^ 4) with 16.
  assert (size + 16 - 1 - (size + 16 - 1) mod 16 = (size + 15) / 16 * 16) as -> by dlia.
  rewrite wrap_small by dlia. destruct (Z.ltb_spec ((size + 15) / 16 * 16 + 40) 56); [dlia|done].
Qed.

(** ** Allocation *)

(** The free list after [a] was taken from it and carved at [req]. *)
Definition carve_free (a req : Z) (ts : list tile) (fl : list Z) : list Z :=
  (if tile_size ts a <? req + min_block_size then [] else [a + req]) ++ filter (fun b => b <> a) fl.

Lemma carve_app a req l1 t l2 :
  t_addr t = a -> a ∉ t_addr <$> l1 -> a ∉ t_addr <$> l2 ->
  carve a req (l1 ++ t :: l2) = l1 ++ carve_tile a req t ++ l2.
Proof.
  intros E H1 H2.
  assert (forall l, a ∉ t_addr <$> l -> carve a req l = l) as Hid.
  { induction l as [|u l IH]; intros Hl; [done|].
    apply not_elem_of_cons in Hl as [Hu Hl]. unfold carve in *. rewrite bind_cons, IH by done.
    unfold carve_tile. destruct (Z.eqb_spec (t_addr u) a); [congruence|done]. }
  unfold carve in *. by rewrite bind_app, bind_cons, (Hid l1), (Hid l2).
Qed.

Lemma release_app a l1 t l2 :
  t_addr t = a -> a ∉ t_addr <$> l1 -> a ∉ t_addr <$> l2 ->
  release a (l1 ++ t :: l2) = merge (l1 ++ mk_tile a (t_size t) false :: l2).
Proof.
  intros E H1 H2. unfold release.
  assert (forall l : list tile, a ∉ t_addr <$> l -> free_tile a <$> l = l) as Hid.
  { induction l as [|u l IH]; intros Hl; [done|].
    apply not_elem_of_cons in Hl as [Hu Hl]. rewrite fmap_cons, IH by done.
    unfold free_tile. destruct (Z.eqb_spec (t_addr u) a); [congruence|done]. }
  rewrite fmap_app, fmap_cons, (Hid l1), (Hid l2) by done. unfold free_tile. by rewrite E, Z.eqb_refl.
Qed.

Lemma filter_ne_id (a : Z) (l : list Z) : a ∉ l -> filter (fun b => b <> a) l = l.
Proof.
  induction l as [|b l IH]; intros H; [done|]. apply not_elem_of_cons in H as [Hb Hl].
  rewrite filter_cons_True by done. by rewrite IH.
Qed.

Lemma filter_out (a : Z) (f1 f2 : list Z) : NoDup (f1 ++ a :: f2) -> filter (fun b => b <> a) (f1 ++ a :: f2) = f1 ++ f2.
Proof.
  intros (_ & Hd & [Ha _]%NoDup_cons)%NoDup_app. rewrite filter_app, filter_cons_False by tauto.
  rewrite !filter_ne_id; [done|done|]. intros Hi. apply (Hd _ Hi). by left.
Qed.

Lemma coalesced_used l1 t t' r l2 :
  coalesced (l1 ++ t :: l2) -> t_used t = false -> t_used t' = true ->
  (r = [] \/ exists v, r = [v]) -> coalesced (l1 ++ t' :: r ++ l2).
Proof.
  intros H Et Et' Hr.
  assert (coalesced (l1 ++ [t'])) as H1.
  { clear Hr. induction l1 as [|u l1 IH]; [done|].
    destruct l1 as [|v l1]; simpl in *; [by rewrite Et', orb_true_r|]. tauto. }
  apply coalesced_app in H as [_ H]. apply (coalesced_glue _ t'); [done| |done].
  destruct Hr as [->|[v ->]]; simpl.
  - destruct l2 as [|w l2]; [done|]. rewrite Et'. split; [done|]. apply H.
  - rewrite Et'. split; [done|]. destruct l2 as [|w l2]; [done|]. destruct H as [H1' H2]. rewrite Et in H1'.
    simpl in H1'. by rewrite H1', orb_true_r.
Qed.

(** The statistics other than the bytes in use. *)
Definition tallies (s : mm) : Z * Z * Z := (heap_allocation_count s, heap_free_count s, heap_failed_allocations s).

Lemma counters_inj s s' : counters s' = counters s ->
  mm_initialized_flag s' = mm_initialized_flag s /\ heap_capacity_bytes s' = heap_capacity_bytes s /\
  heap_used_bytes s' = heap_used_bytes s /\ tallies s' = tallies s.
Proof. unfold counters, tallies. intros [= -> -> -> -> -> ->]. done. Qed.

(** The state of the counters plays no part in the description of the blocks. *)
Lemma tiles_ok_views s s' base limit ts :
  same (sv s') (sv s) -> same (pv s') (pv s) -> tiles_ok s base limit ts -> tiles_ok s' base limit ts.
Proof.
  intros E1 E2 [H1 H2 H3 H4 H5]. split; [done..| |by rewrite E2].
  eapply Forall_impl; [exact H4|]. intros t Ht. by rewrite E1.
Qed.

Lemma join_addr base limit s l1 t l2 l1' t1 :
  tiles_ok s base limit (l1 ++ t :: l2) -> join_left l1 t l1' t1 -> t_addr t1 <= t_addr t.
Proof.
  intros [_ H3 H4 _ _] J. inversion J as [|k u]; subst; [done|]. simpl.
  apply contiguous_app in H3 as (m & H1 & <- & _).
  apply Forall_app in H4 as [H4 _].
  assert (u ∈ l1' ++ [u]) as Hu by (rewrite elem_of_app, elem_of_cons; tauto).
  pose proof (contiguous_bounds _ _ _ _ H1 H4 Hu). rewrite Forall_forall in H4. destruct (H4 u Hu). mm_consts. lia.
Qed.

Section MmEntry.
Context (eok base limit : Z).

Lemma wf_limbo s l1 t l2 fl :
  heap_wf s base limit (l1 ++ t :: l2) fl -> t_used t = false -> NoDup fl /\ forall s',
  frame_free s s' -> cdll (fv s') BSentinel (BBlk <$> filter (fun b => b <> t_addr t) fl) ->
  limbo s' base limit l1 t l2 (filter (fun b => b <> t_addr t) fl).
Proof.
  intros H Eu. destruct (wf_free _ _ _ _ _ H) as [[_ Hnd]%NoDup_cons _]. apply (NoDup_fmap_1 BBlk) in Hnd.
  split; [done|]. intros s' F Hc. split; [|done|done|].
  - eapply frame_free_tiles; [done|apply H].
  - pose proof (wf_fl _ _ _ _ _ H) as Hfl.
    assert (t_addr t ∈ fl) as (f1 & f2 & E)%list_elem_of_split.
    { rewrite Hfl. apply free_addrs_elem. exists t. rewrite elem_of_app, elem_of_cons. tauto. }
    rewrite E in Hnd, Hfl |- *. rewrite filter_out by done.
    change (t :: l2) with ([t] ++ l2) in Hfl. rewrite !free_addrs_app, (free_addrs_free t) in Hfl by done.
    simpl in Hfl. rewrite <- !Permutation_middle in Hfl. apply Permutation_cons_inv in Hfl.
    by rewrite free_addrs_app.
Qed.

Lemma views_counters s s' :
  free_list_sentinel s' = free_list_sentinel s -> heap s' = heap s ->
  same (sv s') (sv s) /\ same (pv s') (pv s) /\ same (fv s') (fv s).
Proof.
  intros E1 E2. assert (forall p, node s' p = node s p) as E.
  { intros [| |a]; simpl; [done|by rewrite E1|by rewrite E2]. }
  unfold sv, pv, fv. repeat split; intros p; by rewrite E.
Qed.

(** The end of [mm_alloc]: the block cut off is marked and accounted for. *)
Lemma take_spec s l1 t r fl (Q : Z -> mm -> Prop) :
  limbo s base limit l1 t r fl ->
  mm_initialized_flag s = 1 -> heap_capacity_bytes s = limit - base - sizeof_block_header ->
  heap_used_bytes s = used_bytes_of (l1 ++ t :: r) ->
  coalesced (l1 ++ mk_tile (t_addr t) (t_size t) true :: r) ->
  (forall s', heap_wf s' base limit (l1 ++ mk_tile (t_addr t) (t_size t) true :: r) fl ->
     tallies s' = (u64 (heap_allocation_count s + 1), heap_free_count s, heap_failed_allocations s) ->
     Q (t_addr t + sizeof_block_header) s') ->
  runs (block_mark_allocated (tptr t) ;;
        bs ← block_size (tptr t);
        let payload_size := u64 (bs - sizeof_block_header) in
        modify (fun s => s <| heap_used_bytes ::= fun n => u64 (n + payload_size) |>) ;;
        modify (fun s => if heap_used_bytes s >? heap_capacity_bytes s
                         then s <| heap_used_bytes := heap_capacity_bytes s |> else s) ;;
        modify (fun s => s <| heap_allocation_count ::= fun n => u64 (n + 1) |>) ;;
        result ← badd (tptr t) sizeof_block_header;
        match result with BBlk a => mret a | _ => fault end) s Q.
Proof.
  intros [Hok Hu Hfree Hfl] Hi Hcap Hused Hco HQ.
  assert (t ∈ l1 ++ t :: r) as Hin by (rewrite elem_of_app, elem_of_cons; tauto).
  destruct (ok_good _ _ _ _ Hok t Hin) as [Gt Mt]. pose proof (ok_bounds _ _ _ _ Hok t Hin) as Bt.
  eapply step_mark_allocated; [by eapply ok_flag|done|]. intros s1 S1 P1 [F1 C1].
  pose proof (tiles_ok_mark _ _ _ _ _ _ _ _ Hok P1 S1) as Hok1.
  eapply step_block_size; [rewrite S1, decide_True by done; done|done|]. cbv zeta.
  destruct (counters_inj _ _ C1) as (Hi1 & Hcap1 & Hused1 & Ht1). unfold tallies in Ht1. injection Ht1 as T1 T2 T3.
  rewrite (wrap_small 64 (t_size t - sizeof_block_header)) by (unfold good_size in *; mm_consts; lia).
  assert (used_bytes_of (l1 ++ mk_tile (t_addr t) (t_size t) true :: r)
          = heap_used_bytes s + (t_size t - sizeof_block_header)) as Eu.
  { rewrite Hused, !used_bytes_app, !used_bytes_cons, Hu. unfold tpayload. cbn [t_used t_size]. lia. }
  pose proof (used_bytes_bounds _ _ _ (ok_tiling _ _ _ _ Hok1) (ok_sizes _ _ _ _ Hok1)) as Hub.
  rewrite length_app, length_cons in Hub. pose proof (ok_range _ _ _ _ Hok) as Hr.
  apply runs_bind, runs_modify. apply runs_bind, runs_modify. cbn.
  rewrite (wrap_small 64 (heap_used_bytes s1 + _)) by (mm_consts; lia).
  replace (heap_used_bytes s1 + (t_size t - sizeof_block_header) >? heap_capacity_bytes s1) with false
    by (symmetry; rewrite Z.gtb_ltb; apply Z.ltb_ge; mm_consts; lia).
  apply runs_bind, runs_modify. apply runs_bind, runs_ret.
  rewrite (wrap_small 64 (t_addr t + _)) by (mm_consts; lia). apply runs_ret.
  set (s2 := set_heap_allocation_count _ _).
  destruct (views_counters s1 s2 eq_refl eq_refl) as (S2 & P2 & F2).
  apply HQ.
  - split; [by cbn; rewrite Hi1|by eapply tiles_ok_views| | |done|by cbn; rewrite Hcap1|].
    + by rewrite F2, F1.
    + rewrite Hfl. change (mk_tile (t_addr t) (t_size t) true :: r) with ([mk_tile (t_addr t) (t_size t) true] ++ r).
      by rewrite !free_addrs_app, free_addrs_used by done.
    + rewrite Eu, <- Hused1. cbn. apply wrap_small. mm_consts. lia.
  - unfold tallies. cbn. by rewrite T1, T2, T3.
Qed.

Lemma mm_alloc_spec s ts fl n (Q : Z -> mm -> Prop) :
  heap_wf s base limit ts fl -> n <> 0 ->
  let req := required_size_for n in
  match first_fit (tile_size ts) req fl with
  | None => Q 0 (s <| heap_failed_allocations ::= fun n => u64 (n + 1) |>)
  | Some a => forall s', heap_wf s' base limit (carve a req ts) (carve_free a req ts fl) ->
      tallies s' = (u64 (heap_allocation_count s + 1), heap_free_count s, heap_failed_allocations s) ->
      Q (a + sizeof_block_header) s'
  end ->
  runs (mm_alloc eok n) s Q.
Proof.
  intros H Hn req HQ. unfold mm_alloc, mm_ensure.
  apply runs_bind, runs_bind, runs_gets. rewrite (wf_init _ _ _ _ _ H). apply runs_ret. cbn [negb].
  destruct (Z.eqb_spec n 0) as [|_]; [done|].
  apply runs_bind, (find_first_fit_spec _ _ _ _ _ H). fold req.
  destruct (first_fit (tile_size ts) req fl) as [a|] eqn:Ef; cycle 1.
  { rewrite decide_True by done. by apply runs_bind, runs_modify, runs_ret. }
  rewrite decide_False by done.
  destruct (first_fit_some _ _ _ _ Ef) as [Ha Hsz].
  destruct (wf_free_tile _ _ _ _ _ H a Ha) as (t & Ht & <- & Eu).
  destruct (wf_split _ _ _ _ _ H t Ht) as (l1 & l2 & -> & N1 & N2).
  rewrite tile_size_in in Hsz by done. destruct (required_size_good n) as [Rm Re]. fold req in Rm, Re.
  destruct (wf_limbo _ _ _ _ _ H Eu) as [Hnd Hlimbo].
  pose proof Ha as (f1 & f2 & E)%list_elem_of_split.
  pose proof (wf_free _ _ _ _ _ H) as Hc. rewrite E, fmap_app, fmap_cons in Hc.
  apply runs_bind, (free_list_remove_spec _ _ _ _ _ Hc). intros s1 Hc1 F1.
  rewrite <- fmap_app, <- (filter_out (t_addr t)), <- E in Hc1 by by rewrite <- E.
  specialize (Hlimbo s1 F1 Hc1). destruct F1 as (_ & _ & C1).
  rewrite (carve_app _ _ _ t) in HQ by done. unfold carve_free, carve_tile in HQ.
  rewrite tile_size_in, Z.eqb_refl in HQ by done.
  destruct (counters_inj _ _ C1) as (Hi & Hcap & Hus & Hta). unfold tallies in Hta. injection Hta as T1 T2 T3.
  apply runs_bind, (split_spec _ _ _ _ _ _ _ _ _ Hlimbo); [lia|done|..].
  - intros Hlt. rewrite (proj2 (Z.ltb_lt _ _) Hlt) in HQ.
    eapply take_spec; [done|by rewrite Hi; apply H|by rewrite Hcap; apply H|by rewrite Hus; apply H| |].
    + apply (coalesced_used l1 t _ []); [apply H|done|done|by left].
    + intros s2 W2 T. apply HQ; [done|]. by rewrite T, T1, T2, T3.
  - intros Hge s2 L2 C2. rewrite (proj2 (Z.ltb_ge _ _) Hge) in HQ.
    destruct (counters_inj _ _ C2) as (Hi2 & Hcap2 & Hus2 & Hta2). unfold tallies in Hta2. injection Hta2 as U1 U2 U3.
    apply (take_spec _ _ _ _ _ _ L2);
      [by rewrite Hi2, Hi; apply H|by rewrite Hcap2, Hcap; apply H| | |].
    + rewrite Hus2, Hus, (wf_used _ _ _ _ _ H), !used_bytes_app, !used_bytes_cons, Eu. done.
    + apply (coalesced_used l1 t _ [_]); [apply H|done|done|by right; eexists].
    + intros s3 W3 T. apply HQ; [done|]. by rewrite T, U1, U2, U3, T1, T2, T3.
Qed.

(** A free block outside the free list is joined with its neighbours and listed. *)
Lemma give_back_spec s l1 t l2 fl (Q : unit -> mm -> Prop) :
  limbo s base limit l1 t l2 fl -> coalesced l1 -> coalesced l2 ->
  (forall s' a fl', tiles_ok s' base limit (merge (l1 ++ t :: l2)) -> coalesced (merge (l1 ++ t :: l2)) ->
     cdll (fv s') BSentinel (BBlk <$> (a :: fl')) -> a :: fl' ≡ₚ free_addrs (merge (l1 ++ t :: l2)) ->
     fl' `sublist_of` fl -> a <= t_addr t -> counters s' = counters s -> Q tt s') ->
  runs (block ← coalesce_with_neighbors (tptr t); free_list_insert block) s Q.
Proof.
  intros HL H1 H2 HQ. apply runs_bind. eapply coalesce_spec; [done|].
  intros s1 l1' t1 t2 l2' fl' J1 J2 L Hsub C.
  destruct (join_merge _ _ _ _ _ _ _ H1 H2 (lb_used _ _ _ _ _ _ _ HL) J1 J2) as [Em Hco].
  rewrite Em in HQ. destruct L as [Hok Eu Hc Hfl].
  assert (t2 ∈ l1' ++ t2 :: l2') as Hin by (rewrite elem_of_app, elem_of_cons; tauto).
  assert (tptr t2 ∉ BSentinel :: (BBlk <$> fl')) as Hn.
  { apply not_elem_of_cons. split; [done|]. intros (a & [= <-] & Ha)%list_elem_of_fmap.
    rewrite Hfl, free_addrs_app in Ha. pose proof (ok_nodup _ _ _ _ Hok) as Hnd. unfold tptr in Hnd.
    rewrite fmap_app, fmap_cons in Hnd. apply NoDup_app in Hnd as (_ & Hd & [Hnd _]%NoDup_cons).
    apply elem_of_app in Ha as [(u & Hu & E & _)%free_addrs_elem|(u & Hu & E & _)%free_addrs_elem].
    - apply (Hd (tptr u)); [by apply list_elem_of_fmap_2|]. unfold tptr. rewrite E. by left.
    - apply Hnd. rewrite <- E. by apply (list_elem_of_fmap_2 tptr). }
  apply (free_list_insert_spec _ _ _ _ Hc Hn); [apply sv_is_node; by erewrite ok_flag|].
  intros s2 Hc2 F2. pose proof (frame_free_tiles _ _ _ _ _ F2 Hok) as Hok2. destruct F2 as (_ & _ & C2).
  apply (HQ _ (t_addr t2) fl'); [done|done|done| |done| |congruence].
  - rewrite Hfl. change (t2 :: l2') with ([t2] ++ l2'). rewrite !free_addrs_app, (free_addrs_free t2) by done.
    simpl. by rewrite Permutation_middle.
  - destruct HL as [Hok0 _ _ _]. apply (join_addr _ _ _ _ _ _ _ _ Hok0) in J1. by inversion J2; subst.
Qed.

Lemma mm_free_spec s ts fl t (Q : unit -> mm -> Prop) :
  heap_wf s base limit ts fl -> t ∈ ts -> t_used t = true ->
  (forall s' a fl', heap_wf s' base limit (release (t_addr t) ts) (a :: fl') -> fl' `sublist_of` fl ->
     a <= t_addr t ->
     tallies s' = (heap_allocation_count s, u64 (heap_free_count s + 1), heap_failed_allocations s) ->
     Q tt s') ->
  runs (mm_free (t_addr t + sizeof_block_header)) s Q.
Proof.
  intros H Ht Eu HQ. destruct (wf_split _ _ _ _ _ H t Ht) as (l1 & l2 & -> & N1 & N2).
  pose proof (wf_tiles _ _ _ _ _ H) as Hok.
  destruct (ok_good _ _ _ _ Hok t Ht) as [Gt Mt]. pose proof (ok_bounds _ _ _ _ Hok t Ht) as Bt.
  unfold mm_free. apply runs_bind, runs_gets. rewrite (wf_init _ _ _ _ _ H).
  replace (t_addr t + sizeof_block_header =? 0) with false by (symmetry; apply Z.eqb_neq; mm_consts; lia).
  cbn [orb negb ctrue Z.eqb]. replace (t_addr t + sizeof_block_header - sizeof_block_header) with (t_addr t) by lia.
  rewrite wrap_small by (mm_consts; lia). fold (tptr t).
  eapply step_is_allocated; [by eapply ok_flag|done|]. rewrite Eu. cbn [negb].
  eapply step_mark_free; [by eapply ok_flag|done|]. intros s1 S1 P1 [F1 C1].
  pose proof (tiles_ok_mark _ _ _ _ _ _ _ _ Hok P1 S1) as Hok1.
  set (t' := mk_tile (t_addr t) (t_size t) false) in *.
  apply runs_bind, runs_modify. match goal with |- runs _ ?x _ => set (s2 := x) end.
  destruct (views_counters s1 s2 eq_refl eq_refl) as (S2 & P2 & F2).
  eapply step_block_size; [rewrite S2, S1, decide_True by done; done|done|].
  cbv zeta. apply runs_bind, runs_modify. match goal with |- runs _ ?x _ => set (s3 := x) end.
  destruct (views_counters s2 s3 eq_refl eq_refl) as (S3 & P3 & F3).
  rewrite S2 in S3. rewrite P2 in P3. rewrite F2, F1 in F3.
  pose proof (tiles_ok_views s1 s3 _ _ _ S3 P3 Hok1) as Hok3.
  assert (cdll (fv s3) BSentinel (BBlk <$> fl)) as Hc3 by (rewrite F3; apply H).
  assert (fl ≡ₚ free_addrs (l1 ++ l2)) as Hfl.
  { rewrite (wf_fl _ _ _ _ _ H). change (t :: l2) with ([t] ++ l2).
    by rewrite !free_addrs_app, (free_addrs_used t) by done. }
  assert (t_addr t ∉ fl) as Hnfl.
  { rewrite Hfl, free_addrs_elem. intros (u & Hu & E & _).
    apply elem_of_app in Hu as [Hu|Hu]; [apply N1|apply N2]; rewrite <- E; by apply list_elem_of_fmap_2. }
  apply clear_links_spec with (BBlk <$> fl); [| |done|].
  { apply sv_is_node. rewrite S3, S1, decide_True by done. by eexists. }
  { apply not_elem_of_cons. split; [done|]. intros (a & [= <-] & Ha)%list_elem_of_fmap. done. }
  intros s4 Hc4 F4. pose proof (frame_free_tiles _ _ _ _ _ F4 Hok3) as Hok4.
  change (tptr t) with (tptr t').
  pose proof (wf_coalesced _ _ _ _ _ H) as [Hco1 Hco2]%coalesced_app.
  apply (give_back_spec s4 l1 t' l2 fl); [done|done|by destruct l2; [|apply Hco2]|].
  unfold t'. rewrite <- (release_app (t_addr t) l1 t l2 eq_refl N1 N2).
  intros s5 a fl' Hok5 Hco5 Hc5 Hfl5 Hsub Hle C5.
  destruct F4 as (_ & _ & C4). rewrite C4 in C5. injection C5 as I5 K5 U5 A5 B5 D5.
  injection C1 as I1 K1 U1 A1 B1 D1.
  pose proof (used_bytes_bounds _ _ _ (ok_tiling _ _ _ _ Hok) (ok_sizes _ _ _ _ Hok)) as Hub.
  pose proof (used_bytes_bounds _ _ _ (ok_tiling _ _ _ _ Hok1) (ok_sizes _ _ _ _ Hok1)) as Hub1. unfold t' in Hub1.
  pose proof (ok_range _ _ _ _ Hok) as Hr.
  apply (HQ s5 a fl'); [|done|done|].
  - split; [|done..| |].
    + rewrite I5. cbn. rewrite I1. apply H.
    + rewrite K5. cbn. rewrite K1. apply H.
    + rewrite U5. cbn. rewrite U1, (wf_used _ _ _ _ _ H).
      rewrite (release_app (t_addr t) l1 t l2 eq_refl N1 N2), used_bytes_merge.
      rewrite !used_bytes_app, !used_bytes_cons in *. rewrite Eu in *. unfold tpayload in *. cbn [t_used t_size] in *.
      rewrite (wrap_small 64 (t_size t - _)) by (unfold good_size in *; mm_consts; lia).
      replace (used_bytes_of l1 + (t_size t - sizeof_block_header + used_bytes_of l2) >=? t_size t - sizeof_block_header)
        with true by (symmetry; rewrite Z.geb_leb; apply Z.leb_le; mm_consts; lia).
      rewrite wrap_small by (mm_consts; lia). lia.
  - unfold tallies. rewrite A5, B5, D5. cbn. by rewrite A1, B1, D1.
Qed.

(** Freeing a block that is already free changes nothing. *)
Lemma mm_free_free_spec s ts fl t (Q : unit -> mm -> Prop) :
  heap_wf s base limit ts fl -> t ∈ ts -> t_used t = false -> Q tt s ->
  runs (mm_free (t_addr t + sizeof_block_header)) s Q.
Proof.
  intros H Ht Eu HQ. pose proof (wf_tiles _ _ _ _ _ H) as Hok.
  destruct (ok_good _ _ _ _ Hok t Ht) as [Gt Mt]. pose proof (ok_bounds _ _ _ _ Hok t Ht) as Bt.
  unfold mm_free. apply runs_bind, runs_gets. rewrite (wf_init _ _ _ _ _ H).
  replace (t_addr t + sizeof_block_header =? 0) with false by (symmetry; apply Z.eqb_neq; mm_consts; lia).
  cbn [orb negb ctrue Z.eqb]. replace (t_addr t + sizeof_block_header - sizeof_block_header) with (t_addr t) by lia.
  rewrite wrap_small by (mm_consts; lia).
  eapply step_is_allocated; [by eapply (ok_flag _ _ _ _ Hok t Ht)|done|]. rewrite Eu. cbn [negb]. by apply runs_ret.
Qed.
End MmEntry.

(** ** Initialisation *)

Lemma free_list_init_spec {B} (Q : B -> mm -> Prop) s (k : unit -> M mm B) :
  (forall s', cdll (fv s') BSentinel [] -> frame_free s s' -> runs (k tt) s' Q) ->
  runs (free_list_init ≫= k) s Q.
Proof.
  intros Hk. apply runs_bind. unfold free_list_init.
  assert (is_Some (node s BSentinel)) as Ns by by eexists.
  apply step_set_prev_free; [done|]. intros s1 V1 F1.
  apply runs_bind_ret, step_set_next_free; [by eexists|]. intros s2 V2 F2. apply runs_ret, Hk; [|by etrans].
  apply cdll_nil. rewrite V2. unfold set_next. rewrite decide_True, V1 by done.
  unfold set_prev. rewrite decide_True by done. destruct Ns as [b Hb]. unfold fv. by rewrite Hb.
Qed.

(** The usable part of a region: the start rounded up, the length rounded down. *)
Definition region_base (start : Z) : Z := (start + 15) / 16 * 16.
Definition region_bytes (start len : Z) : Z := (len - (region_base start - start)) / 16 * 16.

Lemma mm_init_spec s start len (Q : unit -> mm -> Prop) :
  0 < start -> 0 <= len -> start + len < 2 ^ 63 ->
  let base := region_base start in let n := region_bytes start len in
  min_block_size <= n ->
  (forall s', heap_wf s' base (base + n) [mk_tile base n false] [base] -> tallies s' = (0, 0, 0) -> Q tt s') ->
  runs (mm_init start len) s Q.
Proof.
  intros Hs Hl Hlim base n Hn HQ. unfold mm_init.
  assert (align_up start MM_ALIGNMENT = base) as ->.
  { unfold align_up. mm_consts. change (u64 (16 - 1)) with (2 ^ 4 - 1).
    rewrite (wrap_small 64 (start + 16 - 1)) by lia. rewrite land_align by lia. subst base. unfold region_base. dlia. }
  assert (start <= base < start + 16 /\ base mod 16 = 0) as [Hb Eb] by (subst base; unfold region_base; dlia).
  assert (n <= len - (base - start) < n + 16 /\ n mod 16 = 0) as [Hb2 En] by (subst n base; unfold region_bytes; dlia).
  mm_consts.
  destruct (Z.ltb_spec len 56); [lia|]. destruct (Z.ltb_spec base start); [lia|]. cbv zeta.
  rewrite (wrap_small 64 (base - start)) by lia. rewrite Z.geb_leb. destruct (Z.leb_spec len (base - start)); [lia|].
  rewrite (wrap_small 64 (len - _)) by lia. change (16 - 1) with (2 ^ 4 - 1). rewrite land_align by lia.
  change (2 ^ 4) with 16. replace (len - (base - start) - (len - (base - start)) mod 16) with n by dlia.
  destruct (Z.ltb_spec n 56); [lia|].
  apply free_list_init_spec. intros s1 Hc1 F1. apply step_store_new. intros s2 S2 P2 V2 C2.
  assert (is_Some (node s2 (BBlk base))) as N2 by (apply sv_is_node; rewrite S2, decide_True by done; eauto).
  apply step_set_prev_phys; [done|]. intros s3 P3 S3 [V3 C3].
  assert (is_Some (node s3 (BBlk base))) as N3 by (apply sv_is_node; rewrite S3, S2, decide_True by done; eauto).
  apply step_set_next_phys; [done|]. intros s4 P4 S4 [V4 C4].
  eapply (step_mark_free _ s4 _ n false).
  { rewrite S4, S3, S2, decide_True by done. simpl. by rewrite Z.add_0_r. }
  { split; [lia|dlia]. }
  intros s5 S5 P5 [V5 C5].
  assert (cdll (fv s5) BSentinel []) as Hc5.
  { destruct Hc1 as [Hn1 Hd1]. split; [done|]. eapply dll_ext; [exact Hd1|].
    intros q Hq%list_elem_of_singleton. rewrite V5, V4, V3. apply V2. by subst q. }
  apply runs_bind, (free_list_insert_spec _ [] _ _ Hc5).
  { intros [?|?%elem_of_nil]%elem_of_cons; done. }
  { apply sv_is_node. rewrite S5, decide_True by done. by eexists. }
  intros s6 Hc6 (S6 & P6 & C6).
  do 2 apply runs_bind, runs_modify. apply runs_modify. 
  match goal with |- Q _ ?x => set (s7 := x) end.
  destruct (views_counters s6 s7 eq_refl eq_refl) as (S7 & P7 & V7).
  apply HQ; [|done]. split; [done| |by rewrite V7|done|done| |done].
  - split; [mm_consts; lia|by split| | |].
    + apply Forall_singleton. simpl. mm_consts. split; [lia|dlia].
    + apply Forall_singleton. rewrite S7, S6, S5, decide_True by done. done.
    + split; [|done]. change (tptr _) with (BBlk base). rewrite P7, P6, P5, P4. unfold set_next. rewrite decide_True, P3 by done.
      unfold set_prev. rewrite decide_True by done. unfold pv. destruct N2 as [b2 ->]. done.
  - cbn. rewrite wrap_small by lia. mm_consts. lia.
Qed.
