(* ===== verification/MmSimpleTheorems.v ===== *)
(** * The first-fit memory manager: the theorems

    [mm_alloc] and [mm_free] refine an allocator on a list of tiles, keep the
    heap a coalesced tiling, and implement the interface of a memory manager. *)
From S2P Require Import Prelude LinkedList MmInterface MmSimple MmSimpleFacts.

(** ** The payloads in use *)

Definition live_entry (t : tile) : Z * Z := (t_addr t + sizeof_block_header, tpayload t).
Definition used_tiles (ts : list tile) : list tile := filter (fun t => t_used t = true) ts.
Definition live_of (ts : list tile) : gmap Z Z := list_to_map (live_entry <$> used_tiles ts).

Lemma used_tiles_app l1 l2 : used_tiles (l1 ++ l2) = used_tiles l1 ++ used_tiles l2.
Proof. apply filter_app. Qed.
Lemma used_tiles_cons t l : used_tiles (t :: l) = if t_used t then t :: used_tiles l else used_tiles l.
Proof. unfold used_tiles. rewrite filter_cons. by destruct (t_used t). Qed.

Lemma used_tiles_merge ts : used_tiles (merge ts) = used_tiles ts.
Proof.
  induction ts as [|t ts IH]; [done|]. change (merge (t :: ts)) with (cons_merge t (merge ts)).
  rewrite used_tiles_cons, <- IH. destruct (merge ts) as [|u l]; [by cbn [cons_merge]; rewrite used_tiles_cons|]. cbn [cons_merge].
  destruct (t_used t) eqn:Et; cbn [orb]; [by rewrite !used_tiles_cons, ?Et|].
  destruct (t_used u) eqn:Eu; cbn iota; rewrite !used_tiles_cons, ?Et, ?Eu; done.
Qed.

Lemma live_insert l1 t l2 :
  t_used t = true -> t_addr t ∉ t_addr <$> l1 ->
  live_of (l1 ++ t :: l2) = <[t_addr t + sizeof_block_header := tpayload t]> (live_of (l1 ++ l2)).
Proof.
  intros Eu Hn. unfold live_of. rewrite !used_tiles_app, used_tiles_cons, Eu.
  rewrite !fmap_app, fmap_cons, !list_to_map_app. simpl. rewrite <- insert_union_r; [done|].
  apply not_elem_of_list_to_map. intros (x & Ex & Hx)%list_elem_of_fmap.
  apply list_elem_of_fmap in Hx as (u & -> & [_ Hu]%list_elem_of_filter).
  apply Hn. apply list_elem_of_fmap. exists u. split; [simpl in Ex; lia|done].
Qed.

Lemma live_skip l1 t l2 : t_used t = false -> live_of (l1 ++ t :: l2) = live_of (l1 ++ l2).
Proof. intros Eu. unfold live_of. by rewrite !used_tiles_app, used_tiles_cons, Eu. Qed.

Lemma live_tile ts p n : live_of ts !! p = Some n ->
  exists t, t ∈ ts /\ t_used t = true /\ p = t_addr t + sizeof_block_header /\ n = tpayload t.
Proof.
  intros (t & [= -> ->] & [Eu Ht]%list_elem_of_filter)%elem_of_list_to_map_2%list_elem_of_fmap. eauto.
Qed.

Section Live.
Context (s : mm) (base limit : Z) (ts : list tile) (fl : list Z) (H : heap_wf s base limit ts fl).

Lemma live_not_free a : a ∈ fl -> live_of ts !! (a + sizeof_block_header) = None.
Proof.
  intros (t & Ht & <- & Eu)%(wf_free_tile _ _ _ _ _ H). apply eq_None_not_Some.
  intros [n (u & Hu & Eu' & E & _)%live_tile].
  assert (t = u) as ->; [|congruence].
  eapply (ok_addr_inj s base limit ts); [apply H|done|done|lia].
Qed.

Lemma live_carve a req : a ∈ fl -> min_block_size <= req <= tile_size ts a ->
  exists m, req - sizeof_block_header <= m /\ m < 2 ^ 63 /\
    live_of (carve a req ts) = <[a + sizeof_block_header := m]> (live_of ts).
Proof.
  intros (t & Ht & <- & Eu)%(wf_free_tile _ _ _ _ _ H) Hreq.
  destruct (ok_good _ _ _ _ (wf_tiles _ _ _ _ _ H) t Ht) as [[Gt _] _].
  destruct (wf_split _ _ _ _ _ H t Ht) as (l1 & l2 & -> & N1 & N2).
  rewrite tile_size_in in Hreq by done. rewrite (carve_app _ _ _ t) by done. unfold carve_tile. rewrite Z.eqb_refl.
  destruct (t_size t <? req + min_block_size); cbn [app]; rewrite live_insert by done;
    [|rewrite live_skip by done]; rewrite (live_skip l1 t l2) by done; unfold tpayload; cbn [t_addr t_size];
    eexists; (split; [|split; [|reflexivity]]); mm_consts; lia.
Qed.

Lemma live_release t : t ∈ ts -> t_used t = true ->
  live_of (release (t_addr t) ts) = delete (t_addr t + sizeof_block_header) (live_of ts).
Proof.
  intros Ht Eu. destruct (wf_split _ _ _ _ _ H t Ht) as (l1 & l2 & -> & N1 & N2).
  rewrite (release_app _ _ t) by done. unfold live_of at 1. rewrite used_tiles_merge. fold (live_of (l1 ++ mk_tile (t_addr t) (t_size t) false :: l2)).
  rewrite live_skip, live_insert by done. rewrite delete_insert_id; [done|].
  apply eq_None_not_Some. intros [n (u & [Hu|Hu]%elem_of_app & _ & E & _)%live_tile]; [apply N1|apply N2];
    apply list_elem_of_fmap; exists u; (split; [lia|done]).
Qed.
End Live.

(** ** The interface *)

Definition simple_live (s : mm) (live : gmap Z Z) : Prop :=
  exists base limit ts fl, heap_wf s base limit ts fl /\ live = live_of ts.

Lemma simple_live_bounds s live p n :
  simple_live s live -> live !! p = Some n -> 0 < p /\ 0 < n /\ p + n < 2 ^ 63.
Proof.
  intros (base & limit & ts & fl & H & ->) (t & Ht & _ & -> & ->)%live_tile.
  destruct (ok_good _ _ _ _ (wf_tiles _ _ _ _ _ H) t Ht) as [_ Gt].
  pose proof (ok_bounds _ _ _ _ (wf_tiles _ _ _ _ _ H) t Ht). unfold tpayload. mm_consts. lia.
Qed.

Lemma tiles_disjoint a ts e t u :
  contiguous a ts e -> Forall (fun t => min_block_size <= t_size t /\ t_size t mod 8 = 0) ts ->
  t ∈ ts -> u ∈ ts -> t <> u -> t_addr t + t_size t <= t_addr u \/ t_addr u + t_size u <= t_addr t.
Proof.
  intros H Hz (l1 & l2 & ->)%list_elem_of_split Hu Hne.
  apply contiguous_app in H as (m & H1 & <- & H2). apply Forall_app in Hz as [Hz1 [_ Hz2]%Forall_cons].
  apply elem_of_app in Hu as [Hu|[->|Hu]%elem_of_cons]; [right|done|left].
  - by apply (contiguous_bounds _ _ _ _ H1 Hz1 Hu).
  - by apply (contiguous_bounds _ _ _ _ H2 Hz2 Hu).
Qed.

Lemma simple_live_disjoint s live p n q m :
  simple_live s live -> live !! p = Some n -> live !! q = Some m -> p <> q -> p + n <= q \/ q + m <= p.
Proof.
  intros (base & limit & ts & fl & H & ->) (t & Ht & _ & -> & ->)%live_tile (u & Hu & _ & -> & ->)%live_tile Hne.
  destruct (wf_tiles _ _ _ _ _ H) as [_ H3 H4 _ _].
  assert (t <> u) as Htu by congruence.
  pose proof (tiles_disjoint _ _ _ _ _ H3 H4 Ht Hu Htu). unfold tpayload. mm_consts. lia.
Qed.

Lemma simple_malloc_law eok s live n :
  simple_live s live -> 0 < n <= 2 ^ 62 ->
  runs (mm_alloc eok n) s (fun p s' =>
    p = 0 /\ simple_live s' live \/
    exists m, n <= m /\ p <> 0 /\ live !! p = None /\ simple_live s' (<[p := m]> live)).
Proof.
  intros (base & limit & ts & fl & H & ->) Hn. apply (mm_alloc_spec eok base limit _ _ _ _ _ H); [lia|].
  destruct (first_fit _ _ fl) as [a|] eqn:E.
  - apply first_fit_some in E as [Ha Hsz]. intros s' H' _. right.
    destruct (required_size_good n) as [Hr _].
    destruct (live_carve _ _ _ _ _ H a (required_size_for n) Ha) as (m & Hm & _ & El); [lia|].
    rewrite required_size_exact in Hm by lia. exists m. split; [dlia|].
    destruct (wf_free_tile _ _ _ _ _ H a Ha) as (t & Ht & Et & _).
    pose proof (ok_bounds _ _ _ _ (wf_tiles _ _ _ _ _ H) t Ht).
    split; [mm_consts; lia|]. split; [by eapply live_not_free|].
    exists base, limit, (carve a (required_size_for n) ts). eauto.
  - left. split; [done|]. exists base, limit, ts, fl. split; [|done].
    match goal with |- heap_wf ?x _ _ _ _ => set (s' := x) end.
    destruct (views_counters s s' eq_refl eq_refl) as (S & P & F). destruct H.
    split; [done|by eapply tiles_ok_views|by rewrite F|done..].
Qed.

Lemma simple_mfree_law s live p n :
  simple_live s live -> live !! p = Some n -> runs (mm_free p) s (fun _ s' => simple_live s' (delete p live)).
Proof.
  intros (base & limit & ts & fl & H & ->) (t & Ht & Eu & -> & ->)%live_tile.
  apply (mm_free_spec base limit _ _ _ _ _ H Ht Eu). intros s' a fl' H' _ _ _.
  exists base, limit, (release (t_addr t) ts), (a :: fl'). split; [done|].
  by rewrite (live_release _ _ _ _ _ H).
Qed.

#[export] Instance simple_laws (eok : Z) : @MemManagerLaws mm (simple_manager eok).
Proof.
  refine (@Build_MemManagerLaws mm (simple_manager eok) simple_live
    simple_live_bounds simple_live_disjoint (simple_malloc_law eok) simple_mfree_law _).
  intros s live H. by apply runs_bind, runs_gets, runs_ret.
Defined.

(** ** A concrete heap *)

Definition demo_heap : mm :=
  match mm_init 4090 4102 mm_boot with Done _ s => s | _ => mm_boot end.
Definition demo_tiles : list tile := [mk_tile 4096 4096 false].
(** The heap after two allocations. *)
Definition demo_two : mm :=
  match (mm_alloc 0 100 ;; mm_alloc 0 20) demo_heap with Done _ s => s | _ => mm_boot end.
Definition demo_two_tiles : list tile :=
  [mk_tile 4096 152 true; mk_tile 4248 72 true; mk_tile 4320 3872 false].

Lemma demo_heap_wf : heap_wf demo_heap 4096 8192 demo_tiles [4096].
Proof.
  assert (runs (mm_init 4090 4102) mm_boot (fun _ s => heap_wf s 4096 8192 demo_tiles [4096])) as (u & s & E & H).
  { apply mm_init_spec; [lia|lia|lia|by vm_compute|]. intros s' H _. exact H. }
  unfold demo_heap. by rewrite E.
Qed.

Lemma demo_two_wf : heap_wf demo_two 4096 8192 demo_two_tiles [4320].
Proof.
  assert (runs (mm_alloc 0 100 ;; mm_alloc 0 20) demo_heap
    (fun _ s => heap_wf s 4096 8192 demo_two_tiles [4320])) as (u & s & E & H).
  { apply runs_bind, (mm_alloc_spec 0 4096 8192 _ _ _ _ _ demo_heap_wf); [done|]. intros s1 H1 _.
    apply (mm_alloc_spec 0 4096 8192 _ _ _ _ _ H1); [done|]. intros s2 H2 _. exact H2. }
  unfold demo_two. by rewrite E.
Qed.

(** ** Statistics *)

Definition largest_of (ts : list tile) (fl : list Z) (n : Z) : Z :=
  fold_left (fun m a => if tile_size ts a >? m then tile_size ts a else m) fl n.

Lemma largest_loop s base limit ts fl (H : heap_wf s base limit ts fl) f2 :
  forall f1 fuel n (Q : Z -> mm -> Prop),
  fl = f1 ++ f2 -> (length f2 < fuel)%nat -> Q (largest_of ts f2 n) s ->
  runs (while_fuel fuel largest_step (first BSentinel (BBlk <$> f2), n)) s Q.
Proof.
  induction f2 as [|a f2 IH]; intros f1 fuel n Q E Hfuel HQ; (destruct fuel as [|k]; [simpl in *; lia|]).
  - apply runs_bind, runs_ret, runs_ret. done.
  - cbn [while_fuel]. apply runs_bind. unfold largest_step. cbn [fmap list_fmap first].
    assert (a ∈ fl) as Ha by (rewrite E, elem_of_app; right; by left).
    destruct (wf_free_size _ _ _ _ _ H a Ha) as (Hs & Hg & _). destruct (wf_next _ _ _ _ _ H f1 a f2 E) as [x Hx].
    unfold first at 1 2. cbn [head default]. rewrite decide_False by done.
    eapply step_block_size; [done|done|]. apply (step_load_fv _ _ _ _ _ _ Hx). intros b _ ->.
    apply runs_ret. apply (IH (f1 ++ [a])); [by rewrite <- app_assoc|simpl in Hfuel; lia|done].
Qed.

Lemma largest_of_bounds ts fl : forall n,
  n <= largest_of ts fl n /\ (forall a, a ∈ fl -> tile_size ts a <= largest_of ts fl n) /\
  (largest_of ts fl n = n \/ exists a, a ∈ fl /\ largest_of ts fl n = tile_size ts a).
Proof.
  induction fl as [|b fl IH]; intros n; simpl.
  - split; [done|]. split; [by intros a ?%elem_of_nil|by left].
  - destruct (IH (if tile_size ts b >? n then tile_size ts b else n)) as (H1 & H2 & H3).
    fold (largest_of ts fl (if tile_size ts b >? n then tile_size ts b else n)).
    set (r := largest_of _ _ _) in *. rewrite Z.gtb_ltb in *.
    destruct (Z.ltb_spec n (tile_size ts b)); (split; [lia|]); split.
    1,3: intros a [->|Ha]%elem_of_cons; [lia|by apply H2].
    + right. destruct H3 as [->|(a & Ha & ->)]; [exists b|exists a]; (split; [|done]); [by left|by right].
    + destruct H3 as [->|(a & Ha & ->)]; [by left|right; exists a; split; [by right|done]].
Qed.

(** ** The properties *)

(** C18: [mm_alloc] refines first fit.  On a sound heap it takes the first block
    of the free list that is large enough for the rounded size plus the header,
    splits it when the rest can hold a block, and returns the payload; when no
    block is large enough it returns NULL, leaves the heap alone and counts a
    failure.  The heap stays sound and the bytes in use are exactly those of the
    blocks in use. *)
Theorem mm_alloc_first_fit eok s base limit ts fl n :
  heap_wf s base limit ts fl -> n <> 0 ->
  runs (mm_alloc eok n) s (fun p s' =>
    match first_fit (tile_size ts) (required_size_for n) fl with
    | Some a => p = a + sizeof_block_header /\
        heap_wf s' base limit (carve a (required_size_for n) ts) (carve_free a (required_size_for n) ts fl) /\
        heap_allocation_count s' = u64 (heap_allocation_count s + 1)
    | None => p = 0 /\ s' = s <| heap_failed_allocations ::= fun k => u64 (k + 1) |>
    end).
Proof.
  intros H Hn. apply (mm_alloc_spec eok base limit _ _ _ _ _ H Hn).
  destruct (first_fit _ _ fl) as [a|]; [|done].
  intros s' H' T. unfold tallies in T. injection T as -> _ _. done.
Qed.

Lemma mm_alloc_first_fit_witness :
  runs (mm_alloc 0 1000) demo_two (fun p s' => p = 4320 + 40 /\
    heap_wf s' 4096 8192 (carve 4320 1048 demo_two_tiles) (carve_free 4320 1048 demo_two_tiles [4320]) /\
    heap_allocation_count s' = u64 (heap_allocation_count demo_two + 1)).
Proof. exact (mm_alloc_first_fit 0 demo_two 4096 8192 demo_two_tiles [4320] 1000 demo_two_wf ltac:(done)). Defined.

(** C19: [mm_free] of a block in use marks it free and merges it with its free
    physical neighbours: the heap stays a coalesced tiling, the merged block is
    at the head of the free list, the others keep their order. *)
Theorem mm_free_coalesces s base limit ts fl t :
  heap_wf s base limit ts fl -> t ∈ ts -> t_used t = true ->
  runs (mm_free (t_addr t + sizeof_block_header)) s (fun _ s' =>
    exists a fl', heap_wf s' base limit (release (t_addr t) ts) (a :: fl') /\ fl' `sublist_of` fl /\
      a <= t_addr t /\ heap_free_count s' = u64 (heap_free_count s + 1)).
Proof.
  intros H Ht Eu. apply (mm_free_spec base limit _ _ _ _ _ H Ht Eu). intros s' a fl' H' Hsub Hle T.
  unfold tallies in T. injection T as _ T _. eauto 10.
Qed.

Lemma mm_free_coalesces_witness :
  runs (mm_free (4248 + 40)) demo_two (fun _ s' =>
    exists a fl', heap_wf s' 4096 8192 [mk_tile 4096 152 true; mk_tile 4248 3944 false] (a :: fl') /\
      fl' `sublist_of` [4320] /\ a <= 4248 /\ heap_free_count s' = u64 (heap_free_count demo_two + 1)).
Proof.
  exact (mm_free_coalesces demo_two 4096 8192 demo_two_tiles [4320] (mk_tile 4248 72 true) demo_two_wf
    ltac:(right; left) eq_refl).
Defined.

(** C20: what [mm_alloc] returns overlaps no block in use: the requested bytes
    lie inside the heap and outside every allocated block and its header. *)
Theorem mm_alloc_disjoint eok s base limit ts fl n t :
  heap_wf s base limit ts fl -> 0 < n <= 2 ^ 62 -> t ∈ ts -> t_used t = true ->
  runs (mm_alloc eok n) s (fun p _ => p = 0 \/
    (base + sizeof_block_header <= p /\ p + n <= limit /\
     (p + n <= t_addr t \/ t_addr t + t_size t <= p - sizeof_block_header))).
Proof.
  intros H Hn Ht Eu. apply (mm_alloc_spec eok base limit _ _ _ _ _ H); [lia|].
  destruct (first_fit _ _ fl) as [a|] eqn:E; [right|by left].
  apply first_fit_some in E as [Ha Hsz]. rewrite required_size_exact in Hsz by lia.
  destruct (wf_free_tile _ _ _ _ _ H a Ha) as (u & Hu & <- & Euf).
  destruct (wf_tiles _ _ _ _ _ H) as [_ H3 H4 _ _]. assert (u <> t) as Hne by congruence.
  pose proof (tiles_disjoint _ _ _ _ _ H3 H4 Hu Ht Hne) as Hd.
  pose proof (contiguous_bounds _ _ _ _ H3 H4 Hu) as Hb.
  destruct (wf_split _ _ _ _ _ H u Hu) as (l1 & l2 & Es & N1 & _). rewrite Es, tile_size_in in Hsz by done.
  assert (n <= (n + 15) / 16 * 16) by dlia. mm_consts. lia.
Qed.

Lemma mm_alloc_disjoint_witness :
  runs (mm_alloc 0 1000) demo_two (fun p _ => p = 0 \/
    (4096 + 40 <= p /\ p + 1000 <= 8192 /\ (p + 1000 <= 4096 \/ 4096 + 152 <= p - 40))).
Proof.
  apply (mm_alloc_disjoint 0 demo_two 4096 8192 demo_two_tiles [4320] 1000 (mk_tile 4096 152 true));
    [exact demo_two_wf|lia|left|reflexivity].
Defined.

(** The block cut off, once free again, is joined with the rest it was cut from. *)
Lemma release_carve s base limit ts fl a req :
  heap_wf s base limit ts fl -> a ∈ fl -> min_block_size <= req <= tile_size ts a ->
  release a (carve a req ts) = ts.
Proof.
  intros H (t & Ht & <- & Eu)%(wf_free_tile _ _ _ _ _ H) Hreq.
  destruct (wf_split _ _ _ _ _ H t Ht) as (l1 & l2 & -> & N1 & N2).
  rewrite tile_size_in in Hreq by done. rewrite (carve_app _ _ _ t) by done. unfold carve_tile. rewrite Z.eqb_refl.
  assert (t = mk_tile (t_addr t) (t_size t) false) as Et by (destruct t; simpl in *; by subst).
  destruct (Z.ltb_spec (t_size t) (req + min_block_size)) as [Hlt|Hge]; cbn [app].
  - rewrite (release_app _ _ (mk_tile (t_addr t) (t_size t) true)) by done. cbn [t_size]. rewrite <- Et.
    apply merge_coalesced, H.
  - set (v := mk_tile (t_addr t + req) (t_size t - req) false).
    assert (t_addr t ∉ t_addr <$> v :: l2) as N2'.
    { rewrite fmap_cons. apply not_elem_of_cons. split; [subst v; simpl; mm_consts; lia|done]. }
    rewrite (release_app (t_addr t) l1 (mk_tile (t_addr t) req true) (v :: l2) eq_refl N1 N2'). cbn [t_size].
    pose proof (wf_coalesced _ _ _ _ _ H) as Hco. pose proof Hco as [Hco1 Hco2]%coalesced_app.
    unfold merge. rewrite foldr_app. cbn [foldr]. fold (merge l2).
    rewrite (merge_coalesced l2) by (destruct l2; [done|apply Hco2]).
    assert (cons_merge v l2 = v :: l2) as ->.
    { destruct l2 as [|w l2]; [done|]. destruct Hco2 as [Hw _]. rewrite Eu in Hw. simpl in *. by rewrite Hw. }
    simpl cons_merge. replace (req + (t_size t - req)) with (t_size t) by lia. rewrite <- Et.
    etrans; [|by apply (merge_coalesced (l1 ++ t :: l2))]. unfold merge. rewrite foldr_app.
    fold (merge (t :: l2)). by rewrite (merge_coalesced (t :: l2)).
Qed.

(** C21: allocating and freeing at once restores the division of the heap into
    blocks and the number of bytes in use, whether the block was split or not. *)
Theorem mm_alloc_free_restores eok s base limit ts fl n :
  heap_wf s base limit ts fl -> n <> 0 ->
  runs (p ← mm_alloc eok n; mm_free p) s (fun _ s' =>
    (exists fl', heap_wf s' base limit ts fl') /\ heap_used_bytes s' = heap_used_bytes s).
Proof.
  intros H Hn. apply runs_bind, (mm_alloc_spec eok base limit _ _ _ _ _ H Hn).
  destruct (first_fit _ _ fl) as [a|] eqn:E.
  - apply first_fit_some in E as [Ha Hsz]. destruct (required_size_good n) as [[Rm _] _].
    pose proof (release_carve _ _ _ _ _ a _ H Ha (conj Rm Hsz)) as Er.
    destruct (wf_free_tile _ _ _ _ _ H a Ha) as (t & Ht & Et & _).
    intros s1 H1 _.
    assert (exists u, u ∈ carve a (required_size_for n) ts /\ t_addr u = a /\ t_used u = true) as (u & Hu & Eu & Euu).
    { destruct (wf_split _ _ _ _ _ H t Ht) as (l1 & l2 & -> & N1 & N2). subst a.
      rewrite (carve_app _ _ _ t) by done. unfold carve_tile. rewrite Z.eqb_refl.
      destruct (t_size t <? _); eexists; rewrite elem_of_app; (split; [right; by left|done]). }
    rewrite <- Eu. apply (mm_free_spec base limit _ _ _ _ _ H1 Hu Euu). rewrite Eu, Er.
    intros s2 b fl' H2 _ _ _. split; [eauto|]. by rewrite (wf_used _ _ _ _ _ H2), (wf_used _ _ _ _ _ H).
  - apply runs_bind, runs_gets, runs_ret. split; [|done]. exists fl.
    match goal with |- heap_wf ?x _ _ _ _ => set (s' := x) end.
    destruct (views_counters s s' eq_refl eq_refl) as (S & P & F). destruct H.
    split; [done|by eapply tiles_ok_views|by rewrite F|done..].
Qed.

Lemma mm_alloc_free_restores_witness :
  runs (p ← mm_alloc 0 1000; mm_free p) demo_two (fun _ s' =>
    (exists fl', heap_wf s' 4096 8192 demo_two_tiles fl') /\ heap_used_bytes s' = heap_used_bytes demo_two).
Proof. exact (mm_alloc_free_restores 0 demo_two 4096 8192 demo_two_tiles [4320] 1000 demo_two_wf ltac:(done)). Defined.

(** [mm_init] on a region turns it into one free block whose ends are
    aligned, inside the region, and puts every counter to zero. *)
Theorem mm_init_single_block s start len :
  0 < start -> 0 <= len -> start + len < 2 ^ 63 -> min_block_size <= region_bytes start len ->
  runs (mm_init start len) s (fun _ s' =>
    let base := region_base start in let n := region_bytes start len in
    heap_wf s' base (base + n) [mk_tile base n false] [base] /\
    start <= base /\ base + n <= start + len /\ len - 30 <= n /\
    heap_used_bytes s' = 0 /\ heap_allocation_count s' = 0 /\ heap_free_count s' = 0 /\ heap_failed_allocations s' = 0).
Proof.
  intros Hs Hl Hlim Hn. apply mm_init_spec; [done|done|done|done|]. intros s' H T.
  unfold tallies in T. injection T as -> -> ->. rewrite (wf_used _ _ _ _ _ H).
  split; [done|]. unfold region_bytes in *. assert (start <= region_base start <= start + 15) by (unfold region_base; dlia).
  generalize dependent (region_base start). intros b _ _ Hb. split_and!; (done || dlia).
Qed.

Lemma mm_init_single_block_witness :
  runs (mm_init 4090 4102) mm_boot (fun _ s' =>
    heap_wf s' 4096 8192 [mk_tile 4096 4096 false] [4096] /\
    4090 <= 4096 /\ 8192 <= 4090 + 4102 /\ 4102 - 30 <= 4096 /\
    heap_used_bytes s' = 0 /\ heap_allocation_count s' = 0 /\ heap_free_count s' = 0 /\ heap_failed_allocations s' = 0).
Proof. apply (mm_init_single_block mm_boot 4090 4102); [lia|lia|lia|vm_compute; discriminate]. Defined.

(** C22: a request within sixteen bytes of the end of the address space is not
    refused.  Rounding it up wraps around to zero, so the first block of the
    free list is carved at the minimum size and its payload, sixteen bytes, or the
    whole block's when it is too small to be split, is returned for it. *)
Theorem mm_alloc_huge_wraps eok s base limit ts a fl n :
  heap_wf s base limit ts (a :: fl) -> 2 ^ 64 - 15 <= n < 2 ^ 64 ->
  runs (mm_alloc eok n) s (fun p s' => p = a + sizeof_block_header /\
    heap_wf s' base limit (carve a min_block_size ts) (carve_free a min_block_size ts (a :: fl))).
Proof.
  intros H Hn. apply (mm_alloc_spec eok base limit _ _ _ _ _ H); [lia|].
  assert (required_size_for n = min_block_size) as ->.
  { unfold required_size_for, align_up. mm_consts. change (u64 (16 - 1)) with (2 ^ 4 - 1).
    assert (u64 (n + 16 - 1) = n + 16 - 1 - 2 ^ 64) as -> by (unfold wrap; dlia).
    rewrite land_align by lia. change (2 ^ 4) with 16.
    replace (n + 16 - 1 - 2 ^ 64 - (n + 16 - 1 - 2 ^ 64) mod 16) with 0 by dlia. done. }
  destruct (wf_free_size _ _ _ _ _ H a ltac:(by left)) as (_ & _ & Hm). simpl first_fit.
  replace (tile_size ts a >=? min_block_size) with true by (symmetry; rewrite Z.geb_leb; by apply Z.leb_le).
  intros s' H' _. done.
Qed.

Lemma mm_alloc_huge_wraps_witness :
  runs (mm_alloc 0 (2 ^ 64 - 1)) demo_two (fun p s' => p = 4320 + 40 /\
    heap_wf s' 4096 8192 (carve 4320 56 demo_two_tiles) (carve_free 4320 56 demo_two_tiles [4320])).
Proof. apply (mm_alloc_huge_wraps 0 demo_two 4096 8192 demo_two_tiles 4320 []); [exact demo_two_wf|lia]. Defined.

(** [mm_get_stats] terminates without changing the heap and reports the
    bytes of the blocks in use, what is left of the capacity and the payload of
    a largest free block. *)
Theorem mm_get_stats_exact s base limit ts fl :
  heap_wf s base limit ts fl -> base < limit ->
  runs mm_get_stats s (fun st s' => s' = s /\
    used_bytes st = used_bytes_of ts /\ total_bytes st = limit - base - sizeof_block_header /\
    free_bytes st = total_bytes st - used_bytes st /\
    (forall a, a ∈ fl -> tile_size ts a - sizeof_block_header <= largest_free_block st) /\
    (fl = [] /\ largest_free_block st = 0 \/
     exists a, a ∈ fl /\ largest_free_block st = tile_size ts a - sizeof_block_header)).
Proof.
  intros H Hlt. unfold mm_get_stats. apply runs_bind, runs_gets.
  apply (step_load_fv _ _ _ _ _ _ (cdll_sentinel _ _ _ (wf_free _ _ _ _ _ H))). intros b _ ->.
  apply runs_bind, (largest_loop _ _ _ _ _ H fl []); [done|pose proof (wf_fl_length _ _ _ _ _ H); lia|].
  destruct (largest_of_bounds ts fl 0) as (B1 & B2 & B3). apply runs_gets. split; [done|]. cbn.
  rewrite (wf_used _ _ _ _ _ H), (wf_capacity _ _ _ _ _ H).
  destruct (wf_tiles _ _ _ _ _ H) as [Hr H3 H4 _ _].
  pose proof (used_bytes_bounds _ _ _ H3 H4) as Hub. rewrite Z.gtb_ltb, Z.geb_leb.
  assert (forall a, a ∈ fl -> min_block_size <= tile_size ts a < 2 ^ 63) as Hsz.
  { intros a Ha. destruct (wf_free_size _ _ _ _ _ H a Ha) as (_ & [? _] & ?). lia. }
  split; [done|]. split; [done|]. split.
  { destruct (Z.ltb_spec (used_bytes_of ts) (limit - base - sizeof_block_header)); [apply wrap_small; mm_consts; lia|].
    assert (ts <> [] -> (1 <= length ts)%nat) as Hne by (destruct ts; simpl; [done|lia]).
    destruct ts as [|t ts]; [simpl in H3; lia|]. specialize (Hne ltac:(done)). mm_consts. lia. }
  destruct fl as [|c fl].
  - simpl. split; [by intros a ?%elem_of_nil|by left].
  - pose proof (Hsz c ltac:(by left)) as Hc. pose proof (B2 c ltac:(by left)) as Hc2.
    destruct B3 as [E|(a & Ha & E)]; [mm_consts; lia|]. pose proof (Hsz a Ha) as Ha2.
    destruct (Z.leb_spec sizeof_block_header (largest_of ts (c :: fl) 0)) as [|]; [|mm_consts; lia].
    rewrite wrap_small by (mm_consts; lia). split.
    + intros d Hd. specialize (B2 d Hd). lia.
    + right. exists a. by rewrite E.
Qed.

Lemma mm_get_stats_exact_witness :
  runs mm_get_stats demo_two (fun st s' => s' = demo_two /\
    used_bytes st = 144 /\ total_bytes st = 8192 - 4096 - sizeof_block_header /\
    free_bytes st = total_bytes st - used_bytes st /\
    (forall a, a ∈ [4320] -> tile_size demo_two_tiles a - sizeof_block_header <= largest_free_block st) /\
    ([4320] = [] /\ largest_free_block st = 0 \/
     exists a, a ∈ [4320] /\ largest_free_block st = tile_size demo_two_tiles a - sizeof_block_header)).
Proof. apply (mm_get_stats_exact demo_two 4096 8192 demo_two_tiles [4320]); [exact demo_two_wf|lia]. Defined.
