(* ===== verification/MmBuddyTiling.v ===== *)
(** * Tilings of the heap by dyadic blocks

    The buddy manager divides the [n] units of its heap into blocks of [2^l]
    units that start at multiples of [2^l].  This file is the theory of such
    divisions: buddies, splitting, joining, and the fact that a division in which
    no two free buddies remain is determined by its used blocks. *)
From S2P Require Import Prelude.

Module Tiling.

(** Offset of a block, in units, to its level and whether it is in use. *)
Abbreviation tiles := (gmap Z (Z * bool)).
Definition inside (o l x : Z) : Prop := o <= x < o + 2 ^ l.
Definition buddy (o l : Z) : Z := Z.lxor o (2 ^ l).

Record tiling (T : tiles) (n : Z) : Prop := {
  ti_shape o l u : T !! o = Some (l, u) -> 0 <= o /\ 0 <= l /\ (2 ^ l | o) /\ o + 2 ^ l <= n;
  ti_disjoint o l u o' l' u' x :
    T !! o = Some (l, u) -> T !! o' = Some (l', u') -> inside o l x -> inside o' l' x -> o = o';
  ti_cover x : 0 <= x < n -> exists o l u, T !! o = Some (l, u) /\ inside o l x }.

(** No free block below level [top] has a free buddy of its level. *)
Definition merged (T : tiles) (top : Z) : Prop :=
  forall o l, T !! o = Some (l, false) -> l < top -> T !! buddy o l <> Some (l, false).
Definition same_used (T T' : tiles) : Prop :=
  forall o l, T !! o = Some (l, true) <-> T' !! o = Some (l, true).
Definition free_at (T : tiles) (x : Z) : Prop := exists o l, T !! o = Some (l, false) /\ inside o l x.

(** ** Dyadic intervals *)

Lemma pow2_succ l : 0 <= l -> 2 ^ (l + 1) = 2 * 2 ^ l.
Proof. intros Hl. rewrite Z.pow_add_r by lia. lia. Qed.
Lemma pow2_pos l : 0 <= l -> 0 < 2 ^ l.
Proof. intros. by apply Z.pow_pos_nonneg. Qed.
Lemma pow2_divide k l : 0 <= k <= l -> (2 ^ k | 2 ^ l).
Proof. intros H. exists (2 ^ (l - k)). rewrite <- Z.pow_add_r by lia. f_equal. lia. Qed.

(** Two dyadic intervals that meet are nested. *)
Lemma nested o l o' l' x :
  0 <= l <= l' -> (2 ^ l | o) -> (2 ^ l' | o') -> inside o l x -> inside o' l' x ->
  o' <= o /\ o + 2 ^ l <= o' + 2 ^ l'.
Proof.
  intros Hl [a ->] [b ->] H H'. destruct (pow2_divide l l' Hl) as [c Ec].
  pose proof (pow2_pos l ltac:(lia)) as Hp. unfold inside in *. rewrite Ec in *.
  set (P := 2 ^ l) in *. clearbody P. clear Ec Hl.
  assert (b * c < a + 1) by nia. assert (a < b * c + c) by nia. nia.
Qed.

(** Setting or clearing one bit. *)
Lemma lxor_pow2 x k : 0 <= k -> Z.lxor x (2 ^ k) = if Z.testbit x k then x - 2 ^ k else x + 2 ^ k.
Proof.
  intros Hk.
  assert (forall y, Z.testbit y k = false -> Z.lxor y (2 ^ k) = y + 2 ^ k) as E.
  { intros y Hy. symmetry. apply Z.add_nocarry_lxor, Z.bits_inj'. intros n Hn.
    rewrite Z.land_spec, Z.bits_0, Z.pow2_bits_eqb by done.
    destruct (Z.eqb_spec k n) as [<-|]; [by rewrite Hy|apply andb_false_r]. }
  destruct (Z.testbit x k) eqn:Hx; [|by apply E].
  pose proof (E (Z.lxor x (2 ^ k))) as F. rewrite Z.lxor_assoc, Z.lxor_nilpotent, Z.lxor_0_r in F.
  enough (Z.testbit (Z.lxor x (2 ^ k)) k = false) by (specialize (F H); lia).
  rewrite Z.lxor_spec, Hx, Z.pow2_bits_true; done.
Qed.

(** The buddy is the other half of the enclosing block. *)
Lemma buddy_cases o l :
  0 <= l -> (2 ^ l | o) ->
  (buddy o l = o + 2 ^ l /\ (2 ^ (l + 1) | o)) \/ (buddy o l = o - 2 ^ l /\ (2 ^ (l + 1) | o - 2 ^ l)).
Proof.
  intros Hl [q ->]. unfold buddy. rewrite lxor_pow2, pow2_succ by done.
  rewrite Z.mul_pow2_bits, Z.sub_diag, Z.bit0_odd by done.
  destruct (Z.odd q) eqn:E; [right|left].
  - apply Z.odd_spec in E as [k ->]. split; [done|]. exists k. lia.
  - split; [done|]. rewrite <- Z.negb_even in E. apply negb_false_iff, Z.even_spec in E as [k ->].
    exists k. lia.
Qed.
Lemma buddy_divide o l : 0 <= l -> (2 ^ l | o) -> (2 ^ l | buddy o l).
Proof.
  intros Hl Ho. destruct (buddy_cases o l Hl Ho) as [[-> _]|[-> _]];
    [apply Z.divide_add_r|apply Z.divide_sub_r]; (done || apply Z.divide_refl).
Qed.
Lemma buddy_invol o l : buddy (buddy o l) l = o.
Proof. unfold buddy. by rewrite Z.lxor_assoc, Z.lxor_nilpotent, Z.lxor_0_r. Qed.
Lemma buddy_left o l : 0 <= l -> (2 ^ (l + 1) | o) -> buddy o l = o + 2 ^ l.
Proof.
  intros Hl [q ->]. unfold buddy. rewrite lxor_pow2 by done. rewrite Z.mul_pow2_bits_low by lia. done.
Qed.
Lemma buddy_right o l : 0 <= l -> (2 ^ (l + 1) | o) -> buddy (o + 2 ^ l) l = o.
Proof. intros Hl Ho. by rewrite <- buddy_left, buddy_invol by done. Qed.
Lemma buddy_nonneg o l : 0 <= o -> 0 <= l -> 0 <= buddy o l.
Proof. intros. apply Z.lxor_nonneg. pose proof (pow2_pos l). lia. Qed.
(** The exclusive or the code computes, on bytes. *)
Lemma buddy_bytes o l : 0 <= l -> Z.lxor (64 * o) (2 ^ l * 64) = 64 * buddy o l.
Proof.
  intros Hl. unfold buddy. change 64 with (2 ^ 6). rewrite <- Z.pow_add_r, !lxor_pow2 by lia.
  rewrite (Z.mul_comm _ o), Z.mul_pow2_bits, Z.add_simpl_r, Z.pow_add_r by lia.
  destruct (Z.testbit o l); lia.
Qed.

(** ** Divisions *)

Section Tilings.
Context (T : tiles) (n : Z) (HT : tiling T n).

Lemma tile_bounds o l u : T !! o = Some (l, u) -> 0 <= o /\ 0 <= l /\ o + 2 ^ l <= n /\ 0 < 2 ^ l.
Proof. intros E. destruct (ti_shape _ _ HT _ _ _ E) as (? & ? & _ & ?). pose proof (pow2_pos l). lia. Qed.

Lemma inside_start o l u : T !! o = Some (l, u) -> inside o l o.
Proof. intros E. pose proof (tile_bounds _ _ _ E). unfold inside. lia. Qed.

(** Blocks that share a unit are one block. *)
Lemma tile_same o l u o' l' u' x :
  T !! o = Some (l, u) -> T !! o' = Some (l', u') -> inside o l x -> inside o' l' x ->
  o' = o /\ l' = l /\ u' = u.
Proof.
  intros E E' H H'. pose proof (ti_disjoint _ _ HT _ _ _ _ _ _ _ E E' H H') as <-.
  rewrite E in E'. by simplify_eq.
Qed.

(** Where the buddy of a block lies in the heap, a block of no higher level starts. *)
Lemma buddy_start o l u :
  T !! o = Some (l, u) -> buddy o l + 2 ^ l <= n ->
  exists l' u', T !! buddy o l = Some (l', u') /\ l' <= l.
Proof.
  intros E Hb. destruct (ti_shape _ _ HT _ _ _ E) as (Ho & Hl & Hd & _).
  pose proof (pow2_pos l Hl) as Hp. pose proof (buddy_nonneg o l Ho Hl) as Hn.
  destruct (ti_cover _ _ HT (buddy o l) ltac:(lia)) as (q & l' & u' & E' & Hin).
  destruct (ti_shape _ _ HT _ _ _ E') as (Hq & Hl' & Hd' & _).
  pose proof (buddy_divide o l Hl Hd) as Hbd.
  destruct (decide (l' <= l)) as [Hle|Hgt].
  - assert (q = buddy o l) as <-; [|by eauto].
    destruct (nested q l' (buddy o l) l (buddy o l) ltac:(lia) Hd' Hbd Hin ltac:(unfold inside; lia)).
    unfold inside in Hin. lia.
  - exfalso. pose proof (pow2_divide (l + 1) l' ltac:(lia)) as Hdl.
    assert (o = q); [|subst q; rewrite E in E'; simplify_eq; lia].
    assert (exists m, (2 ^ (l + 1) | m) /\ m <= o < m + 2 ^ (l + 1) /\ m <= buddy o l < m + 2 ^ (l + 1)) as (m & Hm & Hmo & Hmb).
    { rewrite pow2_succ by done. destruct (buddy_cases o l Hl Hd) as [[-> H]|[-> H]]; rewrite pow2_succ in H by done.
      - exists o. split_and!; (done || lia).
      - exists (o - 2 ^ l). split_and!; (done || lia). }
    destruct (nested m (l + 1) q l' (buddy o l) ltac:(lia) Hm Hd' Hmb Hin).
    eapply (ti_disjoint _ _ HT); [exact E|exact E'| |]; [by eapply inside_start|]. unfold inside. lia.
Qed.

Lemma set_use o l u u' : T !! o = Some (l, u) -> tiling (<[o := (l, u')]> T) n.
Proof.
  intros E.
  assert (forall q k w, <[o := (l, u')]> T !! q = Some (k, w) -> exists w', T !! q = Some (k, w')) as Back.
  { intros q k w. rewrite lookup_insert. case_decide; [intros [= <- <-]; subst; eauto|eauto]. }
  split.
  - intros q k w (w' & E')%Back. by eapply ti_shape.
  - intros q k w q' k' w' x (v & E1)%Back (v' & E2)%Back. by eapply ti_disjoint.
  - intros x Hx. destruct (ti_cover _ _ HT x Hx) as (q & k & w & E' & Hin).
    destruct (decide (q = o)) as [->|Hne].
    + exists o, l, u'. rewrite lookup_insert_eq. rewrite E in E'. by simplify_eq.
    + exists q, k, w. by rewrite lookup_insert_ne.
Qed.

(** No block starts in the middle of another. *)
Lemma no_middle o l u : T !! o = Some (l + 1, u) -> 0 <= l -> T !! (o + 2 ^ l) = None.
Proof.
  intros E Hl. destruct (T !! (o + 2 ^ l)) as [[k w]|] eqn:Eb; [|done]. exfalso.
  pose proof (ti_disjoint _ _ HT _ _ _ _ _ _ (o + 2 ^ l) E Eb) as D. pose proof (inside_start _ _ _ Eb).
  pose proof (pow2_succ l Hl). pose proof (pow2_pos l Hl). unfold inside in *. lia.
Qed.

(** A block in two halves. *)
Lemma split_tile o l u u1 u2 :
  T !! o = Some (l + 1, u) -> 0 <= l -> tiling (<[o := (l, u1)]> (<[o + 2 ^ l := (l, u2)]> T)) n.
Proof.
  intros E Hl. destruct (ti_shape _ _ HT _ _ _ E) as (Ho & _ & Hd & Hn).
  rewrite pow2_succ in Hn by done. pose proof (pow2_pos l Hl) as Hp.
  assert (2 ^ l | o) as Hdl by (etrans; [|exact Hd]; apply pow2_divide; lia).
  set (T' := <[o := _]> _).
  assert (forall q k w, T' !! q = Some (k, w) ->
    (q = o /\ k = l) \/ (q = o + 2 ^ l /\ k = l) \/ (q <> o /\ T !! q = Some (k, w))) as Back.
  { intros q k w. unfold T'. rewrite !lookup_insert. repeat case_decide; intros; simplify_eq; auto. }
  assert (forall q k w x, q <> o -> T !! q = Some (k, w) -> inside q k x -> inside o (l + 1) x -> False) as Off.
  { intros q k w x Hne E' H1 H2. apply Hne. eapply (ti_disjoint _ _ HT); [exact E'|exact E|done..]. }
  unfold inside in Off. rewrite pow2_succ in Off by done.
  split.
  - intros q k w [[-> ->]|[[-> ->]|[_ E']]]%Back; [|split_and!; [lia..|apply Z.divide_add_r; [done|apply Z.divide_refl]|lia]|by eapply ti_shape].
    split_and!; (done || lia).
  - intros q k w q' k' w' x H1%Back H2%Back. unfold inside. intros I1 I2.
    destruct H1 as [[-> ->]|[[-> ->]|[N1 E1]]], H2 as [[-> ->]|[[-> ->]|[N2 E2]]]; try lia;
      try (exfalso; eapply Off; [| |exact I1|]; [done|done|lia]);
      try (exfalso; eapply Off; [| |exact I2|]; [done|done|lia]).
    by eapply (ti_disjoint _ _ HT _ _ _ _ _ _ x).
  - intros x Hx. destruct (ti_cover _ _ HT x Hx) as (q & k & w & E' & Hin).
    destruct (decide (q = o)) as [->|Hne].
    + rewrite E in E'. simplify_eq. unfold inside in *. rewrite pow2_succ in Hin by done.
      destruct (decide (x < o + 2 ^ l)).
      * exists o, l, u1. unfold T'. rewrite lookup_insert_eq. split; [done|lia].
      * exists (o + 2 ^ l), l, u2. unfold T'. rewrite lookup_insert_ne, lookup_insert_eq by lia. split; [done|lia].
    + exists q, k, w. split; [|done]. unfold T'. rewrite lookup_insert_ne by done. rewrite lookup_insert_ne; [done|].
      intros <-. eapply (Off _ _ _ (o + 2 ^ l)); [done|exact E'|pose proof (tile_bounds _ _ _ E'); lia|lia].
Qed.

(** Two halves in one block. *)
Lemma join_tile o l u u1 u2 :
  T !! o = Some (l, u1) -> T !! (o + 2 ^ l) = Some (l, u2) -> (2 ^ (l + 1) | o) ->
  tiling (<[o := (l + 1, u)]> (delete (o + 2 ^ l) T)) n.
Proof.
  intros E1 E2 Hd. destruct (tile_bounds _ _ _ E1) as (Ho & Hl & _ & Hp). destruct (tile_bounds _ _ _ E2) as (_ & _ & Hn & _).
  set (T' := <[o := _]> _). pose proof (pow2_succ l Hl) as Es.
  assert (forall q k w, T' !! q = Some (k, w) ->
    (q = o /\ k = l + 1) \/ (q <> o /\ q <> o + 2 ^ l /\ T !! q = Some (k, w))) as Back.
  { intros q k w. unfold T'. rewrite lookup_insert, lookup_delete. repeat case_decide; intros; simplify_eq; auto. }
  assert (forall q k w x, q <> o -> q <> o + 2 ^ l -> T !! q = Some (k, w) -> inside q k x -> inside o (l + 1) x -> False) as Off.
  { intros q k w x N1 N2 E' H1 H2. unfold inside in H2. rewrite Es in H2. destruct (decide (x < o + 2 ^ l)).
    - apply N1. eapply (ti_disjoint _ _ HT); [exact E'|exact E1|exact H1|unfold inside; lia].
    - apply N2. eapply (ti_disjoint _ _ HT); [exact E'|exact E2|exact H1|unfold inside; lia]. }
  split.
  - intros q k w [[-> ->]|(_ & _ & E')]%Back; [|by eapply ti_shape]. rewrite Es in *. split_and!; (done || lia).
  - intros q k w q' k' w' x H1%Back H2%Back I1 I2.
    destruct H1 as [[-> ->]|(N1 & M1 & F1)], H2 as [[-> ->]|(N2 & M2 & F2)]; [done|..].
    + exfalso. by eapply (Off q' k' w' x).
    + exfalso. by eapply (Off q k w x).
    + by eapply (ti_disjoint _ _ HT _ _ _ _ _ _ x).
  - intros x Hx. destruct (ti_cover _ _ HT x Hx) as (q & k & w & E' & Hin).
    destruct (decide (q = o \/ q = o + 2 ^ l)) as [Hq|Hne].
    + exists o, (l + 1), u. unfold T'. rewrite lookup_insert_eq. split; [done|]. unfold inside in *. rewrite Es.
      destruct Hq as [-> | ->]; [rewrite E1 in E'|rewrite E2 in E']; simplify_eq; lia.
    + exists q, k, w. unfold T'. rewrite lookup_insert_ne, lookup_delete_ne by (intros <-; tauto). done.
Qed.

(** A block behind the last. *)
Lemma extend_tile l u : 0 <= l -> (2 ^ l | n) -> 0 <= n -> tiling (<[n := (l, u)]> T) (n + 2 ^ l).
Proof.
  intros Hl Hd Hn. pose proof (pow2_pos l Hl) as Hp.
  assert (forall q k w, <[n := (l, u)]> T !! q = Some (k, w) -> (q = n /\ k = l) \/ T !! q = Some (k, w)) as Back.
  { intros q k w. rewrite lookup_insert. case_decide; intros; simplify_eq; auto. }
  split.
  - intros q k w [[-> ->]|E]%Back; [split_and!; (done || lia)|].
    destruct (ti_shape _ _ HT _ _ _ E) as (? & ? & ? & ?). split_and!; (done || lia).
  - intros q k w q' k' w' x H1%Back H2%Back. unfold inside. intros I1 I2.
    destruct H1 as [[-> ->]|E1], H2 as [[-> ->]|E2]; [done|..];
      try (pose proof (tile_bounds _ _ _ E1)); try (pose proof (tile_bounds _ _ _ E2)); try lia.
    by eapply (ti_disjoint _ _ HT _ _ _ _ _ _ x).
  - intros x Hx. destruct (decide (x < n)).
    + destruct (ti_cover _ _ HT x ltac:(lia)) as (q & k & w & E & Hin). exists q, k, w. split; [|done].
      rewrite lookup_insert_ne; [done|]. intros <-. pose proof (tile_bounds _ _ _ E). lia.
    + exists n, l, u. rewrite lookup_insert_eq. unfold inside. split; [done|lia].
Qed.

(** ** What merging achieves *)

(** Where no two free buddies remain, a dyadic region that is wholly free lies
    in one block. *)
Lemma free_region top : merged T top -> forall l, 0 <= l -> l <= top -> forall o, 0 <= o -> (2 ^ l | o) ->
  (forall x, inside o l x -> free_at T x) ->
  exists o' l', T !! o' = Some (l', false) /\ o' <= o /\ o + 2 ^ l <= o' + 2 ^ l'.
Proof.
  intros Hm l Hl. pattern l. apply natlike_ind; [| |done].
  - intros _ o Ho _ Hf. destruct (Hf o) as (o' & l' & E & Hin); [unfold inside; lia|].
    exists o', l'. unfold inside in Hin. split; [done|lia].
  - intros k Hk IH Htop o Ho Hd Hf. rewrite <- Z.add_1_r in *. pose proof (pow2_succ k Hk) as Es. pose proof (pow2_pos k Hk) as Hp.
    assert (2 ^ k | o) as Hdk by (etrans; [|exact Hd]; apply pow2_divide; lia).
    assert (2 ^ k | o + 2 ^ k) as Hdk2 by (apply Z.divide_add_r; [done|apply Z.divide_refl]).
    unfold inside in Hf. rewrite Es in Hf.
    destruct (IH ltac:(lia) o Ho Hdk) as (a & la & Ea & Ha); [intros x; unfold inside; intros; apply Hf; lia|].
    destruct (IH ltac:(lia) (o + 2 ^ k) ltac:(lia) Hdk2) as (b & lb & Eb & Hb); [intros x; unfold inside; intros; apply Hf; lia|].
    destruct (ti_shape _ _ HT _ _ _ Ea) as (_ & Hla & Hda & _), (ti_shape _ _ HT _ _ _ Eb) as (_ & Hlb & Hdb & _).
    (* a block that covers one half and is larger covers both *)
    assert (forall c lc w y, T !! c = Some (lc, w) -> inside o (k + 1) y -> inside c lc y -> k < lc ->
      c <= o /\ o + 2 ^ (k + 1) <= c + 2 ^ lc) as Big.
    { intros c lc w y Ec Hy Hcy Hlt. destruct (ti_shape _ _ HT _ _ _ Ec) as (_ & _ & Hdc & _).
      by apply (nested o (k + 1) c lc y ltac:(lia)). }
    unfold inside in Big. destruct (decide (k < la)) as [La|La].
    { exists a, la. split; [done|]. eapply (Big _ _ _ o); [exact Ea|lia..]. }
    destruct (decide (k < lb)) as [Lb|Lb].
    { exists b, lb. split; [done|]. eapply (Big _ _ _ (o + 2 ^ k)); [exact Eb|lia..]. }
    exfalso. assert (2 ^ la <= 2 ^ k) by (apply Z.pow_le_mono_r; lia).
    assert (2 ^ lb <= 2 ^ k) by (apply Z.pow_le_mono_r; lia).
    assert (la = k) as -> by (apply (Z.pow_inj_r 2); lia). assert (lb = k) as -> by (apply (Z.pow_inj_r 2); lia).
    assert (a = o) as -> by lia. assert (b = o + 2 ^ k) as -> by lia.
    apply (Hm o k Ea); [lia|]. by rewrite buddy_left.
Qed.
End Tilings.

Lemma merged_free T T' top :
  (forall o l, T' !! o = Some (l, false) -> T !! o = Some (l, false)) -> merged T top -> merged T' top.
Proof. intros H Hm o l E Hl E'. exact (Hm _ _ (H _ _ E) Hl (H _ _ E')). Qed.

Lemma merged_occupy T top o l : merged T top -> merged (<[o := (l, true)]> T) top.
Proof.
  apply merged_free. intros q k. rewrite lookup_insert. by case_decide.
Qed.

Lemma merged_join T top o l q : merged T top -> merged (<[o := (l, true)]> (delete q T)) top.
Proof.
  apply merged_free. intros x k. rewrite lookup_insert, lookup_delete. by repeat case_decide.
Qed.

Lemma merged_release T top o l :
  merged T top -> 0 <= l -> (l < top -> T !! buddy o l <> Some (l, false)) ->
  merged (<[o := (l, false)]> T) top.
Proof.
  intros Hm Hl Hb q k E Hk E'.
  assert (forall l, 0 <= l -> buddy o l <> o) as Hne.
  { intros j Hj Ej. pose proof (pow2_pos j Hj). unfold buddy in Ej. rewrite lxor_pow2 in Ej by done.
    destruct (Z.testbit o j); lia. }
  destruct (decide (o = q)) as [->|Nq].
  - rewrite lookup_insert_eq in E. simplify_eq. rewrite lookup_insert_ne in E' by (intros ?; by eapply Hne).
    by apply Hb.
  - rewrite lookup_insert_ne in E by done. destruct (decide (o = buddy q k)) as [->|Nb].
    + rewrite lookup_insert_eq in E'. simplify_eq. apply Hb; [done|]. by rewrite buddy_invol.
    + rewrite lookup_insert_ne in E' by done. exact (Hm _ _ E Hk E').
Qed.

(** Splitting a block in use and giving up its right half. *)
Lemma merged_split T n top o l u :
  tiling T n -> T !! o = Some (l + 1, u) -> 0 <= l ->
  merged (<[o := (l + 1, true)]> T) top -> merged (<[o := (l, true)]> (<[o + 2 ^ l := (l, false)]> T)) top.
Proof.
  intros HT E Hl Hm. destruct (ti_shape _ _ HT _ _ _ E) as (_ & _ & Hd & _). pose proof (pow2_pos l Hl) as Hp.
  rewrite insert_insert_ne by lia. apply merged_release; [|done|].
  - eapply merged_free; [|exact Hm]. intros q k. rewrite !lookup_insert. by case_decide.
  - intros _. rewrite buddy_right by done. by rewrite lookup_insert_eq.
Qed.

Lemma same_used_free_at T T' n x : tiling T n -> tiling T' n -> same_used T T' -> free_at T x -> free_at T' x.
Proof.
  intros H H' Hs (o & l & E & Hin). destruct (tile_bounds _ _ H _ _ _ E) as (? & ? & ? & ?).
  destruct (ti_cover _ _ H' x) as (q & k & [] & E' & Hin'); [unfold inside in Hin; lia| |by exists q, k].
  apply Hs in E'. by destruct (tile_same _ _ H _ _ _ _ _ _ _ E E' Hin Hin') as (_ & _ & ?).
Qed.

Lemma merged_sub T T' n top o l :
  tiling T n -> tiling T' n -> merged T top -> merged T' top -> (forall o l u, T !! o = Some (l, u) -> l <= top) ->
  (forall o l u, T' !! o = Some (l, u) -> l <= top) -> same_used T T' ->
  T !! o = Some (l, false) -> T' !! o = Some (l, false).
Proof.
  intros H H' Hm Hm' Hl Hl' Hs E.
  assert (forall A B o l, tiling A n -> tiling B n -> merged B top -> same_used A B ->
    (forall o l u, A !! o = Some (l, u) -> l <= top) -> A !! o = Some (l, false) ->
    exists o' l', B !! o' = Some (l', false) /\ o' <= o /\ o + 2 ^ l <= o' + 2 ^ l') as Cover.
  { clear. intros A B o l HA HB HmB Hs HlA E. destruct (ti_shape _ _ HA _ _ _ E) as (Ho & Hl & Hd & _).
    apply (free_region _ _ HB top); try done; [by eapply HlA|].
    intros x Hx. eapply (same_used_free_at A); [done..|]. by exists o, l. }
  destruct (Cover T T' o l) as (o1 & l1 & E1 & B1); [done..|].
  destruct (Cover T' T o1 l1) as (o2 & l2 & E2 & B2); try done; [intros ? ?; split; apply Hs|].
  destruct (tile_bounds _ _ H _ _ _ E) as (_ & L & _ & P), (tile_bounds _ _ H' _ _ _ E1) as (_ & L1 & _ & P1).
  destruct (tile_same _ _ H _ _ _ _ _ _ o E E2) as (-> & -> & _); [unfold inside; lia..|].
  assert (o1 = o) as -> by lia. assert (l1 = l) as ->; [|done]. apply (Z.pow_inj_r 2); lia.
Qed.

#[export] Instance same_used_equiv : Equivalence same_used.
Proof. split; [done|intros ? ? H ? ?; symmetry; apply H|intros ? ? ? H H' o l; exact (iff_trans (H o l) (H' o l))]. Qed.

(** The halves of a block that is not in use count for nothing. *)
Lemma same_used_split T n o l k u v :
  tiling T n -> T !! o = Some (l + 1, u) -> 0 <= l ->
  same_used (<[o := (k, true)]> T) (<[o := (k, true)]> (<[o := v]> (<[o + 2 ^ l := (l, false)]> (<[o := (l + 1, true)]> T)))).
Proof.
  intros HT E Hl. pose proof (no_middle _ _ HT _ _ _ E Hl) as N. pose proof (pow2_pos l Hl).
  intros q j. rewrite !lookup_insert. repeat case_decide; subst; try done. rewrite N. split; intros; simplify_eq.
Qed.

(** The used blocks determine a division without free buddies. *)
Lemma merged_unique T T' n top :
  tiling T n -> tiling T' n -> merged T top -> merged T' top -> (forall o l u, T !! o = Some (l, u) -> l <= top) ->
  (forall o l u, T' !! o = Some (l, u) -> l <= top) -> same_used T T' -> T = T'.
Proof.
  intros H H' Hm Hm' Hl Hl' Hs. apply map_eq. intros o. apply option_eq. intros [l [|]]; [apply Hs|].
  split; eapply merged_sub; done.
Qed.

(** ** Adding up the blocks in use *)

Definition used_levels (T : tiles) : gmap Z Z := omap (fun t : Z * bool => if t.2 then Some t.1 else None) T.
Definition total (f : Z -> Z) (m : gmap Z Z) : Z := map_fold (fun _ l acc => f l + acc) 0 m.

Lemma used_levels_lookup T o l : used_levels T !! o = Some l <-> T !! o = Some (l, true).
Proof.
  unfold used_levels. rewrite lookup_omap. destruct (T !! o) as [[k []]|]; simpl; split; intros; by simplify_eq.
Qed.
Lemma same_used_levels T T' : same_used T T' -> used_levels T = used_levels T'.
Proof. intros H. apply map_eq. intros o. apply option_eq. intros l. rewrite !used_levels_lookup. apply H. Qed.
Lemma used_levels_insert T o l : used_levels (<[o := (l, true)]> T) = <[o := l]> (used_levels T).
Proof. apply map_eq. intros q. unfold used_levels. rewrite lookup_omap, !lookup_insert. by case_decide; [|rewrite lookup_omap]. Qed.
Lemma used_levels_delete T o : used_levels (delete o T) = delete o (used_levels T).
Proof. apply map_eq. intros q. unfold used_levels. rewrite lookup_omap, !lookup_delete. by case_decide; [|rewrite lookup_omap]. Qed.

Lemma total_insert f m o l : m !! o = None -> total f (<[o := l]> m) = f l + total f m.
Proof. intros Ho. unfold total. rewrite map_fold_insert_L; [done|intros; lia|done]. Qed.
Lemma total_delete f m o l : m !! o = Some l -> total f m = f l + total f (delete o m).
Proof. intros Ho. rewrite <- (total_insert f _ o) by apply lookup_delete_eq. by rewrite insert_delete_id. Qed.

(** The blocks in use fill as many units as they cover. *)
Lemma total_units (m : gmap Z Z) :
  (forall o l, m !! o = Some l -> 0 <= l) ->
  (forall o l o' l' x, m !! o = Some l -> m !! o' = Some l' -> inside o l x -> inside o' l' x -> o = o') ->
  exists X : gset Z, (forall x, x ∈ X <-> exists o l, m !! o = Some l /\ inside o l x) /\ total (Z.pow 2) m = Z.of_nat (size X).
Proof.
  induction m as [|o l m Ho IH] using map_ind; intros Hl Hd.
  - exists ∅. split; [|done]. intros x. split; [by intros ?%elem_of_empty|by intros (? & ? & ? & _)].
  - assert (forall q k, m !! q = Some k -> <[o := l]> m !! q = Some k) as Sub.
    { intros q k Eq. rewrite lookup_insert_ne; [done|congruence]. }
    destruct IH as (X & HX & Et); [eauto|eauto|]. pose proof (Hl o l (lookup_insert_eq _ _ _)) as Hl0. pose proof (pow2_pos l Hl0).
    exists (list_to_set (seqZ o (2 ^ l)) ∪ X). split.
    + intros x. rewrite elem_of_union, elem_of_list_to_set, elem_of_seqZ, HX. split.
      * intros [Hx|(q & k & Eq & Hx)]; [exists o, l; by rewrite lookup_insert_eq|eauto].
      * intros (q & k & Eq & Hx). rewrite lookup_insert in Eq. case_decide; [left; by simplify_eq|eauto].
    + rewrite total_insert, Et by done.
      rewrite size_union; [rewrite size_list_to_set, length_seqZ by apply NoDup_seqZ; lia|].
      intros x. rewrite elem_of_list_to_set, elem_of_seqZ, HX. intros Hx (q & k & Eq & Hqx).
      assert (o = q) as <-; [|congruence]. eapply Hd; [apply lookup_insert_eq|by apply Sub|exact Hx|done].
Qed.

Lemma used_units_le T n : tiling T n -> 0 <= n -> total (Z.pow 2) (used_levels T) <= n.
Proof.
  intros HT Hn. destruct (total_units (used_levels T)) as (X & HX & ->).
  - intros o l E%used_levels_lookup. by destruct (ti_shape _ _ HT _ _ _ E) as (_ & ? & _).
  - intros o l o' l' x E%used_levels_lookup E'%used_levels_lookup. by eapply ti_disjoint.
  - assert (size X <= size (list_to_set (seqZ 0 n) : gset Z))%nat as Hle.
    { apply subseteq_size. intros x (o & l & E%used_levels_lookup & Hx)%HX. rewrite elem_of_list_to_set, elem_of_seqZ.
      pose proof (tile_bounds _ _ HT _ _ _ E). unfold inside in Hx. lia. }
    rewrite size_list_to_set, length_seqZ in Hle by apply NoDup_seqZ. lia.
Qed.

End Tiling.
