(* ===== verification/MmBuddy.v ===== *)
(** * The buddy memory manager (src/Kernel/mm/mm_buddy.c)

    Blocks have a size of [BASE_BLOCK_SIZE] times a power of two, the level; a
    block starts with a [buddy_block] header, and the free blocks of each level
    form a doubly linked list that starts at [free_lists].  Pointers are
    addresses, 0 is NULL. *)
From S2P Require Import Prelude LinkedList MmInterface.

Module Buddy.

Definition MM_DEFAULT_HEAP_LIMIT : Z := 0x20000000.
Definition MIN_ALIGN : Z := 16.
Definition MM_MAX_LEVELS : Z := 32.

Definition align_up_u64 (v a : Z) : Z := Z.land (u64 (v + a - 1)) (bnot 64 (u64 (a - 1))).
Definition pow2_u64 (e : Z) : Z := u64 (Z.shiftl 1 e).

Record buddy_block := mk_buddy_block { next : Z; prev : Z; level : Z; is_free : Z }.
Definition eta_buddy_block (b : buddy_block) := mk_buddy_block (next b) (prev b) (level b) (is_free b).
#[export] Instance set_next : Setter next := ltac:(build_setter eta_buddy_block next).
#[export] Instance set_prev : Setter prev := ltac:(build_setter eta_buddy_block prev).
#[export] Instance set_level : Setter level := ltac:(build_setter eta_buddy_block level).
#[export] Instance set_is_free : Setter is_free := ltac:(build_setter eta_buddy_block is_free).

(** Two pointers and two bytes, padded to eight. *)
Definition sizeof_buddy_block : Z := 24.
Definition HDR_SIZE : Z := align_up_u64 sizeof_buddy_block MIN_ALIGN.

(** The static variables of the file, and the headers found in the heap. *)
Record mm := mk_mm {
  BASE_BLOCK_SIZE : Z;
  free_lists : list Z;
  blocks : gmap Z buddy_block;
  mm_initialized_flag : Z;
  heap_capacity_bytes : Z;
  heap_used_bytes : Z;
  heap_allocation_count : Z;
  heap_free_count : Z;
  heap_failed_allocations : Z;
  heap_base : Z;
  heap_usable_bytes : Z;
  max_level : Z }.
Definition eta_mm (s : mm) :=
  mk_mm (BASE_BLOCK_SIZE s) (free_lists s) (blocks s) (mm_initialized_flag s) (heap_capacity_bytes s)
    (heap_used_bytes s) (heap_allocation_count s) (heap_free_count s) (heap_failed_allocations s)
    (heap_base s) (heap_usable_bytes s) (max_level s).
#[export] Instance set_BASE_BLOCK_SIZE : Setter BASE_BLOCK_SIZE := ltac:(build_setter eta_mm BASE_BLOCK_SIZE).
#[export] Instance set_free_lists : Setter free_lists := ltac:(build_setter eta_mm free_lists).
#[export] Instance set_blocks : Setter blocks := ltac:(build_setter eta_mm blocks).
#[export] Instance set_mm_initialized_flag : Setter mm_initialized_flag := ltac:(build_setter eta_mm mm_initialized_flag).
#[export] Instance set_heap_capacity_bytes : Setter heap_capacity_bytes := ltac:(build_setter eta_mm heap_capacity_bytes).
#[export] Instance set_heap_used_bytes : Setter heap_used_bytes := ltac:(build_setter eta_mm heap_used_bytes).
#[export] Instance set_heap_allocation_count : Setter heap_allocation_count := ltac:(build_setter eta_mm heap_allocation_count).
#[export] Instance set_heap_free_count : Setter heap_free_count := ltac:(build_setter eta_mm heap_free_count).
#[export] Instance set_heap_failed_allocations : Setter heap_failed_allocations := ltac:(build_setter eta_mm heap_failed_allocations).
#[export] Instance set_heap_base : Setter heap_base := ltac:(build_setter eta_mm heap_base).
#[export] Instance set_heap_usable_bytes : Setter heap_usable_bytes := ltac:(build_setter eta_mm heap_usable_bytes).
#[export] Instance set_max_level : Setter max_level := ltac:(build_setter eta_mm max_level).

Definition blank_block : buddy_block := mk_buddy_block 0 0 0 0.
(** The state at boot: every static variable is zero. *)
Definition mm_boot : mm := mk_mm 0 (replicate 32 0) ∅ 0 0 0 0 0 0 0 0 0.

(** ** Access to headers and list heads *)

Definition load (p : Z) : M mm buddy_block :=
  if p =? 0 then fault else gets_opt (fun s => blocks s !! p).
Definition store (p : Z) (f : buddy_block -> buddy_block) : M mm unit :=
  if p =? 0 then fault else
  modify (fun s => s <| blocks ::= fun m => <[p := f (default blank_block (m !! p))]> m |>).
(** [free_lists[l]]: an index out of bounds is undefined behaviour. *)
Definition load_list (l : Z) : M mm Z := gets_opt (fun s => free_lists s !! Z.to_nat l).
Definition store_list (l : Z) (p : Z) : M mm unit :=
  _ ← load_list l; modify (fun s => s <| free_lists ::= <[Z.to_nat l := p]> |>).

Definition free_lists_init : M mm unit := for_up 0 32 (fun i => store_list i 0).

(** [while (blk < total && order < MM_MAX_LEVELS - 1) { blk <<= 1; order++; }],
    at most 31 rounds. *)
Fixpoint order_loop (fuel : nat) (total blk order : Z) : Z :=
  match fuel with
  | O => order
  | S n =>
      if (blk <? total) && (order <? MM_MAX_LEVELS - 1)
      then order_loop n total (u64 (Z.shiftl blk 1)) (u8 (order + 1))
      else order
  end.
Definition order_for (size_bytes : Z) : M mm Z :=
  base ← gets BASE_BLOCK_SIZE;
  let total := if size_bytes <? base then base else size_bytes in
  mret (order_loop 31 total base 0).

Definition push_free (b : Z) : M mm unit :=
  store b (fun h => h <| is_free := 1 |>) ;;
  store b (fun h => h <| prev := 0 |>) ;;
  h ← load b;
  head ← load_list (level h);
  store b (fun h => h <| next := head |>) ;;
  h ← load b;
  when (ctrue (next h)) (store (next h) (fun h' => h' <| prev := b |>)) ;;
  h ← load b;
  store_list (level h) b.

Definition pop_free (lvl : Z) : M mm Z :=
  b ← load_list lvl;
  if b =? 0 then mret 0 else
  h ← load b;
  store_list lvl (next h) ;;
  head ← load_list lvl;
  when (ctrue head) (store head (fun h' => h' <| prev := 0 |>)) ;;
  store b (fun h' => h' <| prev := 0 |>) ;;
  store b (fun h' => h' <| next := 0 |>) ;;
  store b (fun h' => h' <| is_free := 0 |>) ;;
  mret b.

(** One round of the loop of [split_down]; [inr] leaves it. *)
Definition split_step (to_level l : Z) : M mm (Z + Z) :=
  if negb (l >? to_level) then p ← pop_free to_level; mret (inr p) else
  blk ← pop_free l;
  if blk =? 0 then mret (inr 0) else
  base ← gets BASE_BLOCK_SIZE;
  let size := u64 (pow2_u64 l * base) in
  let buddy := u64 (blk + Z.shiftr size 1) in
  store buddy (fun h => h <| level := u8 (l - 1) |>) ;;
  store buddy (fun h => h <| is_free := 1 |>) ;;
  store buddy (fun h => h <| prev := 0 |> <| next := 0 |>) ;;
  push_free buddy ;;
  store blk (fun h => h <| level := u8 (l - 1) |>) ;;
  store blk (fun h => h <| is_free := 1 |>) ;;
  store blk (fun h => h <| prev := 0 |> <| next := 0 |>) ;;
  push_free blk ;;
  mret (inl (u8 (l - 1))).
(** [from_level] is at most 31. *)
Definition split_down (from_level to_level : Z) : M mm Z := while_fuel 33 (split_step to_level) from_level.

Definition get_block_from_ptr (ptr : Z) : Z := if ptr =? 0 then 0 else u64 (ptr - HDR_SIZE).

Definition find_buddy (blk : Z) : M mm Z :=
  base ← gets heap_base;
  h ← load blk;
  unit_size ← gets BASE_BLOCK_SIZE;
  usable ← gets heap_usable_bytes;
  let offset := u64 (blk - base) in
  let block_size := u64 (pow2_u64 (level h) * unit_size) in
  let buddy_off := Z.lxor offset block_size in
  if u64 (buddy_off + block_size) >? usable then mret 0
  else mret (u64 (base + buddy_off)).

(** The variable [head] of [remove_from_free_list] points to a list head or to
    the [next] field of a block. *)
Inductive cell := CellList (l : Z) | CellNext (p : Z).
Definition load_cell (c : cell) : M mm Z :=
  match c with CellList l => load_list l | CellNext p => h ← load p; mret (next h) end.
Definition store_cell (c : cell) (v : Z) : M mm unit :=
  match c with CellList l => store_list l v | CellNext p => store p (fun h => h <| next := v |>) end.

Definition remove_step (b : Z) (head : cell) : M mm (cell + cell) :=
  p ← load_cell head;
  if ctrue p && negb (p =? b) then mret (inl (CellNext p)) else mret (inr head).
Definition remove_from_free_list (b : Z) : M mm unit :=
  hb ← load b;
  n ← gets (fun s => size (blocks s));
  head ← while_fuel (S (S n)) (remove_step b) (CellList (level hb));
  p ← load_cell head;
  if p =? b then
    h ← load b;
    store_cell head (next h) ;;
    h ← load b;
    when (ctrue (next h)) (h' ← load b; store (next h) (fun x => x <| prev := prev h' |>)) ;;
    store b (fun h => h <| prev := 0 |>) ;;
    store b (fun h => h <| next := 0 |>)
  else mret tt.

Definition coalesce_step (blk : Z) : M mm (Z + Z) :=
  h ← load blk;
  top ← gets max_level;
  if negb (level h <? top) then mret (inr blk) else
  bud ← find_buddy blk;
  if bud =? 0 then mret (inr blk) else
  hb ← load bud;
  h ← load blk;
  if negb (ctrue (is_free hb)) || negb (level hb =? level h) then mret (inr blk) else
  remove_from_free_list bud ;;
  let blk := if bud <? blk then bud else blk in
  store blk (fun h => h <| level ::= fun l => u8 (l + 1) |>) ;;
  store blk (fun h => h <| is_free := 1 |>) ;;
  mret (inl blk).
(** A round raises the level, which stays below [max_level], a byte. *)
Definition coalesce (blk : Z) : M mm unit :=
  blk ← while_fuel 257 coalesce_step blk;
  push_free blk.

(** ** Entry points *)

(** [while (v < min_need) v <<= 1;] *)
Fixpoint double_until (fuel : nat) (limit v : Z) : Z :=
  match fuel with
  | O => v
  | S n => if v <? limit then double_until n limit (u64 (Z.shiftl v 1)) else v
  end.
(** [while (sz < usable && max_level < MM_MAX_LEVELS - 1) { sz <<= 1; max_level++; }] *)
Definition top_level (usable base : Z) : Z := order_loop 31 usable base 0.
(** [while (l > 0 && pow2_u64(l) * BASE_BLOCK_SIZE > remaining) l--;] *)
Fixpoint level_down (fuel : nat) (base remaining l : Z) : Z :=
  match fuel with
  | O => l
  | S n => if (l >? 0) && (u64 (pow2_u64 l * base) >? remaining) then level_down n base remaining (l - 1) else l
  end.

Definition place_step (base : Z) (st : Z * Z) : M mm ((Z * Z) + unit) :=
  let '(remaining, cur) := st in
  if negb (remaining >=? base) then mret (inr tt) else
  top ← gets max_level;
  let l := level_down 32 base remaining top in
  let blk_size := u64 (pow2_u64 l * base) in
  store cur (fun h => h <| prev := 0 |> <| next := 0 |>) ;;
  store cur (fun h => h <| level := u8 l |>) ;;
  store cur (fun h => h <| is_free := 1 |>) ;;
  push_free cur ;;
  mret (inl (u64 (remaining - blk_size), u64 (cur + blk_size))).

Definition mm_init_abandon (s : mm) : mm :=
  s <| mm_initialized_flag := 0 |> <| heap_capacity_bytes := 0 |> <| heap_usable_bytes := 0 |>.

Definition mm_init (heap_start heap_size : Z) : M mm unit :=
  let min_need_init := HDR_SIZE + 16 in
  if heap_size <? min_need_init then modify mm_init_abandon else
  let aligned_start := align_up_u64 heap_start MIN_ALIGN in
  let alignment_loss := u64 (aligned_start - heap_start) in
  if alignment_loss >=? heap_size then modify mm_init_abandon else
  let usable := u64 (heap_size - alignment_loss) in
  let usable := Z.land usable (bnot 64 (MIN_ALIGN - 1)) in
  if usable <? min_need_init then modify mm_init_abandon else
  modify (fun s => s <| heap_base := aligned_start |>) ;;
  modify (fun s => s <| heap_usable_bytes := usable |>) ;;
  let min_need := HDR_SIZE + 16 in
  let v := double_until 64 min_need 1 in
  modify (fun s => s <| BASE_BLOCK_SIZE := v |>) ;;
  modify (fun s => s <| max_level := top_level usable v |>) ;;
  free_lists_init ;;
  (* the blocks of the highest level, then at most one of each level below *)
  while_fuel (S (Z.to_nat (usable / (v * 2 ^ 31)) + 33)) (place_step v) (usable, aligned_start) ;;
  modify (fun s => s <| heap_capacity_bytes := u64 (usable - HDR_SIZE) |>) ;;
  modify (fun s => s <| heap_used_bytes := 0 |> <| heap_allocation_count := 0 |>
                     <| heap_free_count := 0 |> <| heap_failed_allocations := 0 |>) ;;
  modify (fun s => s <| mm_initialized_flag := 1 |>).

Section WithLinker.
(** [&endOfKernel]: the address the linker gives to the end of the kernel. *)
Variable endOfKernel : Z.

Definition mm_default_region : Z * Z :=
  let raw_start := u64 (endOfKernel + 0x1000 * 8) in
  let aligned_start := align_up_u64 raw_start MIN_ALIGN in
  let heap_limit := MM_DEFAULT_HEAP_LIMIT in
  if aligned_start >=? heap_limit then (0, 0)
  else (aligned_start, u64 (heap_limit - aligned_start)).

Definition mm_init_default : M mm unit :=
  let '(start, size) := mm_default_region in
  when (ctrue start && ctrue size) (mm_init start size).

(** [if (!mm_initialized_flag) { mm_init_default(); ... }]: whether the heap is usable. *)
Definition mm_ensure : M mm bool :=
  i ← gets mm_initialized_flag;
  if ctrue i then mret true else
  mm_init_default ;;
  i ← gets mm_initialized_flag;
  mret (ctrue i).

(** [for (uint8_t l = ord + 1; l <= max_level; l++) if (free_lists[l]) { blk = split_down(l, ord); break; }] *)
Definition search_step (ord l : Z) : M mm (Z + Z) :=
  top ← gets max_level;
  if negb (l <=? top) then mret (inr 0) else
  head ← load_list l;
  if ctrue head then p ← split_down l ord; mret (inr p)
  else mret (inl (u8 (l + 1))).

Definition mm_alloc (size : Z) : M mm Z :=
  ok ← mm_ensure;
  if negb ok then
    modify (fun s => s <| heap_failed_allocations ::= fun n => u64 (n + 1) |>) ;; mret 0
  else
  if size =? 0 then mret 0 else
  let req := align_up_u64 size MIN_ALIGN in
  ord ← order_for (u64 (req + HDR_SIZE));
  blk ← pop_free ord;
  blk ← (if blk =? 0 then while_fuel 257 (search_step ord) (u8 (ord + 1)) else mret blk);
  if blk =? 0 then
    modify (fun s => s <| heap_failed_allocations ::= fun n => u64 (n + 1) |>) ;; mret 0
  else
  store blk (fun h => h <| is_free := 0 |>) ;;
  base ← gets BASE_BLOCK_SIZE;
  let payload := u64 (pow2_u64 ord * base - HDR_SIZE) in
  modify (fun s => s <| heap_used_bytes ::= fun n => u64 (n + payload) |>) ;;
  modify (fun s => if heap_used_bytes s >? heap_capacity_bytes s
                   then s <| heap_used_bytes := heap_capacity_bytes s |> else s) ;;
  mret (u64 (blk + HDR_SIZE)).
End WithLinker.

Definition mm_free (ptr : Z) : M mm unit :=
  i ← gets mm_initialized_flag;
  if (ptr =? 0) || negb (ctrue i) then mret tt else
  let blk := get_block_from_ptr ptr in
  if blk =? 0 then mret tt else
  h ← load blk;
  if ctrue (is_free h) then mret tt else
  store blk (fun h => h <| is_free := 1 |>) ;;
  modify (fun s => s <| heap_free_count ::= fun n => u64 (n + 1) |>) ;;
  h ← load blk;
  base ← gets BASE_BLOCK_SIZE;
  let payload := u64 (pow2_u64 (level h) * base - HDR_SIZE) in
  modify (fun s => s <| heap_used_bytes ::= fun n =>
    if n >=? payload then u64 (n - payload) else 0 |>) ;;
  coalesce blk.

Definition largest_step (st : Z * Z) : M mm ((Z * Z) + Z) :=
  let '(cur, largest) := st in
  if cur =? 0 then mret (inr largest) else
  h ← load cur;
  base ← gets BASE_BLOCK_SIZE;
  let cur_payload := u64 (pow2_u64 (level h) * base - HDR_SIZE) in
  mret (inl (next h, if cur_payload >? largest then cur_payload else largest)).
Definition largest_level (st : Z * Z) : M mm ((Z * Z) + Z) :=
  let '(l, largest) := st in
  top ← gets max_level;
  if negb (l <=? top) then mret (inr largest) else
  n ← gets (fun s => size (blocks s));
  cur ← load_list l;
  largest ← while_fuel (S (S n)) largest_step (cur, largest);
  mret (inl (u8 (l + 1), largest)).
Definition mm_get_stats : M mm mm_stats_t :=
  largest ← while_fuel 257 largest_level (0, 0);
  gets (fun s => mk_mm_stats (heap_capacity_bytes s) (heap_used_bytes s)
    (if heap_capacity_bytes s >? heap_used_bytes s
     then u64 (heap_capacity_bytes s - heap_used_bytes s) else 0)
    largest (heap_allocation_count s) (heap_free_count s) (heap_failed_allocations s)).

Definition mm_is_initialized : M mm Z := gets mm_initialized_flag.
(** "buddy" *)
Definition mm_get_manager_name : list Z := [98; 117; 100; 100; 121].

#[export] Instance buddy_manager (eok : Z) : MemManager mm := {
  malloc := mm_alloc eok;
  mfree := mm_free;
  mm_init_heap := mm_init_default eok;
  mm_stats := mm_get_stats;
  mm_manager_name := mm_get_manager_name }.

End Buddy.
