(* ===== verification/MmBuddyFacts.v ===== *)
(** * The buddy manager keeps its heap in order

    The headers are read through one view, [vw]: level, free flag and next block
    of the free list.  [heap_ok] relates the view and the list heads to a division
    of the heap into blocks ([Tiling]) and to the lists of free blocks. *)
From stdpp Require Import functions.
From S2P Require Import Prelude LinkedList MmInterface MmBuddyTiling MmBuddy.
Import Tiling.

Module BuddyFacts.
Import Buddy.

(** ** The view of a header *)

Definition hview : Type := Z * Z * Z.
Definition hv (b : buddy_block) : hview := (level b, is_free b, next b).
Definition vw (s : mm) (p : Z) : option hview := hv <$> blocks s !! p.
Definition upd (s : mm) (p : Z) (f : buddy_block -> buddy_block) : mm :=
  s <| blocks ::= fun m => <[p := f (default blank_block (m !! p))]> m |>.
(** Everything but the headers and the list heads. *)
Definition config (s : mm) :=
  (BASE_BLOCK_SIZE s, mm_initialized_flag s, heap_capacity_bytes s, heap_used_bytes s,
   heap_allocation_count s, heap_free_count s, heap_failed_allocations s,
   heap_base s, heap_usable_bytes s, max_level s).

Definition vn (w : Z -> option hview) (p : Z) : option Z := snd <$> w p.

(** The lists of free blocks, by level. *)
Record lists_ok (fl : list Z) (w : Z -> option hview) (FL : Z -> list Z) : Prop := {
  lo_length : length fl = 32%nat;
  lo_head l : 0 <= l < 32 -> fl !! Z.to_nat l = Some (first 0 (FL l));
  lo_chain l : 0 <= l < 32 -> sll (vn w) (FL l) 0;
  lo_nodup l : NoDup (FL l);
  lo_elem l p : p ∈ FL l -> 0 <= l < 32 /\ p <> 0 /\ exists x, w p = Some (l, 1, x) }.

Lemma lists_ext fl w w' FL : lists_ok fl w FL -> (forall p, w' p = w p) -> lists_ok fl w' FL.
Proof.
  intros [H1 H2 H3 H4 H5] E. split; [done..| |done|].
  - intros l Hl. eapply sll_ext; [by apply H3|]. intros p _. unfold vn. by rewrite E.
  - intros l p Hp. rewrite E. by apply H5.
Qed.

Lemma lists_fn fl w FL FL' : lists_ok fl w FL -> (forall l, FL' l = FL l) -> lists_ok fl w FL'.
Proof. intros [H1 H2 H3 H4 H5] E. split; [done|..]; intros l; rewrite ?E; auto. Qed.

Section Lists.
Context (fl : list Z) (w : Z -> option hview) (FL : Z -> list Z) (H : lists_ok fl w FL).

Lemma lists_level l k p : p ∈ FL l -> p ∈ FL k -> l = k.
Proof.
  intros (_ & _ & x & E)%(lo_elem _ _ _ H) (_ & _ & y & E')%(lo_elem _ _ _ H). rewrite E in E'. by simplify_eq.
Qed.

(** Writing headers of no list changes no list. *)
Lemma sll_other l p v : 0 <= l < 32 -> p ∉ FL l -> sll (vn (<[p := v]> w)) (FL l) 0.
Proof.
  intros Hl Hp. eapply sll_ext; [by apply (lo_chain _ _ _ H)|].
  intros q Hq. unfold vn. rewrite fn_lookup_insert_ne; [done|]. by intros ->.
Qed.

Lemma lists_frame p v : (forall k, p ∉ FL k) -> lists_ok fl (<[p := v]> w) FL.
Proof.
  intros Hp. split; [apply (lo_length _ _ _ H)|apply (lo_head _ _ _ H)| |apply (lo_nodup _ _ _ H)|].
  - intros k Hk. by apply sll_other.
  - intros k q Hq. rewrite fn_lookup_insert_ne by (intros ->; by apply (Hp k)). by apply (lo_elem _ _ _ H).
Qed.

Lemma head_other l k v : 0 <= l < 32 -> 0 <= k < 32 -> k <> l ->
  <[Z.to_nat l := v]> fl !! Z.to_nat k = Some (first 0 (FL k)).
Proof. intros Hl Hk Hne. rewrite list_lookup_insert_ne by lia. by apply (lo_head _ _ _ H). Qed.
Lemma head_same l v : 0 <= l < 32 -> <[Z.to_nat l := v]> fl !! Z.to_nat l = Some v.
Proof. intros Hl. apply list_lookup_insert_eq. rewrite (lo_length _ _ _ H). lia. Qed.

(** A list replaced by another one, the other lists untouched. *)
Lemma lists_replace l fl' w' xs :
  0 <= l < 32 -> length fl' = 32%nat ->
  (forall k, 0 <= k < 32 -> k <> l -> fl' !! Z.to_nat k = fl !! Z.to_nat k) ->
  (forall k p, k <> l -> p ∈ FL k -> w' p = w p) ->
  fl' !! Z.to_nat l = Some (first 0 xs) -> sll (vn w') xs 0 -> NoDup xs ->
  (forall p, p ∈ xs -> p <> 0 /\ exists x, w' p = Some (l, 1, x)) ->
  lists_ok fl' w' (<[l := xs]> FL).
Proof.
  intros Hl Hlen Hfl Hw Hh Hc Hn He. split; [done|..]; intros k.
  - intros Hk. destruct (decide (l = k)) as [->|Hne]; [by rewrite fn_lookup_insert|].
    rewrite fn_lookup_insert_ne, Hfl by done. by apply (lo_head _ _ _ H).
  - intros Hk. destruct (decide (l = k)) as [->|Hne]; [by rewrite fn_lookup_insert|].
    rewrite fn_lookup_insert_ne by done. eapply sll_ext; [by apply (lo_chain _ _ _ H)|].
    intros p Hp. unfold vn. by rewrite (Hw k).
  - destruct (decide (l = k)) as [->|Hne]; [by rewrite fn_lookup_insert|].
    rewrite fn_lookup_insert_ne by done. apply (lo_nodup _ _ _ H).
  - intros p Hp. destruct (decide (l = k)) as [->|Hne].
    + rewrite fn_lookup_insert in Hp. split; [done|by apply He].
    + rewrite fn_lookup_insert_ne in Hp by done. rewrite (Hw k) by done. by apply (lo_elem _ _ _ H).
Qed.

Lemma lists_push l b :
  0 <= l < 32 -> b <> 0 -> (forall k, b ∉ FL k) ->
  lists_ok (<[Z.to_nat l := b]> fl) (<[b := Some (l, 1, first 0 (FL l))]> w) (<[l := b :: FL l]> FL).
Proof.
  intros Hl Hb Hn. apply lists_replace; [done|by rewrite length_insert, (lo_length _ _ _ H)|..].
  - intros k Hk Hne. apply list_lookup_insert_ne. lia.
  - intros k p Hne Hp. apply fn_lookup_insert_ne. intros ->. by apply (Hn k).
  - by apply head_same.
  - split; [unfold vn; by rewrite fn_lookup_insert|]. by apply sll_other.
  - apply NoDup_cons. split; [done|apply (lo_nodup _ _ _ H)].
  - intros p [->|Hp]%elem_of_cons; [split; [done|]; rewrite fn_lookup_insert; eauto|].
    rewrite fn_lookup_insert_ne by (intros ->; by apply (Hn l)).
    by destruct (lo_elem _ _ _ H _ _ Hp) as (_ & ? & ?).
Qed.

(** The blocks before and after one of a list. *)
Lemma lists_split l l1 b l2 :
  FL l = l1 ++ b :: l2 ->
  0 <= l < 32 /\ b <> 0 /\ w b = Some (l, 1, first 0 l2) /\ NoDup (l1 ++ l2) /\ b ∉ l1 ++ l2.
Proof.
  intros E. assert (b ∈ FL l) as Hb by (rewrite E; apply elem_of_app; right; by left).
  destruct (lo_elem _ _ _ H _ _ Hb) as (Hl & Hz & x & Ex).
  pose proof (lo_chain _ _ _ H l Hl) as Hc. pose proof (lo_nodup _ _ _ H l) as Hn. rewrite E in Hc, Hn.
  apply sll_app in Hc as [_ [Hc _]]. unfold vn in Hc. rewrite Ex in Hc. simpl in Hc.
  rewrite <- Permutation_middle in Hn. apply NoDup_cons in Hn as [Hnb Hn].
  split_and!; [lia..|done| |done|done]. by simplify_eq.
Qed.

Lemma lists_pop l b r :
  FL l = b :: r ->
  lists_ok (<[Z.to_nat l := first 0 r]> fl) (<[b := Some (l, 0, 0)]> w) (<[l := r]> FL).
Proof.
  intros E. destruct (lists_split l [] b r E) as (Hl & Hb & _ & Hn & Hbr). simpl in Hn, Hbr.
  apply lists_replace; [done|by rewrite length_insert, (lo_length _ _ _ H)|..].
  - intros k Hk Hne. apply list_lookup_insert_ne. lia.
  - intros k p Hne Hp. apply fn_lookup_insert_ne. intros ->. apply Hne. eapply lists_level; [done|].
    rewrite E. by left.
  - by apply head_same.
  - pose proof (lo_chain _ _ _ H l Hl) as Hc. rewrite E in Hc. destruct Hc as [_ Hc].
    eapply sll_ext; [exact Hc|]. intros q Hq. unfold vn. rewrite fn_lookup_insert_ne; [done|]. by intros ->.
  - done.
  - intros p Hp. rewrite fn_lookup_insert_ne by (by intros ->).
    destruct (lo_elem _ _ _ H l p) as (_ & ? & ?); [rewrite E; by right|done].
Qed.

(** Unlinking a block behind others. *)
Lemma lists_unlink l l1 q b l2 :
  FL l = (l1 ++ [q]) ++ b :: l2 ->
  lists_ok fl (<[b := Some (l, 1, 0)]> (<[q := Some (l, 1, first 0 l2)]> w)) (<[l := (l1 ++ [q]) ++ l2]> FL).
Proof.
  intros E. destruct (lists_split l (l1 ++ [q]) b l2 E) as (Hl & Hb & _ & Hn & Hbr).
  assert (forall p, p ∈ (l1 ++ [q]) ++ l2 -> p ∈ FL l) as Sub.
  { intros p. rewrite E. intros [?|?]%elem_of_app; apply elem_of_app; [by left|right; by right]. }
  assert (b ∈ FL l) as HbF by (rewrite E; apply elem_of_app; right; by left).
  assert (q ∈ FL l) as HqF by (apply Sub; rewrite !elem_of_app; left; right; by left).
  assert (b <> q) as Hbq. { intros ->. apply Hbr. rewrite !elem_of_app. left; right; by left. }
  assert ((q ∉ l1) /\ (q ∉ l2)) as [Hq1 Hq2].
  { apply NoDup_app in Hn as (Hn1 & Hd & _). apply NoDup_app in Hn1 as (_ & Hd1 & _). split.
    - intros Hq. apply (Hd1 q Hq). by left.
    - apply Hd, elem_of_app. right. by left. }
  pose proof (lo_chain _ _ _ H l Hl) as Hc. rewrite E in Hc. apply sll_app in Hc as [Hc [_ Hc2]].
  apply sll_app in Hc as [Hc1 _]. rewrite !not_elem_of_app in Hbr. destruct Hbr as [[Hb1 _] Hb2].
  assert (forall xs e, sll (vn w) xs e -> b ∉ xs -> q ∉ xs ->
    sll (vn (<[b := Some (l, 1, 0)]> (<[q := Some (l, 1, first 0 l2)]> w))) xs e) as Keep.
  { intros xs e Hx Nb Nq. eapply sll_ext; [exact Hx|]. intros p Hp. unfold vn.
    rewrite !fn_lookup_insert_ne; [done|by intros ->|by intros ->]. }
  apply lists_replace; [done|apply (lo_length _ _ _ H)|done|..].
  - intros k p Hne Hp. rewrite !fn_lookup_insert_ne; [done|intros ->|intros ->]; apply Hne; by eapply lists_level.
  - rewrite (lo_head _ _ _ H l Hl), E. f_equal. by rewrite <- !app_assoc, !(first_app 0 l1).
  - apply sll_app. split; [apply sll_app; split; [by apply Keep|]|by apply Keep].
    split; [|done]. unfold vn. rewrite fn_lookup_insert_ne, fn_lookup_insert by done. done.
  - done.
  - intros p Hp. assert (p <> b) by (intros ->; rewrite !elem_of_app in Hp; destruct Hp as [[?|?%list_elem_of_singleton]|?]; done).
    rewrite fn_lookup_insert_ne by done. destruct (decide (q = p)) as [->|Hpq].
    + rewrite fn_lookup_insert. destruct (lo_elem _ _ _ H _ _ (Sub _ Hp)) as (_ & ? & _). eauto.
    + rewrite fn_lookup_insert_ne by done. by destruct (lo_elem _ _ _ H _ _ (Sub _ Hp)) as (_ & ? & ?).
Qed.

(** Unlinking the first block. *)
Lemma lists_unlink_first l b l2 :
  FL l = b :: l2 ->
  lists_ok (<[Z.to_nat l := first 0 l2]> fl) (<[b := Some (l, 1, 0)]> w) (<[l := l2]> FL).
Proof.
  intros E. pose proof (lists_pop l b l2 E) as [H1 H2 H3 H4 H5].
  destruct (lists_split l [] b l2 E) as (Hl & _ & _ & _ & Hb2). simpl in Hb2.
  assert (forall k p, p ∈ <[l := l2]> FL k -> p <> b) as Hne.
  { intros k p Hp ->. destruct (decide (l = k)) as [->|N]; [by rewrite fn_lookup_insert in Hp|].
    rewrite fn_lookup_insert_ne in Hp by done. apply N. eapply lists_level; [|exact Hp]. rewrite E. by left. }
  split; [done|done| |done|].
  - intros k Hk. eapply sll_ext; [by apply H3|]. intros p Hp%Hne. unfold vn. by rewrite !fn_lookup_insert_ne.
  - intros k p Hp. destruct (H5 k p Hp) as (? & ? & x & Ex). split_and!; [lia..|done|]. exists x.
    apply Hne in Hp. rewrite fn_lookup_insert_ne in Ex |- * by done. done.
Qed.
End Lists.

(** ** One load or one store *)


(** What a state shows of the headers, the list heads and the rest. *)
Definition shows (s : mm) (w : Z -> option hview) (fl : list Z) (s0 : mm) : Prop :=
  (forall q, vw s q = w q) /\ free_lists s = fl /\ config s = config s0.
Definition hd (s : mm) (p : Z) : option (Z * Z) := fst <$> vw s p.

(** The view after a store, from the view before it. *)
Ltac stored :=
  let b := fresh in let Hv := fresh in
  intros b _ Hv; specialize (Hv _ ltac:(first [eassumption | apply fn_lookup_insert])); unfold hv in *; cbn; congruence.
(** Views that agree but for repeated writes to [b]. *)
Ltac same_view b :=
  let q := fresh "q" in intros q;
  repeat match goal with S : shows ?s _ _ _ |- context [vw ?s q] => rewrite (proj1 S) end;
  destruct (decide (b = q)) as [<-|?]; [by rewrite ?fn_lookup_insert|by rewrite ?fn_lookup_insert_ne].

Lemma shows_self s : shows s (vw s) (free_lists s) s.
Proof. done. Qed.

Lemma hd_vw s p l f : hd s p = Some (l, f) -> exists x, vw s p = Some (l, f, x).
Proof. unfold hd. destruct (vw s p) as [[[? ?] x]|]; simpl; intros; simplify_eq; eauto. Qed.
Lemma vw_hd s p l f x : vw s p = Some (l, f, x) -> hd s p = Some (l, f).
Proof. unfold hd. by intros ->. Qed.

Lemma vw_upd s p f q :
  vw (upd s p f) q = <[p := Some (hv (f (default blank_block (blocks s !! p))))]> (vw s) q.
Proof.
  unfold vw, upd. cbn. destruct (decide (p = q)) as [->|Hne].
  - by rewrite lookup_insert_eq, fn_lookup_insert.
  - by rewrite lookup_insert_ne, fn_lookup_insert_ne.
Qed.

Section Steps.
Context {B : Type} (Q : B -> mm -> Prop) (s s0 : mm) (w : Z -> option hview) (fl : list Z) (Hs : shows s w fl s0).

Lemma step_load p l f x (k : buddy_block -> M mm B) :
  p <> 0 -> w p = Some (l, f, x) ->
  (forall b, level b = l -> is_free b = f -> next b = x -> runs (k b) s Q) ->
  runs (load p ≫= k) s Q.
Proof.
  intros Hp Hw Hk. destruct Hs as (V & _ & _). rewrite <- V in Hw.
  apply fmap_Some in Hw as (b & Eb & Ev). unfold hv in Ev. simplify_eq.
  apply runs_bind. unfold load. rewrite (proj2 (Z.eqb_neq p 0)) by done. apply (runs_gets_opt _ _ b); [done|]. by apply Hk.
Qed.

Lemma step_store p f v (k : unit -> M mm B) :
  p <> 0 -> (forall b, (blocks s !! p = None -> b = blank_block) -> (forall u, w p = Some u -> hv b = u) -> hv (f b) = v) ->
  (forall s', shows s' (<[p := Some v]> w) fl s0 -> runs (k tt) s' Q) ->
  runs (store p f ≫= k) s Q.
Proof.
  intros Hp Hf Hk. destruct Hs as (V & Efl & Ec).
  apply runs_bind. unfold store. rewrite (proj2 (Z.eqb_neq p 0)) by done.
  apply runs_modify. change (runs (k tt) (upd s p f) Q). apply Hk. split_and!; [|done|done].
  intros q. rewrite vw_upd. destruct (decide (p = q)) as [<-|Hne].
  - rewrite !fn_lookup_insert. f_equal. apply Hf.
    + by intros ->.
    + intros u. rewrite <- V. unfold vw. destruct (blocks s !! p); simpl; by intros [= <-].
  - by rewrite !fn_lookup_insert_ne.
Qed.

(** A store to the [prev] field, which nothing reads but to copy it. *)
Lemma step_store_prev p f (k : unit -> M mm B) :
  p <> 0 -> is_Some (w p) -> (forall b, hv (f b) = hv b) ->
  (forall s', shows s' w fl s0 -> runs (k tt) s' Q) ->
  runs (store p f ≫= k) s Q.
Proof.
  intros Hp [v Hv] Hf Hk. eapply (step_store p f v); [done| |].
  - intros b _ Hb. rewrite Hf. by apply Hb.
  - intros s' (V & ?). apply Hk. split; [|done]. intros q. rewrite V.
    destruct (decide (p = q)) as [<-|Hne]; [by rewrite fn_lookup_insert|by rewrite fn_lookup_insert_ne].
Qed.

Lemma step_load_list l x (k : Z -> M mm B) :
  fl !! Z.to_nat l = Some x -> runs (k x) s Q -> runs (load_list l ≫= k) s Q.
Proof. intros E Hk. destruct Hs as (_ & <- & _). apply runs_bind. by eapply runs_gets_opt. Qed.

Lemma step_store_list l p x (k : unit -> M mm B) :
  fl !! Z.to_nat l = Some x ->
  (forall s', shows s' w (<[Z.to_nat l := p]> fl) s0 -> runs (k tt) s' Q) ->
  runs (store_list l p ≫= k) s Q.
Proof.
  intros E Hk. destruct Hs as (V & <- & C). apply runs_bind. unfold store_list, load_list.
  apply runs_bind, (runs_gets_opt _ _ x); [done|]. by apply runs_modify, Hk.
Qed.
End Steps.

(** ** The free lists *)

(** [free_lists[l]->prev = ...] when there is such a block. *)
Lemma step_when_prev {B} (Q : B -> mm -> Prop) s s0 w fl p f (k : unit -> M mm B) :
  shows s w fl s0 -> (p <> 0 -> is_Some (w p)) -> (forall b, hv (f b) = hv b) ->
  (forall s', shows s' w fl s0 -> runs (k tt) s' Q) ->
  runs (when (ctrue p) (store p f) ≫= k) s Q.
Proof.
  intros Hs Hp Hf Hk. unfold ctrue. destruct (Z.eqb_spec p 0) as [->|Hne]; simpl.
  - apply runs_bind, runs_ret. by apply Hk.
  - eapply step_store_prev; [exact Hs|done|by apply Hp|done|done].
Qed.

Lemma first_shown fl w FL l r : lists_ok fl w FL -> (forall p, p ∈ r -> p ∈ FL l) -> first 0 r <> 0 -> is_Some (w (first 0 r)).
Proof.
  intros H Hr Hz. destruct r as [|p r]; [done|]. change (is_Some (w p)).
  destruct (lo_elem _ _ _ H l p) as (_ & _ & x & ->); [apply Hr; by left|eauto].
Qed.

Lemma push_free_spec s FL b l f (Q : unit -> mm -> Prop) :
  lists_ok (free_lists s) (vw s) FL -> hd s b = Some (l, f) -> 0 <= l < 32 -> b <> 0 -> (forall k, b ∉ FL k) ->
  (forall s', lists_ok (free_lists s') (vw s') (<[l := b :: FL l]> FL) -> (forall q, hd s' q = <[b := Some (l, 1)]> (hd s) q) ->
     config s' = config s -> Q tt s') ->
  runs (push_free b) s Q.
Proof.
  intros H (x & Eb)%hd_vw Hl Hb Hn HQ. pose proof (lo_head _ _ _ H l Hl) as Hh. set (h := first 0 (FL l)) in *.
  unfold push_free.
  eapply (step_store _ _ _ _ _ (shows_self s) b _ (l, 1, x)); [done|stored|].
  intros s1 S1. eapply step_store_prev; [exact S1|done|rewrite fn_lookup_insert; eauto|done|].
  intros s2 S2. eapply step_load; [exact S2|done|apply fn_lookup_insert|]. intros b0 El _ _. rewrite El.
  eapply step_load_list; [exact S2|exact Hh|].
  eapply (step_store _ _ _ _ _ S2 b _ (l, 1, h)); [done|stored|].
  intros s3 S3. eapply step_load; [exact S3|done|apply fn_lookup_insert|]. intros b1 _ _ ->.
  eapply step_when_prev; [exact S3| |done|].
  { intros Hz. destruct (decide (b = h)) as [->|Hne]; [rewrite fn_lookup_insert; eauto|].
    rewrite !fn_lookup_insert_ne by done. by eapply first_shown. }
  intros s4 S4. eapply step_load; [exact S4|done|apply fn_lookup_insert|]. intros b2 E2 _ _. rewrite E2.
  apply runs_bind_ret. eapply step_store_list; [exact S4|exact Hh|]. intros s5 S5.
  assert (forall q, vw s5 q = <[b := Some (l, 1, h)]> (vw s) q) as V.
  { same_view b. }
  apply runs_ret, HQ; [| |by apply S5].
  - destruct S5 as (_ & -> & _). eapply lists_ext; [by apply lists_push|exact V].
  - intros q. unfold hd. rewrite V. revert q. same_view b.
Qed.

Lemma pop_free_none s FL l (Q : Z -> mm -> Prop) :
  lists_ok (free_lists s) (vw s) FL -> 0 <= l < 32 -> FL l = [] -> Q 0 s -> runs (pop_free l) s Q.
Proof.
  intros H Hl E HQ. eapply step_load_list; [apply shows_self|by apply (lo_head _ _ _ H)|]. rewrite E. by apply runs_ret.
Qed.

Lemma pop_free_some s FL l b r (Q : Z -> mm -> Prop) :
  lists_ok (free_lists s) (vw s) FL -> FL l = b :: r ->
  (forall s', lists_ok (free_lists s') (vw s') (<[l := r]> FL) -> (forall q, hd s' q = <[b := Some (l, 0)]> (hd s) q) ->
     config s' = config s -> Q b s') ->
  runs (pop_free l) s Q.
Proof.
  intros H E HQ. destruct (lists_split _ _ _ H l [] b r E) as (Hl & Hb & Ew & _ & Hbr).
  pose proof (lo_head _ _ _ H l Hl) as Hh. rewrite E in Hh. change (first 0 (b :: r)) with b in Hh. simpl in Hbr.
  unfold pop_free. eapply step_load_list; [apply shows_self|exact Hh|]. rewrite (proj2 (Z.eqb_neq b 0)) by done.
  eapply step_load; [apply shows_self|done|exact Ew|]. intros b0 _ _ ->.
  eapply step_store_list; [apply shows_self|exact Hh|]. intros s1 S1.
  eapply step_load_list; [exact S1|by eapply head_same|].
  eapply step_when_prev; [exact S1| |done|].
  { intros Hz. eapply (first_shown _ _ _ l); [exact H| |done]. intros p Hp. rewrite E. by right. }
  intros s2 S2. eapply step_store_prev; [exact S2|done|rewrite Ew; eauto|done|]. intros s3 S3.
  eapply (step_store _ _ _ _ _ S3 b _ (l, 1, 0)); [done|stored|].
  intros s4 S4.
  eapply (step_store _ _ _ _ _ S4 b _ (l, 0, 0)); [done|stored|].
  intros s5 S5.
  assert (forall q, vw s5 q = <[b := Some (l, 0, 0)]> (vw s) q) as V.
  { same_view b. }
  apply runs_ret, HQ; [| |by apply S5].
  - destruct S5 as (_ & -> & _). eapply lists_ext; [by apply lists_pop|exact V].
  - intros q. unfold hd. rewrite V. revert q. same_view b.
Qed.

(** The cell that points at what follows the blocks [l1] from the cell [c]. *)
Definition cell_after (c : cell) (l1 : list Z) : cell := default c (CellNext <$> last l1).

Lemma step_load_cell s c l q r (Q : Z -> mm -> Prop) :
  match c with
  | CellList k => k = l /\ free_lists s !! Z.to_nat l = Some q
  | CellNext p => p <> 0 /\ exists f, vw s p = Some (r, f, q)
  end -> Q q s -> runs (load_cell c) s Q.
Proof.
  destruct c as [k|p].
  - intros [-> E] HQ. by eapply runs_gets_opt.
  - intros [Hp [f Hv]] HQ. eapply step_load; [apply shows_self|done|exact Hv|]. intros b _ _ ->. by apply runs_ret.
Qed.

(** The walk to the cell that points at [b]. *)
Lemma remove_walk s FL l b l2 (Q : cell -> mm -> Prop) :
  lists_ok (free_lists s) (vw s) FL -> forall l1 l0 fuel, FL l = l0 ++ l1 ++ b :: l2 -> (length l1 < fuel)%nat ->
  Q (cell_after (CellList l) (l0 ++ l1)) s ->
  runs (while_fuel fuel (remove_step b) (cell_after (CellList l) l0)) s Q.
Proof.
  intros H. induction l1 as [|p l1 IH]; intros l0 [|fuel] E Hf HQ; try (simpl in Hf; lia); simpl.
  - apply runs_bind. unfold remove_step. apply runs_bind.
    apply (step_load_cell _ _ l b l); [|rewrite Z.eqb_refl, andb_false_r, app_nil_r in *; do 2 apply runs_ret; done].
    destruct l0 as [|x l0 _] using rev_ind; simpl.
    + split; [done|]. destruct (lists_split _ _ _ H l [] b l2 E) as (Hl & _).
      rewrite (lo_head _ _ _ H l Hl), E. done.
    + unfold cell_after. rewrite last_snoc. simpl. simpl in E. rewrite <- app_assoc in E. simpl in E.
      destruct (lists_split _ _ _ H l l0 x (b :: l2) E) as (_ & ? & Ex & _). eauto.
  - apply runs_bind. unfold remove_step. apply runs_bind.
    assert (p <> 0 /\ p <> b) as [Hp Hpb].
    { destruct (lists_split _ _ _ H l l0 p (l1 ++ b :: l2) E) as (_ & ? & _ & Hn & Hx). split; [done|].
      intros ->. apply Hx. rewrite !elem_of_app. right; right; by left. }
    apply (step_load_cell _ _ l p l).
    + destruct l0 as [|x l0 _] using rev_ind; simpl.
      * split; [done|]. destruct (lists_split _ _ _ H l [] p (l1 ++ b :: l2) E) as (Hl & _).
        rewrite (lo_head _ _ _ H l Hl), E. done.
      * unfold cell_after. rewrite last_snoc. simpl. rewrite <- app_assoc in E. simpl in E.
        destruct (lists_split _ _ _ H l l0 x (p :: l1 ++ b :: l2) E) as (_ & ? & Ex & _). eauto.
    + unfold ctrue. rewrite !(proj2 (Z.eqb_neq _ _)) by done. simpl. apply runs_ret.
      assert (CellNext p = cell_after (CellList l) (l0 ++ [p])) as -> by (unfold cell_after; by rewrite last_snoc).
      apply IH; [by rewrite <- app_assoc|simpl in Hf; lia|by rewrite <- app_assoc].
Qed.

(** The cell that held [b] holds what follows [b]. *)
Lemma redirect_spec s FL l l1 b l2 (Q : unit -> mm -> Prop) :
  lists_ok (free_lists s) (vw s) FL -> FL l = l1 ++ b :: l2 ->
  (forall s1 w1, shows s1 w1 (free_lists s1) s -> w1 b = Some (l, 1, first 0 l2) ->
     (first 0 l2 <> 0 -> is_Some (w1 (first 0 l2))) -> (forall q, fst <$> w1 q = hd s q) ->
     lists_ok (free_lists s1) (<[b := Some (l, 1, 0)]> w1) (<[l := l1 ++ l2]> FL) -> Q tt s1) ->
  runs (store_cell (cell_after (CellList l) l1) (first 0 l2)) s Q.
Proof.
  intros H E HQ. destruct (lists_split _ _ _ H l l1 b l2 E) as (Hl & Hb & Ew & _).
  assert (first 0 l2 <> 0 -> is_Some (vw s (first 0 l2))) as Hf2.
  { intros Hz. eapply (first_shown _ _ _ l); [exact H| |done]. intros p Hp. rewrite E. apply elem_of_app. right; by right. }
  apply runs_bind_ret. destruct l1 as [|x l1 _] using rev_ind.
  - eapply step_store_list; [apply shows_self|by apply (lo_head _ _ _ H)|]. intros s' (V & Ef & C).
    apply runs_ret, (HQ s' (vw s)); rewrite ?Ef; [done..|]. by apply lists_unlink_first.
  - assert (FL l = l1 ++ x :: b :: l2) as E' by (by rewrite E, <- app_assoc).
    destruct (lists_split _ _ _ H l l1 x (b :: l2) E') as (_ & Hx & Ex & _ & Hxb).
    assert (x <> b) as Hne. { intros ->. apply Hxb, elem_of_app. right; by left. }
    unfold cell_after. rewrite last_snoc. eapply (step_store _ _ _ _ _ (shows_self s) x _ (l, 1, first 0 l2)); [done|stored|].
    intros s' (V & Ef & C). apply runs_ret, (HQ s' (<[x := Some (l, 1, first 0 l2)]> (vw s))); rewrite ?Ef; [done|..].
    + by rewrite fn_lookup_insert_ne.
    + intros Hz. destruct (decide (x = first 0 l2)) as [<-|?]; [rewrite fn_lookup_insert; eauto|].
      rewrite fn_lookup_insert_ne by done. by apply Hf2.
    + intros q. unfold hd. destruct (decide (x = q)) as [<-|?]; [by rewrite fn_lookup_insert, Ex|by rewrite fn_lookup_insert_ne].
    + by apply lists_unlink.
Qed.

Lemma remove_spec s FL l l1 b l2 (Q : unit -> mm -> Prop) :
  lists_ok (free_lists s) (vw s) FL -> FL l = l1 ++ b :: l2 ->
  (forall s', lists_ok (free_lists s') (vw s') (<[l := l1 ++ l2]> FL) -> (forall q, hd s' q = hd s q) ->
     config s' = config s -> Q tt s') ->
  runs (remove_from_free_list b) s Q.
Proof.
  intros H E HQ. destruct (lists_split _ _ _ H l l1 b l2 E) as (Hl & Hb & Ew & _).
  unfold remove_from_free_list. eapply step_load; [apply shows_self|done|exact Ew|]. intros b0 -> _ _.
  apply runs_bind, runs_gets, runs_bind. change (CellList l) with (cell_after (CellList l) []) at 1.
  eapply (remove_walk s FL l b l2 _ H l1 []); [done| |].
  { pose proof (lo_nodup _ _ _ H l) as Hn. rewrite E in Hn. apply NoDup_app in Hn as (Hn & _).
    enough (length l1 <= size (blocks s))%nat by lia. apply length_le_size; [done|].
    intros p Hp. destruct (lo_elem _ _ _ H l p) as (_ & _ & x & Ex); [rewrite E; apply elem_of_app; by left|].
    unfold vw in Ex. destruct (blocks s !! p); [eauto|done]. }
  simpl. apply runs_bind.
  apply (step_load_cell _ _ l b l).
  { destruct l1 as [|x l1 _] using rev_ind; simpl.
    - split; [done|]. by rewrite (lo_head _ _ _ H l Hl), E.
    - unfold cell_after. rewrite last_snoc. simpl. rewrite <- app_assoc in E. simpl in E.
      destruct (lists_split _ _ _ H l l1 x (b :: l2) E) as (_ & ? & Ex & _). eauto. }
  rewrite Z.eqb_refl. eapply step_load; [apply shows_self|done|exact Ew|]. intros b1 _ _ ->.
  eapply runs_bind, redirect_spec; [exact H|exact E|]. intros s1 w1 S1 W1 W2 W3 W4.
  eapply step_load; [exact S1|done|exact W1|]. intros b2 _ _ ->.
  assert (forall s2, shows s2 w1 (free_lists s1) s ->
    runs (store b (fun h => h <| prev := 0 |>) ;; store b (fun h => h <| next := 0 |>)) s2 Q) as Tail.
  { intros s2 S2. eapply step_store_prev; [exact S2|done|rewrite W1; eauto|done|]. intros s3 S3.
    apply runs_bind_ret. eapply (step_store _ _ _ _ _ S3 b _ (l, 1, 0)); [done|stored|]. intros s4 (V4 & F4 & C4).
    apply runs_ret, HQ; [rewrite F4; by eapply lists_ext| |done].
    intros q. unfold hd at 1. rewrite V4, <- W3. destruct (decide (b = q)) as [<-|?];
      [by rewrite fn_lookup_insert, W1|by rewrite fn_lookup_insert_ne]. }
  apply runs_bind, runs_when; [intros Hz|intros _; by apply Tail].
  eapply step_load; [exact S1|done|exact W1|]. intros b3 _ _ _. apply runs_bind_ret.
  assert (first 0 l2 <> 0) by (intros Ez; by rewrite Ez in Hz).
  eapply step_store_prev; [exact S1|done|by apply W2|done|]. intros s2 S2. by apply runs_ret, Tail.
Qed.

End BuddyFacts.
