(* ===== verification/MmBuddyHeap.v ===== *)
(** * The heap of the buddy manager

    [heap_ok] says that headers and free lists describe a division of the heap into
    blocks; each function of mm_buddy.c is related to what it does to the
    division: a block is taken, split, joined with its buddy, given back. *)
From stdpp Require Import functions.
From S2P Require Import Prelude LinkedList MmInterface MmBuddyTiling MmBuddy MmBuddyFacts.
Import Tiling.

Module BuddyHeap.
Import Buddy BuddyFacts.

(** Where the heap lies and how it is divided. *)
Definition geometry (s : mm) := (BASE_BLOCK_SIZE s, heap_base s, heap_usable_bytes s, max_level s).
(** The address of the block at offset [o]; a unit is 64 bytes. *)
Definition addr (s : mm) (o : Z) : Z := heap_base s + 64 * o.

(** [T] divides the first [n] units of the heap; [FL] are the free lists.  The
    header of the block [X], which is being freed, is already marked. *)
Record heap_ok (s : mm) (n : Z) (T : tiles) (FL : Z -> list Z) (X : option Z) : Prop := {
  hp_unit : BASE_BLOCK_SIZE s = 64;
  hp_range : 0 < heap_base s /\ heap_base s + heap_usable_bytes s < 2 ^ 63 /\ 0 <= n /\ 64 * n <= heap_usable_bytes s;
  hp_top : 0 <= max_level s <= 30;
  hp_tiling : tiling T n;
  hp_levels o l u : T !! o = Some (l, u) -> l <= max_level s;
  hp_headers o l u : T !! o = Some (l, u) ->
    hd s (addr s o) = Some (l, if decide (X = Some o) then 1 else cbool (negb u));
  hp_limbo o : X = Some o -> exists l, T !! o = Some (l, true);
  hp_lists : lists_ok (free_lists s) (vw s) FL;
  hp_free l p : p ∈ FL l <-> exists o, p = addr s o /\ T !! o = Some (l, false) }.

Lemma config_geometry s s' : config s' = config s -> geometry s' = geometry s.
Proof. unfold config, geometry. congruence. Qed.
Lemma config_flag s s' : config s' = config s -> mm_initialized_flag s' = mm_initialized_flag s.
Proof. unfold config. congruence. Qed.
Lemma geometry_addr s s' o : geometry s' = geometry s -> addr s' o = addr s o.
Proof. unfold geometry, addr. congruence. Qed.
Lemma geometry_top s s' : geometry s' = geometry s -> max_level s' = max_level s.
Proof. unfold geometry. congruence. Qed.
Lemma geometry_usable s s' : geometry s' = geometry s -> heap_usable_bytes s' = heap_usable_bytes s.
Proof. unfold geometry. congruence. Qed.

Lemma addr_inj s o o' : addr s o = addr s o' -> o = o'.
Proof. unfold addr. lia. Qed.

Section Heap.
Context (s : mm) (n : Z) (T : tiles) (FL : Z -> list Z) (X : option Z) (H : heap_ok s n T FL X).

Lemma tile_range o l u :
  T !! o = Some (l, u) ->
  0 <= o /\ 0 <= l <= 30 /\ l <= max_level s /\ (2 ^ l | o) /\ 0 < 2 ^ l /\ o + 2 ^ l <= n /\
  0 < heap_base s /\ 0 < addr s o /\ addr s o + 64 * 2 ^ l < 2 ^ 63.
Proof.
  intros E. destruct (ti_shape _ _ (hp_tiling _ _ _ _ _ H) _ _ _ E) as (? & ? & ? & ?).
  pose proof (hp_levels _ _ _ _ _ H _ _ _ E). pose proof (hp_top _ _ _ _ _ H). pose proof (hp_range _ _ _ _ _ H).
  pose proof (pow2_pos l). unfold addr. split_and!; (done || lia).
Qed.

(** A block that is not marked free is in no list; neither is what is no block. *)
Lemma not_listed p f l : hd s p = Some (l, f) -> f <> 1 -> forall k, p ∉ FL k.
Proof.
  intros E Hf k (_ & _ & x & Ex)%(lo_elem _ _ _ (hp_lists _ _ _ _ _ H)). apply vw_hd in Ex. congruence.
Qed.
Lemma not_a_block o : T !! o = None -> forall k, addr s o ∉ FL k.
Proof. intros E k (o' & Ea%addr_inj & E')%(hp_free _ _ _ _ _ H). congruence. Qed.
Lemma used_not_listed o l : T !! o = Some (l, true) -> forall k, addr s o ∉ FL k.
Proof. intros E k (o' & <-%addr_inj & E')%(hp_free _ _ _ _ _ H). congruence. Qed.

(** What the frame of an operation leaves to show. *)
Lemma heap_grow s' n' T' FL' X' :
  config s' = config s -> 0 <= n' -> 64 * n' <= heap_usable_bytes s ->
  tiling T' n' -> (forall o l u, T' !! o = Some (l, u) -> l <= max_level s) ->
  (forall o l u, T' !! o = Some (l, u) -> hd s' (addr s o) = Some (l, if decide (X' = Some o) then 1 else cbool (negb u))) ->
  (forall o, X' = Some o -> exists l, T' !! o = Some (l, true)) ->
  lists_ok (free_lists s') (vw s') FL' ->
  (forall l p, p ∈ FL' l <-> exists o, p = addr s o /\ T' !! o = Some (l, false)) ->
  heap_ok s' n' T' FL' X'.
Proof.
  intros C%config_geometry Hn0 Hn HT Hl Hh Hx HL Hf.
  assert (forall o, addr s' o = addr s o) as Ha by (intros o; by apply geometry_addr).
  destruct H as [H1 H2 H3 _ _ _ _ _ _]. unfold geometry in C. injection C as C1 C2 C3 C4.
  split; [congruence|rewrite C2, C3; lia|by rewrite C4|done|rewrite C4; eauto| |done|done|].
  - intros o l u E. rewrite Ha. by apply Hh.
  - intros l p. rewrite Hf. by setoid_rewrite Ha.
Qed.
Lemma heap_move s' T' FL' X' :
  config s' = config s -> tiling T' n -> (forall o l u, T' !! o = Some (l, u) -> l <= max_level s) ->
  (forall o l u, T' !! o = Some (l, u) -> hd s' (addr s o) = Some (l, if decide (X' = Some o) then 1 else cbool (negb u))) ->
  (forall o, X' = Some o -> exists l, T' !! o = Some (l, true)) ->
  lists_ok (free_lists s') (vw s') FL' ->
  (forall l p, p ∈ FL' l <-> exists o, p = addr s o /\ T' !! o = Some (l, false)) ->
  heap_ok s' n T' FL' X'.
Proof. intros C. pose proof (hp_range _ _ _ _ _ H). apply heap_grow; [done|lia..]. Qed.

Lemma heap_tally s' :
  geometry s' = geometry s -> (forall q, vw s' q = vw s q) -> free_lists s' = free_lists s -> heap_ok s' n T FL X.
Proof.
  intros C V Ef. assert (forall o, addr s' o = addr s o) as Ha by (intros o; by apply geometry_addr).
  destruct H as [H1 H2 H3 H4 H5 H6 H7 H8 H9]. unfold geometry in C. injection C as C1 C2 C3 C4.
  split; [congruence|by rewrite C2, C3|by rewrite C4|done|by rewrite C4| |done| |].
  - intros o l u E. rewrite Ha. unfold hd. rewrite V. by apply H6.
  - rewrite Ef. by eapply lists_ext.
  - intros l p. rewrite H9. by setoid_rewrite Ha.
Qed.
End Heap.

(** ** Taking a block off its list *)

Lemma pop_heap s n T FL X l b r (Q : Z -> mm -> Prop) :
  heap_ok s n T FL X -> FL l = b :: r ->
  (forall s' o, b = addr s o -> T !! o = Some (l, false) -> config s' = config s ->
     heap_ok s' n (<[o := (l, true)]> T) (<[l := r]> FL) X -> Q b s') ->
  runs (pop_free l) s Q.
Proof.
  intros H E HQ. pose proof (hp_lists _ _ _ _ _ H) as HL.
  destruct (proj1 (hp_free _ _ _ _ _ H l b)) as (o & -> & Eo); [rewrite E; by left|].
  destruct (lists_split _ _ _ HL l [] _ r E) as (Hl & _ & _ & _ & Hr). simpl in Hr.
  assert (X <> Some o) as HX. { intros ->. destruct (hp_limbo _ _ _ _ _ H o eq_refl). congruence. }
  eapply pop_free_some; [exact HL|exact E|]. intros s' HL' Hd C. apply (HQ s' o); [done..|].
  apply (heap_move _ _ _ _ _ H); [done| | | | |done|].
  - eapply set_use; [apply (hp_tiling _ _ _ _ _ H)|done].
  - intros q k u. rewrite lookup_insert. case_decide; [intros; simplify_eq; by eapply hp_levels|by eapply hp_levels].
  - intros q k u. rewrite Hd, lookup_insert. case_decide; subst.
    + intros. simplify_eq. rewrite fn_lookup_insert. by rewrite decide_False.
    + intros. rewrite fn_lookup_insert_ne by (intros ?%addr_inj; done). by eapply hp_headers.
  - intros q Hq. destruct (hp_limbo _ _ _ _ _ H q Hq) as [k Ek]. exists k. rewrite lookup_insert_ne; [done|congruence].
  - intros k p. destruct (decide (l = k)) as [<-|Hne].
    + rewrite fn_lookup_insert. split.
      * intros Hp. destruct (proj1 (hp_free _ _ _ _ _ H l p)) as (q & -> & Eq); [rewrite E; by right|].
        exists q. split; [done|]. rewrite lookup_insert_ne; [done|]. by intros ->.
      * intros (q & -> & Eq). rewrite lookup_insert in Eq. case_decide; [by simplify_eq|].
        assert (addr s q ∈ FL l) as Hq by (apply (hp_free _ _ _ _ _ H); eauto). rewrite E in Hq.
        apply elem_of_cons in Hq as [?%addr_inj|?]; [congruence|done].
    + rewrite fn_lookup_insert_ne, (hp_free _ _ _ _ _ H) by done.
      split; intros (q & -> & Eq); exists q; (split; [done|]); [rewrite lookup_insert_ne; [done|congruence]|].
      rewrite lookup_insert in Eq. case_decide; [by simplify_eq|done].
Qed.

(** ** New blocks *)

Lemma blocks_upd s p f : blocks (upd s p f) !! p = Some (f (default blank_block (blocks s !! p))).
Proof. apply lookup_insert_eq. Qed.

(** Three stores that make up the header of a block, and its insertion. *)
Lemma fresh_push {B} s FL p l f1 f2 f3 (c : unit -> M mm B) (Q : B -> mm -> Prop) :
  lists_ok (free_lists s) (vw s) FL -> p <> 0 -> 0 <= l < 32 -> (forall k, p ∉ FL k) ->
  (forall b, hv (f3 (f2 (f1 b))) = (l, 1, 0)) ->
  (forall s', lists_ok (free_lists s') (vw s') (<[l := p :: FL l]> FL) -> (forall q, hd s' q = <[p := Some (l, 1)]> (hd s) q) ->
     config s' = config s -> runs (c tt) s' Q) ->
  runs (store p f1 ;; store p f2 ;; store p f3 ;; push_free p ≫= c) s Q.
Proof.
  intros H Hp Hl Hn Hf HQ.
  assert (forall t f (Q' : unit -> mm -> Prop), Q' tt (upd t p f) -> runs (store p f) t Q') as HS.
  { intros t f Q' HQ'. unfold store. rewrite (proj2 (Z.eqb_neq p 0)) by done. by apply runs_modify. }
  do 3 apply runs_bind, HS. set (s3 := upd _ p f3).
  assert (forall q, vw s3 q = <[p := Some (l, 1, 0)]> (vw s) q) as V.
  { intros q. unfold s3. rewrite vw_upd. destruct (decide (p = q)) as [<-|Hne].
    - rewrite !fn_lookup_insert, !blocks_upd. f_equal. apply Hf.
    - by rewrite fn_lookup_insert_ne, vw_upd, fn_lookup_insert_ne, vw_upd, !fn_lookup_insert_ne. }
  apply runs_bind, (push_free_spec s3 FL p l 1); [|unfold hd; by rewrite V, fn_lookup_insert|done..|].
  - eapply lists_ext; [by apply lists_frame|exact V].
  - intros s' HL Hd C. apply HQ; [done| |done]. intros q. rewrite Hd. unfold hd.
    destruct (decide (p = q)) as [<-|Hne]; [by rewrite !fn_lookup_insert|by rewrite !fn_lookup_insert_ne, V, fn_lookup_insert_ne].
Qed.

Lemma split_heap {B} s n T FL o l f1 f2 f3 g1 g2 g3 (k : unit -> M mm B) (Q : B -> mm -> Prop) :
  heap_ok s n T FL None -> T !! o = Some (l + 1, true) -> 0 <= l ->
  (forall b, hv (f3 (f2 (f1 b))) = (l, 1, 0)) -> (forall b, hv (g3 (g2 (g1 b))) = (l, 1, 0)) ->
  (forall s', config s' = config s ->
     heap_ok s' n (<[o := (l, false)]> (<[o + 2 ^ l := (l, false)]> T))
       (<[l := addr s o :: addr s (o + 2 ^ l) :: FL l]> FL) None -> runs (k tt) s' Q) ->
  let bud := addr s (o + 2 ^ l) in let blk := addr s o in
  runs (store bud f1 ;; store bud f2 ;; store bud f3 ;; push_free bud ;;
        store blk g1 ;; store blk g2 ;; store blk g3 ;; push_free blk ≫= k) s Q.
Proof.
  intros H E Hl Hf Hg HQ bud blk. destruct (tile_range _ _ _ _ _ H _ _ _ E) as (Ho & Hl1 & Htop & Hd & _ & Hn & _ & Ha & Hlim).
  pose proof (pow2_pos l Hl) as Hp. pose proof (pow2_succ l Hl) as Es. pose proof (hp_lists _ _ _ _ _ H) as HL.
  pose proof (no_middle _ _ (hp_tiling _ _ _ _ _ H) _ _ _ E Hl) as Eb.
  assert (blk <> bud) as Hne by (unfold blk, bud, addr; lia).
  eapply (fresh_push s FL bud l); [done|unfold bud, addr in *; lia|lia|by eapply not_a_block|done|].
  intros s1 HL1 Hd1 C1.
  eapply (fresh_push s1 _ blk l); [exact HL1|unfold blk; lia|lia| |done|].
  { intros j Hj. destruct (decide (l = j)) as [<-|N]; [rewrite fn_lookup_insert in Hj; apply elem_of_cons in Hj as [?|Hj]; [done|]|
      rewrite fn_lookup_insert_ne in Hj by done]; by eapply used_not_listed. }
  intros s2 HL2 Hd2 C2. apply HQ; [congruence|]. rewrite fn_lookup_insert in HL2.
  apply (heap_move _ _ _ _ _ H); [congruence| | | |done| |].
  - eapply split_tile; [apply (hp_tiling _ _ _ _ _ H)|done..].
  - intros q j u. rewrite !lookup_insert. repeat case_decide; intros; simplify_eq; try lia. by eapply hp_levels.
  - intros q j u. rewrite Hd2. rewrite !lookup_insert. repeat case_decide; intros; simplify_eq.
    + by rewrite fn_lookup_insert.
    + rewrite fn_lookup_insert_ne, Hd1 by done. by rewrite fn_lookup_insert.
    + rewrite fn_lookup_insert_ne, Hd1, fn_lookup_insert_ne by (intros ?%addr_inj; done). by apply (hp_headers _ _ _ _ _ H q j u).
  - eapply lists_fn; [exact HL2|]. intros j. destruct (decide (l = j)) as [<-|N]; [by rewrite !fn_lookup_insert|by rewrite !fn_lookup_insert_ne].
  - intros j p. destruct (decide (l = j)) as [<-|N].
    + rewrite fn_lookup_insert, !elem_of_cons, (hp_free _ _ _ _ _ H). split.
      * intros [->|[->|(q & -> & Eq)]]; [exists o|exists (o + 2 ^ l)|exists q]; (split; [done|]).
        -- by rewrite lookup_insert_eq.
        -- rewrite lookup_insert_ne, lookup_insert_eq by lia. done.
        -- rewrite !lookup_insert_ne by congruence. done.
      * intros (q & -> & Eq). rewrite !lookup_insert in Eq. repeat case_decide; subst; [by left|by right; left|]. eauto.
    + rewrite fn_lookup_insert_ne, (hp_free _ _ _ _ _ H) by done. split; intros (q & -> & Eq); exists q; (split; [done|]).
      * rewrite !lookup_insert_ne by congruence. done.
      * rewrite !lookup_insert in Eq. repeat case_decide; simplify_eq. done.
Qed.

Lemma pow2_u64_eq l : 0 <= l < 64 -> pow2_u64 l = 2 ^ l.
Proof.
  intros Hl. unfold pow2_u64. rewrite Z.shiftl_1_l. apply wrap_small. split; [apply Z.pow_nonneg; lia|].
  apply Z.pow_lt_mono_r; lia.
Qed.
(** The size of a block in bytes. *)
Lemma block_bytes s n T FL X o l u :
  heap_ok s n T FL X -> T !! o = Some (l, u) -> u64 (pow2_u64 l * 64) = 2 ^ l * 64.
Proof.
  intros H E. destruct (tile_range _ _ _ _ _ H _ _ _ E) as (? & ? & _ & _ & ? & _ & _ & ? & ?).
  rewrite pow2_u64_eq by lia. apply wrap_small. lia.
Qed.

(** A block in use by the caller of [split_down] at every level on the way. *)
Lemma split_down_spec s0 n to top (Q : Z -> mm -> Prop) :
  0 <= to -> forall d fuel s T FL l b r, l = to + Z.of_nat d -> (d < fuel)%nat ->
  heap_ok s n T FL None -> config s = config s0 -> FL l = b :: r ->
  (forall o u, b = addr s o -> T !! o = Some (l, u) -> merged (<[o := (l, true)]> T) top) ->
  (forall s' o T' FL', b = addr s o -> T !! o = Some (l, false) -> heap_ok s' n T' FL' None -> config s' = config s0 ->
     merged T' top -> T' !! o = Some (to, true) -> same_used (<[o := (to, true)]> T) T' -> Q b s') ->
  runs (while_fuel fuel (split_step to) l) s Q.
Proof.
  intros Hto. induction d as [|d IH]; intros [|fuel] s T FL l b r Hl Hfuel H C E Hm HQ; try lia; simpl; apply runs_bind; unfold split_step.
  - assert (l = to) as -> by lia. rewrite Z.gtb_ltb, Z.ltb_irrefl. simpl. apply runs_bind.
    eapply pop_heap; [exact H|exact E|]. intros s1 o Ea Eo C1 H1. do 2 apply runs_ret.
    eapply (HQ s1 o); [done..|congruence|by eapply Hm|apply lookup_insert_eq|done].
  - assert (exists m, l = m + 1) as [m ->] by (exists (l - 1); lia).
    rewrite Z.gtb_ltb. destruct (Z.ltb_spec to (m + 1)) as [Hlt|]; [|lia]. simpl. apply runs_bind.
    eapply pop_heap; [exact H|exact E|]. intros s1 o -> Eo C1 H1.
    destruct (tile_range _ _ _ _ _ H _ _ _ Eo) as (Ho & Hl30 & _ & Hdiv & Hpow & Hn & Hbase & Ha & Hlim).
    rewrite (proj2 (Z.eqb_neq _ 0)) by lia. apply runs_bind, runs_gets.
    rewrite (hp_unit _ _ _ _ _ H1). pose proof (geometry_addr _ _ o (config_geometry _ _ C1)) as Ea1.
    rewrite (block_bytes _ _ _ _ _ _ _ _ H Eo). pose proof (pow2_succ m ltac:(lia)) as Es.
    assert (u64 (addr s o + Z.shiftr (2 ^ (m + 1) * 64) 1) = addr s1 (o + 2 ^ m)) as ->.
    { rewrite Z.shiftr_div_pow2, Es by lia. change (2 ^ 1) with 2.
      replace (2 * 2 ^ m * 64) with (2 ^ m * 64 * 2) by lia. rewrite Z.div_mul, wrap_small by lia.
      unfold addr in *. lia. }
    rewrite <- Ea1. assert (u8 (m + 1 - 1) = m) as -> by (rewrite Z.add_simpl_r; apply wrap_small; lia).
    eapply (split_heap s1 n _ _ o m); [exact H1|apply lookup_insert_eq|lia|done|done|].
    intros s2 C2 H2. apply runs_ret. pose proof (geometry_addr _ _ o (config_geometry _ _ C2)) as Ea2.
    eapply (IH fuel s2); [lia|lia|exact H2|congruence|apply fn_lookup_insert| |].
    + intros q u Eq _. rewrite <- Ea2 in Eq. apply addr_inj in Eq as <-. rewrite insert_insert_eq.
      eapply merged_split; [apply (hp_tiling _ _ _ _ _ H1)|apply lookup_insert_eq|lia|].
      rewrite insert_insert_eq. by eapply Hm.
    + intros s3 q T' FL' Eq _ H3 C3 Hm3 Et Hs3. rewrite <- Ea2 in Eq. apply addr_inj in Eq as <-.
      rewrite Ea1. eapply (HQ s3 o); [done|by rewrite Eo|exact H3|done|done|done|].
      etrans; [|exact Hs3]. eapply same_used_split; [apply (hp_tiling _ _ _ _ _ H)|exact Eo|lia].
Qed.

(** ** Finding a block *)

(** The smallest level, up to 31, whose blocks hold [total] bytes. *)
Lemma order_loop_spec total : forall fuel order, 0 <= order -> order + Z.of_nat fuel = 31 ->
  let k := order_loop fuel total (2 ^ order * 64) order in
  order <= k <= 31 /\ (k < 31 -> total <= 2 ^ k * 64) /\ (order < k -> 2 ^ (k - 1) * 64 < total).
Proof.
  induction fuel as [|fuel IH]; intros order Ho Hf; simpl; [lia|].
  change (MM_MAX_LEVELS - 1) with 31.
  destruct (Z.ltb_spec (2 ^ order * 64) total) as [Hlt|Hge], (Z.ltb_spec order 31) as [Ho31|]; simpl; [|lia..].
  pose proof (pow2_succ order Ho) as Es.
  assert (0 < 2 ^ (order + 1) <= 2 ^ 31) by (split; [apply pow2_pos; lia|apply Z.pow_le_mono_r; lia]).
  assert (u64 (Z.shiftl (2 ^ order * 64) 1) = 2 ^ (order + 1) * 64) as ->.
  { rewrite Z.shiftl_mul_pow2 by lia. rewrite wrap_small; lia. }
  assert (u8 (order + 1) = order + 1) as -> by (apply wrap_small; lia).
  destruct (IH (order + 1) ltac:(lia) ltac:(lia)) as (H1 & H2 & H3). cbv zeta in *.
  set (k := order_loop _ _ _ _) in *. split; [lia|]. split; [done|]. intros _.
  destruct (decide (order + 1 = k)) as [<-|]; [by rewrite Z.add_simpl_r|]. apply H3. lia.
Qed.

(** A block of level [ord] was taken out of the free block at its offset. *)
Definition taken (s s' : mm) (n : Z) (T : tiles) (ord p : Z) : Prop :=
  exists o k T' FL', p = addr s o /\ T !! o = Some (k, false) /\ ord <= k /\
    heap_ok s' n T' FL' None /\ config s' = config s /\ merged T' (max_level s) /\
    T' !! o = Some (ord, true) /\ same_used (<[o := (ord, true)]> T) T'.

Lemma list_above s n T FL X k : heap_ok s n T FL X -> max_level s < k -> FL k = [].
Proof.
  intros H Hk. destruct (FL k) as [|p r] eqn:E; [done|]. exfalso.
  destruct (proj1 (hp_free _ _ _ _ _ H k p)) as (o & _ & Eo); [rewrite E; by left|].
  pose proof (hp_levels _ _ _ _ _ H _ _ _ Eo). lia.
Qed.

Lemma search_spec s n T FL ord (Q : Z -> mm -> Prop) :
  heap_ok s n T FL None -> merged T (max_level s) -> 0 <= ord ->
  forall fuel l, ord < l <= 32 -> 32 - l < Z.of_nat fuel ->
  (forall s' p, p <> 0 -> taken s s' n T ord p -> Q p s') -> ((forall k, l <= k -> FL k = []) -> Q 0 s) ->
  runs (while_fuel fuel (search_step ord) l) s Q.
Proof.
  intros H Hm Ho. pose proof (hp_top _ _ _ _ _ H) as Htop.
  induction fuel as [|fuel IH]; intros l Hl Hf HQ H0; [lia|]; simpl.
  apply runs_bind. unfold search_step. apply runs_bind, runs_gets.
  destruct (Z.leb_spec l (max_level s)) as [Hle|Hgt]; simpl.
  2:{ do 2 apply runs_ret. apply H0. intros k Hk. eapply list_above; [done|lia]. }
  eapply step_load_list; [apply shows_self|apply (lo_head _ _ _ (hp_lists _ _ _ _ _ H)); lia|].
  destruct (FL l) as [|b r] eqn:E; simpl.
  - apply runs_ret. assert (u8 (l + 1) = l + 1) as -> by (apply wrap_small; lia).
    apply IH; [lia|lia|done|]. intros Hk. apply H0. intros k Hkl.
    destruct (decide (l = k)) as [<-|]; [done|]. apply Hk. lia.
  - destruct (proj1 (hp_free _ _ _ _ _ H l b)) as (o & -> & Eo); [rewrite E; by left|].
    destruct (tile_range _ _ _ _ _ H _ _ _ Eo) as (_ & _ & _ & _ & _ & _ & _ & Ha & _).
    change (first 0 (addr s o :: r)) with (addr s o).
    unfold ctrue. rewrite (proj2 (Z.eqb_neq _ 0)) by lia. simpl. apply runs_bind. unfold split_down.
    eapply (split_down_spec s n ord (max_level s) _ Ho (Z.to_nat (l - ord))); [lia|lia|exact H|done|exact E| |].
    + intros q u _ _. by apply merged_occupy.
    + intros s' q T' FL' Eq%addr_inj Et H' C' Hm' Et' Hs. subst q. do 2 apply runs_ret. apply HQ; [lia|].
      exists o, l, T', FL'. split_and!; (done || lia).
Qed.

Lemma find_block_spec s n T FL ord (Q : Z -> mm -> Prop) :
  heap_ok s n T FL None -> merged T (max_level s) -> 0 <= ord <= 31 ->
  (forall s' p, p <> 0 -> taken s s' n T ord p -> Q p s') -> ((forall k, ord <= k -> FL k = []) -> Q 0 s) ->
  runs (blk ← pop_free ord; if blk =? 0 then while_fuel 257 (search_step ord) (u8 (ord + 1)) else mret blk) s Q.
Proof.
  intros H Hm Ho HQ H0. apply runs_bind. destruct (FL ord) as [|b r] eqn:E.
  - eapply pop_free_none; [apply (hp_lists _ _ _ _ _ H)|lia|done|]. rewrite Z.eqb_refl.
    assert (u8 (ord + 1) = ord + 1) as -> by (apply wrap_small; lia).
    apply (search_spec s n T FL); [done|done|lia|lia|lia|done|]. intros Hk. apply H0. intros k Hkl.
    destruct (decide (ord = k)) as [<-|]; [done|]. apply Hk. lia.
  - eapply pop_heap; [exact H|exact E|]. intros s' o -> Eo C H'.
    destruct (tile_range _ _ _ _ _ H _ _ _ Eo) as (_ & _ & _ & _ & _ & _ & _ & Ha & _).
    rewrite (proj2 (Z.eqb_neq _ 0)) by lia. apply runs_ret, HQ; [lia|].
    eexists o, ord, _, _. split_and!; [done|done|lia|exact H'|done|by apply merged_occupy|apply lookup_insert_eq|done].
Qed.

(** ** Giving a block back *)

Lemma find_buddy_spec s n T FL X o l u (Q : Z -> mm -> Prop) :
  heap_ok s n T FL X -> heap_usable_bytes s < 64 * n + 64 -> T !! o = Some (l, u) ->
  (buddy o l + 2 ^ l <= n -> Q (addr s (buddy o l)) s) -> (n < buddy o l + 2 ^ l -> Q 0 s) ->
  runs (find_buddy (addr s o)) s Q.
Proof.
  intros H Hn E HQ H0. destruct (tile_range _ _ _ _ _ H _ _ _ E) as (Ho & Hl & _ & Hd & Hp & Hon & Hb & Ha & Hlim).
  destruct (hp_range _ _ _ _ _ H) as (_ & Hr & _ & Hr2).
  destruct (hd_vw _ _ _ _ (hp_headers _ _ _ _ _ H _ _ _ E)) as [x Ex].
  apply runs_bind, runs_gets. eapply step_load; [apply shows_self|lia|exact Ex|]. intros b -> _ _.
  apply runs_bind, runs_gets, runs_bind, runs_gets. rewrite (hp_unit _ _ _ _ _ H), (block_bytes _ _ _ _ _ _ _ _ H E).
  assert (u64 (addr s o - heap_base s) = 64 * o) as ->.
  { unfold addr in *. replace (heap_base s + 64 * o - heap_base s) with (64 * o) by lia. apply wrap_small. lia. }
  cbv zeta. rewrite buddy_bytes by lia. pose proof (buddy_nonneg o l Ho ltac:(lia)) as Hbn.
  assert (buddy o l <= o + 2 ^ l) as Hbl by (destruct (buddy_cases o l ltac:(lia) Hd) as [[-> _]|[-> _]]; lia).
  rewrite (wrap_small _ (64 * buddy o l + _)), Z.gtb_ltb by lia.
  destruct (Z.ltb_spec (heap_usable_bytes s) (64 * buddy o l + 2 ^ l * 64)); apply runs_ret.
  - apply H0. lia.
  - rewrite wrap_small by (unfold addr in *; lia). apply HQ. lia.
Qed.

(** The two halves of a block. *)
Lemma halves T n o l u :
  tiling T n -> T !! o = Some (l, u) ->
  let m := Z.min o (buddy o l) in
  (2 ^ (l + 1) | m) /\ (m = o /\ buddy o l = m + 2 ^ l \/ m = buddy o l /\ o = m + 2 ^ l).
Proof.
  intros HT E m. destruct (ti_shape _ _ HT _ _ _ E) as (_ & Hl & Hd & _). pose proof (pow2_pos l Hl). unfold m.
  destruct (buddy_cases o l Hl Hd) as [[-> D]|[-> D]]; [rewrite Z.min_l by lia|rewrite Z.min_r by lia]; (split; [done|lia]).
Qed.

Lemma join_heap s s' n T FL o l l1 l2 :
  let b := buddy o l in let m := Z.min o b in
  heap_ok s n T FL (Some o) -> T !! o = Some (l, true) -> T !! b = Some (l, false) -> l < max_level s ->
  FL l = l1 ++ addr s b :: l2 -> config s' = config s ->
  lists_ok (free_lists s') (vw s') (<[l := l1 ++ l2]> FL) -> (forall q, hd s' q = <[addr s m := Some (l + 1, 1)]> (hd s) q) ->
  let T' := <[m := (l + 1, true)]> (delete (m + 2 ^ l) T) in
  heap_ok s' n T' (<[l := l1 ++ l2]> FL) (Some m) /\ T' !! m = Some (l + 1, true) /\ same_used (delete o T) (delete m T').
Proof.
  intros b m H Eo Eb Hl E C HL Hd T'. destruct (halves _ _ _ _ _ (hp_tiling _ _ _ _ _ H) Eo) as [Dm Hm]. fold b m in Dm, Hm. clearbody m b.
  destruct (tile_range _ _ _ _ _ H _ _ _ Eo) as (_ & Hl0 & _ & _ & Hp & _).
  assert (forall q k u, T' !! q = Some (k, u) -> (q = m /\ k = l + 1 /\ u = true) \/ (q <> m /\ q <> o /\ q <> b /\ T !! q = Some (k, u))) as Back.
  { intros q k u. unfold T'. rewrite lookup_insert, lookup_delete. repeat case_decide; intros; simplify_eq; [by left|right].
    destruct Hm as [[-> Hb]|[-> Hb]]; split_and!; (done || congruence). }
  assert (forall q, q <> o -> q <> b -> T' !! q = T !! q) as Fwd.
  { intros q Nq Nb. unfold T'. rewrite lookup_insert_ne, lookup_delete_ne; [done|..]; destruct Hm as [[? ?]|[? ?]]; congruence. }
  split; [|split; [apply lookup_insert_eq|]].
  - apply (heap_move _ _ _ _ _ H); [done| | | | |done|].
    + assert (exists u1 u2, T !! m = Some (l, u1) /\ T !! (m + 2 ^ l) = Some (l, u2)) as (u1 & u2 & E1 & E2)
        by (destruct Hm as [[-> <-]|[-> <-]]; eauto).
      by eapply (join_tile _ _ (hp_tiling _ _ _ _ _ H)).
    + intros q k u [(-> & -> & ->)|(_ & _ & _ & Eq)]%Back; [lia|by eapply hp_levels].
    + intros q k u [(-> & -> & ->)|(Nm & No & _ & Eq)]%Back; rewrite Hd.
      * rewrite fn_lookup_insert. by rewrite decide_True.
      * rewrite fn_lookup_insert_ne by (intros ?%addr_inj; congruence). rewrite (hp_headers _ _ _ _ _ H _ _ _ Eq).
        rewrite !decide_False by congruence. done.
    + intros q [= <-]. exists (l + 1). apply lookup_insert_eq.
    + destruct (lists_split _ _ _ (hp_lists _ _ _ _ _ H) l l1 _ l2 E) as (_ & _ & _ & _ & Hnb).
      intros k p. destruct (decide (l = k)) as [<-|Nk].
      * rewrite fn_lookup_insert. split.
        -- intros Hpl. destruct (proj1 (hp_free _ _ _ _ _ H l p)) as (q & -> & Eq).
           { rewrite E. apply elem_of_app in Hpl as [?|?]; apply elem_of_app; [by left|right; by right]. }
           exists q. split; [done|]. rewrite Fwd; [done|intros ->; congruence|by intros ->].
        -- intros (q & -> & [(_ & _ & [=])|(_ & _ & Nb & Eq)]%Back).
           assert (addr s q ∈ FL l) as Hq by (apply (hp_free _ _ _ _ _ H); eauto). rewrite E in Hq.
           apply elem_of_app in Hq as [?|[?%addr_inj|?]%elem_of_cons]; apply elem_of_app; [by left|done|by right].
      * rewrite fn_lookup_insert_ne, (hp_free _ _ _ _ _ H) by done.
        split; intros (q & -> & Eq); exists q; (split; [done|]).
        -- rewrite Fwd; [done|intros ->; congruence|intros ->; congruence].
        -- by destruct (Back _ _ _ Eq) as [(_ & _ & [=])|(_ & _ & _ & ?)].
  - intros q k. rewrite !lookup_delete. destruct (decide (q = o)) as [->|No].
    + rewrite decide_True by done. case_decide; [done|]. destruct Hm as [[? _]|[Em Eom]]; [done|].
      unfold T'. rewrite lookup_insert_ne, Eom, lookup_delete_eq by congruence. done.
    + rewrite (decide_False (P := o = q)) by congruence. destruct (decide (q = b)) as [->|Nb].
      * rewrite Eb. case_decide; [by split; intros|]. destruct Hm as [[Em Ebm]|[? _]]; [|done].
        unfold T'. rewrite lookup_insert_ne, Ebm, lookup_delete_eq by congruence. by split; intros.
      * rewrite Fwd, decide_False; [done|..]; destruct Hm as [[? ?]|[? ?]]; congruence.
Qed.

(** One round of the loop of [coalesce]. *)
Lemma coalesce_step_spec s n T FL o l (Q : Z + Z -> mm -> Prop) :
  heap_ok s n T FL (Some o) -> heap_usable_bytes s < 64 * n + 64 -> T !! o = Some (l, true) -> merged T (max_level s) ->
  ((l < max_level s -> T !! buddy o l <> Some (l, false)) -> Q (inr (addr s o)) s) ->
  (forall s' m T' FL', heap_ok s' n T' FL' (Some m) -> T' !! m = Some (l + 1, true) -> merged T' (max_level s) ->
     same_used (delete o T) (delete m T') -> config s' = config s -> Q (inl (addr s m)) s') ->
  runs (coalesce_step (addr s o)) s Q.
Proof.
  intros H Hn E Hm Hstop Hjoin. destruct (tile_range _ _ _ _ _ H _ _ _ E) as (Ho & Hl & _ & Hd & Hp & _ & _ & Ha & _).
  pose proof (hp_headers _ _ _ _ _ H _ _ _ E) as Eh. rewrite decide_True in Eh by done. destruct (hd_vw _ _ _ _ Eh) as [x Ex].
  assert (buddy o l <> o) as Hne by (destruct (buddy_cases o l ltac:(lia) Hd) as [[-> _]|[-> _]]; lia).
  eapply step_load; [apply shows_self|lia|exact Ex|]. intros h1 -> _ _. apply runs_bind, runs_gets.
  destruct (Z.ltb_spec l (max_level s)) as [Htop|Htop]; simpl; [|apply runs_ret, Hstop; lia].
  apply runs_bind. eapply find_buddy_spec; [exact H|done|exact E| |].
  2:{ intros Hout. simpl. apply runs_ret, Hstop. intros _ Eb. pose proof (tile_range _ _ _ _ _ H _ _ _ Eb). lia. }
  intros Hin. destruct (buddy_start _ _ (hp_tiling _ _ _ _ _ H) _ _ _ E Hin) as (l' & u' & Eb & Hl').
  destruct (tile_range _ _ _ _ _ H _ _ _ Eb) as (_ & _ & _ & _ & _ & _ & _ & Hab & _).
  pose proof (hp_headers _ _ _ _ _ H _ _ _ Eb) as Ehb. rewrite decide_False in Ehb by congruence. destruct (hd_vw _ _ _ _ Ehb) as [y Ey].
  rewrite (proj2 (Z.eqb_neq _ 0)) by lia. eapply step_load; [apply shows_self|lia|exact Ey|]. intros h2 -> -> _.
  eapply step_load; [apply shows_self|lia|exact Ex|]. intros h3 -> _ _.
  destruct u'; simpl; [apply runs_ret, Hstop; congruence|].
  destruct (Z.eqb_spec l' l) as [->|Nl]; simpl; [|apply runs_ret, Hstop; congruence].
  assert (addr s (buddy o l) ∈ FL l) as (l1 & l2 & EF)%list_elem_of_split by (apply (hp_free _ _ _ _ _ H); eauto).
  destruct (lists_split _ _ _ (hp_lists _ _ _ _ _ H) l l1 _ l2 EF) as (_ & _ & _ & _ & Hnb).
  apply runs_bind. eapply remove_spec; [apply (hp_lists _ _ _ _ _ H)|exact EF|]. intros s1 HL1 Hd1 C1.
  set (m := Z.min o (buddy o l)).
  assert ((if addr s (buddy o l) <? addr s o then addr s (buddy o l) else addr s o) = addr s m) as ->.
  { unfold m, addr. destruct (Z.ltb_spec (heap_base s + 64 * buddy o l) (heap_base s + 64 * o)); [rewrite Z.min_r|rewrite Z.min_l]; lia. }
  assert (hd s1 (addr s m) = Some (l, 1) /\ addr s m <> 0 /\ forall k, addr s m ∉ <[l := l1 ++ l2]> FL k) as (Em & Ham & Hmn).
  { rewrite Hd1. assert (forall k, addr s o ∉ <[l := l1 ++ l2]> FL k) as No.
    { intros k. destruct (decide (l = k)) as [<-|]; [|rewrite fn_lookup_insert_ne by done; by eapply used_not_listed].
      rewrite fn_lookup_insert. intros Hk. apply (used_not_listed _ _ _ _ _ H o l E l). rewrite EF.
      apply elem_of_app in Hk as [?|?]; apply elem_of_app; [by left|right; by right]. }
    assert (forall k, addr s (buddy o l) ∉ <[l := l1 ++ l2]> FL k) as Nb.
    { intros k. destruct (decide (l = k)) as [<-|Nk]; [by rewrite fn_lookup_insert|]. rewrite fn_lookup_insert_ne by done.
      intros Hk. apply Nk. eapply lists_level; [apply (hp_lists _ _ _ _ _ H)| |exact Hk]. rewrite EF.
      apply elem_of_app. right; by left. }
    unfold m. destruct (Z.min_spec o (buddy o l)) as [[_ ->]|[_ ->]]; split_and!; (done || lia). }
  apply hd_vw in Em as [z Ez].
  eapply (step_store _ _ _ _ _ (shows_self s1) _ _ (l + 1, 1, z)); [done| |].
  { intros b _ Hb. specialize (Hb _ Ez). unfold hv in *. simplify_eq. cbn. rewrite wrap_small by lia. congruence. }
  intros s2 S2. eapply (step_store _ _ _ _ _ S2 _ _ (l + 1, 1, z)); [done|stored|]. intros s3 S3. apply runs_ret.
  assert (forall q, vw s3 q = <[addr s m := Some (l + 1, 1, z)]> (vw s1) q) as V by (same_view (addr s m)).
  destruct (join_heap s s3 n T FL o l l1 l2) as (H3 & Et & Hs); [done..|destruct S3; intuition congruence| | |].
  - destruct S3 as (_ & -> & _). eapply lists_ext; [by apply lists_frame|exact V].
  - intros q. unfold hd at 1. rewrite V. fold m. destruct (decide (addr s m = q)) as [<-|?].
    + by rewrite !fn_lookup_insert.
    + rewrite !fn_lookup_insert_ne by done. apply Hd1.
  - eapply Hjoin; [exact H3|exact Et|by apply merged_join|exact Hs|destruct S3; intuition congruence].
Qed.

(** The free list of level [l] begins with [o], which was in no list. *)
Lemma listed_first s (T T' : tiles) (FL : Z -> list Z) l o :
  (forall k p, p ∈ FL k <-> exists q, p = addr s q /\ T !! q = Some (k, false)) ->
  (forall k, T !! o <> Some (k, false)) -> T' = <[o := (l, false)]> T ->
  forall k p, p ∈ <[l := addr s o :: FL l]> FL k <-> exists q, p = addr s q /\ T' !! q = Some (k, false).
Proof.
  intros HF Ho -> k p. destruct (decide (l = k)) as [<-|Nk].
  - rewrite fn_lookup_insert, elem_of_cons, HF. split.
    + intros [->|(q & -> & Eq)]; [exists o; by rewrite lookup_insert_eq|]. exists q. split; [done|].
      rewrite lookup_insert_ne; [done|]. intros ->. by apply Ho in Eq.
    + intros (q & -> & Eq). rewrite lookup_insert in Eq. case_decide as D; [left; by rewrite D|eauto].
  - rewrite fn_lookup_insert_ne, HF by done. split; intros (q & -> & Eq); exists q; (split; [done|]).
    + rewrite lookup_insert_ne; [done|]. intros ->. by apply Ho in Eq.
    + rewrite lookup_insert in Eq. case_decide; [by simplify_eq|done].
Qed.

(** The block being freed enters its list. *)
Lemma give_heap s n T FL o l (Q : unit -> mm -> Prop) :
  heap_ok s n T FL (Some o) -> T !! o = Some (l, true) ->
  (forall s', config s' = config s -> heap_ok s' n (<[o := (l, false)]> T) (<[l := addr s o :: FL l]> FL) None -> Q tt s') ->
  runs (push_free (addr s o)) s Q.
Proof.
  intros H E HQ. destruct (tile_range _ _ _ _ _ H _ _ _ E) as (_ & Hl & _ & _ & _ & _ & _ & Ha & _).
  pose proof (hp_headers _ _ _ _ _ H _ _ _ E) as Eh. rewrite decide_True in Eh by done.
  eapply push_free_spec; [apply (hp_lists _ _ _ _ _ H)|exact Eh|lia|lia|by eapply used_not_listed|].
  intros s' HL Hd C. apply HQ; [done|]. apply (heap_move _ _ _ _ _ H); [done| | | |done|done|].
  - eapply set_use; [apply (hp_tiling _ _ _ _ _ H)|exact E].
  - intros q k u. rewrite lookup_insert. case_decide; [intros; simplify_eq|]; by eapply hp_levels.
  - intros q k u. rewrite Hd, lookup_insert. case_decide as Dq; intros.
    + simplify_eq. by rewrite fn_lookup_insert.
    + rewrite fn_lookup_insert_ne by (intros ?%addr_inj; congruence). erewrite (hp_headers _ _ _ _ _ H) by done.
      by rewrite !decide_False by congruence.
  - eapply listed_first; [apply (hp_free _ _ _ _ _ H)|congruence|done].
Qed.

Lemma buddy_coalesce_spec s n T FL o l (Q : unit -> mm -> Prop) :
  heap_ok s n T FL (Some o) -> heap_usable_bytes s < 64 * n + 64 -> T !! o = Some (l, true) -> merged T (max_level s) ->
  (forall s' T' FL', config s' = config s -> heap_ok s' n T' FL' None -> merged T' (max_level s) ->
     same_used (delete o T) T' -> Q tt s') ->
  runs (coalesce (addr s o)) s Q.
Proof.
  intros H Hn E Hm HQ. unfold coalesce. apply runs_bind.
  apply (runs_while (fun p t => exists q k T1 FL1, p = addr s q /\ heap_ok t n T1 FL1 (Some q) /\ T1 !! q = Some (k, true) /\
      merged T1 (max_level s) /\ same_used (delete o T) (delete q T1) /\ config t = config s)
    (fun p t => Z.to_nat (31 - default 0 (fst <$> hd t p)))).
  - exists o, l, T, FL. done.
  - pose proof (hp_headers _ _ _ _ _ H _ _ _ E) as ->. simpl. destruct (tile_range _ _ _ _ _ H _ _ _ E). lia.
  - intros p t (q & k & T1 & FL1 & -> & H1 & E1 & Hm1 & Hs1 & C1). pose proof (config_geometry _ _ C1) as G1.
    rewrite <- (geometry_addr _ _ q G1). rewrite <- (geometry_top _ _ G1) in Hm1. rewrite <- (geometry_usable _ _ G1) in Hn.
    pose proof (hp_headers _ _ _ _ _ H1 _ _ _ E1) as Eh1. destruct (tile_range _ _ _ _ _ H1 _ _ _ E1) as (_ & Hk & _).
    eapply coalesce_step_spec; [exact H1|exact Hn|exact E1|exact Hm1| |].
    + intros Hb. eapply give_heap; [exact H1|exact E1|]. intros s2 C2 H2.
      eapply HQ; [congruence|exact H2| |].
      * rewrite <- (geometry_top _ _ G1). apply merged_release; [done|lia|done].
      * etrans; [exact Hs1|]. intros x j. rewrite lookup_delete, lookup_insert.
        destruct (decide (q = x)); [split; intros; simplify_eq|done].
    + intros s2 m T2 FL2 H2 E2 Hm2 Hs2 C2. pose proof (config_geometry _ _ C2) as G2. split.
      * exists m, (k + 1), T2, FL2. split_and!; [by apply geometry_addr|done|done|by rewrite <- (geometry_top _ _ G1)|by etrans|congruence].
      * rewrite Eh1, <- (geometry_addr _ _ m G2). rewrite (hp_headers _ _ _ _ _ H2 _ _ _ E2). simpl.
        destruct (tile_range _ _ _ _ _ H2 _ _ _ E2). lia.
Qed.

(** A new free block behind the others. *)
Lemma extend_heap {B} s n T FL l f1 f2 f3 (c : unit -> M mm B) (Q : B -> mm -> Prop) :
  heap_ok s n T FL None -> 0 <= l -> l <= max_level s -> (2 ^ l | n) -> 64 * (n + 2 ^ l) <= heap_usable_bytes s ->
  (forall b, hv (f3 (f2 (f1 b))) = (l, 1, 0)) ->
  (forall s', config s' = config s -> heap_ok s' (n + 2 ^ l) (<[n := (l, false)]> T) (<[l := addr s n :: FL l]> FL) None ->
     runs (c tt) s' Q) ->
  let p := addr s n in runs (store p f1 ;; store p f2 ;; store p f3 ;; push_free p ≫= c) s Q.
Proof.
  intros H Hl Htop Hd Hn Hf HQ p. destruct (hp_range _ _ _ _ _ H) as (Hb & _ & Hn0 & _). pose proof (hp_top _ _ _ _ _ H).
  pose proof (pow2_pos l Hl).
  assert (T !! n = None) as En.
  { destruct (T !! n) as [[k u]|] eqn:En; [|done]. pose proof (tile_bounds _ _ (hp_tiling _ _ _ _ _ H) _ _ _ En). lia. }
  eapply (fresh_push s FL p l); [apply (hp_lists _ _ _ _ _ H)|unfold p, addr; lia|lia|by eapply not_a_block|done|].
  intros s' HL Hdr C. apply HQ; [done|]. apply (heap_grow _ _ _ _ _ H); [done|lia|lia| | | |done|done|].
  - apply extend_tile; [apply (hp_tiling _ _ _ _ _ H)|done..].
  - intros q k u. rewrite lookup_insert. case_decide; intros; [by simplify_eq|by eapply hp_levels].
  - intros q k u. rewrite Hdr, lookup_insert. case_decide; intros.
    + simplify_eq. unfold p. by rewrite fn_lookup_insert.
    + rewrite fn_lookup_insert_ne by (intros ?%addr_inj; congruence). by apply (hp_headers _ _ _ _ _ H).
  - eapply listed_first; [apply (hp_free _ _ _ _ _ H)|congruence|done].
Qed.

End BuddyHeap.
