(* ===== verification/MmBuddyTheorems.v ===== *)
(** * Correctness of the buddy memory manager

    [sound] is the invariant of the initialised allocator.  It holds after
    [mm_init], [mm_alloc] and [mm_free] keep it, and [buddy_laws] discharges the
    interface the kernel relies on. *)
From stdpp Require Import functions.
From S2P Require Import Prelude LinkedList MmInterface MmBuddyTiling MmBuddy MmBuddyFacts MmBuddyHeap.
Import Tiling.
Import Buddy BuddyFacts BuddyHeap.

(** The header takes the first 32 bytes of a block. *)
Definition payload (s : mm) (o : Z) : Z := addr s o + 32.
Definition capacity (l : Z) : Z := 2 ^ l * 64 - 32.

(** The heap is divided into blocks but for less than a unit, no two free buddies
    remain, and the bytes in use are those of the blocks in use. *)
Record sound (s : mm) (n : Z) (T : tiles) (FL : Z -> list Z) : Prop := {
  so_heap : heap_ok s n T FL None;
  so_init : mm_initialized_flag s = 1;
  so_whole : heap_usable_bytes s < 64 * n + 64;
  so_merged : merged T (max_level s);
  so_capacity : heap_capacity_bytes s = heap_usable_bytes s - 32;
  so_used : heap_used_bytes s = total capacity (used_levels T) }.

(** The level of the block that serves a request. *)
Definition order_of (size : Z) : Z :=
  let total := u64 (align_up_u64 size MIN_ALIGN + HDR_SIZE) in
  order_loop 31 (if total <? 64 then 64 else total) 64 0.

Lemma align_up_16 v : 0 <= v < 2 ^ 64 - 15 -> align_up_u64 v MIN_ALIGN = v + 15 - (v + 15) mod 16.
Proof.
  intros Hv. unfold align_up_u64, MIN_ALIGN. change (u64 (16 - 1)) with (2 ^ 4 - 1). rewrite land_align.
  - rewrite wrap_small by lia. change (2 ^ 4) with 16. f_equal; lia || (f_equal; lia).
  - lia.
  - apply wrap_range. lia.
Qed.

(** It is the lowest that holds the rounded size and the header, or the highest there is. *)
Lemma order_of_spec size :
  0 < size <= 2 ^ 62 ->
  0 <= order_of size <= 31 /\ (order_of size < 31 -> size <= capacity (order_of size)) /\
  (0 < order_of size -> capacity (order_of size - 1) < size + 15).
Proof.
  intros Hs. unfold order_of, capacity. rewrite align_up_16 by lia. change HDR_SIZE with 32.
  assert (size + 15 - (size + 15) mod 16 <= size + 15 /\ size <= size + 15 - (size + 15) mod 16) as [B1 B2] by dlia.
  set (r := size + 15 - _) in *. clearbody r. cbv zeta. rewrite wrap_small by lia.
  pose proof (order_loop_spec (if r + 32 <? 64 then 64 else r + 32) 31 0 ltac:(lia) ltac:(lia)) as H.
  cbv zeta in H. change (2 ^ 0 * 64) with 64 in H. set (k := order_loop _ _ _ _) in *. clearbody k.
  destruct H as (H1 & H2 & H3). destruct (Z.ltb_spec (r + 32) 64); split_and!; lia.
Qed.

(** ** Initialisation *)

Lemma level_down_spec rem : 64 <= rem -> forall fuel l, 0 <= l <= 30 -> l < Z.of_nat fuel ->
  let r := level_down fuel 64 rem l in 0 <= r <= l /\ 2 ^ r * 64 <= rem /\ (r < l -> rem < 2 ^ (r + 1) * 64).
Proof.
  intros Hr. induction fuel as [|fuel IH]; intros l Hl Hf; [lia|]; simpl.
  rewrite !Z.gtb_ltb, pow2_u64_eq by lia. assert (0 < 2 ^ l <= 2 ^ 30) by (split; [apply pow2_pos; lia|apply Z.pow_le_mono_r; lia]).
  rewrite wrap_small by lia. destruct (Z.ltb_spec 0 l) as [H0|H0], (Z.ltb_spec rem (2 ^ l * 64)) as [H1|H1]; simpl.
  - destruct (IH (l - 1) ltac:(lia) ltac:(lia)) as (A & B & C). cbv zeta in *. set (r := level_down _ _ _ _) in *.
    split; [lia|]. split; [done|]. intros _. destruct (decide (r = l - 1)) as [->|]; [|apply C; lia].
    by replace (l - 1 + 1) with l by lia.
  - lia.
  - assert (l = 0) as -> by lia. change (2 ^ 0) with 1 in *. lia.
  - lia.
Qed.

Definition all_free (T : tiles) : Prop := forall o l u, T !! o = Some (l, u) -> u = false.

Lemma all_free_levels T : all_free T -> used_levels T = ∅.
Proof.
  intros H. apply map_empty. intros o. apply eq_None_not_Some. intros [l E%used_levels_lookup]. by apply H in E.
Qed.

(** The rounds of the loop of [mm_init]: the blocks placed so far have levels of at
    least [k], and less than [2^k] units remain. *)
Lemma place_loop s0 (Q : unit -> mm -> Prop) : forall fuel k s n T FL rem,
  heap_ok s n T FL None -> config s = config s0 -> rem = heap_usable_bytes s - 64 * n ->
  0 <= k -> k <= max_level s + 1 -> (2 ^ k | n) -> rem < 64 * 2 ^ k -> k < Z.of_nat fuel ->
  (forall o l u, T !! o = Some (l, u) -> k <= l /\ u = false) -> merged T (max_level s) ->
  (forall s' n' T' FL', config s' = config s0 -> heap_ok s' n' T' FL' None -> heap_usable_bytes s' < 64 * n' + 64 ->
     all_free T' -> merged T' (max_level s') -> Q tt s') ->
  runs (while_fuel fuel (place_step 64) (rem, addr s n)) s Q.
Proof.
  induction fuel as [|fuel IH]; intros k s n T FL rem H C Erem Hk Htop Hd Hrem Hf Hlev Hm HQ; [lia|]; cbn [while_fuel].
  apply runs_bind. unfold place_step. rewrite Z.geb_leb. destruct (Z.leb_spec 64 rem) as [Hge|Hlt]; cbn [negb].
  2:{ do 2 apply runs_ret. eapply HQ; [done|exact H|lia|by intros o l u [_ ->]%Hlev|done]. }
  apply runs_bind, runs_gets. pose proof (hp_top _ _ _ _ _ H) as Htop30. destruct (hp_range _ _ _ _ _ H) as (Hb & Hr & Hn0 & Hn).
  destruct (level_down_spec rem Hge 32 (max_level s) ltac:(lia) ltac:(lia)) as (L1 & L2 & L3). cbv zeta in *.
  set (l := level_down _ _ _ _) in *. clearbody l. pose proof (pow2_pos l ltac:(lia)) as Hp2.
  assert (l < k) as Hlk. { destruct (Z.lt_ge_cases l k) as [|Hkl]; [done|]. pose proof (Z.pow_le_mono_r 2 k l). lia. }
  assert (2 ^ l | n) as Hdl by (apply (Z.divide_trans _ (2 ^ k)); [apply pow2_divide; lia|done]).
  rewrite pow2_u64_eq by lia. rewrite (wrap_small _ (2 ^ l * 64)) by lia.
  eapply (extend_heap s n T FL l); [exact H|lia|lia|done|lia| |].
  { intros b. unfold hv. cbn. rewrite wrap_small by lia. done. }
  intros s1 C1 H1. apply runs_ret. pose proof (config_geometry _ _ C1) as G1.
  assert (u64 (rem - 2 ^ l * 64) = rem - 2 ^ l * 64) as -> by (apply wrap_small; lia).
  assert (u64 (addr s n + 2 ^ l * 64) = addr s1 (n + 2 ^ l)) as ->.
  { rewrite (geometry_addr _ _ _ G1). unfold addr. rewrite wrap_small by lia. lia. }
  rewrite <- (geometry_top _ _ G1) in *. rewrite <- (geometry_usable _ _ G1) in *.
  eapply (IH l); [exact H1|congruence|lia|lia|lia| | |lia| | |exact HQ].
  - apply Z.divide_add_r; [done|apply Z.divide_refl].
  - destruct (Z.eq_dec l (max_level s1)) as [El|]; [|specialize (L3 ltac:(lia)); rewrite pow2_succ in L3 by lia; lia].
    assert (k = l + 1) as -> by lia. rewrite pow2_succ in Hrem by lia. lia.
  - intros o j u. rewrite lookup_insert. case_decide; intros Ej; [by simplify_eq|]. apply Hlev in Ej as [? ->]. split; [lia|done].
  - apply merged_release; [done|lia|]. intros _ Eb. apply Hlev in Eb. lia.
Qed.

(** The aligned part of a region. *)
Definition region_base (start : Z) : Z := start + 15 - (start + 15) mod 16.
Definition region_bytes (start len : Z) : Z :=
  let n := len - (region_base start - start) in n - n mod 16.

Lemma free_lists_init_spec s (Q : unit -> mm -> Prop) :
  length (free_lists s) = 32%nat -> (forall s', shows s' (vw s) (replicate 32 0) s -> Q tt s') -> runs free_lists_init s Q.
Proof.
  intros Hl HQ. unfold free_lists_init.
  apply (runs_for_up (fun i t => exists r, shows t (vw s) (replicate (Z.to_nat i) 0 ++ r) s /\ length r = Z.to_nat (32 - i))).
  - exists (free_lists s). done.
  - intros i t Hi (r & Ht & Hr). destruct r as [|x r]; [simpl in Hr; lia|]. apply runs_bind_ret.
    eapply (step_store_list _ _ _ _ _ Ht i _ x).
    { rewrite lookup_app_r; rewrite length_replicate; [by rewrite Nat.sub_diag|lia]. }
    intros t' Ht'. apply runs_ret. exists r. split; [|simpl in Hr; lia].
    rewrite insert_app_r_alt, length_replicate, Nat.sub_diag in Ht' by (rewrite length_replicate; lia). simpl in Ht'.
    replace (Z.to_nat (i + 1)) with (Z.to_nat i + 1)%nat by lia. by rewrite replicate_add, <- app_assoc.
  - intros t (r & Ht & Hr). apply HQ. destruct r; [|simpl in Hr; lia]. by rewrite app_nil_r in Ht.
Qed.

Lemma lists_none w : lists_ok (replicate 32 0) w (fun _ => []).
Proof.
  split; [done| |done|intros; apply NoDup_nil_2|by intros l p ?%elem_of_nil].
  intros l Hl. rewrite lookup_replicate_2 by lia. done.
Qed.

Lemma buddy_init_spec s start len (Q : unit -> mm -> Prop) :
  length (free_lists s) = 32%nat ->
  0 < start -> 0 <= len -> start + len < 2 ^ 63 -> 48 <= region_bytes start len <= 2 ^ 36 ->
  (forall s' n T FL, sound s' n T FL -> all_free T -> n = region_bytes start len / 64 -> heap_base s' = region_base start ->
     heap_capacity_bytes s' = region_bytes start len - 32 -> heap_used_bytes s' = 0 -> heap_free_count s' = 0 -> Q tt s') ->
  runs (mm_init start len) s Q.
Proof.
  intros Hlen Hs Hl Hlim Hn HQ.
  assert (start <= region_base start <= start + 15) as Hb by (unfold region_base; dlia).
  assert (region_bytes start len <= len - (region_base start - start)) as Hle by (unfold region_bytes; dlia).
  unfold mm_init. change (HDR_SIZE + 16) with 48. rewrite align_up_16 by lia. fold (region_base start).
  destruct (Z.ltb_spec len 48); [lia|]. rewrite (wrap_small _ (region_base start - start)) by lia. rewrite Z.geb_leb.
  destruct (Z.leb_spec len (region_base start - start)); [lia|]. rewrite wrap_small by lia.
  change (bnot 64 (MIN_ALIGN - 1)) with (bnot 64 (2 ^ 4 - 1)). rewrite land_align by lia. change (2 ^ 4) with 16.
  fold (region_bytes start len). set (b := region_base start) in *. set (u := region_bytes start len) in *. cbv zeta.
  destruct (Z.ltb_spec u 48); [lia|]. change (double_until 64 48 1) with 64.
  do 4 (apply runs_bind, runs_modify). set (s1 := _ <| max_level := _ |>).
  apply runs_bind, free_lists_init_spec; [done|]. intros s2 (V & F & C).
  destruct (order_loop_spec u 31 0 ltac:(lia) ltac:(lia)) as (O1 & O2 & O3). cbv zeta in *. change (2 ^ 0 * 64) with 64 in *.
  change (order_loop 31 u 64 0) with (top_level u 64) in *. set (top := top_level u 64) in *.
  assert (top <= 30) as Htop.
  { destruct (decide (top = 31)) as [E|]; [|lia]. rewrite E in O3. specialize (O3 ltac:(lia)). change (2 ^ (31 - 1) * 64) with (2 ^ 36) in O3. lia. }
  assert (geometry s2 = (64, b, u, top)) as G by (etrans; [by apply config_geometry|done]).
  assert (heap_ok s2 0 ∅ (fun _ => []) None) as H2.
  { unfold geometry in G. injection G as G1 G2 G3 G4. split; rewrite ?G1, ?G2, ?G3, ?G4; try done; try lia.
    - split; [done..|]. intros x Hx. lia.
    - rewrite F. apply lists_none.
    - intros l p. split; [by intros ?%elem_of_nil|by intros (? & _ & ?)]. }
  assert (b = addr s2 0) as Eb by (unfold addr, geometry in *; injection G; lia). rewrite Eb.
  assert (u / (64 * 2 ^ 31) = 0) as Hdiv by (apply Z.div_small; lia).
  pose proof G as G'. injection G' as G1 G2 G3 G4.
  apply runs_bind. eapply (place_loop s2 _ _ (top + 1) s2 0 ∅ _ u H2); [done|lia|lia|lia|apply Z.divide_0_r| |rewrite Hdiv; lia|done|done|].
  - rewrite pow2_succ by lia. specialize (O2 ltac:(lia)). lia.
  - intros s3 n T FL C3 H3 Hw Hfree Hm3. do 2 (apply runs_bind, runs_modify). apply runs_modify.
    match goal with |- Q tt ?x => set (s4 := x) end. pose proof (eq_trans (config_geometry _ _ C3) G) as Gs.
    unfold geometry in Gs. injection Gs as E1 E2 E3 E4.
    assert (64 * n <= u) by (pose proof (hp_range _ _ _ _ _ H3); lia). rewrite E3 in Hw.
    apply (HQ s4 n T FL); [|done| |exact E2|cbn; apply wrap_small; lia|done|done].
    + split; [by apply (heap_tally s3 n T FL None H3)|done|cbn; lia|done| |].
      * change (u64 (u - HDR_SIZE) = heap_usable_bytes s3 - 32). change HDR_SIZE with 32. rewrite E3. apply wrap_small. lia.
      * change (0 = total capacity (used_levels T)). by rewrite (all_free_levels T Hfree).
    + apply (Z.div_unique _ _ _ (u - 64 * n)); lia.
Qed.

(** ** Bytes in use *)

Lemma total_capacity m : total capacity m = 64 * total (Z.pow 2) m - 32 * Z.of_nat (size m).
Proof.
  induction m as [|o l m Ho IH] using map_ind; [done|].
  rewrite !total_insert, map_size_insert_None, IH by done. unfold capacity. lia.
Qed.
Lemma used_bytes_le T n o l :
  tiling T n -> T !! o = Some (l, true) -> capacity l <= total capacity (used_levels T) <= 64 * n - 32.
Proof.
  intros HT E. assert (0 <= n) as Hn by (pose proof (tile_bounds _ _ HT _ _ _ E); lia).
  pose proof (used_units_le T n HT Hn). pose proof (proj2 (used_levels_lookup T o l) E) as Eu.
  assert (0 < size (used_levels T))%nat as Hsz.
  { apply Nat.neq_0_lt_0. intros Hz%map_size_empty_inv. by rewrite Hz in Eu. }
  split; [|rewrite total_capacity; lia].
  rewrite (total_delete _ _ o l Eu). enough (forall m, (forall q k, m !! q = Some k -> 0 <= k) -> 0 <= total capacity m) as Hp.
  { specialize (Hp (delete o (used_levels T))). enough (0 <= total capacity (delete o (used_levels T))) by lia. apply Hp.
    intros q k [_ Ek%used_levels_lookup]%lookup_delete_Some. by destruct (ti_shape _ _ HT _ _ _ Ek) as (_ & ? & _). }
  clear. intros m. induction m as [|q k m Hq IH] using map_ind; intros Hk; [done|]. rewrite total_insert by done.
  assert (0 <= k) by (apply (Hk q), lookup_insert_eq). pose proof (pow2_pos k). unfold capacity at 1.
  enough (0 <= total capacity m) by lia. apply IH. intros x j Ej. apply (Hk x). by rewrite lookup_insert_ne by congruence.
Qed.

(** ** Allocation and release *)

Lemma alloc_used (T T' : tiles) o k ord :
  same_used (<[o := (ord, true)]> T) T' -> T !! o = Some (k, false) ->
  total capacity (used_levels T') = capacity ord + total capacity (used_levels T).
Proof.
  intros Hs E. rewrite <- (same_used_levels _ _ Hs), used_levels_insert. apply total_insert, eq_None_not_Some.
  intros [j Ej%used_levels_lookup]. congruence.
Qed.
Lemma free_used (T T' : tiles) o l :
  same_used (delete o T) T' -> T !! o = Some (l, true) ->
  total capacity (used_levels T) = capacity l + total capacity (used_levels T').
Proof.
  intros Hs E. rewrite <- (same_used_levels _ _ Hs), used_levels_delete. by apply total_delete, used_levels_lookup.
Qed.

Lemma buddy_alloc_spec eok s n T FL size (Q : Z -> mm -> Prop) :
  sound s n T FL -> 0 < size <= 2 ^ 62 -> let ord := order_of size in
  (forall s', (forall k, ord <= k -> FL k = []) -> sound s' n T FL -> geometry s' = geometry s -> Q 0 s') ->
  (forall s' o k T' FL', T !! o = Some (k, false) -> ord <= k -> sound s' n T' FL' -> geometry s' = geometry s ->
     T' !! o = Some (ord, true) -> same_used (<[o := (ord, true)]> T) T' -> Q (payload s o) s') ->
  runs (mm_alloc eok size) s Q.
Proof.
  intros H Hs ord H0 HQ. destruct (order_of_spec size Hs) as (Ho & _). fold ord in Ho.
  destruct H as [HH Hi Hw Hm Hc Hu]. unfold mm_alloc, mm_ensure. apply runs_bind, runs_bind, runs_gets.
  rewrite Hi. apply runs_ret. cbn [negb]. rewrite (proj2 (Z.eqb_neq size 0)) by lia.
  apply runs_bind. unfold order_for. apply runs_bind, runs_gets. rewrite (hp_unit _ _ _ _ _ HH). apply runs_ret.
  change (order_loop 31 _ 64 0) with ord. clearbody ord. apply runs_bind_assoc.
  eapply find_block_spec; [exact HH|done|lia| |].
  - intros s1 p Hp (o & k & T' & FL' & -> & Eo & Hk & H1 & C1 & Hm1 & Eo' & Hs1).
    rewrite (proj2 (Z.eqb_neq _ 0)) by done. pose proof (config_geometry _ _ C1) as G1.
    pose proof (hp_headers _ _ _ _ _ H1 _ _ _ Eo') as Eh. rewrite (geometry_addr _ _ _ G1) in Eh.
    rewrite decide_False in Eh by done. simpl in Eh. destruct (hd_vw _ _ _ _ Eh) as [x Ex].
    destruct (tile_range _ _ _ _ _ H1 _ _ _ Eo') as (_ & Hord & _ & _ & Hpow & Hon & _ & Ha & Hlim).
    rewrite (geometry_addr _ _ _ G1) in Ha, Hlim.
    eapply (step_store _ _ _ _ _ (shows_self s1) (addr s o) _ (ord, 0, x)); [done|stored|]. intros s2 (V & F & C2).
    apply runs_bind, runs_gets. pose proof (config_geometry _ _ C2) as G2.
    assert (heap_ok s2 n T' FL' None) as H2.
    { apply (heap_tally s1 n T' FL' None H1); [done| |done]. intros q. rewrite V.
      destruct (decide (addr s o = q)) as [<-|]; [by rewrite fn_lookup_insert, Ex|by rewrite fn_lookup_insert_ne]. }
    rewrite (hp_unit _ _ _ _ _ H2), pow2_u64_eq, (wrap_small _ (2 ^ ord * 64 - HDR_SIZE)) by (change HDR_SIZE with 32; lia).
    assert (heap_used_bytes s2 = total capacity (used_levels T) /\ heap_capacity_bytes s2 = heap_usable_bytes s2 - 32 /\
      heap_usable_bytes s2 = heap_usable_bytes s /\ mm_initialized_flag s2 = 1) as (Eu & Ecap & Eus & Efl)
      by (unfold config in C1, C2; split_and!; congruence).
    pose proof (alloc_used T T' o k ord Hs1 Eo) as Ea. pose proof (used_bytes_le T' n o ord (hp_tiling _ _ _ _ _ H2) Eo') as Hle.
    destruct (hp_range _ _ _ _ _ H2) as (Hr0 & Hr1 & _ & Hr2).
    do 2 apply runs_bind, runs_modify. apply runs_ret. change HDR_SIZE with 32. rewrite wrap_small by lia.
    assert (u64 (heap_used_bytes s2 + (2 ^ ord * 64 - 32)) = total capacity (used_levels T')) as Eu'.
    { pose proof (eq_refl : capacity ord = 2 ^ ord * 64 - 32) as Ec. rewrite Ea, Eu, <- Ec. rewrite wrap_small; lia. }
    set (s3 := s2 <| heap_used_bytes ::= _ |>).
    assert ((heap_used_bytes s3 >? heap_capacity_bytes s3) = false) as ->.
    { rewrite Z.gtb_ltb. apply Z.ltb_ge. change (u64 (heap_used_bytes s2 + (2 ^ ord * 64 - 32)) <= heap_capacity_bytes s2). lia. }
    assert (geometry s3 = geometry s) as G3 by (transitivity (geometry s2); [done|congruence]).
    apply (HQ s3 o k T' FL'); [done|done| |done|done|done].
    split; [by apply (heap_tally s2 n T' FL' None H2)|done| |by rewrite (geometry_top _ _ G3)|done|exact Eu'].
    rewrite (geometry_usable _ _ G3). lia.
  - intros Hk. rewrite Z.eqb_refl. apply runs_bind, runs_modify, runs_ret. apply H0; [done| |done].
    split; [by apply (heap_tally s n T FL None HH)|done..].
Qed.

(** [mm_free] on the payload of a block in use. *)
Lemma buddy_free_spec s n T FL o l (Q : unit -> mm -> Prop) :
  sound s n T FL -> T !! o = Some (l, true) ->
  (forall s' T' FL', sound s' n T' FL' -> geometry s' = geometry s -> same_used (delete o T) T' ->
     heap_free_count s' = u64 (heap_free_count s + 1) -> Q tt s') ->
  runs (mm_free (payload s o)) s Q.
Proof.
  intros [HH Hi Hw Hm Hc Hu] E HQ. destruct (tile_range _ _ _ _ _ HH _ _ _ E) as (Ho & Hl & _ & _ & Hpow & Hon & Hb & Ha & Hlim).
  pose proof (hp_headers _ _ _ _ _ HH _ _ _ E) as Eh. rewrite decide_False in Eh by done. simpl in Eh.
  destruct (hd_vw _ _ _ _ Eh) as [x Ex]. unfold mm_free. apply runs_bind, runs_gets. rewrite Hi.
  rewrite (proj2 (Z.eqb_neq (payload s o) 0)) by (unfold payload; lia). simpl.
  unfold get_block_from_ptr. rewrite (proj2 (Z.eqb_neq (payload s o) 0)) by (unfold payload; lia). change HDR_SIZE with 32.
  assert (u64 (payload s o - 32) = addr s o) as ->.
  { unfold payload. rewrite wrap_small by lia. lia. }
  rewrite (proj2 (Z.eqb_neq (addr s o) 0)) by lia.
  eapply step_load; [apply shows_self|lia|exact Ex|]. intros h1 _ -> _. simpl.
  eapply (step_store _ _ _ _ _ (shows_self s) (addr s o) _ (l, 1, x)); [lia|stored|]. intros s1 S1.
  apply runs_bind, runs_modify. match goal with |- runs _ ?x _ => set (s2 := x) end.
  assert (shows s2 (<[addr s o := Some (l, 1, x)]> (vw s)) (free_lists s) s2) as S2 by (split_and!; [apply S1|apply S1|done]).
  eapply step_load; [exact S2|lia|apply fn_lookup_insert|]. intros h2 -> _ _. apply runs_bind, runs_gets.
  destruct S1 as (V1 & F1 & C1). pose proof (config_geometry _ _ C1) as G1.
  assert (BASE_BLOCK_SIZE s2 = 64) as -> by (rewrite <- (hp_unit _ _ _ _ _ HH); unfold geometry in G1; change (BASE_BLOCK_SIZE s1 = BASE_BLOCK_SIZE s); congruence).
  rewrite pow2_u64_eq, (wrap_small _ (2 ^ l * 64 - 32)) by lia. fold (capacity l).
  apply runs_bind, runs_modify. match goal with |- runs _ ?x _ => set (s3 := x) end.
  (* the block is marked, its list not yet entered *)
  assert (geometry s3 = geometry s) as G3 by exact G1.
  assert (heap_ok s3 n T FL (Some o)) as H3.
  { assert (heap_ok s1 n T FL (Some o)) as H1; [|by apply (heap_tally s1 n T FL (Some o) H1)].
    apply (heap_move _ _ _ _ _ HH); [done|apply HH|apply HH| | | |apply HH].
    - intros q k u Eq. unfold hd. rewrite V1. destruct (decide (o = q)) as [<-|Nq].
      + rewrite fn_lookup_insert, decide_True by done. rewrite E in Eq. by simplify_eq.
      + rewrite fn_lookup_insert_ne by (by intros ?%addr_inj). rewrite decide_False by congruence.
        pose proof (hp_headers _ _ _ _ _ HH _ _ _ Eq) as Ehq. by rewrite decide_False in Ehq by done.
    - intros q [= <-]. eauto.
    - rewrite F1. eapply lists_ext; [|exact V1]. apply lists_frame; [apply HH|by eapply used_not_listed]. }
  rewrite <- (geometry_addr _ _ o G3).
  eapply buddy_coalesce_spec; [exact H3|by rewrite (geometry_usable _ _ G3)|exact E|by rewrite (geometry_top _ _ G3)|].
  intros s4 T4 FL4 C4 H4 Hm4 Hs4. pose proof (config_geometry _ _ C4) as G4.
  pose proof (free_used T T4 o l Hs4 E) as Ef. pose proof (used_bytes_le T n o l (hp_tiling _ _ _ _ _ HH) E) as Hle.
  assert (heap_used_bytes s4 = heap_used_bytes s3 /\ heap_capacity_bytes s4 = heap_capacity_bytes s3 /\
    mm_initialized_flag s4 = mm_initialized_flag s3 /\ heap_free_count s4 = heap_free_count s3 /\
    heap_used_bytes s1 = heap_used_bytes s /\ heap_capacity_bytes s1 = heap_capacity_bytes s /\
    mm_initialized_flag s1 = mm_initialized_flag s /\ heap_free_count s1 = heap_free_count s) as (A1 & A2 & A3 & A4 & B1 & B2 & B3 & B4)
    by (clear - C1 C4; unfold config in C1, C4; split_and!; congruence).
  apply (HQ s4 T4 FL4); [|congruence|exact Hs4|].
  - split; [done|rewrite A3; exact (eq_trans B3 Hi)|rewrite (geometry_usable _ _ G4), (geometry_usable _ _ G3); done| | |].
    + by rewrite (geometry_top _ _ G4).
    + rewrite A2, (geometry_usable _ _ G4), (geometry_usable _ _ G3), <- Hc. exact B2.
    + rewrite A1. change (heap_used_bytes s3) with (if heap_used_bytes s1 >=? capacity l then u64 (heap_used_bytes s1 - capacity l) else 0).
      rewrite B1, Hu, Z.geb_leb, Ef. destruct (Z.leb_spec (capacity l) (capacity l + total capacity (used_levels T4))) as [|]; [|lia].
      pose proof (hp_range _ _ _ _ _ HH). rewrite Z.add_simpl_l.
      pose proof (eq_refl : capacity l = 2 ^ l * 64 - 32). apply wrap_small. lia.
  - rewrite A4. change (heap_free_count s3) with (u64 (heap_free_count s1 + 1)). by rewrite B4.
Qed.

Lemma mm_free_null s (Q : unit -> mm -> Prop) : Q tt s -> runs (mm_free 0) s Q.
Proof. intros HQ. apply runs_bind, runs_gets. by apply runs_ret. Qed.

Lemma payload_geometry s s' o : geometry s' = geometry s -> payload s' o = payload s o.
Proof. intros G. unfold payload. by rewrite (geometry_addr _ _ _ G). Qed.

(** The used blocks determine the division. *)
Lemma sound_unique s s' n T T' FL FL' :
  sound s n T FL -> sound s' n T' FL' -> geometry s' = geometry s -> same_used T T' -> T' = T.
Proof.
  intros H H' G%geometry_top Hs. symmetry. eapply (merged_unique T T' n (max_level s)); [apply H|apply H'|apply H| |apply H| |done].
  - rewrite <- G. apply H'.
  - rewrite <- G. apply H'.
Qed.

(** ** The interface *)

Definition buddy_live (s : mm) (live : gmap Z Z) : Prop :=
  exists n T FL, sound s n T FL /\
    forall p m, live !! p = Some m <-> exists o l, p = payload s o /\ m = capacity l /\ T !! o = Some (l, true).

Lemma capacity_payload s n T FL o l :
  sound s n T FL -> T !! o = Some (l, true) ->
  0 < payload s o /\ 0 < capacity l /\ payload s o + capacity l = addr s o + 64 * 2 ^ l /\ payload s o + capacity l < 2 ^ 63.
Proof.
  intros H E. destruct (tile_range _ _ _ _ _ (so_heap _ _ _ _ H) _ _ _ E) as (_ & _ & _ & _ & ? & _ & _ & ? & ?).
  unfold payload, capacity. lia.
Qed.

Lemma buddy_live_bounds s live p m : buddy_live s live -> live !! p = Some m -> 0 < p /\ 0 < m /\ p + m < 2 ^ 63.
Proof.
  intros (n & T & FL & H & HL) (o & l & -> & -> & E)%HL. pose proof (capacity_payload _ _ _ _ _ _ H E). lia.
Qed.

(** Different blocks do not overlap. *)
Lemma blocks_apart T n o l u o' l' u' :
  tiling T n -> T !! o = Some (l, u) -> T !! o' = Some (l', u') -> o <> o' -> o + 2 ^ l <= o' \/ o' + 2 ^ l' <= o.
Proof.
  intros HT E E' Hne. destruct (tile_bounds _ _ HT _ _ _ E) as (_ & _ & _ & ?), (tile_bounds _ _ HT _ _ _ E') as (_ & _ & _ & ?).
  destruct (Z.le_gt_cases (o + 2 ^ l) o') as [|A]; [by left|]. destruct (Z.le_gt_cases (o' + 2 ^ l') o) as [|A']; [by right|].
  exfalso. apply Hne. eapply (ti_disjoint _ _ HT _ _ _ _ _ _ (Z.max o o') E E'); unfold inside; lia.
Qed.

Lemma buddy_live_disjoint s live p m q k :
  buddy_live s live -> live !! p = Some m -> live !! q = Some k -> p <> q -> p + m <= q \/ q + k <= p.
Proof.
  intros (n & T & FL & H & HL) (o & l & -> & -> & E)%HL (o' & l' & -> & -> & E')%HL Hne.
  pose proof (blocks_apart T n o l true o' l' true (hp_tiling _ _ _ _ _ (so_heap _ _ _ _ H)) E E') as Hd.
  assert (o <> o') by (intros ->; done). unfold payload, addr, capacity in *. lia.
Qed.

Lemma buddy_malloc_law eok s live size :
  buddy_live s live -> 0 < size <= 2 ^ 62 ->
  runs (mm_alloc eok size) s (fun p s' =>
    p = 0 /\ buddy_live s' live \/
    exists m, size <= m /\ p <> 0 /\ live !! p = None /\ buddy_live s' (<[p := m]> live)).
Proof.
  intros (n & T & FL & H & HL) Hs. destruct (order_of_spec size Hs) as (Ho & Hcap & _).
  eapply buddy_alloc_spec; [exact H|done| |].
  - intros s' _ H' G. left. split; [done|]. exists n, T, FL. split; [done|]. intros p m. rewrite HL.
    by setoid_rewrite (fun o => payload_geometry _ _ o G).
  - intros s' o k T' FL' Eo Hk H' G Eo' Hsu. right. exists (capacity (order_of size)).
    pose proof (capacity_payload _ _ _ _ _ _ H' Eo') as Hp. rewrite (payload_geometry _ _ o G) in Hp.
    destruct (tile_range _ _ _ _ _ (so_heap _ _ _ _ H') _ _ _ Eo') as (_ & Hl & _).
    assert (forall q, payload s q = payload s o -> q = o) as Hinj by (unfold payload, addr; intros q; lia).
    split; [apply Hcap; lia|]. split; [lia|]. split.
    + apply eq_None_not_Some. intros [m (q & l & Eq & _ & Et)%HL]. symmetry in Eq. apply Hinj in Eq as ->. congruence.
    + exists n, T', FL'. split; [done|]. intros p m. setoid_rewrite (fun o => payload_geometry _ _ o G).
      rewrite lookup_insert. case_decide as Dp.
      * subst p. split; [intros [= <-]; eauto|]. intros (q & l & Eq & -> & Et). symmetry in Eq. apply Hinj in Eq as ->. by simplify_eq.
      * rewrite HL. split; intros (q & l & -> & -> & Et); exists q, l; (split; [done|]; split; [done|]);
          assert (q <> o) by (intros ->; done); [apply Hsu|apply Hsu in Et]; by rewrite lookup_insert_ne in * by congruence.
Qed.

Lemma buddy_mfree_law s live p m :
  buddy_live s live -> live !! p = Some m -> runs (mm_free p) s (fun _ s' => buddy_live s' (delete p live)).
Proof.
  intros (n & T & FL & H & HL) (o & l & -> & -> & E)%HL. eapply buddy_free_spec; [exact H|exact E|].
  intros s' T' FL' H' G Hsu _. exists n, T', FL'. split; [done|]. intros p k.
  setoid_rewrite (fun o => payload_geometry _ _ o G). rewrite lookup_delete.
  assert (forall q, payload s q = payload s o -> q = o) as Hinj by (unfold payload, addr; intros q; lia).
  case_decide as Dp.
  - subst p. split; [done|]. intros (q & j & Eq & _ & Et). symmetry in Eq. apply Hinj in Eq as ->.
    apply Hsu in Et. by rewrite lookup_delete_eq in Et.
  - rewrite HL. split; intros (q & j & -> & -> & Et); exists q, j; (split; [done|]; split; [done|]);
      assert (q <> o) by (intros ->; done); [apply Hsu|apply Hsu in Et]; by rewrite lookup_delete_ne in * by congruence.
Qed.

#[export] Instance buddy_laws (eok : Z) : @MemManagerLaws mm (buddy_manager eok).
Proof.
  refine (@Build_MemManagerLaws mm (buddy_manager eok) buddy_live
    buddy_live_bounds buddy_live_disjoint (buddy_malloc_law eok) buddy_mfree_law _).
  intros s live H. by apply mm_free_null.
Defined.

(** ** A concrete heap: seventeen units, in blocks of sixteen and one *)

Definition demo_buddy : mm := after (mm_init 4090 1130) mm_boot.

Lemma demo_buddy_shows : free_lists demo_buddy !! Z.to_nat 4 = Some 4096 /\ heap_base demo_buddy = 4096.
Proof. by vm_compute. Qed.

Lemma demo_region : region_bytes 4090 1130 = 1120.
Proof. by vm_compute. Qed.

Lemma demo_buddy_init : exists T FL, sound demo_buddy 17 T FL /\ all_free T.
Proof.
  assert (runs (mm_init 4090 1130) mm_boot (fun _ s' => exists T FL, sound s' 17 T FL /\ all_free T)) as (u & s & E & H).
  { apply buddy_init_spec; rewrite ?demo_region; [done|lia|lia|lia|lia|].
    intros s' n T FL H HF Hn _ _ _ _. change (1120 / 64) with 17 in Hn. subst n. exists T, FL. exact (conj H HF). }
  unfold demo_buddy, after. rewrite E. exact H.
Qed.

Lemma addr_eq s o : addr s o = heap_base s + 64 * o.
Proof. done. Qed.

Lemma demo_buddy_sound : exists T FL, sound demo_buddy 17 T FL /\ all_free T /\ T !! 0 = Some (4, false).
Proof.
  destruct demo_buddy_init as (T & FL & H & HF). exists T, FL. split; [exact H|]. split; [exact HF|].
  pose proof (hp_free _ _ _ _ _ (so_heap _ _ _ _ H) 4 4096) as Hf.
  pose proof (lo_head _ _ _ (hp_lists _ _ _ _ _ (so_heap _ _ _ _ H)) 4 ltac:(lia)) as Hh.
  rewrite (proj1 demo_buddy_shows) in Hh. injection Hh as Hh.
  destruct (FL 4) as [|p r]; [done|]. change (4096 = p) in Hh. subst p.
  destruct (proj1 Hf) as (o & Eo & ET); [by left|]. rewrite addr_eq, (proj2 demo_buddy_shows) in Eo.
  assert (o = 0) as -> by (clear - Eo; lia). exact ET.
Qed.

(** ** Properties *)

(** C23: [mm_alloc] on an initialised heap takes the lowest level whose blocks
    hold the request, splits a free block of that level or above down to it, and
    returns the payload at its start; the invariant holds after it, with that one
    more block in use.  It returns null only when every free block is too small. *)
Theorem buddy_alloc_fits eok s n T FL size :
  sound s n T FL -> 0 < size <= 2 ^ 62 ->
  let ord := order_of size in
  (0 < ord -> capacity (ord - 1) < size + 15) /\
  runs (mm_alloc eok size) s (fun p s' =>
    p = 0 /\ sound s' n T FL /\ (forall o l, T !! o = Some (l, false) -> l < ord) \/
    exists o k T' FL', p = payload s o /\ size <= capacity ord /\ T !! o = Some (k, false) /\ ord <= k /\
      T' !! o = Some (ord, true) /\ same_used (<[o := (ord, true)]> T) T' /\ sound s' n T' FL').
Proof.
  intros H Hs ord. destruct (order_of_spec size Hs) as (Ho & Hcap & Hmin). split; [done|].
  eapply buddy_alloc_spec; [exact H|done| |].
  - intros s' Hk H' _. left. split; [done|]. split; [done|]. intros o l E.
    destruct (Z.lt_ge_cases l ord) as [|Hge]; [done|]. specialize (Hk l Hge).
    assert (addr s o ∈ FL l) as Hin by (apply (hp_free _ _ _ _ _ (so_heap _ _ _ _ H)); eauto).
    rewrite Hk in Hin. by apply elem_of_nil in Hin.
  - intros s' o k T' FL' Eo Hk H' _ Eo' Hsu. right. exists o, k, T', FL'.
    destruct (tile_range _ _ _ _ _ (so_heap _ _ _ _ H') _ _ _ Eo') as (_ & Hl & _).
    split_and!; try done. apply Hcap. unfold ord in *. lia.
Qed.

Lemma buddy_alloc_fits_witness :
  exists T FL, sound demo_buddy 17 T FL /\ let ord := order_of 100 in
  (0 < ord -> capacity (ord - 1) < 100 + 15) /\
  runs (mm_alloc 0 100) demo_buddy (fun p s' =>
    p = 0 /\ sound s' 17 T FL /\ (forall o l, T !! o = Some (l, false) -> l < ord) \/
    exists o k T' FL', p = payload demo_buddy o /\ 100 <= capacity ord /\ T !! o = Some (k, false) /\ ord <= k /\
      T' !! o = Some (ord, true) /\ same_used (<[o := (ord, true)]> T) T' /\ sound s' 17 T' FL').
Proof.
  destruct demo_buddy_sound as (T & FL & H & _). exists T, FL. split; [exact H|].
  exact (buddy_alloc_fits 0 demo_buddy 17 T FL 100 H ltac:(done)).
Defined.

(** C24: no request is refused while it could be served: if some aligned run of
    units of the size it needs is wholly free, however it is divided between
    blocks, [mm_alloc] returns a block. *)
Theorem buddy_alloc_complete eok s n T FL size o :
  sound s n T FL -> 0 < size <= 2 ^ 62 -> let ord := order_of size in
  ord <= max_level s -> 0 <= o -> (2 ^ ord | o) -> (forall x, inside o ord x -> free_at T x) ->
  runs (mm_alloc eok size) s (fun p _ => p <> 0).
Proof.
  intros H Hs ord Htop Ho Hd Hfree. destruct (order_of_spec size Hs) as (Hord & _).
  eapply buddy_alloc_spec; [exact H|done| |].
  - intros s' Hk _ _. exfalso. destruct (free_region T n (hp_tiling _ _ _ _ _ (so_heap _ _ _ _ H)) (max_level s)
      (so_merged _ _ _ _ H) ord ltac:(lia) Htop o Ho Hd Hfree) as (o' & l' & E & Hlo & Hhi).
    destruct (tile_range _ _ _ _ _ (so_heap _ _ _ _ H) _ _ _ E) as (_ & Hl' & _).
    assert (ord <= l'). { destruct (Z.le_gt_cases ord l') as [|Hlt]; [done|]. pose proof (Z.pow_lt_mono_r 2 l' ord). unfold ord in *. lia. }
    assert (addr s o' ∈ FL l') as Hin by (apply (hp_free _ _ _ _ _ (so_heap _ _ _ _ H)); eauto).
    rewrite Hk in Hin by done. by apply elem_of_nil in Hin.
  - intros s' o' k T' FL' _ _ H' G Eo' _. pose proof (capacity_payload _ _ _ _ _ _ H' Eo') as Hp.
    rewrite (payload_geometry _ _ _ G) in Hp. lia.
Qed.

Lemma buddy_alloc_complete_witness : order_of 900 = 4 /\ runs (mm_alloc 0 900) demo_buddy (fun p _ => p <> 0).
Proof.
  split; [by vm_compute|]. destruct demo_buddy_sound as (T & FL & H & _ & E).
  apply (buddy_alloc_complete 0 demo_buddy 17 T FL 900 0); [exact H|done|by vm_compute|done|apply Z.divide_0_r|].
  intros x Hx. exists 0, 4. split; [exact E|]. exact Hx.
Defined.

(** C25: [mm_free] of the payload of a block in use gives the block back, keeps
    the invariant and leaves the other blocks in use where they were; the bytes in
    use drop by its capacity.  After it every aligned run of units that is wholly
    free lies inside one free block: nothing stays split without need. *)
Theorem buddy_free_coalesces s n T FL o l :
  sound s n T FL -> T !! o = Some (l, true) ->
  runs (mm_free (payload s o)) s (fun _ s' => exists T' FL',
    sound s' n T' FL' /\ same_used (delete o T) T' /\ heap_used_bytes s' = heap_used_bytes s - capacity l /\
    (forall q k, 0 <= k <= max_level s -> 0 <= q -> (2 ^ k | q) -> (forall x, inside q k x -> free_at T' x) ->
      exists q' k', T' !! q' = Some (k', false) /\ q' <= q /\ q + 2 ^ k <= q' + 2 ^ k')).
Proof.
  intros H E. eapply buddy_free_spec; [exact H|exact E|]. intros s' T' FL' H' G Hs _. exists T', FL'.
  split; [exact H'|]. split; [exact Hs|]. split.
  - rewrite (so_used _ _ _ _ H), (so_used _ _ _ _ H'), (free_used _ _ _ _ Hs E). lia.
  - intros q k Hk Hq Hd Hf. apply (free_region T' n (hp_tiling _ _ _ _ _ (so_heap _ _ _ _ H')) (max_level s') (so_merged _ _ _ _ H')); [lia|rewrite (geometry_top _ _ G); lia|done..].
Qed.

Lemma demo_buddy_used : exists s T FL o l, sound s 17 T FL /\ T !! o = Some (l, true).
Proof.
  destruct demo_buddy_sound as (T & FL & H & _ & E).
  assert (runs (mm_alloc 0 100) demo_buddy (fun _ s' => exists T FL o l, sound s' 17 T FL /\ T !! o = Some (l, true))) as (p & s & _ & Hs).
  { eapply buddy_alloc_spec; [exact H|done| |].
    - intros s' Hk _ _. assert (order_of 100 <= 4) as Hle by by vm_compute. specialize (Hk 4 Hle).
      assert (addr demo_buddy 0 ∈ FL 4) as Hin by (apply (hp_free _ _ _ _ _ (so_heap _ _ _ _ H)); eauto).
      rewrite Hk in Hin. by apply elem_of_nil in Hin.
    - intros s' o k T' FL' _ _ H' _ Eo' _. by exists T', FL', o, (order_of 100). }
  exists s. exact Hs.
Qed.

Lemma buddy_free_coalesces_witness : exists s T FL o l, sound s 17 T FL /\ T !! o = Some (l, true) /\
  runs (mm_free (payload s o)) s (fun _ s' => exists T' FL',
    sound s' 17 T' FL' /\ same_used (delete o T) T' /\ heap_used_bytes s' = heap_used_bytes s - capacity l /\
    (forall q k, 0 <= k <= max_level s -> 0 <= q -> (2 ^ k | q) -> (forall x, inside q k x -> free_at T' x) ->
      exists q' k', T' !! q' = Some (k', false) /\ q' <= q /\ q + 2 ^ k <= q' + 2 ^ k')).
Proof.
  destruct demo_buddy_used as (s & T & FL & o & l & H & E). exists s, T, FL, o, l. split; [exact H|]. split; [exact E|].
  exact (buddy_free_coalesces s 17 T FL o l H E).
Defined.

(** C26: allocating and freeing at once restores the division of the heap, block
    by block, and the bytes in use, whether or not the request could be served. *)
Theorem buddy_alloc_free_restores eok s n T FL size :
  sound s n T FL -> 0 < size <= 2 ^ 62 ->
  runs (p ← mm_alloc eok size; mm_free p) s (fun _ s' =>
    (exists FL', sound s' n T FL') /\ heap_used_bytes s' = heap_used_bytes s).
Proof.
  intros H Hs. apply runs_bind. eapply buddy_alloc_spec; [exact H|done| |].
  - intros s' _ H' _. apply mm_free_null. split; [eauto|]. by rewrite (so_used _ _ _ _ H), (so_used _ _ _ _ H').
  - intros s' o k T' FL' Eo _ H' G Eo' Hsu. rewrite <- (payload_geometry _ _ o G).
    eapply buddy_free_spec; [exact H'|exact Eo'|]. intros s2 T2 FL2 H2 G2 Hsu2 _.
    assert (same_used T T2) as HT.
    { etrans; [|exact Hsu2]. intros q j. rewrite lookup_delete. case_decide as Dq.
      - subst q. rewrite Eo. split; intros; simplify_eq.
      - rewrite <- (Hsu q j). by rewrite lookup_insert_ne. }
    assert (T2 = T) as -> by (eapply sound_unique; [exact H|exact H2|congruence|exact HT]).
    split; [eauto|]. by rewrite (so_used _ _ _ _ H), (so_used _ _ _ _ H2).
Qed.

Lemma buddy_alloc_free_restores_witness : exists T FL, sound demo_buddy 17 T FL /\
  runs (p ← mm_alloc 0 100; mm_free p) demo_buddy (fun _ s' =>
    (exists FL', sound s' 17 T FL') /\ heap_used_bytes s' = heap_used_bytes demo_buddy).
Proof.
  destruct demo_buddy_sound as (T & FL & H & _). exists T, FL. split; [exact H|].
  exact (buddy_alloc_free_restores 0 demo_buddy 17 T FL 100 H ltac:(done)).
Defined.

(** C27: [mm_init] divides the aligned part of a region of at most 2^36 bytes into
    free blocks, without leaving out a whole unit, and establishes the invariant. *)
Theorem buddy_init_divides s start len :
  length (free_lists s) = 32%nat ->
  0 < start -> 0 <= len -> start + len < 2 ^ 63 -> 48 <= region_bytes start len <= 2 ^ 36 ->
  runs (mm_init start len) s (fun _ s' => exists T FL,
    let n := region_bytes start len / 64 in
    sound s' n T FL /\ (forall x, 0 <= x < n -> free_at T x) /\ heap_base s' = region_base start /\
    start <= region_base start /\ region_base start + 64 * n <= start + len /\ len - 93 <= 64 * n /\ heap_used_bytes s' = 0).
Proof.
  intros Hlen Hs Hl Hlim Hn. apply buddy_init_spec; [done..|]. intros s' n T FL H HF -> Hb _ Hu _. exists T, FL. cbv zeta.
  assert (start <= region_base start <= start + 15) as Hr by (unfold region_base; dlia).
  assert (len - 30 <= region_bytes start len <= len - (region_base start - start)) as Hr2 by (unfold region_bytes; dlia).
  assert (64 * (region_bytes start len / 64) <= region_bytes start len < 64 * (region_bytes start len / 64) + 64) as Hq
    by (clear; dlia).
  split; [done|]. split; [|split_and!; (done || lia)].
  intros x Hx. destruct (ti_cover _ _ (hp_tiling _ _ _ _ _ (so_heap _ _ _ _ H)) x Hx) as (o & l & u & E & Hin).
  pose proof (HF _ _ _ E) as ->. by exists o, l.
Qed.

Lemma buddy_init_divides_witness :
  runs (mm_init 4090 1130) mm_boot (fun _ s' => exists T FL,
    let n := region_bytes 4090 1130 / 64 in
    sound s' n T FL /\ (forall x, 0 <= x < n -> free_at T x) /\ heap_base s' = region_base 4090 /\
    4090 <= region_base 4090 /\ region_base 4090 + 64 * n <= 4090 + 1130 /\ 1130 - 93 <= 64 * n /\ heap_used_bytes s' = 0).
Proof. apply (buddy_init_divides mm_boot 4090 1130); [done|lia|lia|lia|rewrite demo_region; lia]. Defined.
