(* ===== verification/Video.v ===== *)
(** * The video driver (src/Kernel/drivers/videoDriver.c)

    The mode of the screen is what the firmware left at [VBEModeInfo]; pixels are
    bytes of the frame buffer.  A C string is the list of its characters. *)
From S2P Require Import Prelude Font.

Definition BACKGROUND_COLOR : Z := 0x000000.
Definition FOREGROUND_COLOR : Z := 0xFFFFFF.
Definition ERROR_FG_COLOR : Z := 0xFF0000.
Definition ERROR_BG_COLOR : Z := 0x000000.

(** The fields of [vbe_mode_info_structure] the driver reads. *)
Record vbe_mode_info := mk_vbe { pitch : Z; width : Z; height : Z; bpp : Z; framebuffer : Z }.

Record video := mk_video {
  VBEModeInfo : vbe_mode_info;
  cursorX : Z;
  cursorY : Z;
  fontScale : Z;
  pixels : gmap Z Z }.
Definition eta_video (v : video) := mk_video (VBEModeInfo v) (cursorX v) (cursorY v) (fontScale v) (pixels v).
#[export] Instance set_cursorX : Setter cursorX := ltac:(build_setter eta_video cursorX).
#[export] Instance set_cursorY : Setter cursorY := ltac:(build_setter eta_video cursorY).
#[export] Instance set_fontScale : Setter fontScale := ltac:(build_setter eta_video fontScale).
#[export] Instance set_pixels : Setter pixels := ltac:(build_setter eta_video pixels).

(** The driver at boot, on a screen of the given mode. *)
Definition video_boot (mode : vbe_mode_info) : video := mk_video mode 0 0 1 ∅.

(** [for (int i = lo; i < hi; i++)]: the rounds of a loop whose bound does not change. *)
Definition rounds (lo hi : Z) : nat := Z.to_nat (hi - lo).

Definition put_byte (a v : Z) : M video unit := modify (fun s => s <| pixels ::= <[a := u8 v]> |>).

Definition video_putPixel (color x y : Z) : M video unit :=
  mode ← gets VBEModeInfo;
  let offset := u64 (x * (bpp mode / 8) + y * pitch mode) in
  put_byte (framebuffer mode + offset) (Z.land color 0xFF) ;;
  put_byte (framebuffer mode + offset + 1) (Z.land (Z.shiftr color 8) 0xFF) ;;
  put_byte (framebuffer mode + offset + 2) (Z.land (Z.shiftr color 16) 0xFF).

Definition video_scrollUp : M video unit :=
  mode ← gets VBEModeInfo;
  scale ← gets fontScale;
  let fb := framebuffer mode in
  let row_bytes := pitch mode in
  let n_rows := height mode in
  let move_bytes := i32 (u64 (u64 (n_rows - FONT_HEIGHT * scale) * row_bytes)) in
  let src := fb + u64 (FONT_HEIGHT * scale * row_bytes) in
  let dst := fb in
  for_up 0 (rounds 0 move_bytes) (fun i =>
    b ← gets (fun s => default 0 (pixels s !! (src + i)));
    put_byte (dst + i) b) ;;
  let y0 := i32 (u64 (n_rows - FONT_HEIGHT * scale)) in
  for_up y0 (rounds y0 n_rows) (fun y =>
    for_up 0 (rounds 0 (width mode)) (fun x => video_putPixel BACKGROUND_COLOR x y)).

Definition video_newLine : M video unit :=
  modify (fun s => s <| cursorX := 0 |>) ;;
  s ← gets id;
  let line := u64 (FONT_HEIGHT * fontScale s) in
  if u64 (cursorY s + line) <? height (VBEModeInfo s)
  then modify (fun s => s <| cursorY ::= fun y => u64 (y + line) |>)
  else
    video_scrollUp ;;
    modify (fun s => s <| cursorY := u64 (height (VBEModeInfo s) - line) |>).

(** The loop of [video_backSpace] that blanks the cell under the cursor. *)
Definition blank_cell : M video unit :=
  s ← gets id;
  for_up 0 (rounds 0 (u64 (FONT_WIDTH * fontScale s))) (fun i =>
    for_up 0 (rounds 0 (u64 (FONT_HEIGHT * fontScale s))) (fun j =>
      video_putPixel BACKGROUND_COLOR (u64 (cursorX s + i)) (u64 (cursorY s + j)))).

Definition video_backSpace : M video unit :=
  s ← gets id;
  let w := u64 (FONT_WIDTH * fontScale s) in
  let h := u64 (FONT_HEIGHT * fontScale s) in
  if cursorX s >=? w then
    modify (fun s => s <| cursorX ::= fun x => u64 (x - w) |>) ;; blank_cell
  else if cursorY s >=? h then
    modify (fun s => s <| cursorY ::= fun y => u64 (y - h) |>) ;;
    modify (fun s => s <| cursorX := u64 (width (VBEModeInfo s) - w) |>) ;; blank_cell
  else mret tt.

Definition video_tab : M video unit :=
  s ← gets id;
  let step := u64 (FONT_WIDTH * fontScale s * 8) in
  if step =? 0 then fault else
  modify (fun s => s <| cursorX ::= fun x => u64 (u64 (x / step + 1) * step) |>) ;;
  s ← gets id;
  when (cursorX s >=? width (VBEModeInfo s)) video_newLine.

Definition isSpecialChar (c : Z) : M video bool :=
  if c =? 10 then video_newLine ;; mret true else
  if c =? 8 then video_backSpace ;; mret true else
  if c =? 9 then video_tab ;; mret true else
  mret false.

(** The pixel at column [x] of a row of the font: bit [7 - x]. *)
Definition glyph_bit (row x : Z) : bool := negb (Z.land row (Z.shiftl 1 (7 - x)) =? 0).
(** [font8x16[c]]: the table has 128 glyphs. *)
Definition glyph (c : Z) : M video (list Z) := gets_opt (fun _ => font8x16 !! Z.to_nat c).

Definition video_putChar (c foregroundColor backgroundColor : Z) : M video unit :=
  special ← isSpecialChar c;
  if special : bool then mret tt else
  let charIndex := u8 c in
  charPattern ← glyph charIndex;
  s ← gets id;
  let scale := fontScale s in
  for_up 0 (rounds 0 FONT_HEIGHT) (fun y =>
    for_up 0 (rounds 0 FONT_WIDTH) (fun x =>
      let color := u32 (if glyph_bit (default 0 (charPattern !! Z.to_nat y)) x
                        then foregroundColor else backgroundColor) in
      for_up 0 (rounds 0 scale) (fun sy =>
        for_up 0 (rounds 0 scale) (fun sx =>
          video_putPixel color (u64 (cursorX s + x * scale + sx)) (u64 (cursorY s + y * scale + sy)))))) ;;
  modify (fun s => s <| cursorX ::= fun x => u64 (x + FONT_WIDTH * fontScale s) |>) ;;
  s ← gets id;
  when (cursorX s >=? width (VBEModeInfo s)) video_newLine.

Definition fill_screen (color : Z) : M video unit :=
  mode ← gets VBEModeInfo;
  for_up 0 (rounds 0 (height mode)) (fun i =>
    for_up 0 (rounds 0 (width mode)) (fun j => video_putPixel color j i)) ;;
  modify (fun s => s <| cursorX := 0 |>) ;;
  modify (fun s => s <| cursorY := 0 |>).
Definition video_clearScreen : M video unit := fill_screen BACKGROUND_COLOR.
Definition video_clearScreenColor (color : Z) : M video unit := fill_screen (u32 color).

Fixpoint video_putString (string : list Z) (foregroundColor backgroundColor : Z) : M video unit :=
  match string with
  | [] => mret tt
  | c :: string => video_putChar c foregroundColor backgroundColor ;;
                   video_putString string foregroundColor backgroundColor
  end.

Definition video_moveCursorLeft : M video unit :=
  s ← gets id;
  let w := u64 (FONT_WIDTH * fontScale s) in
  let h := u64 (FONT_HEIGHT * fontScale s) in
  if cursorX s >=? w then modify (fun s => s <| cursorX ::= fun x => u64 (x - w) |>)
  else if cursorY s >=? h then
    modify (fun s => s <| cursorY ::= fun y => u64 (y - h) |>) ;;
    modify (fun s => s <| cursorX := u64 (width (VBEModeInfo s) - w) |>)
  else mret tt.

Definition video_moveCursorRight : M video unit :=
  s ← gets id;
  let w := u64 (FONT_WIDTH * fontScale s) in
  let h := u64 (FONT_HEIGHT * fontScale s) in
  if u64 (cursorX s + w) <? width (VBEModeInfo s) then modify (fun s => s <| cursorX ::= fun x => u64 (x + w) |>)
  else if u64 (cursorY s + h) <? height (VBEModeInfo s) then
    modify (fun s => s <| cursorX := 0 |>) ;;
    modify (fun s => s <| cursorY ::= fun y => u64 (y + h) |>)
  else mret tt.

Definition video_moveCursorUp : M video unit :=
  s ← gets id;
  let h := u64 (FONT_HEIGHT * fontScale s) in
  when (cursorY s >=? h) (modify (fun s => s <| cursorY ::= fun y => u64 (y - h) |>)).

Definition video_moveCursorDown : M video unit :=
  s ← gets id;
  let h := u64 (FONT_HEIGHT * fontScale s) in
  when (u64 (cursorY s + h) <? height (VBEModeInfo s)) (modify (fun s => s <| cursorY ::= fun y => u64 (y + h) |>)).

Definition video_drawCursor (color : Z) : M video unit :=
  s ← gets id;
  for_up 0 (rounds 0 (u64 (FONT_WIDTH * fontScale s))) (fun x =>
    video_putPixel (u32 color) (u64 (cursorX s + x)) (u64 (cursorY s + FONT_HEIGHT * fontScale s - 2))).

Definition video_printError (errorMsg : list Z) : M video unit :=
  video_putString errorMsg ERROR_FG_COLOR ERROR_BG_COLOR.

(** [char] is signed. *)
Definition video_putCharXY (c x y fg bg : Z) : M video unit :=
  let c := if (c <? 0x20) || (c >? 0x7F) then 0x20 else c in
  glyph_rows ← glyph (u8 c);
  for_up 0 (rounds 0 FONT_HEIGHT) (fun row =>
    for_up 0 (rounds 0 FONT_WIDTH) (fun col =>
      let color := if glyph_bit (default 0 (glyph_rows !! Z.to_nat row)) col then fg else bg in
      video_putPixel color (u64 (x + col)) (u64 (y + row)))).

Definition video_get_width : M video Z := gets (fun s => width (VBEModeInfo s)).
Definition video_get_height : M video Z := gets (fun s => height (VBEModeInfo s)).
