(* ===== verification/VideoFacts.v ===== *)
(** * The video driver always returns

    Drawing a character of the font, or moving the cursor for a control
    character, neither faults nor loops, and leaves the scale of the font alone. *)
From S2P Require Import Prelude Font Video.

(** From a state that satisfies [I] the computation returns to one. *)
Definition safe {S A : Type} (I : S -> Prop) (m : M S A) : Prop := forall s, I s -> runs m s (fun _ s' => I s').

Section SafeRules.
Context {S : Type} (I : S -> Prop).
Lemma safe_ret {A} (a : A) : safe I (mret a).
Proof. intros s Hs. by apply runs_ret. Qed.
Lemma safe_bind {A B} (m : M S A) (f : A -> M S B) : safe I m -> (forall a, safe I (f a)) -> safe I (m ≫= f).
Proof. intros Hm Hf s Hs. apply runs_bind. eapply runs_mono; [by apply Hm|]. intros a s' Hs'. by apply Hf. Qed.
Lemma safe_gets {A} (f : S -> A) : safe I (gets f).
Proof. intros s Hs. by apply runs_gets. Qed.
Lemma safe_modify (f : S -> S) : (forall s, I s -> I (f s)) -> safe I (modify f).
Proof. intros Hf s Hs. apply runs_modify. auto. Qed.
Lemma safe_when b (m : M S unit) : safe I m -> safe I (when b m).
Proof. intros Hm. destruct b; [done|apply safe_ret]. Qed.
Lemma safe_for_up n (body : Z -> M S unit) : (forall i, safe I (body i)) -> forall lo, safe I (for_up lo n body).
Proof.
  intros Hb. induction n as [|n IH]; intros lo; simpl; [apply safe_ret|]. apply safe_bind; [apply Hb|]. intros _. apply IH.
Qed.
End SafeRules.

Ltac safely :=
  repeat match goal with
    | |- safe _ (_ ≫= _) => apply safe_bind; [|intros ?]
    | |- safe _ (if ?x then _ else _) => destruct x
    | |- safe _ (for_up _ _ _) => apply safe_for_up; intros ?
    | |- safe _ (when _ _) => apply safe_when
    | |- safe _ (gets _) => apply safe_gets
    | |- safe _ (mret _) => apply safe_ret
    | |- safe _ (modify _) => apply safe_modify; intros ? ?; assumption
    | |- safe _ _ => solve [eauto with safe nocore]
    end.
Create HintDb safe.

(** The step of a tab is not null. *)
Definition video_ok (v : video) : Prop := u64 (FONT_WIDTH * fontScale v * 8) <> 0.

Lemma safe_put_byte a b : safe video_ok (put_byte a b).
Proof. unfold put_byte. safely. Qed.
#[export] Hint Resolve safe_put_byte : safe.
Lemma safe_putPixel color x y : safe video_ok (video_putPixel color x y).
Proof. unfold video_putPixel. safely. Qed.
#[export] Hint Resolve safe_putPixel : safe.
Lemma safe_newLine : safe video_ok video_newLine.
Proof. unfold video_newLine, video_scrollUp. safely. Qed.
#[export] Hint Resolve safe_newLine : safe.
Lemma safe_backSpace : safe video_ok video_backSpace.
Proof. unfold video_backSpace, blank_cell. safely. Qed.
#[export] Hint Resolve safe_backSpace : safe.
Lemma safe_tab : safe video_ok video_tab.
Proof.
  intros s Hs. unfold video_tab. apply runs_bind, runs_gets. cbn [id]. rewrite (proj2 (Z.eqb_neq _ 0) Hs).
  match goal with |- runs ?m _ _ => assert (safe video_ok m) as K by safely end. by apply K.
Qed.
#[export] Hint Resolve safe_tab : safe.
Lemma safe_special c : safe video_ok (isSpecialChar c).
Proof. unfold isSpecialChar. safely. Qed.
#[export] Hint Resolve safe_special : safe.

Lemma glyph_exists c : 0 <= c < 128 -> is_Some (font8x16 !! Z.to_nat c).
Proof. intros Hc. apply lookup_lt_is_Some. change (length font8x16) with 128%nat. lia. Qed.

(** Every character of the font is drawn. *)
Lemma putChar_returns c fg bg : 0 <= c < 128 -> safe video_ok (video_putChar c fg bg).
Proof.
  intros Hc s Hs. unfold video_putChar. apply runs_bind. eapply runs_mono; [by apply safe_special|].
  intros special s' Hs'. destruct special; [by apply runs_ret|]. rewrite wrap_small by lia.
  destruct (glyph_exists c Hc) as [rows Hrows]. apply runs_bind. eapply runs_gets_opt; [exact Hrows|].
  match goal with |- runs ?m _ _ => assert (safe video_ok m) as K by safely end. by apply K.
Qed.
Lemma putCharXY_returns c x y fg bg : safe video_ok (video_putCharXY c x y fg bg).
Proof.
  intros s Hs. unfold video_putCharXY. cbv zeta. set (c' := if _ || _ then _ else _).
  assert (0 <= c' < 128) as Hc.
  { unfold c'. destruct (Z.ltb_spec c 0x20); [done|]. rewrite Z.gtb_ltb. destruct (Z.ltb_spec 0x7F c); simpl; lia. }
  rewrite wrap_small by lia. destruct (glyph_exists c' Hc) as [rows Hrows]. apply runs_bind. eapply runs_gets_opt; [exact Hrows|].
  match goal with |- runs ?m _ _ => assert (safe video_ok m) as K by safely end. by apply K.
Qed.
