(* ===== verification/VideoTheorems.v ===== *)
(** * The driver draws on the screen and nowhere else

    The screen is a grid of [cols] by [rows] cells, each as large as a character of
    the font.  The cursor is always on a cell, and every byte the driver writes
    belongs to the frame buffer. *)
From S2P Require Import Prelude Font Video VideoFacts.

(** A mode with room for whole characters and at least three bytes per pixel. *)
Record grid_mode (mode : vbe_mode_info) (scale cols rows : Z) : Prop := {
  grid_cells : 0 < scale /\ 0 < cols /\ 0 < rows;
  grid_width : width mode = cols * (FONT_WIDTH * scale);
  grid_height : height mode = rows * (FONT_HEIGHT * scale);
  grid_bytes : 3 <= bpp mode / 8;
  grid_pitch : width mode * (bpp mode / 8) <= pitch mode;
  grid_size : pitch mode * height mode < 2 ^ 31 }.

(** The bytes of the frame buffer. *)
Definition in_frame (mode : vbe_mode_info) (a : Z) : Prop :=
  framebuffer mode <= a < framebuffer mode + pitch mode * height mode.

Record screen_ok (mode : vbe_mode_info) (scale cols rows : Z) (v : video) : Prop := {
  scr_mode : VBEModeInfo v = mode;
  scr_scale : fontScale v = scale;
  scr_col : exists c, 0 <= c < cols /\ cursorX v = c * (FONT_WIDTH * scale);
  scr_row : exists r, 0 <= r < rows /\ cursorY v = r * (FONT_HEIGHT * scale);
  scr_pixels : forall a, is_Some (pixels v !! a) -> in_frame mode a }.

Section Screen.
Context (mode : vbe_mode_info) (scale cols rows : Z) (Hgrid : grid_mode mode scale cols rows).
Abbreviation ok := (screen_ok mode scale cols rows).
Abbreviation w := (FONT_WIDTH * scale).
Abbreviation h := (FONT_HEIGHT * scale).
Implicit Types (v : video) (G : video -> Prop).

(** The numbers of the mode, for linear arithmetic. *)
Lemma grid_bounds :
  0 < w <= width mode /\ 0 < h <= height mode /\ width mode < 2 ^ 31 /\ height mode < 2 ^ 31 /\
  0 < pitch mode < 2 ^ 31 /\ width mode * 3 <= pitch mode.
Proof.
  destruct Hgrid as [(Hs & Hc & Hr) Ew Eh Hb Hp Hz]. unfold FONT_WIDTH, FONT_HEIGHT in *.
  assert (0 < w <= width mode) by (unfold FONT_WIDTH; nia).
  assert (0 < h <= height mode) by (unfold FONT_HEIGHT; nia).
  assert (width mode * 3 <= pitch mode) by nia. unfold FONT_WIDTH, FONT_HEIGHT in *. nia.
Qed.

Lemma ok_boot : ok (mk_video mode 0 0 scale ∅).
Proof.
  destruct Hgrid as [(Hs & Hc & Hr) _ _ _ _ _].
  split; [done|done|by exists 0|by exists 0|]. intros a [? Ha]. cbn in Ha. by rewrite lookup_empty in Ha.
Qed.

Lemma keeps_put_byte G a b : in_frame mode a -> keeps G ok (put_byte a b).
Proof.
  intros Ha. apply leads_modify. intros v [Hm Hs Hc Hr Hp]. split; [done..|]. cbn. intros a' Ha'.
  destruct (decide (a' = a)) as [->|]; [done|]. rewrite lookup_insert_ne in Ha' by done. auto.
Qed.

Lemma pixel_in_frame x y k : 0 <= x < width mode -> 0 <= y < height mode -> 0 <= k <= 2 ->
  in_frame mode (framebuffer mode + u64 (x * (bpp mode / 8) + y * pitch mode) + k).
Proof.
  intros Hx Hy Hk. pose proof grid_bounds as Hb. destruct Hgrid as [_ _ _ Hbytes Hpitch Hsize].
  assert (0 <= x * (bpp mode / 8) /\ x * (bpp mode / 8) + 3 <= pitch mode) by nia.
  assert (0 <= y * pitch mode /\ y * pitch mode + pitch mode <= pitch mode * height mode) by nia.
  unfold in_frame. rewrite wrap_small by lia. lia.
Qed.

Lemma keeps_putPixel G color x y : 0 <= x < width mode -> 0 <= y < height mode -> keeps G ok (video_putPixel color x y).
Proof.
  intros Hx Hy. apply leads_gets_bind. intros v Hv. rewrite (scr_mode _ _ _ _ _ Hv). cbv zeta.
  pose proof (fun k => pixel_in_frame x y k Hx Hy) as Hk.
  eapply leads_bind; [apply keeps_put_byte|intros _; eapply leads_bind; [apply keeps_put_byte|intros _; apply keeps_put_byte]].
  - rewrite <- (Z.add_0_r (_ + _)). apply Hk. lia.
  - apply Hk. lia.
  - apply Hk. lia.
Qed.

Lemma keeps_scrollUp G : keeps G ok video_scrollUp.
Proof.
  apply leads_gets_bind. intros v Hv. apply leads_gets_bind. intros v' Hv'.
  rewrite (scr_mode _ _ _ _ _ Hv), (scr_scale _ _ _ _ _ Hv'). cbv zeta.
  pose proof grid_bounds as Hb. destruct Hgrid as [_ _ _ _ _ Hsize].
  rewrite (wrap_small 64 (height mode - h)) by lia. set (y0 := height mode - h).
  assert (0 <= y0 * pitch mode <= pitch mode * height mode) as Hmove by (unfold y0; nia).
  rewrite (wrap_small 64 (y0 * pitch mode)) by lia. rewrite !swrap_small by lia.
  eapply leads_bind; [|intros _].
  - apply keeps_for_up. intros i Hi. unfold rounds in Hi. eapply leads_bind; [apply keeps_gets|]. intros b.
    apply keeps_put_byte. unfold in_frame. lia.
  - apply keeps_for_up. intros y Hy. apply keeps_for_up. intros x Hx. unfold rounds in *.
    apply keeps_putPixel; unfold y0 in *; lia.
Qed.

(** ** The cursor *)

Lemma ok_set_row v r : ok v -> 0 <= r < rows -> ok (v <| cursorY := r * h |>).
Proof. intros [Hm Hs Hc _ Hp] Hr. split; [done|done|done|by exists r|done]. Qed.
Lemma ok_set_col v c : ok v -> 0 <= c < cols -> ok (v <| cursorX := c * w |>).
Proof. intros [Hm Hs _ Hr Hp] Hc. split; [done|done|by exists c|done|done]. Qed.

(** Where the cursor is, and that its cell is on the screen. *)
Lemma ok_col v : ok v -> exists c, 0 <= c < cols /\ cursorX v = c * w /\ 0 <= c * w /\ c * w + w <= width mode.
Proof.
  intros Hv. destruct (scr_col _ _ _ _ _ Hv) as (c & Hc & E). exists c. pose proof grid_bounds as Hb.
  destruct Hgrid as [_ Ew _ _ _ _]. split; [done|]. split; [done|]. nia.
Qed.
Lemma ok_row v : ok v -> exists r, 0 <= r < rows /\ cursorY v = r * h /\ 0 <= r * h /\ r * h + h <= height mode.
Proof.
  intros Hv. destruct (scr_row _ _ _ _ _ Hv) as (r & Hr & E). exists r. pose proof grid_bounds as Hb.
  destruct Hgrid as [_ _ Eh _ _ _]. split; [done|]. split; [done|]. nia.
Qed.

(** All but the column, which a character or a tab may move past the last one. *)
Definition row_ok v : Prop := ok (v <| cursorX := 0 |>).
Lemma ok_row_ok v : ok v -> row_ok v.
Proof. intros Hv. apply (ok_set_col v 0 Hv). apply grid_cells in Hgrid. lia. Qed.

Lemma leads_newLine G : leads G row_ok video_newLine ok.
Proof.
  pose proof grid_bounds as Hb. pose proof (grid_cells _ _ _ _ Hgrid) as (_ & Hcols & Hrows).
  pose proof (grid_height _ _ _ _ Hgrid) as Eh.
  eapply leads_bind; [apply (leads_modify _ row_ok ok); intros v Hv; exact Hv|]. intros _ v Hv.
  destruct (ok_row v Hv) as (r & Hr & Er & Hy & Hy').
  change (owp G (fun _ => ok) ((let line := u64 (FONT_HEIGHT * fontScale v) in
    if u64 (cursorY v + line) <? height (VBEModeInfo v)
    then modify (fun s => s <| cursorY ::= fun y => u64 (y + line) |>)
    else video_scrollUp ;; modify (fun s => s <| cursorY := u64 (height (VBEModeInfo s) - line) |>)) v)).
  cbv zeta. rewrite (scr_scale _ _ _ _ _ Hv), (scr_mode _ _ _ _ _ Hv), (wrap_small 64 h) by lia.
  rewrite Er, wrap_small by lia. destruct (Z.ltb_spec (r * h + h) (height mode)) as [Hlt|Hge].
  - change (ok (v <| cursorY := u64 (cursorY v + h) |>)). rewrite Er, wrap_small by lia.
    replace (r * h + h) with ((r + 1) * h) in * by ring. apply ok_set_row; [done|]. nia.
  - revert v Hv Er. intros v Hv _. revert v Hv.
    change (keeps G ok (video_scrollUp ;; modify (fun s => s <| cursorY := u64 (height (VBEModeInfo s) - h) |>))).
    eapply leads_bind; [apply keeps_scrollUp; exact Hgrid|]. intros _. apply leads_modify. intros v Hv.
    rewrite (scr_mode _ _ _ _ _ Hv), wrap_small by lia.
    replace (height mode - h) with ((rows - 1) * h) by lia. apply ok_set_row; [done|lia].
Qed.

Lemma keeps_newLine G : keeps G ok video_newLine.
Proof. intros v Hv. apply leads_newLine, ok_row_ok, Hv. Qed.

(** The end of [video_putChar] and of [video_tab]: the cursor moves [n] cells to the right. *)
Lemma leads_advance G : leads G
  (fun v => row_ok v /\ exists c, 0 <= c /\ cursorX v = c * w)
  (s ← gets id; when (cursorX s >=? width (VBEModeInfo s)) video_newLine) ok.
Proof.
  intros v [Hv (c & Hc & Ec)]. pose proof grid_bounds as Hb.
  change (owp G (fun _ => ok) (when (cursorX v >=? width (VBEModeInfo v)) video_newLine v)).
  pose proof (scr_mode _ _ _ _ _ Hv) as Em. change (VBEModeInfo v = mode) in Em. rewrite Em, Z.geb_leb.
  destruct (Z.leb_spec (width mode) (cursorX v)) as [|Hlt]; [by apply leads_newLine|].
  destruct Hv as [_ Hs _ Hr Hp]. split; [done|done| |done|done]. exists c. split; [|done].
  rewrite Ec, (grid_width _ _ _ _ Hgrid) in Hlt. nia.
Qed.

Lemma keeps_blank_cell G : keeps G ok blank_cell.
Proof.
  pose proof grid_bounds as Hb. apply leads_gets_bind. intros v Hv. cbn [id].
  destruct (ok_col v Hv) as (c & Hc & -> & Hx & Hx'), (ok_row v Hv) as (r & Hr & -> & Hy & Hy').
  rewrite (scr_scale _ _ _ _ _ Hv), !(wrap_small 64 w), !(wrap_small 64 h) by lia. unfold rounds.
  apply keeps_for_up. intros i Hi. apply keeps_for_up. intros j Hj.
  rewrite !wrap_small by lia. apply keeps_putPixel; lia.
Qed.

(** One cell to the left, or to the end of the line above. *)
Lemma keeps_step_back G (m : M video unit) : keeps G ok m ->
  keeps G ok (s ← gets id;
    let w := u64 (FONT_WIDTH * fontScale s) in
    let h := u64 (FONT_HEIGHT * fontScale s) in
    if cursorX s >=? w then modify (fun s => s <| cursorX ::= fun x => u64 (x - w) |>) ;; m
    else if cursorY s >=? h then
      modify (fun s => s <| cursorY ::= fun y => u64 (y - h) |>) ;;
      modify (fun s => s <| cursorX := u64 (width (VBEModeInfo s) - w) |>) ;; m
    else mret tt).
Proof.
  intros Hm v Hv. pose proof grid_bounds as Hb. pose proof (grid_cells _ _ _ _ Hgrid) as (_ & Hcols & Hrows).
  pose proof (grid_width _ _ _ _ Hgrid) as Ew.
  destruct (ok_col v Hv) as (c & Hc & Ec & Hx & Hx'), (ok_row v Hv) as (r & Hr & Er & Hy & Hy').
  cbv beta. unfold mbind, M_bind, gets, obind. cbv zeta beta. cbn [id].
  rewrite (scr_scale _ _ _ _ _ Hv), (wrap_small 64 w), (wrap_small 64 h) by lia. rewrite Ec, Er, !Z.geb_leb.
  destruct (Z.leb_spec w (c * w)).
  - apply Hm. change (ok (v <| cursorX := u64 (cursorX v - w) |>)). rewrite Ec, wrap_small by lia.
    replace (c * w - w) with ((c - 1) * w) by ring. apply ok_set_col; [done|]. nia.
  - destruct (Z.leb_spec h (r * h)); [|done]. apply Hm.
    change (ok (v <| cursorY := u64 (cursorY v - h) |> <| cursorX := u64 (width (VBEModeInfo v) - w) |>)).
    rewrite Er, (scr_mode _ _ _ _ _ Hv), !wrap_small by lia.
    replace (r * h - h) with ((r - 1) * h) by ring. replace (width mode - w) with ((cols - 1) * w) by lia.
    apply ok_set_col; [apply ok_set_row; [done|nia]|lia].
Qed.
Lemma keeps_backSpace G : keeps G ok video_backSpace.
Proof. apply keeps_step_back, keeps_blank_cell. Qed.
Lemma keeps_moveCursorLeft G : keeps G ok video_moveCursorLeft.
Proof.
  intros v Hv. pose proof (keeps_step_back G (mret tt) (keeps_ret _ _ _) v Hv) as K.
  unfold video_moveCursorLeft. revert K. unfold mbind, M_bind, gets, obind. cbv zeta beta. cbn [id].
  destruct (_ >=? _); [done|]. by destruct (_ >=? _).
Qed.

Lemma keeps_tab G : keeps G ok video_tab.
Proof.
  intros v Hv. pose proof grid_bounds as Hb. destruct (ok_col v Hv) as (c & Hc & Ec & Hx & Hx').
  change (owp G (fun _ => ok) ((let step := u64 (FONT_WIDTH * fontScale v * 8) in
    if step =? 0 then fault else
    modify (fun s => s <| cursorX ::= fun x => u64 (u64 (x / step + 1) * step) |>) ;;
    s ← gets id; when (cursorX s >=? width (VBEModeInfo s)) video_newLine) v)).
  cbv zeta. rewrite (scr_scale _ _ _ _ _ Hv), (wrap_small 64 (w * 8)) by lia.
  destruct (Z.eqb_spec (w * 8) 0); [done|]. apply leads_advance. split; [exact (ok_row_ok v Hv)|].
  exists ((cursorX v / (w * 8) + 1) * 8). cbn [cursorX].
  assert (0 <= cursorX v / (w * 8) /\ cursorX v / (w * 8) * (w * 8) <= cursorX v) as [Hd Hd'].
  { split; [apply Z.div_pos; lia|]. rewrite Z.mul_comm. apply Z.mul_div_le. lia. }
  split; [lia|]. change (u64 (u64 (cursorX v / (w * 8) + 1) * (w * 8)) = (cursorX v / (w * 8) + 1) * 8 * w).
  rewrite (wrap_small 64 (_ + 1)) by nia. rewrite wrap_small by nia. ring.
Qed.
Lemma keeps_special G c : keeps G ok (isSpecialChar c).
Proof.
  unfold isSpecialChar. keep; [apply keeps_newLine|apply keeps_backSpace|apply keeps_tab].
Qed.

Lemma keeps_putChar G c fg bg : keeps G ok (video_putChar c fg bg).
Proof.
  pose proof grid_bounds as Hb. eapply leads_bind; [apply keeps_special|]. intros special.
  destruct special; [apply keeps_ret|]. cbv zeta. eapply leads_bind; [apply keeps_gets_opt|]. intros rows_.
  apply leads_gets_bind. intros v Hv. cbn [id].
  destruct (ok_col v Hv) as (cl & Hc & -> & Hx & Hx'), (ok_row v Hv) as (r & Hr & -> & Hy & Hy').
  rewrite (scr_scale _ _ _ _ _ Hv). eapply leads_bind; [|intros _].
  - apply keeps_for_up. intros y Hyy. apply keeps_for_up. intros x Hxx.
    apply keeps_for_up. intros sy Hsy. apply keeps_for_up. intros sx Hsx. unfold rounds, FONT_WIDTH, FONT_HEIGHT in *.
    assert (0 <= x * scale + sx < 8 * scale) by nia. assert (0 <= y * scale + sy < 16 * scale) by nia.
    rewrite !(wrap_small 64) by lia. apply keeps_putPixel; lia.
  - eapply leads_bind; [|intros _; apply leads_advance]. apply leads_modify. intros u Hu.
    destruct (ok_col u Hu) as (cu & Hcu & Ecu & Hxu & Hxu'). split; [exact (ok_row_ok u Hu)|].
    exists (cu + 1). split; [lia|]. change (u64 (cursorX u + FONT_WIDTH * fontScale u) = (cu + 1) * w).
    rewrite Ecu, (scr_scale _ _ _ _ _ Hu), wrap_small by lia. ring.
Qed.
Lemma keeps_putString G l fg bg : keeps G ok (video_putString l fg bg).
Proof. induction l as [|c l IH]; simpl; [apply keeps_ret|]. eapply leads_bind; [apply keeps_putChar|intros _; exact IH]. Qed.

Lemma keeps_fill_screen G color : keeps G ok (fill_screen color).
Proof.
  pose proof (grid_cells _ _ _ _ Hgrid) as (_ & Hcols & Hrows).
  apply leads_gets_bind. intros v Hv. rewrite (scr_mode _ _ _ _ _ Hv). eapply leads_bind; [|intros _; eapply leads_bind; [|intros _]].
  - apply keeps_for_up. intros i Hi. apply keeps_for_up. intros j Hj. unfold rounds in *. apply keeps_putPixel; lia.
  - apply leads_modify. intros u Hu. by apply (ok_set_col u 0).
  - apply leads_modify. intros u Hu. by apply (ok_set_row u 0).
Qed.

Lemma keeps_moveCursorRight G : keeps G ok video_moveCursorRight.
Proof.
  intros v Hv. pose proof grid_bounds as Hb. destruct (ok_col v Hv) as (c & Hc & Ec & Hx & Hx'), (ok_row v Hv) as (r & Hr & Er & Hy & Hy').
  pose proof (grid_width _ _ _ _ Hgrid) as Ew. pose proof (grid_height _ _ _ _ Hgrid) as Eh.
  unfold video_moveCursorRight, mbind, M_bind, gets, obind. cbv zeta beta. cbn [id].
  rewrite (scr_scale _ _ _ _ _ Hv), (scr_mode _ _ _ _ _ Hv), (wrap_small 64 w), (wrap_small 64 h) by lia.
  rewrite Ec, Er, !wrap_small by lia. destruct (Z.ltb_spec (c * w + w) (width mode)); [|destruct (Z.ltb_spec (r * h + h) (height mode)); [|done]].
  - change (ok (v <| cursorX := u64 (cursorX v + w) |>)). rewrite Ec, wrap_small by lia.
    replace (c * w + w) with ((c + 1) * w) in * by ring. apply ok_set_col; [done|]. nia.
  - change (ok (v <| cursorX := 0 * w |> <| cursorY := u64 (cursorY v + h) |>)). rewrite Er, wrap_small by lia.
    replace (r * h + h) with ((r + 1) * h) in * by ring. apply ok_set_row; [apply ok_set_col; [done|lia]|nia].
Qed.
Lemma keeps_moveCursorUp G : keeps G ok video_moveCursorUp.
Proof.
  intros v Hv. pose proof grid_bounds as Hb. destruct (ok_row v Hv) as (r & Hr & Er & Hy & Hy').
  unfold video_moveCursorUp, mbind, M_bind, gets, obind. cbv zeta beta. cbn [id].
  rewrite (scr_scale _ _ _ _ _ Hv), (wrap_small 64 h), Er, Z.geb_leb by lia.
  destruct (Z.leb_spec h (r * h)); [|done]. change (ok (v <| cursorY := u64 (cursorY v - h) |>)).
  rewrite Er, wrap_small by lia. replace (r * h - h) with ((r - 1) * h) by ring. apply ok_set_row; [done|nia].
Qed.
Lemma keeps_moveCursorDown G : keeps G ok video_moveCursorDown.
Proof.
  intros v Hv. pose proof grid_bounds as Hb. destruct (ok_row v Hv) as (r & Hr & Er & Hy & Hy').
  pose proof (grid_height _ _ _ _ Hgrid) as Eh.
  unfold video_moveCursorDown, mbind, M_bind, gets, obind. cbv zeta beta. cbn [id].
  rewrite (scr_scale _ _ _ _ _ Hv), (scr_mode _ _ _ _ _ Hv), (wrap_small 64 h), Er, wrap_small by lia.
  destruct (Z.ltb_spec (r * h + h) (height mode)); [|done]. change (ok (v <| cursorY := u64 (cursorY v + h) |>)).
  rewrite Er, wrap_small by lia. replace (r * h + h) with ((r + 1) * h) in * by ring. apply ok_set_row; [done|nia].
Qed.
Lemma keeps_drawCursor G color : keeps G ok (video_drawCursor color).
Proof.
  pose proof grid_bounds as Hb. pose proof (grid_cells _ _ _ _ Hgrid) as (Hs & _ & _). apply leads_gets_bind. intros v Hv. cbn [id].
  destruct (ok_col v Hv) as (c & Hc & -> & Hx & Hx'), (ok_row v Hv) as (r & Hr & -> & Hy & Hy').
  rewrite (scr_scale _ _ _ _ _ Hv), (wrap_small 64 w) by lia. unfold rounds, FONT_HEIGHT in *.
  apply keeps_for_up. intros x Hxx. rewrite !(wrap_small 64) by lia. apply keeps_putPixel; lia.
Qed.

(** A character away from the cursor: it has room for one at the scale 1. *)
Lemma keeps_putCharXY G c x y fg bg : 0 <= x -> x + FONT_WIDTH <= width mode -> 0 <= y -> y + FONT_HEIGHT <= height mode ->
  keeps G ok (video_putCharXY c x y fg bg).
Proof.
  pose proof grid_bounds as Hb. intros Hx Hx' Hy Hy'. unfold video_putCharXY. cbv zeta.
  eapply leads_bind; [apply keeps_gets_opt|]. intros rows_. unfold rounds, FONT_WIDTH, FONT_HEIGHT in *.
  apply keeps_for_up. intros row Hrow. apply keeps_for_up. intros col Hcol. rewrite !wrap_small by lia. apply keeps_putPixel; lia.
Qed.

(** ** Any use of the driver *)

(** The functions of videoDriver.h, and [video_scrollUp]; the two that only read the
    mode do not draw. *)
Inductive video_call :=
  | PutChar (c fg bg : Z) | PutString (l : list Z) (fg bg : Z) | PrintError (l : list Z)
  | NewLine | BackSpace | Tab | ScrollUp | ClearScreen | ClearScreenColor (color : Z)
  | CursorLeft | CursorRight | CursorUp | CursorDown | DrawCursor (color : Z)
  | PutPixel (color x y : Z) | PutCharXY (c x y fg bg : Z).
Definition draw (c : video_call) : M video unit :=
  match c with
  | PutChar c fg bg => video_putChar c fg bg
  | PutString l fg bg => video_putString l fg bg
  | PrintError l => video_printError l
  | NewLine => video_newLine
  | BackSpace => video_backSpace
  | Tab => video_tab
  | ScrollUp => video_scrollUp
  | ClearScreen => video_clearScreen
  | ClearScreenColor color => video_clearScreenColor color
  | CursorLeft => video_moveCursorLeft
  | CursorRight => video_moveCursorRight
  | CursorUp => video_moveCursorUp
  | CursorDown => video_moveCursorDown
  | DrawCursor color => video_drawCursor color
  | PutPixel color x y => video_putPixel color x y
  | PutCharXY c x y fg bg => video_putCharXY c x y fg bg
  end.
(** Its characters are in the font; where the caller gives coordinates, which the
    driver does not test, the pixel or the whole character is on the screen. *)
Definition call_ok (c : video_call) : Prop :=
  match c with
  | PutChar c _ _ => 0 <= c < 128
  | PutString l _ _ | PrintError l => Forall (fun c => 0 <= c < 128) l
  | PutPixel _ x y => 0 <= x < width mode /\ 0 <= y < height mode
  | PutCharXY _ x y _ _ => 0 <= x /\ x + FONT_WIDTH <= width mode /\ 0 <= y /\ y + FONT_HEIGHT <= height mode
  | _ => True
  end.
Fixpoint draw_all (l : list video_call) : M video unit :=
  match l with [] => mret tt | c :: l => draw c ;; draw_all l end.

Lemma keeps_draw G c : call_ok c -> keeps G ok (draw c).
Proof.
  destruct c; cbn [draw call_ok]; intros Hc; destruct_and?; eauto using keeps_putChar, keeps_putString, keeps_newLine, keeps_backSpace, keeps_tab,
    keeps_scrollUp, keeps_fill_screen, keeps_moveCursorLeft, keeps_moveCursorRight, keeps_moveCursorUp,
    keeps_moveCursorDown, keeps_drawCursor, keeps_putPixel, keeps_putCharXY.
Qed.

Lemma safe_putString l fg bg : Forall (fun c => 0 <= c < 128) l -> safe video_ok (video_putString l fg bg).
Proof.
  induction 1 as [|c l Hc _ IH]; simpl; [apply safe_ret|]. apply safe_bind; [by apply putChar_returns|intros _; exact IH].
Qed.
Lemma safe_draw c : call_ok c -> safe video_ok (draw c).
Proof.
  destruct c; cbn [draw call_ok]; intros Hc;
    unfold video_printError, video_scrollUp, video_clearScreen, video_clearScreenColor, fill_screen, video_moveCursorLeft,
      video_moveCursorRight, video_moveCursorUp, video_moveCursorDown, video_drawCursor; try by safely.
  - by apply putChar_returns.
  - by apply safe_putString.
  - by apply safe_putString.
  - by apply putCharXY_returns.
Qed.

Lemma ok_video_ok v : ok v -> video_ok v.
Proof.
  intros Hv. unfold video_ok. pose proof grid_bounds as Hb. rewrite (scr_scale _ _ _ _ _ Hv), wrap_small by lia. lia.
Qed.
(** What returns and keeps an invariant returns in a state that satisfies it. *)
Lemma runs_keeps {S A : Type} (G I : S -> Prop) (m : M S A) s (Q : A -> S -> Prop) :
  keeps G I m -> I s -> runs m s Q -> runs m s (fun _ s' => I s').
Proof. intros Hk Hs (a & s' & E & _). exists a, s'. split; [done|]. specialize (Hk s Hs). by rewrite E in Hk. Qed.

(** C30: whatever functions of the driver are called, with characters of the font and,
    for the two that take coordinates, with a pixel or a character that is wholly on
    the screen, they return; the cursor is then on a cell of the grid and the bytes
    written are in the frame buffer. *)
Theorem driver_draws_on_screen calls v :
  Forall call_ok calls -> ok v -> runs (draw_all calls) v (fun _ v' => ok v').
Proof.
  intros Hl. revert v. induction Hl as [|c l Hc _ IH]; intros v Hv; simpl; [by apply runs_ret|].
  apply runs_bind. apply (runs_mono _ _ (fun _ => ok)); [|intros [] v' Hv'; by apply IH].
  eapply runs_keeps; [apply (keeps_draw (fun _ => True) _ Hc)|exact Hv|exact (safe_draw c Hc v (ok_video_ok v Hv))].
Qed.
End Screen.

(** A screen of 4 by 2 cells. *)
Definition small_mode : vbe_mode_info := mk_vbe 96 32 32 24 0xE0000000.
Lemma small_grid : grid_mode small_mode 1 4 2.
Proof. by split; cbn. Qed.

Lemma driver_draws_on_screen_witness :
  runs (draw_all [PutString [72; 105; 9; 33; 10; 65; 8] 0xFFFFFF 0; CursorUp; DrawCursor 0xFF; ScrollUp;
      PutPixel 0xFF 31 31; PutCharXY 65 24 16 0xFFFFFF 0]) (video_boot small_mode)
    (fun _ v' => screen_ok small_mode 1 4 2 v').
Proof.
  apply (driver_draws_on_screen small_mode 1 4 2 small_grid).
  - repeat constructor; done.
  - exact (ok_boot _ _ _ _ small_grid).
Defined.
