(* ===== verification/ScreenText.v ===== *)
(** * Text on the screen

    What a character draws does not depend on what is on the screen, and erasing it
    leaves its cell in the background colour.  So a line that is typed and edited
    leaves the picture of the line alone. *)
From S2P Require Import Prelude Font Video VideoFacts VideoTheorems.

Section Text.
Context (mode : vbe_mode_info) (scale cols rows : Z) (Hgrid : grid_mode mode scale cols rows).
#[local] Abbreviation w := (FONT_WIDTH * scale).
#[local] Abbreviation h := (FONT_HEIGHT * scale).
Implicit Types (v : video) (D E : Z -> Prop) (m : M video unit).

(** ** Painting *)

(** [m] writes, whatever is on the screen, the same bytes: at most those of [D], all
    those of [E]; only zeros if [zero]. *)
Definition paints (zero : bool) D E m : Prop := exists g : gmap Z Z,
  (forall v, VBEModeInfo v = mode -> m v = Done tt (v <| pixels ::= fun p => g ∪ p |>)) /\
  (forall a, is_Some (g !! a) -> D a) /\ (forall a, E a -> is_Some (g !! a)) /\
  (zero = true -> forall a x, g !! a = Some x -> x = 0).

Lemma paints_ret z D : paints z D (fun _ => False) (mret tt).
Proof.
  exists ∅. split; [|split; [|split]]; [|by intros a [x Hx]; rewrite lookup_empty in Hx|done|by intros _ a x Hx; rewrite lookup_empty in Hx].
  intros v _. unfold mret, M_ret. f_equal. destruct v. unfold set_field, set_pixels. cbn. by rewrite (left_id_L ∅ (∪)).
Qed.
Lemma paints_bind z D E1 E2 m1 m2 : paints z D E1 m1 -> paints z D E2 m2 -> paints z D (fun a => E1 a \/ E2 a) (m1 ;; m2).
Proof.
  intros (g1 & R1 & D1 & C1 & Z1) (g2 & R2 & D2 & C2 & Z2). exists (g2 ∪ g1). split_and!.
  - intros v Hv. unfold mbind, M_bind. rewrite R1 by done. cbn [obind]. rewrite R2 by done. f_equal.
    destruct v. unfold set_field, set_pixels. cbn. by rewrite (assoc_L (∪)).
  - intros a [x Hx]. apply lookup_union_Some_raw in Hx as [Hx|[_ Hx]]; [apply D2|apply D1]; by eexists.
  - intros a [Ha|Ha]; apply lookup_union_is_Some; [right; by apply C1|left; by apply C2].
  - intros Hz a x Hx. apply lookup_union_Some_raw in Hx as [Hx|[_ Hx]]; [by eapply Z2|by eapply Z1].
Qed.
Lemma paints_proper z D E E' m : (forall a, E' a -> E a) -> paints z D E m -> paints z D E' m.
Proof. intros HE (g & R & HD & C & HZ). exists g. split_and!; auto. Qed.
Lemma paints_for_up z D (E : Z -> Z -> Prop) body n : forall lo,
  (forall i, lo <= i < lo + Z.of_nat n -> paints z D (E i) (body i)) ->
  paints z D (fun a => exists i, lo <= i < lo + Z.of_nat n /\ E i a) (for_up lo n body).
Proof.
  induction n as [|n IH]; intros lo Hb; cbn [for_up].
  - eapply paints_proper; [|apply paints_ret]. intros a (i & Hi & _). lia.
  - eapply paints_proper; [|apply paints_bind; [apply Hb; lia|apply IH; intros i Hi; apply Hb; lia]]. cbv beta.
    intros a (i & Hi & Ha). destruct (decide (i = lo)) as [->|]; [by left|right]. exists i. split; [lia|done].
Qed.

Definition pixel_at (x y : Z) : Z := framebuffer mode + u64 (x * (bpp mode / 8) + y * pitch mode).
Lemma paints_pixel z D color x y : (forall k, 0 <= k <= 2 -> D (pixel_at x y + k)) -> (z = true -> color = 0) ->
  paints z D (fun a => exists k, 0 <= k <= 2 /\ a = pixel_at x y + k) (video_putPixel color x y).
Proof.
  intros HD Hz. set (p := pixel_at x y).
  exists (<[p + 2 := u8 (Z.land (Z.shiftr color 16) 0xFF)]> (<[p + 1 := u8 (Z.land (Z.shiftr color 8) 0xFF)]> (<[p := u8 (Z.land color 0xFF)]> ∅))).
  split_and!.
  - intros v Hv. unfold video_putPixel, put_byte, gets, modify, mbind, M_bind. cbn [obind]. rewrite Hv. fold (pixel_at x y). fold p.
    f_equal. destruct v. unfold set_field, set_pixels. cbn. by rewrite <- !insert_union_l, (left_id_L ∅ (∪)).
  - intros a Ha. rewrite !lookup_insert_is_Some, lookup_empty in Ha.
    destruct Ha as [<-|[_ [<-|[_ [<-|[_ [? ?]]]]]]]; [apply HD; lia|apply HD; lia| |done]. replace p with (p + 0) by lia. apply HD. lia.
  - intros a (k & Hk & ->). rewrite !lookup_insert_is_Some'. assert (k = 0 \/ k = 1 \/ k = 2) as [->|[->| ->]] by lia; [|tauto..].
    rewrite Z.add_0_r. tauto.
  - intros Ez a b. rewrite (Hz Ez). rewrite !lookup_insert_Some, lookup_empty.
    intros [[_ <-]|[_ [[_ <-]|[_ [[_ <-]|[_ ?]]]]]]; done.
Qed.

(** ** Cells *)

(** The cell [n] of the screen, line by line, and its bytes. *)
Definition cell_x (n : Z) : Z := n mod cols * w.
Definition cell_y (n : Z) : Z := n / cols * h.
Definition cell_byte (n a : Z) : Prop := exists i j k, 0 <= i < w /\ 0 <= j < h /\ 0 <= k <= 2 /\
  a = pixel_at (cell_x n + i) (cell_y n + j) + k.
Record cursor_at (n : Z) v : Prop := {
  cu_mode : VBEModeInfo v = mode;
  cu_scale : fontScale v = scale;
  cu_cell : 0 <= n < cols * rows;
  cu_x : cursorX v = cell_x n;
  cu_y : cursorY v = cell_y n }.
(** The byte at an address: what was never drawn is black. *)
Definition byte_of v (a : Z) : Z := default 0 (pixels v !! a).
Definition blank_from (n k : Z) v : Prop := forall n' a, n <= n' < k -> cell_byte n' a -> byte_of v a = 0.
Record same_picture v v' : Prop := {
  sp_mode : VBEModeInfo v = VBEModeInfo v';
  sp_scale : fontScale v = fontScale v';
  sp_cursor : cursorX v = cursorX v' /\ cursorY v = cursorY v';
  sp_bytes : forall a, byte_of v a = byte_of v' a }.

Lemma cell_bounds n : 0 <= n < cols * rows ->
  0 <= cell_x n /\ cell_x n + w <= width mode /\ 0 <= cell_y n /\ cell_y n + h <= height mode.
Proof.
  intros Hn. pose proof (grid_bounds _ _ _ _ Hgrid) as Hb. destruct Hgrid as [(Hs & Hc & Hr) Ew Eh _ _ _].
  pose proof (Z.mod_pos_bound n cols ltac:(lia)). pose proof (Z.div_pos n cols ltac:(lia) ltac:(lia)).
  assert (n / cols < rows) by (apply Z.div_lt_upper_bound; lia). unfold cell_x, cell_y. rewrite Ew, Eh. nia.
Qed.

Lemma pixel_place x y k : 0 <= x < width mode -> 0 <= y < height mode -> 0 <= k <= 2 ->
  (pixel_at x y + k - framebuffer mode) / pitch mode = y /\
  (pixel_at x y + k - framebuffer mode) mod pitch mode / (bpp mode / 8) = x.
Proof.
  intros Hx Hy Hk. pose proof (grid_bounds _ _ _ _ Hgrid) as Hb. destruct Hgrid as [_ _ _ Hbytes Hpitch Hsize].
  assert (0 <= x * (bpp mode / 8) /\ x * (bpp mode / 8) + bpp mode / 8 <= pitch mode) by nia.
  assert (0 <= y * pitch mode /\ y * pitch mode + pitch mode <= pitch mode * height mode) by nia.
  unfold pixel_at. rewrite wrap_small by lia.
  replace (framebuffer mode + (x * (bpp mode / 8) + y * pitch mode) + k - framebuffer mode)
    with (x * (bpp mode / 8) + k + y * pitch mode) by ring.
  rewrite Z.div_add, Z_mod_plus_full, Z.div_small, Z.mod_small by lia. split; [lia|].
  rewrite Z.add_comm, Z.div_add, Z.div_small by lia. lia.
Qed.

(** Cells do not overlap. *)
Lemma cell_apart n n' a : 0 <= n < cols * rows -> 0 <= n' < cols * rows -> cell_byte n a -> cell_byte n' a -> n = n'.
Proof.
  intros Hn Hn' (i & j & k & Hi & Hj & Hk & Ea) (i' & j' & k' & Hi' & Hj' & Hk' & Ea').
  pose proof (cell_bounds n Hn). pose proof (cell_bounds n' Hn').
  destruct (pixel_place (cell_x n + i) (cell_y n + j) k ltac:(lia) ltac:(lia) Hk) as [Ey Ex].
  destruct (pixel_place (cell_x n' + i') (cell_y n' + j') k' ltac:(lia) ltac:(lia) Hk') as [Ey' Ex'].
  rewrite <- Ea in Ex, Ey. rewrite <- Ea' in Ex', Ey'. rewrite Ey in Ey'. rewrite Ex in Ex'.
  pose proof (grid_cells _ _ _ _ Hgrid) as (Hs & Hc & Hr). unfold cell_x, cell_y, FONT_WIDTH, FONT_HEIGHT in *.
  assert (n mod cols = n' mod cols) by nia. assert (n / cols = n' / cols) by nia.
  rewrite (Z.div_mod n cols), (Z.div_mod n' cols) by lia. congruence.
Qed.

Lemma paints_cell_pixel z n x y color : 0 <= n < cols * rows -> 0 <= x < w -> 0 <= y < h -> (z = true -> color = 0) ->
  paints z (cell_byte n) (fun a => exists k, 0 <= k <= 2 /\ a = pixel_at (cell_x n + x) (cell_y n + y) + k)
    (video_putPixel color (cell_x n + x) (cell_y n + y)).
Proof. intros Hn Hx Hy Hz. apply paints_pixel; [|done]. intros k Hk. by exists x, y, k. Qed.

(** ** A character, and its erasure *)

Definition moved (n : Z) v : video := v <| cursorX := cell_x n |> <| cursorY := cell_y n |>.
Lemma cursor_moved n v : VBEModeInfo v = mode -> fontScale v = scale -> 0 <= n < cols * rows -> cursor_at n (moved n v).
Proof. by split. Qed.

(** The next cell is to the right, or at the start of the next line. *)
Lemma next_cell n : 0 <= n -> n + 1 < cols * rows ->
  (cell_x n + w < width mode /\ cell_x (n + 1) = cell_x n + w /\ cell_y (n + 1) = cell_y n) \/
  (cell_x n + w = width mode /\ cell_x (n + 1) = 0 /\ cell_y (n + 1) = cell_y n + h /\ cell_y n + h < height mode).
Proof.
  intros Hn Hn'. pose proof (grid_bounds _ _ _ _ Hgrid) as Hb. destruct Hgrid as [(Hs & Hc & Hr) Ew Eh _ _ _].
  pose proof (Z.mod_pos_bound n cols ltac:(lia)) as Hm. pose proof (Z.div_mod n cols ltac:(lia)) as Edm.
  assert (n / cols < rows) by (apply Z.div_lt_upper_bound; lia). unfold cell_x, cell_y. rewrite Ew, Eh.
  destruct (decide (n mod cols + 1 = cols)) as [E|E].
  - right. assert ((n + 1) / cols = n / cols + 1 /\ (n + 1) mod cols = 0) as [-> ->].
    { replace (n + 1) with ((n / cols + 1) * cols) by lia. rewrite Z.div_mul, Z.mod_mul by lia. done. }
    assert (n / cols + 1 < rows) by nia. split_and!; [|lia|ring|]; nia.
  - left. assert ((n + 1) / cols = n / cols /\ (n + 1) mod cols = n mod cols + 1) as [-> ->].
    { replace (n + 1) with (n mod cols + 1 + n / cols * cols) by lia. rewrite Z.div_add, Z_mod_plus_full, Z.div_small, Z.mod_small by lia. lia. }
    split_and!; [|ring|done]. nia.
Qed.

Definition is_glyph (c : Z) : Prop := 0 <= c < 128 /\ c <> 8 /\ c <> 9 /\ c <> 10.

Lemma glyph_paints n (fg bg : Z) pattern : 0 <= n < cols * rows ->
  paints false (cell_byte n) (fun _ => False)
    (for_up 0 (rounds 0 FONT_HEIGHT) (fun y => for_up 0 (rounds 0 FONT_WIDTH) (fun x =>
       let color := u32 (if glyph_bit (default 0 ((pattern : list Z) !! Z.to_nat y)) x then fg else bg) in
       for_up 0 (rounds 0 scale) (fun sy => for_up 0 (rounds 0 scale) (fun sx =>
         video_putPixel color (u64 (cell_x n + x * scale + sx)) (u64 (cell_y n + y * scale + sy))))))).
Proof.
  intros Hn. pose proof (cell_bounds n Hn) as Hc. pose proof (grid_bounds _ _ _ _ Hgrid) as Hb.
  eapply paints_proper; [|apply paints_for_up; intros y Hy; apply paints_for_up; intros x Hx; cbv zeta;
    apply paints_for_up; intros sy Hsy; apply paints_for_up; intros sx Hsx; unfold rounds, FONT_WIDTH, FONT_HEIGHT in *].
  - done.
  - assert (0 <= x * scale + sx < 8 * scale) by nia. assert (0 <= y * scale + sy < 16 * scale) by nia.
    rewrite <- (Z.add_assoc (cell_x n)), <- (Z.add_assoc (cell_y n)). rewrite !(wrap_small 64) by (unfold FONT_WIDTH, FONT_HEIGHT in *; lia).
    apply paints_cell_pixel; unfold FONT_WIDTH, FONT_HEIGHT in *; done || lia.
Qed.

(** What [video_putChar] writes depends on the cell and the character alone. *)
Lemma putChar_draws n c fg bg : is_glyph c -> 0 <= n -> n + 1 < cols * rows ->
  exists g : gmap Z Z, (forall a, is_Some (g !! a) -> cell_byte n a) /\
    forall v, cursor_at n v -> video_putChar c fg bg v = Done tt (moved (n + 1) (v <| pixels ::= fun p => g ∪ p |>)).
Proof.
  intros (Hc & H8 & H9 & H10) Hn Hn'. destruct (glyph_exists c Hc) as [pattern Hpattern].
  destruct (glyph_paints n fg bg pattern ltac:(lia)) as (g & Hg & Hd & _ & _). exists g. split; [done|].
  intros v [Hm Hs _ Hx Hy]. pose proof (grid_bounds _ _ _ _ Hgrid) as Hb. pose proof (cell_bounds n ltac:(lia)) as Hbn.
  unfold video_putChar, isSpecialChar. rewrite !(proj2 (Z.eqb_neq c _)) by done.
  unfold mbind at 1, M_bind at 1. cbn [mret M_ret obind]. rewrite wrap_small by lia.
  unfold mbind at 1, M_bind at 1. unfold glyph, gets_opt. rewrite Hpattern. cbn [obind].
  unfold mbind at 1, M_bind at 1. unfold gets at 1. cbn [obind id]. cbv zeta. rewrite Hs, Hx, Hy.
  unfold mbind at 1, M_bind at 1. cbv zeta in Hg. rewrite Hg by done. cbn [obind].
  unfold mbind at 1, M_bind at 1. unfold modify at 1. cbn [obind]. unfold mbind, M_bind, gets. cbn [obind id].
  set (v1 := v <| pixels ::= fun p => g ∪ p |>).
  change (cursorX (v1 <| cursorX ::= fun x => u64 (x + FONT_WIDTH * fontScale v1) |>)) with (u64 (cursorX v + FONT_WIDTH * fontScale v)).
  change (VBEModeInfo (v1 <| cursorX ::= fun x => u64 (x + FONT_WIDTH * fontScale v1) |>)) with (VBEModeInfo v).
  rewrite Hs, Hx, Hm, Z.geb_leb, wrap_small by lia. destruct (next_cell n Hn Hn') as [(H1 & E1 & E2)|(H1 & E1 & E2 & H2)].
  - rewrite (proj2 (Z.leb_gt _ _)) by lia. cbn [when]. unfold mret, M_ret, moved. rewrite E1, E2. f_equal. destruct v. cbn in *. subst.
    unfold set_field, set_cursorX, set_cursorY, set_pixels, eta_video. cbn. rewrite wrap_small by lia. done.
  - rewrite (proj2 (Z.leb_le _ _)) by lia. cbn [when]. unfold video_newLine, mbind, M_bind, modify, gets. cbn [obind id]. cbv zeta.
    unfold moved. rewrite E1, E2. destruct v. cbn in *. subst. unfold set_field, set_cursorX, set_cursorY, set_pixels, eta_video. cbn.
    rewrite !wrap_small by (rewrite ?wrap_small by lia; lia). rewrite (proj2 (Z.ltb_lt _ _)) by lia. cbn. by rewrite wrap_small by lia.
Qed.

Lemma wipe_paints n : 0 <= n < cols * rows ->
  paints true (cell_byte n) (cell_byte n)
    (for_up 0 (rounds 0 w) (fun i => for_up 0 (rounds 0 h) (fun j =>
       video_putPixel BACKGROUND_COLOR (u64 (cell_x n + i)) (u64 (cell_y n + j))))).
Proof.
  intros Hn. pose proof (cell_bounds n Hn) as Hc. pose proof (grid_bounds _ _ _ _ Hgrid) as Hb.
  eapply paints_proper; [|apply paints_for_up; intros i Hi; apply paints_for_up; intros j Hj; unfold rounds in *;
    rewrite !wrap_small by lia; apply paints_cell_pixel; [done|lia|lia|done]]. cbv beta.
  intros a (i & j & k & Hi & Hj & Hk & ->). exists i. unfold rounds. split; [lia|]. exists j. split; [lia|]. by exists k.
Qed.

(** [video_backSpace] goes back one cell and leaves it black. *)
Lemma backSpace_wipes n : 0 <= n -> n + 1 < cols * rows ->
  exists g : gmap Z Z, (forall a, is_Some (g !! a) <-> cell_byte n a) /\ (forall a x, g !! a = Some x -> x = 0) /\
    forall v, cursor_at (n + 1) v -> video_backSpace v = Done tt (moved n (v <| pixels ::= fun p => g ∪ p |>)).
Proof.
  intros Hn Hn'. destruct (wipe_paints n ltac:(lia)) as (g & Hg & Hd & He & Hz). exists g. split; [split; auto|]. split; [by apply Hz|].
  intros v [Hm Hs _ Hx Hy]. pose proof (grid_bounds _ _ _ _ Hgrid) as Hb. pose proof (cell_bounds n ltac:(lia)) as Hbn.
  unfold video_backSpace, blank_cell, mbind, M_bind, gets, modify. cbn [obind id]. cbv zeta. rewrite Hs, Hx, Hy, !Z.geb_leb.
  rewrite !(wrap_small 64 w), !(wrap_small 64 h) by lia.
  destruct (next_cell n Hn Hn') as [(H1 & E1 & E2)|(H1 & E1 & E2 & H2)]; rewrite E1, E2.
  - rewrite (proj2 (Z.leb_le _ _)) by lia.
    set (v1 := v <| cursorX ::= _ |>). assert (v1 = moved n v) as -> by (unfold v1, moved; destruct v; cbn in *; subst; unfold set_field, set_cursorX, set_cursorY, eta_video; cbn; rewrite E1, E2, wrap_small by lia; by rewrite Z.add_simpl_r).
    unfold moved at 1 2. cbn [cursorX cursorY fontScale set_field set_cursorX set_cursorY]. rewrite Hs, !(wrap_small 64 w), !(wrap_small 64 h) by lia.
    by rewrite Hg.
  - rewrite (proj2 (Z.leb_gt _ _)), (proj2 (Z.leb_le _ _)) by lia.
    set (v1 := _ <| cursorX := _ |>). assert (v1 = moved n v) as -> by (unfold v1, moved; destruct v; cbn in *; subst; unfold set_field, set_cursorX, set_cursorY, eta_video; cbn; rewrite E2, !wrap_small by lia; rewrite Z.add_simpl_r; f_equal; lia).
    unfold moved at 1 2. cbn [cursorX cursorY fontScale set_field set_cursorX set_cursorY]. rewrite Hs, !(wrap_small 64 w), !(wrap_small 64 h) by lia.
    by rewrite Hg.
Qed.

(** ** Strings *)

Lemma putString_app fg bg l1 l2 v v1 : video_putString l1 fg bg v = Done tt v1 ->
  video_putString (l1 ++ l2) fg bg v = video_putString l2 fg bg v1.
Proof.
  revert v. induction l1 as [|c l1 IH]; intros v E; cbn [app video_putString] in *; [by injection E as ->|].
  unfold mbind, M_bind in *. destruct (video_putChar c fg bg v) as [[] v2|? ? k| |]; simpl in *; try discriminate. by apply IH.
Qed.

Lemma byte_of_painted v (g : gmap Z Z) n a : byte_of (moved n (v <| pixels ::= fun p => g ∪ p |>)) a =
  match g !! a with Some x => x | None => byte_of v a end.
Proof.
  unfold byte_of, moved. change (pixels (_ <| cursorY := _ |>)) with (g ∪ pixels v). rewrite lookup_union.
  by destruct (g !! a), (pixels v !! a).
Qed.

Lemma glyph_keeps_blank n k v g : 0 <= n -> n < cols * rows -> k <= cols * rows -> (forall a, is_Some (g !! a) -> cell_byte n a) ->
  blank_from n k v -> blank_from (n + 1) k (moved (n + 1) (v <| pixels ::= fun p => g ∪ p |>)).
Proof.
  intros Hn Hn' Hk Hg Hb n' a Hin Ha. rewrite byte_of_painted. destruct (g !! a) as [x|] eqn:Ex; [|by apply (Hb n'); [lia|]].
  assert (n = n') as E by (apply (cell_apart n n' a); [lia|lia|apply Hg; by eexists|done]). lia.
Qed.

(** A string of characters that each take a cell. *)
Lemma putString_draws fg bg l : forall n k v, Forall is_glyph l -> cursor_at n v -> n + Z.of_nat (length l) < cols * rows ->
  k <= cols * rows -> blank_from n k v ->
  exists v', video_putString l fg bg v = Done tt v' /\ cursor_at (n + Z.of_nat (length l)) v' /\ blank_from (n + Z.of_nat (length l)) k v'.
Proof.
  induction l as [|c l IH]; intros n k v Hl Hv Hn Hk Hb; cbn [length video_putString] in *.
  { exists v. by rewrite Z.add_0_r. }
  inversion_clear Hl as [|? ? Hc Hl']. pose proof (cu_cell _ _ Hv) as Hcell.
  destruct (putChar_draws n c fg bg Hc ltac:(lia) ltac:(lia)) as (g & Hg & Hput).
  destruct (IH (n + 1) k (moved (n + 1) (v <| pixels ::= fun p => g ∪ p |>)) Hl') as (v' & E & Hv' & Hb').
  - destruct Hv. apply cursor_moved; [done|done|lia].
  - lia.
  - done.
  - apply glyph_keeps_blank; [lia..|done|done].
  - exists v'. unfold mbind, M_bind. rewrite Hput by done. cbn [obind]. split; [exact E|].
    replace (n + Z.of_nat (S (length l))) with (n + 1 + Z.of_nat (length l)) by lia. done.
Qed.

Lemma same_cursor n v v' : same_picture v v' -> cursor_at n v' -> cursor_at n v.
Proof. intros [Em Es [Ex Ey] _] [? ? ? ? ?]. split; congruence. Qed.
Lemma same_moved n n' v v' (g : gmap Z Z) : cursor_at n v -> cursor_at n v' -> same_picture v v' ->
  same_picture (moved n' (v <| pixels ::= fun p => g ∪ p |>)) (moved n' (v' <| pixels ::= fun p => g ∪ p |>)).
Proof. intros [] [] [Em Es _ Eb]. split; [done|done|done|]. intros a. rewrite !byte_of_painted. by destruct (g !! a). Qed.

(** The same character on the same picture. *)
Lemma same_putChar n c fg bg v v' : is_glyph c -> cursor_at n v -> n + 1 < cols * rows -> same_picture v v' ->
  cursor_at n v' -> exists v1 v1', video_putChar c fg bg v = Done tt v1 /\ video_putChar c fg bg v' = Done tt v1' /\ same_picture v1 v1'.
Proof.
  intros Hc Hv Hn Hsame Hv'. destruct (putChar_draws n c fg bg Hc ltac:(by apply Hv) Hn) as (g & _ & Hput).
  eexists _, _. split; [by apply Hput|]. split; [by apply Hput|]. by eapply same_moved.
Qed.

(** A character that has just been drawn on a blank cell is erased by a backspace, a
    space and a backspace. *)
Lemma erase_undoes n c fg bg v0 v : is_glyph c -> cursor_at n v0 -> n + 1 < cols * rows -> (forall a, cell_byte n a -> byte_of v0 a = 0) ->
  (exists v1, video_putChar c fg bg v0 = Done tt v1 /\ same_picture v v1) ->
  exists v', video_putString [8; 32; 8] fg bg v = Done tt v' /\ same_picture v' v0.
Proof.
  intros Hc Hv0 Hn Hblank (v1 & E1 & Hsame). pose proof (cu_cell _ _ Hv0) as Hcell.
  destruct (putChar_draws n c fg bg Hc ltac:(lia) Hn) as (g & Hg & Hput). rewrite Hput in E1 by done. injection E1 as <-.
  destruct (putChar_draws n 32 fg bg ltac:(unfold is_glyph; lia) ltac:(lia) Hn) as (gs & Hgs & Hspace).
  destruct (backSpace_wipes n ltac:(lia) Hn) as (gb & Hgb & Hz & Hback).
  assert (forall u u', video_putChar 8 fg bg u = Done tt u' <-> video_backSpace u = Done tt u') as H8.
  { intros u u'. unfold video_putChar, isSpecialChar, mbind, M_bind, mret, M_ret. cbn. by destruct (video_backSpace u) as [[] ?| | |]. }
  assert (cursor_at (n + 1) v) as Hv.
  { eapply same_cursor; [exact Hsame|]. destruct Hv0. apply cursor_moved; [done|done|lia]. }
  set (v2 := moved n (v <| pixels ::= fun p => gb ∪ p |>)). assert (cursor_at n v2) as Hv2 by (destruct Hv; apply cursor_moved; [done|done|lia]).
  set (v3 := moved (n + 1) (v2 <| pixels ::= fun p => gs ∪ p |>)). assert (cursor_at (n + 1) v3) as Hv3 by (destruct Hv2; apply cursor_moved; [done|done|lia]).
  set (v4 := moved n (v3 <| pixels ::= fun p => gb ∪ p |>)). exists v4. split.
  - cbn [video_putString]. unfold mbind, M_bind. rewrite (proj2 (H8 v v2)) by (by apply Hback). cbn [obind].
    rewrite Hspace by done. cbn [obind]. fold v3. rewrite (proj2 (H8 v3 v4)) by (by apply Hback). done.
  - destruct Hv0 as [Em Es _ Ex Ey]. destruct Hv as [Em' Es' _ _ _]. split; [cbn; congruence|cbn; congruence|cbn; by rewrite Ex, Ey|].
    intros a. unfold v4. rewrite byte_of_painted. destruct (gb !! a) as [x|] eqn:Eb.
    + rewrite Hblank by (apply Hgb; by eexists). by eapply Hz.
    + assert (forall g' : gmap Z Z, (forall b, is_Some (g' !! b) -> cell_byte n b) -> g' !! a = None) as Hout.
      { intros g' Hg'. destruct (g' !! a) eqn:E; [|done]. destruct (proj2 (Hgb a)) as [? ?]; [apply Hg'; by eexists|congruence]. }
      unfold v3. rewrite byte_of_painted, (Hout gs Hgs). unfold v2. rewrite byte_of_painted, Eb, (sp_bytes _ _ Hsame).
      by rewrite byte_of_painted, (Hout g Hg).
Qed.
End Text.
