(* ===== verification/Exceptions.v ===== *)
(** * Exceptions (src/Kernel/exceptions/exceptions.c): the registers on the screen *)
From S2P Require Import Prelude Video.

Definition ZERO_EXCEPTION_ID : Z := 0.
Definition INVALID_OPCODE_ID : Z := 6.

(** "Error: No esta permitida la division por cero", "Error: Operacion invalida" *)
Definition msg_zero : list Z :=
  [69; 114; 114; 111; 114; 58; 32; 78; 111; 32; 101; 115; 116; 97; 32; 112; 101; 114; 109; 105; 116; 105; 100;
   97; 32; 108; 97; 32; 100; 105; 118; 105; 115; 105; 111; 110; 32; 112; 111; 114; 32; 99; 101; 114; 111].
Definition msg_invalid : list Z :=
  [69; 114; 114; 111; 114; 58; 32; 79; 112; 101; 114; 97; 99; 105; 111; 110; 32; 105; 110; 118; 97; 108; 105;
   100; 97].

(** "RAX", "RBX", ..., "RIP", "RFLAGS" *)
Definition regs : list (list Z) :=
  [[82; 65; 88]; [82; 66; 88]; [82; 67; 88]; [82; 68; 88]; [82; 83; 73]; [82; 68; 73]; [82; 66; 80]; [82; 83; 80];
   [82; 56]; [82; 57]; [82; 49; 48]; [82; 49; 49]; [82; 49; 50]; [82; 49; 51]; [82; 49; 52]; [82; 49; 53];
   [82; 73; 80]; [82; 70; 76; 65; 71; 83]].

(** The sixteen digits, filled from the right: [n] positions are left. *)
Definition hex_digit (d : Z) : Z := if d <? 10 then d + 48 else d + 65 - 10.
Fixpoint hex_loop (n : nat) (regValue : Z) (done : list Z) : list Z :=
  match n with
  | O => done
  | S n' => hex_loop n' (Z.shiftr regValue 4) (hex_digit (Z.land regValue 0xF) :: done)
  end.
Definition hex16 (regValue : Z) : list Z := hex_loop 16 regValue [].

(** ": 0x" *)
Definition video_printRegister (regName : list Z) (regValue : Z) : M video unit :=
  video_putString regName 0xFFFFFF 0x000000 ;;
  video_putString [58; 32; 48; 120] 0xFFFFFF 0x000000 ;;
  video_putString (hex16 regValue) 0xFFFFFF 0x000000 ;;
  video_newLine.

Fixpoint print_registers (names : list (list Z)) (values : list Z) : M video unit :=
  match names, values with
  | name :: names, v :: values => video_printRegister name v ;; print_registers names values
  | _, _ => mret tt
  end.
Definition video_printRegisters (exceptionRegisters : list Z) : M video unit :=
  print_registers regs exceptionRegisters.

Definition zero_division : M video unit := video_printError msg_zero ;; video_newLine.
Definition invalidOperation : M video unit := video_printError msg_invalid ;; video_newLine.

Definition exceptionDispatcher (exception : Z) (exceptionRegisters : list Z) : M video unit :=
  (if exception =? ZERO_EXCEPTION_ID then zero_division
   else if exception =? INVALID_OPCODE_ID then invalidOperation else mret tt) ;;
  video_newLine ;;
  video_printRegisters exceptionRegisters.
