(* ===== verification/KState.v ===== *)
(** * The state of the kernel

    The structures of include/process.h, the static variables of the scheduler,
    the semaphores, the pipes and the keyboard driver, and the devices, in one
    record.  The memory manager is a parameter of the record.

    A [process_t *] is the address of the control block, 0 is NULL; a block that
    is not in [k_procs] was never allocated or was freed, and reading it is a
    fault.  A [semaphore_t *] and a [pipe_t *] point into a static array: they
    are indices. *)
From S2P Require Import Prelude CLib MmInterface Video.

Definition PROCESS_NAME_MAX_LEN : Z := 32.
Definition PROCESS_KERNEL_STACK_SIZE : Z := 4 * 4096.
Definition PROCESS_PRIORITY_MIN : Z := 0.
Definition PROCESS_PRIORITY_MAX : Z := 2.
Definition PROCESS_PRIORITY_DEFAULT : Z := 1.
Definition MAX_FDS : Z := 16.
Definition MAX_PROCESS_INFO : Z := 64.

Inductive fd_type_t := FD_TYPE_TERMINAL | FD_TYPE_PIPE_READ | FD_TYPE_PIPE_WRITE.
#[export] Instance fd_type_eq_dec : EqDecision fd_type_t.
Proof. solve_decision. Defined.
Record fd_entry_t := mk_fd { fd_type : fd_type_t; fd_pipe : option nat }.

Inductive process_state_t :=
  | PROCESS_STATE_NEW | PROCESS_STATE_READY | PROCESS_STATE_RUNNING
  | PROCESS_STATE_BLOCKED | PROCESS_STATE_FINISHED.
#[export] Instance process_state_eq_dec : EqDecision process_state_t.
Proof. solve_decision. Defined.

(** [process_control_block]. *)
Record process_t := mk_process {
  p_pid : Z;
  p_name : list Z;
  p_state : process_state_t;
  p_priority : Z;
  p_base_priority : Z;
  p_wait_ticks : Z;
  p_rsp : Z;
  p_rbp : Z;
  p_kernel_stack_base : Z;
  p_kernel_stack_top : Z;
  p_user_stack_base : Z;
  p_user_stack_top : Z;
  p_entry_point : Z;
  p_entry_arg : Z;
  p_waiting_on_pid : Z;
  p_is_foreground : Z;
  p_parent : Z;
  p_first_child : Z;
  p_next_sibling : Z;
  p_prev_sibling : Z;
  p_queue_next : Z;
  p_queue_prev : Z;
  p_waiters_head : Z;
  p_waiter_next : Z;
  p_waiting_on_sem : Z;
  p_sem_waiter_next : Z;
  p_fds : list fd_entry_t }.
Definition eta_process (p : process_t) := mk_process (p_pid p) (p_name p) (p_state p) (p_priority p)
  (p_base_priority p) (p_wait_ticks p) (p_rsp p) (p_rbp p) (p_kernel_stack_base p) (p_kernel_stack_top p)
  (p_user_stack_base p) (p_user_stack_top p) (p_entry_point p) (p_entry_arg p) (p_waiting_on_pid p)
  (p_is_foreground p) (p_parent p) (p_first_child p) (p_next_sibling p) (p_prev_sibling p)
  (p_queue_next p) (p_queue_prev p) (p_waiters_head p) (p_waiter_next p) (p_waiting_on_sem p)
  (p_sem_waiter_next p) (p_fds p).
#[export] Instance set_p_pid : Setter p_pid := ltac:(build_setter eta_process p_pid).
#[export] Instance set_p_name : Setter p_name := ltac:(build_setter eta_process p_name).
#[export] Instance set_p_state : Setter p_state := ltac:(build_setter eta_process p_state).
#[export] Instance set_p_priority : Setter p_priority := ltac:(build_setter eta_process p_priority).
#[export] Instance set_p_base_priority : Setter p_base_priority := ltac:(build_setter eta_process p_base_priority).
#[export] Instance set_p_wait_ticks : Setter p_wait_ticks := ltac:(build_setter eta_process p_wait_ticks).
#[export] Instance set_p_rsp : Setter p_rsp := ltac:(build_setter eta_process p_rsp).
#[export] Instance set_p_rbp : Setter p_rbp := ltac:(build_setter eta_process p_rbp).
#[export] Instance set_p_kernel_stack_base : Setter p_kernel_stack_base := ltac:(build_setter eta_process p_kernel_stack_base).
#[export] Instance set_p_kernel_stack_top : Setter p_kernel_stack_top := ltac:(build_setter eta_process p_kernel_stack_top).
#[export] Instance set_p_user_stack_base : Setter p_user_stack_base := ltac:(build_setter eta_process p_user_stack_base).
#[export] Instance set_p_user_stack_top : Setter p_user_stack_top := ltac:(build_setter eta_process p_user_stack_top).
#[export] Instance set_p_entry_point : Setter p_entry_point := ltac:(build_setter eta_process p_entry_point).
#[export] Instance set_p_entry_arg : Setter p_entry_arg := ltac:(build_setter eta_process p_entry_arg).
#[export] Instance set_p_waiting_on_pid : Setter p_waiting_on_pid := ltac:(build_setter eta_process p_waiting_on_pid).
#[export] Instance set_p_is_foreground : Setter p_is_foreground := ltac:(build_setter eta_process p_is_foreground).
#[export] Instance set_p_parent : Setter p_parent := ltac:(build_setter eta_process p_parent).
#[export] Instance set_p_first_child : Setter p_first_child := ltac:(build_setter eta_process p_first_child).
#[export] Instance set_p_next_sibling : Setter p_next_sibling := ltac:(build_setter eta_process p_next_sibling).
#[export] Instance set_p_prev_sibling : Setter p_prev_sibling := ltac:(build_setter eta_process p_prev_sibling).
#[export] Instance set_p_queue_next : Setter p_queue_next := ltac:(build_setter eta_process p_queue_next).
#[export] Instance set_p_queue_prev : Setter p_queue_prev := ltac:(build_setter eta_process p_queue_prev).
#[export] Instance set_p_waiters_head : Setter p_waiters_head := ltac:(build_setter eta_process p_waiters_head).
#[export] Instance set_p_waiter_next : Setter p_waiter_next := ltac:(build_setter eta_process p_waiter_next).
#[export] Instance set_p_waiting_on_sem : Setter p_waiting_on_sem := ltac:(build_setter eta_process p_waiting_on_sem).
#[export] Instance set_p_sem_waiter_next : Setter p_sem_waiter_next := ltac:(build_setter eta_process p_sem_waiter_next).
#[export] Instance set_p_fds : Setter p_fds := ltac:(build_setter eta_process p_fds).

(** The size of the structure, its padding included. *)
Definition sizeof_process : Z := 480.
Definition fd_terminal : fd_entry_t := mk_fd FD_TYPE_TERMINAL None.
(** A control block after [memset]. *)
Definition zero_process : process_t :=
  mk_process 0 (replicate 33 0) PROCESS_STATE_NEW 0 0 0 0 0 0 0 0 0 0 0 0 0 0 0 0 0 0 0 0 0 0 0
    (replicate 16 fd_terminal).

Record process_queue_t := mk_queue { q_head : Z; q_tail : Z; q_size : Z }.
Definition empty_queue : process_queue_t := mk_queue 0 0 0.
(** The queues a [process_queue_t *] may point to. *)
Inductive qref := Ready (pr : Z) | Blocked | Finished.

(** The static variables of scheduler.c. *)
Record sched := mk_sched {
  need_resched : bool;
  ready_queues : list process_queue_t;
  blocked_q : process_queue_t;
  finished_q : process_queue_t;
  current : Z;
  idle_p : Z;
  last_switch_tick : Z }.
Definition eta_sched (c : sched) := mk_sched (need_resched c) (ready_queues c) (blocked_q c) (finished_q c)
  (current c) (idle_p c) (last_switch_tick c).
#[export] Instance set_need_resched : Setter need_resched := ltac:(build_setter eta_sched need_resched).
#[export] Instance set_ready_queues : Setter ready_queues := ltac:(build_setter eta_sched ready_queues).
#[export] Instance set_blocked_q : Setter blocked_q := ltac:(build_setter eta_sched blocked_q).
#[export] Instance set_finished_q : Setter finished_q := ltac:(build_setter eta_sched finished_q).
#[export] Instance set_current : Setter current := ltac:(build_setter eta_sched current).
#[export] Instance set_idle_p : Setter idle_p := ltac:(build_setter eta_sched idle_p).
#[export] Instance set_last_switch_tick : Setter last_switch_tick := ltac:(build_setter eta_sched last_switch_tick).

(** [semaphore_t]. *)
Record semaphore_t := mk_sem {
  sem_id : Z; sem_value : Z; sem_refcount : Z; sem_lock : Z;
  sem_wait_head : Z; sem_wait_tail : Z; sem_used : bool }.
Definition eta_sem (s : semaphore_t) := mk_sem (sem_id s) (sem_value s) (sem_refcount s) (sem_lock s)
  (sem_wait_head s) (sem_wait_tail s) (sem_used s).
#[export] Instance set_sem_id : Setter sem_id := ltac:(build_setter eta_sem sem_id).
#[export] Instance set_sem_value : Setter sem_value := ltac:(build_setter eta_sem sem_value).
#[export] Instance set_sem_refcount : Setter sem_refcount := ltac:(build_setter eta_sem sem_refcount).
#[export] Instance set_sem_lock : Setter sem_lock := ltac:(build_setter eta_sem sem_lock).
#[export] Instance set_sem_wait_head : Setter sem_wait_head := ltac:(build_setter eta_sem sem_wait_head).
#[export] Instance set_sem_wait_tail : Setter sem_wait_tail := ltac:(build_setter eta_sem sem_wait_tail).
#[export] Instance set_sem_used : Setter sem_used := ltac:(build_setter eta_sem sem_used).
Definition MAX_SEMAPHORES : Z := 64.
Definition zero_sem : semaphore_t := mk_sem 0 0 0 0 0 0 false.

(** [pipe_t]; the buffer is an array of 4096 characters that starts as zeros. *)
Record pipe_t := mk_pipe {
  pipe_id : Z; pipe_buffer : gmap Z Z; pipe_read_pos : Z; pipe_write_pos : Z; pipe_count : Z;
  pipe_readers : Z; pipe_writers : Z; pipe_sem_items : Z; pipe_sem_spaces : Z; pipe_mutex : Z; pipe_used : bool }.
Definition eta_pipe (p : pipe_t) := mk_pipe (pipe_id p) (pipe_buffer p) (pipe_read_pos p) (pipe_write_pos p)
  (pipe_count p) (pipe_readers p) (pipe_writers p) (pipe_sem_items p) (pipe_sem_spaces p) (pipe_mutex p) (pipe_used p).
#[export] Instance set_pipe_id : Setter pipe_id := ltac:(build_setter eta_pipe pipe_id).
#[export] Instance set_pipe_buffer : Setter pipe_buffer := ltac:(build_setter eta_pipe pipe_buffer).
#[export] Instance set_pipe_read_pos : Setter pipe_read_pos := ltac:(build_setter eta_pipe pipe_read_pos).
#[export] Instance set_pipe_write_pos : Setter pipe_write_pos := ltac:(build_setter eta_pipe pipe_write_pos).
#[export] Instance set_pipe_count : Setter pipe_count := ltac:(build_setter eta_pipe pipe_count).
#[export] Instance set_pipe_readers : Setter pipe_readers := ltac:(build_setter eta_pipe pipe_readers).
#[export] Instance set_pipe_writers : Setter pipe_writers := ltac:(build_setter eta_pipe pipe_writers).
#[export] Instance set_pipe_sem_items : Setter pipe_sem_items := ltac:(build_setter eta_pipe pipe_sem_items).
#[export] Instance set_pipe_sem_spaces : Setter pipe_sem_spaces := ltac:(build_setter eta_pipe pipe_sem_spaces).
#[export] Instance set_pipe_mutex : Setter pipe_mutex := ltac:(build_setter eta_pipe pipe_mutex).
#[export] Instance set_pipe_used : Setter pipe_used := ltac:(build_setter eta_pipe pipe_used).
Definition MAX_PIPES : Z := 64.
Definition PIPE_BUFFER_SIZE : Z := 4096.
Definition zero_pipe : pipe_t := mk_pipe 0 ∅ 0 0 0 0 0 0 0 0 false.

(** The static variables of keyBoardDriver.c; [TCircleBuffer] is the last four
    but one. *)
Record keyboard := mk_keyboard {
  activeShift : Z; activeCapsLock : Z; activeCtrl : Z; key_states : gmap Z Z;
  kb_buffer : gmap Z Z; kb_readIndex : Z; kb_writeIndex : Z; kb_size : Z; kbd_sem_id : Z }.
Definition eta_keyboard (k : keyboard) := mk_keyboard (activeShift k) (activeCapsLock k) (activeCtrl k)
  (key_states k) (kb_buffer k) (kb_readIndex k) (kb_writeIndex k) (kb_size k) (kbd_sem_id k).
#[export] Instance set_activeShift : Setter activeShift := ltac:(build_setter eta_keyboard activeShift).
#[export] Instance set_activeCapsLock : Setter activeCapsLock := ltac:(build_setter eta_keyboard activeCapsLock).
#[export] Instance set_activeCtrl : Setter activeCtrl := ltac:(build_setter eta_keyboard activeCtrl).
#[export] Instance set_key_states : Setter key_states := ltac:(build_setter eta_keyboard key_states).
#[export] Instance set_kb_buffer : Setter kb_buffer := ltac:(build_setter eta_keyboard kb_buffer).
#[export] Instance set_kb_readIndex : Setter kb_readIndex := ltac:(build_setter eta_keyboard kb_readIndex).
#[export] Instance set_kb_writeIndex : Setter kb_writeIndex := ltac:(build_setter eta_keyboard kb_writeIndex).
#[export] Instance set_kb_size : Setter kb_size := ltac:(build_setter eta_keyboard kb_size).
#[export] Instance set_kbd_sem_id : Setter kbd_sem_id := ltac:(build_setter eta_keyboard kbd_sem_id).

Section Kernel.
Context {MM : Type}.

Record kstate := mk_kstate {
  k_mm : MM;
  k_mem : memory;
  k_procs : gmap Z process_t;
  k_next_pid : Z;
  k_sched : sched;
  k_sems : list semaphore_t;
  k_next_sem_id : Z;
  k_pipes : list pipe_t;
  k_next_pipe_id : Z;
  k_kbd : keyboard;
  k_ticks : Z;
  k_video : video }.
Definition eta_kstate (s : kstate) := mk_kstate (k_mm s) (k_mem s) (k_procs s) (k_next_pid s) (k_sched s)
  (k_sems s) (k_next_sem_id s) (k_pipes s) (k_next_pipe_id s) (k_kbd s) (k_ticks s) (k_video s).
#[export] Instance set_k_mm : Setter k_mm := ltac:(build_setter eta_kstate k_mm).
#[export] Instance set_k_mem : Setter k_mem := ltac:(build_setter eta_kstate k_mem).
#[export] Instance set_k_procs : Setter k_procs := ltac:(build_setter eta_kstate k_procs).
#[export] Instance set_k_next_pid : Setter k_next_pid := ltac:(build_setter eta_kstate k_next_pid).
#[export] Instance set_k_sched : Setter k_sched := ltac:(build_setter eta_kstate k_sched).
#[export] Instance set_k_sems : Setter k_sems := ltac:(build_setter eta_kstate k_sems).
#[export] Instance set_k_next_sem_id : Setter k_next_sem_id := ltac:(build_setter eta_kstate k_next_sem_id).
#[export] Instance set_k_pipes : Setter k_pipes := ltac:(build_setter eta_kstate k_pipes).
#[export] Instance set_k_next_pipe_id : Setter k_next_pipe_id := ltac:(build_setter eta_kstate k_next_pipe_id).
#[export] Instance set_k_kbd : Setter k_kbd := ltac:(build_setter eta_kstate k_kbd).
#[export] Instance set_k_ticks : Setter k_ticks := ltac:(build_setter eta_kstate k_ticks).
#[export] Instance set_k_video : Setter k_video := ltac:(build_setter eta_kstate k_video).

(** The state at boot: the static variables as their initialisers give them. *)
Definition kernel_boot (m : MM) (mode : vbe_mode_info) : kstate :=
  mk_kstate m ∅ ∅ 1 (mk_sched false (replicate 3 empty_queue) empty_queue empty_queue 0 0 0)
    (replicate 64 zero_sem) 1 (replicate 64 zero_pipe) 1 (mk_keyboard 0 0 0 ∅ ∅ 0 0 0 0) 0 (video_boot mode).

Abbreviation K := (M kstate).

(** ** Access to the parts *)

(** [p->...]: a NULL or dangling pointer is undefined behaviour. *)
Definition pload (p : Z) : K process_t := gets_opt (fun s => k_procs s !! p).
Definition pstore (p : Z) (f : process_t -> process_t) : K unit :=
  _ ← pload p; modify (fun s => s <| k_procs ::= alter f p |>).

Definition gets_sched {A} (f : sched -> A) : K A := gets (fun s => f (k_sched s)).
Definition modify_sched (f : sched -> sched) : K unit := modify (fun s => s <| k_sched ::= f |>).

(** [*q] and [*q = ...]: an index of [ready_queues] out of bounds is undefined behaviour. *)
Definition q_load (q : qref) : K process_queue_t :=
  match q with
  | Ready pr => gets_opt (fun s => if pr <? 0 then None else ready_queues (k_sched s) !! Z.to_nat pr)
  | Blocked => gets_sched blocked_q
  | Finished => gets_sched finished_q
  end.
Definition q_store (q : qref) (v : process_queue_t) : K unit :=
  match q with
  | Ready pr => _ ← q_load q; modify_sched (fun c => c <| ready_queues ::= <[Z.to_nat pr := v]> |>)
  | Blocked => modify_sched (fun c => c <| blocked_q := v |>)
  | Finished => modify_sched (fun c => c <| finished_q := v |>)
  end.

Definition mload {A} (f : memory -> A) : K A := gets (fun s => f (k_mem s)).
Definition mstore (f : memory -> memory) : K unit := modify (fun s => s <| k_mem ::= f |>).

Definition on_mm {A} (m : M MM A) : K A := zoom k_mm (fun t s => s <| k_mm := t |>) m.
Definition on_video {A} (m : M video A) : K A := zoom k_video (fun t s => s <| k_video := t |>) m.

(** ** Time (src/Kernel/time/time.c) *)

Definition timer_handler : K unit := modify (fun s => s <| k_ticks ::= fun t => u64 (t + 1) |>).
(** An [int]. *)
Definition ticks_elapsed : K Z := gets (fun s => i32 (k_ticks s)).
Definition seconds_elapsed : K Z := gets (fun s => i32 (k_ticks s / 18)).
End Kernel.
Arguments kstate : clear implicits.
Abbreviation K st := (M (kstate st)).
