(* ===== verification/ProcQueue.v ===== *)
(** * Process queues (src/Kernel/proc/process.c)

    A queue is a doubly linked list through the fields [queue_next] and
    [queue_prev] of the control blocks, with its head, tail and length. *)
From S2P Require Import Prelude KState.

Section ProcQueue.
Context {MM : Type}.
Abbreviation K := (M (kstate MM)).

Definition process_queue_init (q : qref) : K unit := q_store q empty_queue.

(** The walk of [detach_from_queue] along the queue; a walk that is longer than
    the number of control blocks goes round a cycle. *)
Definition find_step (p it : Z) : K (Z + bool) :=
  if it =? 0 then mret (inr false) else
  if it =? p then mret (inr true) else
  b ← pload it; mret (inl (p_queue_next b)).

Definition detach_from_queue (q : qref) (p : Z) : K unit :=
  if p =? 0 then mret tt else
  n ← gets (fun s => size (k_procs s));
  h ← q_load q;
  found ← while_fuel (S (S n)) (find_step p) (q_head h);
  if negb found then mret tt else
  b ← pload p;
  (if ctrue (p_queue_prev b)
   then pstore (p_queue_prev b) (fun x => x <| p_queue_next := p_queue_next b |>)
   else h ← q_load q; q_store q (mk_queue (p_queue_next b) (q_tail h) (q_size h))) ;;
  b ← pload p;
  (if ctrue (p_queue_next b)
   then pstore (p_queue_next b) (fun x => x <| p_queue_prev := p_queue_prev b |>)
   else h ← q_load q; q_store q (mk_queue (q_head h) (p_queue_prev b) (q_size h))) ;;
  h ← q_load q;
  when (ctrue (q_size h)) (q_store q (mk_queue (q_head h) (q_tail h) (u64 (q_size h - 1)))) ;;
  pstore p (fun x => x <| p_queue_next := 0 |>) ;;
  pstore p (fun x => x <| p_queue_prev := 0 |>).

Definition process_queue_remove (q : qref) (p : Z) : K unit := detach_from_queue q p.

(** The rest of [process_queue_push], once the process is in no queue. *)
Definition link_last (q : qref) (p : Z) : K unit :=
  h ← q_load q;
  if q_head h =? 0 then
    q_store q (mk_queue p p (q_size h)) ;;
    pstore p (fun x => x <| p_queue_prev := 0 |> <| p_queue_next := 0 |>) ;;
    q_store q (mk_queue p p 1)
  else
    pstore p (fun x => x <| p_queue_prev := q_tail h |>) ;;
    pstore p (fun x => x <| p_queue_next := 0 |>) ;;
    pstore (q_tail h) (fun x => x <| p_queue_next := p |>) ;;
    h ← q_load q;
    q_store q (mk_queue (q_head h) p (u64 (q_size h + 1))).

Definition process_queue_push (q : qref) (p : Z) : K unit :=
  if p =? 0 then mret tt else
  b ← pload p;
  h ← q_load q;
  when (ctrue (p_queue_next b) || ctrue (p_queue_prev b) || (q_head h =? p)) (detach_from_queue q p) ;;
  link_last q p.

Definition process_queue_pop (q : qref) : K Z :=
  h ← q_load q;
  if q_head h =? 0 then mret 0 else
  let first := q_head h in
  detach_from_queue q first ;;
  mret first.

Definition process_queue_is_empty (q : qref) : K bool :=
  h ← q_load q; mret (q_head h =? 0).
End ProcQueue.
