(* ===== verification/SchedCore.v ===== *)
(** * The scheduler as the semaphores use it (src/Kernel/proc/scheduler.c)

    The run queues, blocking and waking up.  The operations that destroy
    processes are in [Scheduler], after the pipes they close. *)
From S2P Require Import Prelude KState ProcQueue.

Definition QUANTUM_TICKS : Z := 8.
Definition MAX_FINISHED_COLLECT : Z := 4.
Definition AGING_THRESHOLD : Z := 200.
Definition AGING_BOOST : Z := 1.

(** [static uint8_t clamp_priority(uint8_t pr)]. *)
Definition clamp_priority (pr : Z) : Z :=
  let pr := u8 pr in
  if pr >? PROCESS_PRIORITY_MAX then PROCESS_PRIORITY_MAX else pr.

Section SchedCore.
Context {MM : Type}.
Abbreviation K := (M (kstate MM)).

Definition ready_queue_push (p : Z) : K unit :=
  if p =? 0 then mret tt else
  b ← pload p;
  pstore p (fun x => x <| p_priority := clamp_priority (p_priority b) |>) ;;
  b ← pload p;
  process_queue_push (Ready (p_priority b)) p.

(** [for (pr = PROCESS_PRIORITY_MAX; pr >= PROCESS_PRIORITY_MIN; --pr)]: the
    priorities that are left, highest first. *)
Fixpoint pop_highest (prs : list Z) : K Z :=
  match prs with
  | [] => mret 0
  | pr :: prs => p ← process_queue_pop (Ready pr); if ctrue p then mret p else pop_highest prs
  end.
Definition priorities_down : list Z := [2; 1; 0].
Definition ready_queue_pop_highest : K Z := pop_highest priorities_down.

Definition scheduler_current_process : K Z := gets_sched current.

Definition scheduler_add_process (p : Z) : K unit :=
  idle ← gets_sched idle_p;
  if (p =? 0) || (p =? idle) then mret tt else
  pstore p (fun x => x <| p_state := PROCESS_STATE_READY |>) ;;
  ready_queue_push p.

Definition scheduler_block_current : K unit :=
  c ← gets_sched current;
  idle ← gets_sched idle_p;
  if (c =? 0) || (c =? idle) then mret tt else
  pstore c (fun x => x <| p_state := PROCESS_STATE_BLOCKED |>) ;;
  modify_sched (fun d => d <| need_resched := true |>).

(** [callTimerTick] is [int 20h]: the handler of the timer runs, and the
    process goes on when it is scheduled again. *)
Definition scheduler_yield_current : K unit :=
  c ← gets_sched current;
  idle ← gets_sched idle_p;
  if (c =? 0) || (c =? idle) then mret tt else
  t ← ticks_elapsed;
  modify_sched (fun d => d <| last_switch_tick := u64 (i32 (t - QUANTUM_TICKS)) |>) ;;
  suspend TimerTick.

(** [if (current && p->priority > current->priority) need_resched = 1;] *)
Definition resched_if_higher (p : Z) : K unit :=
  c ← gets_sched current;
  if c =? 0 then mret tt else
  b ← pload p;
  bc ← pload c;
  when (p_priority b >? p_priority bc) (modify_sched (fun d => d <| need_resched := true |>)).

Definition scheduler_unblock_process (p : Z) : K unit :=
  if p =? 0 then mret tt else
  b ← pload p;
  when (bool_decide (p_state b = PROCESS_STATE_BLOCKED)) (process_queue_remove Blocked p) ;;
  pstore p (fun x => x <| p_state := PROCESS_STATE_READY |>) ;;
  ready_queue_push p ;;
  resched_if_higher p.
End SchedCore.
