(* ===== verification/QueueFacts.v ===== *)
(** * The queues of the scheduler are lists

    [q_wf s q l]: in the state [s] the queue [q] is a doubly linked list of the
    processes [l].  The operations of [ProcQueue] act on [l] as on a list and
    change nothing but the links ([strip]).  [queues s L] says so of all the
    queues at once: [q] holds [L q], and no process is in two of them. *)
From S2P Require Import Prelude LinkedList KState ProcQueue.

#[export] Instance qref_eq_dec : EqDecision qref.
Proof. solve_decision. Defined.

(** ** Views *)

Section Views.
Context {MM : Type}.
Implicit Types (s : kstate MM) (q : qref) (l : list Z).

Definition links (b : process_t) : Z * Z := (p_queue_prev b, p_queue_next b).
Definition qv s (p : Z) : option (Z * Z) := links <$> k_procs s !! p.
Definition queue_of s q : option process_queue_t :=
  match q with
  | Ready pr => if pr <? 0 then None else ready_queues (k_sched s) !! Z.to_nat pr
  | Blocked => Some (blocked_q (k_sched s))
  | Finished => Some (finished_q (k_sched s))
  end.
Definition set_queue q (v : process_queue_t) s : kstate MM :=
  match q with
  | Ready pr => s <| k_sched ::= fun c => c <| ready_queues ::= <[Z.to_nat pr := v]> |> |>
  | Blocked => s <| k_sched ::= fun c => c <| blocked_q := v |> |>
  | Finished => s <| k_sched ::= fun c => c <| finished_q := v |> |>
  end.

Definition unlinked (b : process_t) : process_t := b <| p_queue_next := 0 |> <| p_queue_prev := 0 |>.
(** The state without the links and the queues. *)
Definition strip s : kstate MM :=
  s <| k_procs ::= fmap unlinked |>
    <| k_sched ::= fun c => c <| ready_queues := [] |> <| blocked_q := empty_queue |> <| finished_q := empty_queue |> |>.

Definition q_wf s q l : Prop :=
  exists h, queue_of s q = Some h /\ q_head h = first 0 l /\ q_tail h = final 0 l /\
    q_size h = Z.of_nat (length l) /\ NoDup (0 :: l) /\ dll (qv s) 0 l 0.

(** ** Elementary steps *)

Lemma runs_pload s p b (Q : process_t -> kstate MM -> Prop) :
  k_procs s !! p = Some b -> Q b s -> runs (pload p) s Q.
Proof. intros E HQ. by eapply runs_gets_opt. Qed.

Lemma runs_pstore s p b f (Q : unit -> kstate MM -> Prop) :
  k_procs s !! p = Some b -> Q tt (s <| k_procs ::= alter f p |>) -> runs (pstore p f) s Q.
Proof. intros E HQ. apply runs_bind. eapply runs_pload; [done|]. by apply runs_modify. Qed.

Lemma runs_q_load s q h (Q : process_queue_t -> kstate MM -> Prop) :
  queue_of s q = Some h -> Q h s -> runs (q_load q) s Q.
Proof.
  intros E HQ. destruct q; simpl in *; [by eapply runs_gets_opt| |]; injection E as <-; by apply runs_gets.
Qed.

Lemma runs_q_store s q h v (Q : unit -> kstate MM -> Prop) :
  queue_of s q = Some h -> Q tt (set_queue q v s) -> runs (q_store q v) s Q.
Proof.
  intros E HQ. destruct q as [pr| |]; [|by apply runs_modify..].
  apply runs_bind. apply (runs_q_load _ (Ready pr) _ _ E). by apply runs_modify.
Qed.

Lemma queue_of_set s q h v q' :
  queue_of s q = Some h -> queue_of (set_queue q v s) q' = if decide (q' = q) then Some v else queue_of s q'.
Proof.
  intros E. destruct q as [pr| |], q' as [pr'| |]; simpl in *; try done.
  destruct (Z.ltb_spec pr 0); [done|]. destruct (Z.ltb_spec pr' 0).
  - by rewrite decide_False by (intros [= ->]; lia).
  - destruct (decide (pr' = pr)) as [->|Hne].
    + rewrite decide_True by done. apply list_lookup_insert_eq. by apply lookup_lt_Some in E.
    + rewrite decide_False by congruence. apply list_lookup_insert_ne. lia.
Qed.

Lemma k_procs_set_queue s q v : k_procs (set_queue q v s) = k_procs s.
Proof. by destruct q. Qed.
Lemma strip_set_queue s q v : strip (set_queue q v s) = strip s.
Proof. by destruct q. Qed.

Lemma strip_alter s p f :
  (forall b, unlinked (f b) = unlinked b) -> strip (s <| k_procs ::= alter f p |>) = strip s.
Proof.
  intros Hf. unfold strip. cbn. f_equal. unfold set_k_procs. f_equal.
  apply map_eq. intros x. rewrite !lookup_fmap. cbn. destruct (decide (x = p)) as [->|].
  - rewrite lookup_alter_eq. destruct (k_procs s !! p); simpl; [by rewrite Hf|done].
  - by rewrite lookup_alter_ne.
Qed.

Lemma strip_proc s s' p b :
  strip s' = strip s -> k_procs s !! p = Some b -> exists b', k_procs s' !! p = Some b' /\ unlinked b' = unlinked b.
Proof.
  intros E Hb. apply (f_equal (fun s => k_procs s !! p)) in E. cbn in E.
  rewrite !lookup_fmap, Hb in E. simpl in E. by apply fmap_Some in E as (b' & -> & ->); eauto.
Qed.

Lemma strip_size s s' : strip s' = strip s -> size (k_procs s') = size (k_procs s).
Proof.
  intros E. apply (f_equal (fun s => size (k_procs s))) in E. cbn in E.
  by rewrite !map_size_fmap in E.
Qed.

Lemma qv_alter s p f x :
  qv (s <| k_procs ::= alter f p |>) x = if decide (x = p) then links <$> (f <$> k_procs s !! p) else qv s x.
Proof.
  unfold qv. cbn. case_decide as E; [subst; by rewrite lookup_alter_eq|by rewrite lookup_alter_ne].
Qed.

Lemma qv_proc s p v : qv s p = Some v -> exists b, k_procs s !! p = Some b /\ links b = v.
Proof. intros (b & E & ->)%fmap_Some. eauto. Qed.

(** ** One step of a change of the queue [q] *)

(** The links are [lk], the queue [q] is [h], the others and the rest are as in [s]. *)
Record chg s q s' (lk : Z -> option (Z * Z)) (h : process_queue_t) : Prop := {
  chg_links : pointwise_relation Z eq (qv s') lk;
  chg_queue : queue_of s' q = Some h;
  chg_other : forall q', q' <> q -> queue_of s' q' = queue_of s q';
  chg_strip : strip s' = strip s }.

Lemma chg_start s q h : queue_of s q = Some h -> chg s q s (qv s) h.
Proof. intros E. by split. Qed.

Lemma chg_set_queue s q s' lk h v : chg s q s' lk h -> chg s q (set_queue q v s') lk v.
Proof.
  intros [H1 H2 H3 H4]. split.
  - intros p. rewrite <- H1. unfold qv. by rewrite k_procs_set_queue.
  - by rewrite (queue_of_set _ _ h), decide_True.
  - intros q' Hq'. rewrite (queue_of_set _ _ h), decide_False by done. by apply H3.
  - by rewrite strip_set_queue.
Qed.

Section Chg.
Context (s s' : kstate MM) (q : qref) (lk : Z -> option (Z * Z)) (h : process_queue_t).
Context {B : Type} (Q : B -> kstate MM -> Prop) (C : chg s q s' lk h).

Lemma chg_proc p v : lk p = Some v -> exists b, k_procs s' !! p = Some b /\ links b = v.
Proof. intros E. apply qv_proc. by rewrite (chg_links _ _ _ _ _ C). Qed.

Lemma chg_load p x y (k : process_t -> M (kstate MM) B) :
  lk p = Some (x, y) -> (forall b, p_queue_prev b = x -> p_queue_next b = y -> runs (k b) s' Q) ->
  runs (pload p ≫= k) s' Q.
Proof.
  intros E Hk. destruct (chg_proc _ _ E) as (b & Eb & El). injection El as E1 E2.
  apply runs_bind. eapply runs_pload; [done|]. by apply Hk.
Qed.

Lemma chg_store p v f lk' (k : unit -> M (kstate MM) B) :
  lk p = Some v -> (forall b, unlinked (f b) = unlinked b) ->
  (forall x, (if decide (x = p) then (fun b => links (f b)) <$> k_procs s' !! p else qv s' x) = lk' x) ->
  (forall t, chg s q t lk' h -> runs (k tt) t Q) -> runs (pstore p f ≫= k) s' Q.
Proof.
  intros E Hf Hlk Hk. destruct (chg_proc _ _ E) as (b & Eb & El).
  apply runs_bind. eapply runs_pstore; [done|]. apply Hk. destruct C as [H1 H2 H3 H4]. split.
  - intros x. rewrite <- Hlk, qv_alter. case_decide; [|done]. by rewrite Eb.
  - exact H2.
  - exact H3.
  - by rewrite strip_alter.
Qed.

Lemma chg_set_next p v n (k : unit -> M (kstate MM) B) :
  lk p = Some v -> (forall t, chg s q t (set_next lk p n) h -> runs (k tt) t Q) ->
  runs (pstore p (fun x => x <| p_queue_next := n |>) ≫= k) s' Q.
Proof.
  intros E. apply (chg_store p v); [done|done|]. intros x. unfold set_next.
  rewrite <- (chg_links _ _ _ _ _ C). case_decide; [|done]. subst. unfold qv. by destruct (k_procs s' !! p).
Qed.

Lemma chg_set_prev p v n (k : unit -> M (kstate MM) B) :
  lk p = Some v -> (forall t, chg s q t (set_prev lk p n) h -> runs (k tt) t Q) ->
  runs (pstore p (fun x => x <| p_queue_prev := n |>) ≫= k) s' Q.
Proof.
  intros E. apply (chg_store p v); [done|done|]. intros x. unfold set_prev.
  rewrite <- (chg_links _ _ _ _ _ C). case_decide; [|done]. subst. unfold qv. by destruct (k_procs s' !! p).
Qed.

Lemma chg_q_load (k : process_queue_t -> M (kstate MM) B) : runs (k h) s' Q -> runs (q_load q ≫= k) s' Q.
Proof. intros Hk. apply runs_bind. eapply runs_q_load; [apply C|done]. Qed.

Lemma chg_q_store v (k : unit -> M (kstate MM) B) :
  (forall t, chg s q t lk v -> runs (k tt) t Q) -> runs (q_store q v ≫= k) s' Q.
Proof.
  intros Hk. apply runs_bind. eapply runs_q_store; [apply C|]. apply Hk. by eapply chg_set_queue.
Qed.
End Chg.
End Views.

(** ** Push, pop and remove *)

Section Ops.
Context {MM : Type}.
Implicit Types (s : kstate MM) (q : qref) (l : list Z).

Lemma final_zero l : 0 ∉ l -> (final 0 l = 0 <-> l = []).
Proof.
  intros H. split; [|by intros ->]. intros E. destruct l as [|x l _] using rev_ind; [done|].
  rewrite final_snoc in E. subst. destruct H. apply elem_of_app. right. by left.
Qed.
Lemma first_zero l : 0 ∉ l -> (first 0 l = 0 <-> l = []).
Proof. intros H. split; [|by intros ->]. destruct l; [done|]. intros E. destruct H. rewrite <- E. by left. Qed.

Lemma chg_fix_next {B} (Q : B -> kstate MM -> Prop) s s' q lk h l1 n (k : unit -> M (kstate MM) B) :
  chg s q s' lk h -> 0 ∉ l1 -> (forall x, x ∈ l1 -> is_Some (lk x)) ->
  (forall t h', chg s q t (relink_next lk l1 n) h' ->
     q_head h' = (match l1 with [] => n | _ => q_head h end) -> q_tail h' = q_tail h -> q_size h' = q_size h ->
     runs (k tt) t Q) ->
  runs ((if ctrue (final 0 l1)
         then pstore (final 0 l1) (fun x => x <| p_queue_next := n |>)
         else h ← q_load q; q_store q (mk_queue n (q_tail h) (q_size h))) ≫= k) s' Q.
Proof.
  intros C H0 Hl Hk. unfold ctrue. destruct (Z.eqb_spec (final 0 l1) 0) as [E|E]; cbn [negb].
  - apply final_zero in E; [|done]. subst. apply runs_bind, (chg_q_load _ _ _ _ _ _ C).
    apply runs_bind_ret, (chg_q_store _ _ _ _ _ _ C). intros t Ct. apply runs_ret. by eapply Hk.
  - assert (l1 <> []) as Hne by (intros ->; done). destruct (Hl _ (final_elem 0 l1 Hne)) as [v Hv].
    apply (chg_set_next _ _ _ _ _ _ C _ _ _ _ Hv). intros t Ct.
    eapply (Hk t h); [|by destruct l1|done|done].
    unfold relink_next. destruct l1 as [|x l1 _] using rev_ind; [done|].
    rewrite last_snoc. by rewrite final_snoc in Ct.
Qed.

Lemma chg_fix_prev {B} (Q : B -> kstate MM -> Prop) s s' q lk h l2 n (k : unit -> M (kstate MM) B) :
  chg s q s' lk h -> 0 ∉ l2 -> (forall x, x ∈ l2 -> is_Some (lk x)) ->
  (forall t h', chg s q t (relink_prev lk l2 n) h' ->
     q_tail h' = (match l2 with [] => n | _ => q_tail h end) -> q_head h' = q_head h -> q_size h' = q_size h ->
     runs (k tt) t Q) ->
  runs ((if ctrue (first 0 l2)
         then pstore (first 0 l2) (fun x => x <| p_queue_prev := n |>)
         else h ← q_load q; q_store q (mk_queue (q_head h) n (q_size h))) ≫= k) s' Q.
Proof.
  intros C H0 Hl Hk. unfold ctrue. destruct (Z.eqb_spec (first 0 l2) 0) as [E|E]; cbn [negb].
  - apply first_zero in E; [|done]. subst. apply runs_bind, (chg_q_load _ _ _ _ _ _ C).
    apply runs_bind_ret, (chg_q_store _ _ _ _ _ _ C). intros t Ct. apply runs_ret. by eapply Hk.
  - destruct l2 as [|x l2]; [done|]. destruct (Hl x ltac:(by left)) as [v Hv].
    apply (chg_set_prev _ _ _ _ _ _ C _ _ _ _ Hv). intros t Ct. by eapply (Hk t h).
Qed.

(** The walk of [detach_from_queue]. *)
Lemma find_loop s q l p l2 : forall l1 fuel (Q : bool -> kstate MM -> Prop),
  q_wf s q l -> l = l1 ++ l2 -> (length l2 < fuel)%nat -> Q (bool_decide (p ∈ l2)) s -> p <> 0 ->
  runs (while_fuel fuel (find_step p) (first 0 l2)) s Q.
Proof.
  induction l2 as [|x l2 IH]; intros l1 fuel Q H E Hf HQ Hp; (destruct fuel as [|n]; [simpl in *; lia|]).
  - apply runs_bind, runs_ret, runs_ret. by rewrite bool_decide_false in HQ by (by intros ?%elem_of_nil).
  - pose proof H as (h & _ & _ & _ & _ & [H0 _]%NoDup_cons & Hd). cbn [while_fuel].
    assert (x <> 0) as Hx by (intros ->; apply H0; rewrite E, elem_of_app; right; by left).
    change (first 0 (x :: l2)) with x. apply runs_bind. unfold find_step.
    rewrite (proj2 (Z.eqb_neq x 0) Hx). destruct (Z.eqb_spec x p) as [->|Hne].
    + apply runs_ret, runs_ret. by rewrite bool_decide_true in HQ by by left.
    + pose proof (dll_lookup _ _ _ _ l1 x l2 Hd E) as Hl.
      destruct (qv_proc _ _ _ Hl) as (b & Eb & El). injection El as _ En.
      apply runs_bind. eapply runs_pload; [done|]. apply runs_ret. rewrite En.
      eapply (IH (l1 ++ [x])); [done|by rewrite <- app_assoc|simpl in Hf; lia| |done].
      replace (bool_decide (p ∈ l2)) with (bool_decide (p ∈ x :: l2)); [done|].
      apply bool_decide_ext. rewrite elem_of_cons. split; [by intros [->|?]|by right].
Qed.

Lemma q_wf_bound s q l : q_wf s q l -> (length l <= size (k_procs s))%nat.
Proof.
  intros (h & _ & _ & _ & _ & [_ Hn]%NoDup_cons & Hd). apply length_le_size; [done|].
  intros x Hx. destruct (dll_defined _ _ _ _ _ Hd Hx) as [v Hv].
  destruct (qv_proc _ _ _ Hv) as (b & Eb & _). by eexists.
Qed.

Lemma find_spec s q l p {B} (k : bool -> M (kstate MM) B) (Q : B -> kstate MM -> Prop) h :
  q_wf s q l -> queue_of s q = Some h -> p <> 0 -> runs (k (bool_decide (p ∈ l))) s Q ->
  runs (while_fuel (S (S (size (k_procs s)))) (find_step p) (q_head h) ≫= k) s Q.
Proof.
  intros H Eh Hp Hk. pose proof (q_wf_bound _ _ _ H). pose proof H as (h' & Eh' & Hh & _).
  rewrite Eh in Eh'. injection Eh' as <-. rewrite Hh.
  apply runs_bind, (find_loop s q l p l []); [done|done|lia|done|done].
Qed.

(** What an operation on [q] leaves: [q] holds [l'], [ps] are out of the queue. *)
Definition moved s s' q l' (p : Z) (v : Z * Z) : Prop :=
  q_wf s' q l' /\ (p ∉ l' -> qv s' p = Some v) /\
  (forall x, x ∉ l' -> x <> p -> qv s' x = qv s x) /\
  (forall q', q' <> q -> queue_of s' q' = queue_of s q') /\ strip s' = strip s.

Lemma detach_spec s q l1 p l2 (Q : unit -> kstate MM -> Prop) :
  q_wf s q (l1 ++ p :: l2) -> Z.of_nat (length (l1 ++ p :: l2)) < 2 ^ 64 ->
  (forall s', moved s s' q (l1 ++ l2) p (0, 0) -> Q tt s') ->
  runs (detach_from_queue q p) s Q.
Proof.
  intros H Hlen HQ. pose proof H as (h & Eh & Hh & Ht & Hs & [H0 Hn]%NoDup_cons & Hd).
  assert (p <> 0) as Hp by (intros ->; apply H0; rewrite elem_of_app; right; by left).
  unfold detach_from_queue. rewrite (proj2 (Z.eqb_neq p 0) Hp). apply runs_bind, runs_gets.
  pose proof (chg_start s q h Eh) as C0. apply (chg_q_load _ _ _ _ _ _ C0).
  apply (find_spec s q _ p _ _ h H Eh Hp). rewrite bool_decide_true by (rewrite elem_of_app; right; by left). cbn [negb].
  pose proof (dll_lookup _ _ _ _ l1 p l2 Hd eq_refl) as Lp.
  apply (chg_load _ _ _ _ _ _ C0 _ _ _ _ Lp). intros b Bp Bn. rewrite Bp, Bn.
  apply not_elem_of_app in H0 as [H01 [_ H02]%not_elem_of_cons].
  pose proof Hn as (Hn1 & Hdis & [Hp2 Hn2]%NoDup_cons)%NoDup_app.
  assert (p ∉ l1) as Hp1 by (intros Hx; apply (Hdis _ Hx); by left).
  assert (forall x, x ∈ l1 ++ l2 -> is_Some (qv s x)) as Hdef.
  { intros x Hx. eapply dll_defined; [exact Hd|]. rewrite elem_of_app, elem_of_cons. apply elem_of_app in Hx. tauto. }
  eapply (chg_fix_next _ _ _ _ _ _ l1 (first 0 l2) _ C0 H01).
  { intros x Hx. apply Hdef. rewrite elem_of_app. tauto. }
  intros s1 h1 C1 Eh1 Et1 Es1.
  eapply (chg_load _ _ _ _ _ _ C1 p); [by rewrite relink_next_other|]. intros b1 B1p B1n. rewrite B1p, B1n.
  eapply (chg_fix_prev _ _ _ _ _ _ l2 (final 0 l1) _ C1 H02).
  { intros x Hx. rewrite relink_next_other; [apply Hdef; rewrite elem_of_app; tauto|].
    intros Hx'. apply (Hdis _ Hx'). by right. }
  intros s2 h2 C2 Et2 Eh2 Es2.
  set (lk := relink_prev (relink_next (qv s) l1 (first 0 l2)) l2 (final 0 l1)) in *.
  assert (p ∉ l1 ++ l2) as Hp12 by (rewrite elem_of_app; tauto).
  assert (lk p = qv s p) as Elp by (unfold lk; by rewrite relink_prev_other, relink_next_other).
  apply (chg_q_load _ _ _ _ _ _ C2). rewrite Es2, Es1, Hs. unfold ctrue. rewrite length_app, length_cons in *.
  rewrite (proj2 (Z.eqb_neq _ 0)) by lia. cbn [negb when].
  apply (chg_q_store _ _ _ _ _ _ C2). intros s3 C3.
  apply (chg_set_next _ _ _ _ _ _ C3 p (final 0 l1, first 0 l2)); [by rewrite Elp|]. intros s4 C4.
  eapply runs_bind_ret, (chg_set_prev _ _ _ _ _ _ C4 p).
  { unfold set_next. by rewrite decide_True, Elp, Lp by done. }
  intros s5 [L5 Q5 O5 S5]. apply runs_ret, HQ.
  assert (forall x, x <> p -> qv s5 x = lk x) as L5'.
  { intros x Hx. rewrite L5. unfold set_prev, set_next. by rewrite !decide_False by done. }
  split; [|split; [|split; [|done]]].
  - eexists. split; [exact Q5|]. cbn. rewrite Eh2, Eh1, Et2, Et1. split; [|split; [|split; [|split]]].
    + rewrite first_app. destruct l1; [done|]. rewrite Hh. done.
    + rewrite final_app. destruct l2 as [|y l2 _] using rev_ind; [done|].
      rewrite Ht, app_comm_cons, app_assoc, !final_snoc. by destruct l2.
    + rewrite wrap_small by lia. rewrite length_app. lia.
    + apply NoDup_cons. split; [rewrite elem_of_app; tauto|]. apply NoDup_app. split; [done|]. split; [|done].
      intros x Hx1 Hx2. apply (Hdis x Hx1). by right.
    + pose proof (dll_remove (qv s) l1 p l2 0 0 Hn Hd) as Hr. eapply dll_ext; [exact Hr|].
      intros x Hx. apply L5'. by intros ->.
  - intros _. rewrite L5. unfold set_prev, set_next. by rewrite !decide_True, Elp, Lp by done.
  - intros x Hx Hxp. rewrite L5' by done. unfold lk. apply not_elem_of_app in Hx as [Hx1 Hx2].
    by rewrite relink_prev_other, relink_next_other.
Qed.

Lemma detach_absent_spec s q l p (Q : unit -> kstate MM -> Prop) :
  q_wf s q l -> p ∉ l -> Q tt s -> runs (detach_from_queue q p) s Q.
Proof.
  intros H Hp HQ. unfold detach_from_queue. destruct (Z.eqb_spec p 0) as [|H0]; [by apply runs_ret|].
  pose proof H as (h & Eh & _). apply runs_bind, runs_gets.
  apply (chg_q_load _ _ _ _ _ _ (chg_start s q h Eh)).
  apply (find_spec s q _ p _ _ h H Eh H0). rewrite bool_decide_false by done. by apply runs_ret.
Qed.

Lemma link_last_spec s q l p (Q : unit -> kstate MM -> Prop) :
  q_wf s q l -> Z.of_nat (length l) < 2 ^ 64 - 1 -> p <> 0 -> p ∉ l -> qv s p = Some (0, 0) ->
  (forall s', moved s s' q (l ++ [p]) p (0, 0) -> Q tt s') ->
  runs (link_last q p) s Q.
Proof.
  intros H Hlen Hp0 Hp Hv HQ. pose proof H as (h & Eh & Hh & Ht & Hs & [H0 Hn]%NoDup_cons & Hd).
  pose proof (chg_start s q h Eh) as C0. unfold link_last. apply (chg_q_load _ _ _ _ _ _ C0).
  assert (NoDup (l ++ [p])) as Hnd.
  { apply NoDup_app. split; [done|]. split; [|apply NoDup_singleton].
    intros x Hx ->%list_elem_of_singleton. done. }
  assert (0 ∉ l ++ [p]) as H0'.
  { rewrite elem_of_app, list_elem_of_singleton. intros [?|?]; [done|congruence]. }
  rewrite Hh. destruct (Z.eqb_spec (first 0 l) 0) as [E|E].
  - apply first_zero in E; [|done]. subst l.
    apply (chg_q_store _ _ _ _ _ _ C0). intros s1 C1.
    apply (chg_store _ _ _ _ _ _ C1 p _ _ (qv s) _ Hv); [done| |].
    { intros x. rewrite <- (chg_links _ _ _ _ _ C1). case_decide; [|done]. subst.
      destruct (chg_proc _ _ _ _ _ C1 _ _ Hv) as (b1 & E1 & El). rewrite (chg_links _ _ _ _ _ C1), Hv, E1. done. }
    intros s2 C2. apply runs_bind_ret, (chg_q_store _ _ _ _ _ _ C2). intros s3 [L3 Q3 O3 S3].
    apply runs_ret, HQ. split; [|split; [|split; [|done]]].
    + eexists. split; [exact Q3|]. split; [done|]. split; [done|]. split; [done|].
      split; [by apply NoDup_cons|]. split; [|done]. by rewrite L3.
    + intros []. by left.
    + intros x _ _. by rewrite L3.
  - assert (l <> []) as Hne by (intros ->; done).
    apply (chg_set_prev _ _ _ _ _ _ C0 p _ _ _ Hv). intros s1 C1.
    eapply (chg_set_next _ _ _ _ _ _ C1 p).
    { unfold LinkedList.set_prev. rewrite decide_True by done. by rewrite Hv. }
    intros s2 C2.
    assert (final 0 l ∈ l) as Hf by (by apply final_elem).
    destruct (dll_defined _ _ _ _ _ Hd Hf) as [vf Evf].
    assert (final 0 l <> p) as Hfp by (intros E'; apply Hp; by rewrite <- E').
    rewrite Ht. eapply (chg_set_next _ _ _ _ _ _ C2 (final 0 l)).
    { unfold LinkedList.set_next, LinkedList.set_prev. rewrite !decide_False by done. exact Evf. }
    intros s3 C3. apply (chg_q_load _ _ _ _ _ _ C3), runs_bind_ret, (chg_q_store _ _ _ _ _ _ C3).
    intros s4 [L4 Q4 O4 S4]. apply runs_ret, HQ.
    set (lk := LinkedList.set_next (LinkedList.set_prev (qv s) p (final 0 l)) p 0) in *.
    assert (lk p = Some (final 0 l, 0)) as Elk.
    { unfold lk, LinkedList.set_next, LinkedList.set_prev. by rewrite !decide_True, Hv by done. }
    assert (forall x, x <> p -> lk x = qv s x) as Elk'.
    { intros x Hx. unfold lk, LinkedList.set_next, LinkedList.set_prev. by rewrite !decide_False by done. }
    split; [|split; [|split; [|done]]].
    + eexists. split; [exact Q4|]. cbn. rewrite final_snoc, wrap_small by lia. rewrite length_app. cbn.
      split; [rewrite Hh, first_app; by destruct l|]. split; [done|]. split; [lia|].
      split; [by apply NoDup_cons|].
      assert (dll (relink_next lk l p) 0 (l ++ [p]) 0) as Hd'.
      { eapply dll_snoc; [done| |done]. eapply dll_ext; [exact Hd|]. intros x Hx. apply Elk'. by intros ->. }
      eapply dll_ext; [exact Hd'|]. intros x Hx. rewrite L4, Ht. fold lk. unfold relink_next.
      destruct l as [|y l _] using rev_ind; [done|]. by rewrite last_snoc, final_snoc.
    + intros Hx. destruct Hx. rewrite elem_of_app. right. by left.
    + intros x Hx Hxp. rewrite L4, Ht. fold lk. unfold LinkedList.set_next at 1. rewrite decide_False; [by apply Elk'|].
      intros ->. apply Hx. rewrite elem_of_app. by left.
Qed.

Lemma push_spec s q l p (Q : unit -> kstate MM -> Prop) :
  q_wf s q l -> Z.of_nat (length l) < 2 ^ 64 - 1 -> p <> 0 -> p ∉ l -> qv s p = Some (0, 0) ->
  (forall s', moved s s' q (l ++ [p]) p (0, 0) -> Q tt s') ->
  runs (process_queue_push q p) s Q.
Proof.
  intros H Hlen Hp0 Hp Hv HQ. pose proof H as (h & Eh & Hh & _).
  unfold process_queue_push. rewrite (proj2 (Z.eqb_neq p 0) Hp0).
  pose proof (chg_start s q h Eh) as C0.
  apply (chg_load _ _ _ _ _ _ C0 _ _ _ _ Hv). intros b Bp Bn. apply (chg_q_load _ _ _ _ _ _ C0).
  assert (q_head h <> p) as Hhp.
  { rewrite Hh. destruct l as [|x l]; [by intros <-|]. intros <-. apply Hp. by left. }
  rewrite Bp, Bn, (proj2 (Z.eqb_neq _ _) Hhp). cbn [ctrue Z.eqb negb orb when].
  apply runs_bind, runs_ret. by eapply link_last_spec.
Qed.

(** Pushing a process that is in the queue moves it to the tail. *)
Lemma push_again_spec s q l1 p l2 (Q : unit -> kstate MM -> Prop) :
  q_wf s q (l1 ++ p :: l2) -> Z.of_nat (length (l1 ++ p :: l2)) < 2 ^ 64 - 1 ->
  (forall s', moved s s' q ((l1 ++ l2) ++ [p]) p (0, 0) -> Q tt s') ->
  runs (process_queue_push q p) s Q.
Proof.
  intros H Hlen HQ. pose proof H as (h & Eh & Hh & _ & _ & [H0 Hn]%NoDup_cons & Hd).
  pose proof (dll_lookup _ _ _ _ l1 p l2 Hd eq_refl) as Lp.
  apply not_elem_of_app in H0 as [H01 [Hp0 H02]%not_elem_of_cons].
  pose proof Hn as (Hn1 & Hdis & [Hp2 Hn2]%NoDup_cons)%NoDup_app.
  assert (p ∉ l1 ++ l2) as Hp12.
  { rewrite elem_of_app. intros [Hx|Hx]; [|done]. apply (Hdis p Hx). by left. }
  unfold process_queue_push. rewrite (proj2 (Z.eqb_neq p 0)) by congruence.
  pose proof (chg_start s q h Eh) as C0.
  apply (chg_load _ _ _ _ _ _ C0 _ _ _ _ Lp). intros b Bp Bn. apply (chg_q_load _ _ _ _ _ _ C0).
  assert (ctrue (p_queue_next b) || ctrue (p_queue_prev b) || (q_head h =? p) = true) as ->.
  { rewrite Bp, Bn, Hh. unfold ctrue. destruct (Z.eqb_spec (first 0 l2) 0) as [E2|]; [|done].
    destruct (Z.eqb_spec (final 0 l1) 0) as [E1|]; [|done].
    apply final_zero in E1; [|done]. subst. cbn. apply Z.eqb_refl. }
  apply runs_bind. eapply detach_spec; [done|lia|]. intros s1 (W1 & V1 & O1 & Q1 & S1).
  rewrite length_app, length_cons in Hlen.
  eapply link_last_spec; [exact W1|rewrite length_app; lia|congruence|done|by apply V1|].
  intros s2 (W2 & V2 & O2 & Q2 & S2). apply HQ. split; [done|]. split; [done|]. split; [|split].
  - intros x Hx Hxp. rewrite O2, O1; [done| |done..]. intros Hx'. apply Hx. rewrite elem_of_app. by left.
  - intros q' Hq'. rewrite Q2 by done. by apply Q1.
  - congruence.
Qed.

Lemma pop_spec s q l (Q : Z -> kstate MM -> Prop) :
  q_wf s q l -> Z.of_nat (length l) < 2 ^ 64 ->
  match l with
  | [] => Q 0 s
  | p :: l' => forall s', moved s s' q l' p (0, 0) -> Q p s'
  end ->
  runs (process_queue_pop q) s Q.
Proof.
  intros H Hlen HQ. pose proof H as (h & Eh & Hh & _ & _ & [H0 _]%NoDup_cons & _). unfold process_queue_pop.
  apply (chg_q_load _ _ _ _ _ _ (chg_start s q h Eh)). rewrite Hh. destruct l as [|p l].
  - by apply runs_ret.
  - change (first 0 (p :: l)) with p. rewrite (proj2 (Z.eqb_neq p 0)) by (intros ->; apply H0; by left).
    apply runs_bind, (detach_spec s q [] p l); [done|done|]. intros s' Hm. apply runs_ret. by apply HQ.
Qed.
End Ops.

(** ** All the queues *)

Section Queues.
Context {MM : Type}.
Implicit Types (s : kstate MM) (q : qref) (l : list Z) (L : qref -> list Z).

Definition valid_queue q : Prop := match q with Ready pr => 0 <= pr <= PROCESS_PRIORITY_MAX | _ => True end.
Definition upd L q l : qref -> list Z := fun q' => if decide (q' = q) then l else L q'.
Definition without (p : Z) l : list Z := filter (fun x => x <> p) l.

Record queues s L : Prop := {
  qs_count : length (ready_queues (k_sched s)) = 3%nat;
  qs_wf : forall q, valid_queue q -> q_wf s q (L q);
  qs_invalid : forall q, ~ valid_queue q -> L q = [];
  qs_disjoint : forall q q' p, p ∈ L q -> p ∈ L q' -> q = q';
  qs_free : forall p b, k_procs s !! p = Some b -> (forall q, p ∉ L q) -> links b = (0, 0);
  qs_null : k_procs s !! 0 = None;
  qs_bound : Z.of_nat (size (k_procs s)) < 2 ^ 64 - 1 }.

Lemma upd_eq L q l : upd L q l q = l.
Proof. unfold upd. by rewrite decide_True. Qed.
Lemma upd_ne L q l q' : q' <> q -> upd L q l q' = L q'.
Proof. intros. unfold upd. by rewrite decide_False. Qed.

Lemma queue_of_valid s q : length (ready_queues (k_sched s)) = 3%nat ->
  (valid_queue q <-> is_Some (queue_of s q)).
Proof.
  intros E. destruct q as [pr| |]; cbn; [|by split; eauto..]. unfold PROCESS_PRIORITY_MAX. split.
  - intros Hpr. destruct (Z.ltb_spec pr 0); [lia|]. apply lookup_lt_is_Some. lia.
  - destruct (Z.ltb_spec pr 0); [by intros []|]. intros Hl%lookup_lt_is_Some. lia.
Qed.

Lemma q_wf_valid s q l : length (ready_queues (k_sched s)) = 3%nat -> q_wf s q l -> valid_queue q.
Proof. intros E (h & Eh & _). apply (queue_of_valid s); [done|]. by eexists. Qed.

Lemma queues_elem_valid s L q p : queues s L -> p ∈ L q -> valid_queue q.
Proof.
  intros H Hp. destruct q as [pr| |]; [|done..].
  destruct (decide (0 <= pr <= PROCESS_PRIORITY_MAX)) as [|Hn]; [done|].
  rewrite (qs_invalid _ _ H (Ready pr)) in Hp by done. by apply not_elem_of_nil in Hp.
Qed.

Lemma queues_in_table s L q p : queues s L -> p ∈ L q -> exists b, k_procs s !! p = Some b.
Proof.
  intros H Hp. destruct (qs_wf _ _ H q) as (h & _ & _ & _ & _ & _ & Hd); [by eapply queues_elem_valid|].
  destruct (dll_defined _ _ _ _ _ Hd Hp) as [v Hv]. destruct (qv_proc _ _ _ Hv) as (b & Eb & _). eauto.
Qed.

Lemma queues_nonnull s L q p : queues s L -> p ∈ L q -> p <> 0.
Proof. intros H Hp ->. destruct (queues_in_table _ _ _ _ H Hp) as [b Hb]. by rewrite (qs_null _ _ H) in Hb. Qed.

Lemma queues_NoDup s L q : queues s L -> NoDup (L q).
Proof.
  intros H. destruct (decide (L q = [])) as [E|E]; [rewrite E; constructor|].
  destruct (L q) as [|x l] eqn:El; [done|]. rewrite <- El.
  assert (valid_queue q) as Hv by (eapply (queues_elem_valid _ _ _ x); [done|rewrite El; by left]).
  destruct (qs_wf _ _ H q Hv) as (h & _ & _ & _ & _ & [_ Hn]%NoDup_cons & _). done.
Qed.

Lemma queues_length s L q : queues s L -> Z.of_nat (length (L q)) < 2 ^ 64 - 1.
Proof.
  intros H. pose proof (qs_bound _ _ H). pose proof (queues_NoDup _ _ q H) as Hn.
  assert (length (L q) <= size (k_procs s))%nat; [|lia].
  apply length_le_size; [done|]. intros p Hp. destruct (queues_in_table _ _ _ _ H Hp). by eexists.
Qed.

(** The queues depend on the links alone. *)
Lemma queues_ext s s' L :
  (forall p, qv s' p = qv s p) -> (forall q, queue_of s' q = queue_of s q) ->
  length (ready_queues (k_sched s')) = length (ready_queues (k_sched s)) ->
  size (k_procs s') = size (k_procs s) -> queues s L -> queues s' L.
Proof.
  intros Ev Eq El Es [H1 H2 H3 H4 H5 H6 H7]. split; [congruence| |done|done| | |by rewrite Es].
  - intros q Hq. destruct (H2 q Hq) as (h & ? & ? & ? & ? & ? & Hd). exists h. rewrite Eq.
    split_and!; try done. by eapply dll_ext.
  - intros p b Hb Hp. specialize (Ev p). unfold qv in Ev. rewrite Hb in Ev. symmetry in Ev.
    apply fmap_Some in Ev as (b' & Eb' & E). rewrite E. by apply (H5 p).
  - specialize (Ev 0). unfold qv in Ev. rewrite H6 in Ev. by destruct (k_procs s' !! 0).
Qed.

Lemma queues_alter s L p f :
  (forall b, links (f b) = links b) -> queues s L -> queues (s <| k_procs ::= alter f p |>) L.
Proof.
  intros Hf. apply queues_ext; [|done|done|].
  - intros x. rewrite qv_alter. case_decide; [|done]. subst. unfold qv. destruct (k_procs s !! p); [|done].
    simpl. by rewrite Hf.
  - cbn. rewrite <- !size_dom. by rewrite dom_alter.
Qed.

Lemma runs_pstore_queues s L p b f (Q : unit -> kstate MM -> Prop) :
  k_procs s !! p = Some b -> (forall x, links (f x) = links x) -> queues s L ->
  (queues (s <| k_procs ::= alter f p |>) L -> Q tt (s <| k_procs ::= alter f p |>)) -> runs (pstore p f) s Q.
Proof. intros Hb Hf H HQ. eapply runs_pstore; [done|]. by apply HQ, queues_alter. Qed.

#[export] Instance queues_proper s : Proper (pointwise_relation qref eq ==> impl) (queues s).
Proof.
  intros L L' E [H1 H2 H3 H4 H5 H6 H7]. split; try done.
  - intros q Hq. rewrite <- E. auto.
  - intros q Hq. rewrite <- E. auto.
  - intros q q' p. rewrite <- !E. apply H4.
  - intros p b Hb Hp. apply (H5 p); [done|]. intros q. rewrite E. auto.
Qed.

(** One operation on [q]: what [moved] says of one queue says it of all. *)
Lemma queues_moved s s' L q l' p :
  queues s L -> valid_queue q -> moved s s' q l' p (0, 0) ->
  (forall x, x ∈ l' -> x <> p -> x ∈ L q) -> (forall x, x ∈ L q -> x <> p -> x ∈ l') ->
  (forall q', q' <> q -> p ∉ L q') -> queues s' (upd L q l').
Proof.
  intros H Hq (Hw & Hp & Ho & Hqs & Hs) Hl1 Hl2 Hother. pose proof H as [H1 H2 H3 H4 H5 H6 H7].
  assert (forall q' x, q' <> q -> x ∈ L q' -> (x ∉ l') /\ x <> p) as Haway.
  { intros q' x Hq' Hx. assert (x <> p) as Hxp by (intros ->; by apply (Hother q')). split; [|done].
    intros Hxl. apply Hq'. by eapply H4; [|apply Hl1]. }
  assert (length (ready_queues (k_sched s')) = 3%nat) as E3.
  { assert (queue_of s' (Ready 3) = None /\ is_Some (queue_of s' (Ready 2))) as [E3 E2].
    { destruct (decide (q = Ready 3)) as [->|]; [by cbv in Hq; destruct Hq as [_ Hq]; destruct Hq|].
      split.
      - rewrite Hqs by done. apply eq_None_not_Some. rewrite <- queue_of_valid by done. unfold valid_queue, PROCESS_PRIORITY_MAX. lia.
      - destruct (decide (q = Ready 2)) as [->|]; [destruct Hw as (h & Eh & _); by eexists|].
        rewrite Hqs by done. apply queue_of_valid; [done|]. unfold valid_queue, PROCESS_PRIORITY_MAX. lia. }
    cbn in E3, E2. apply lookup_ge_None in E3. apply lookup_lt_is_Some in E2. change (Z.to_nat 3) with 3%nat in E3. change (Z.to_nat 2) with 2%nat in E2. lia. }
  split; [done| | | | | |].
  - intros q' Hq'. destruct (decide (q' = q)) as [->|Hne]; [by rewrite upd_eq|]. rewrite upd_ne by done.
    destruct (H2 q' Hq') as (h & ? & ? & ? & ? & ? & Hd). exists h. rewrite Hqs by done.
    split_and!; try done. eapply dll_ext; [done|]. intros x Hx.
    apply Ho; by eapply Haway.
  - intros q' Hq'. rewrite upd_ne by (by intros ->). by apply H3.
  - intros q1 q2 x. unfold upd. repeat case_decide; subst; try done.
    + intros Hx1 Hx2. by destruct (Haway q2 x).
    + intros Hx1 Hx2. by destruct (Haway q1 x).
    + by apply H4.
  - intros x b Hb Hx. assert (x ∉ l') as Hxl by (specialize (Hx q); by rewrite upd_eq in Hx).
    assert (qv s' x = Some (0, 0)) as E.
    { destruct (decide (x = p)) as [->|Hne]; [auto|]. rewrite Ho by done.
      destruct (strip_proc s' s x b (eq_sym Hs) Hb) as (b' & Eb' & _).
      unfold qv. rewrite Eb'. simpl. f_equal. apply (H5 x); [done|]. intros q'.
      destruct (decide (q' = q)) as [->|Hq']; [intros Hx'; by apply Hxl, Hl2|].
      specialize (Hx q'). by rewrite upd_ne in Hx. }
    unfold qv in E. rewrite Hb in E. simpl in E. congruence.
  - destruct (k_procs s' !! 0) as [b|] eqn:Eb; [|done].
    destruct (strip_proc s' s 0 b (eq_sym Hs) Eb) as (b' & Eb' & _). congruence.
  - by rewrite (strip_size _ _ Hs).
Qed.

Lemma without_absent p l : p ∉ l -> without p l = l.
Proof.
  unfold without. induction l as [|x l IH]; intros Hp; [done|].
  apply not_elem_of_cons in Hp as [H1 H2]. rewrite filter_cons_True by congruence. by rewrite IH.
Qed.
Lemma without_middle l1 p l2 : NoDup (l1 ++ p :: l2) -> without p (l1 ++ p :: l2) = l1 ++ l2.
Proof.
  intros (_ & Hd & [Hp2 _]%NoDup_cons)%NoDup_app.
  assert (p ∉ l1) as Hp1 by (intros Hx; apply (Hd p Hx); by left).
  unfold without. rewrite filter_app, filter_cons_False by congruence.
  fold (without p l1). fold (without p l2). by rewrite !without_absent.
Qed.
Lemma elem_of_without p l x : x ∈ without p l <-> x ∈ l /\ x <> p.
Proof. unfold without. rewrite list_elem_of_filter. tauto. Qed.

(** Removing takes the process out of the queue, wherever it is in it. *)
Lemma remove_queues s L q p (Q : unit -> kstate MM -> Prop) :
  queues s L -> valid_queue q ->
  (forall s', queues s' (upd L q (without p (L q))) -> (forall q', q' <> q -> queue_of s' q' = queue_of s q') ->
     strip s' = strip s -> Q tt s') ->
  runs (process_queue_remove q p) s Q.
Proof.
  intros H Hq HQ. pose proof (qs_wf _ _ H q Hq) as Hw. unfold process_queue_remove.
  destruct (decide (p ∈ L q)) as [Hp|Hp].
  - pose proof (queues_NoDup _ _ q H) as Hn. pose proof (queues_length _ _ q H) as Hlen.
    assert (forall q', q' <> q -> p ∉ L q') as Hother.
    { intros q' Hne Hx. apply Hne. by eapply qs_disjoint. }
    assert (Hm : forall s', moved s s' q (without p (L q)) p (0, 0) -> Q tt s').
    { intros s' Hm. apply HQ; [|apply Hm..]. eapply queues_moved; try done.
      - intros x Hx _. by apply elem_of_without in Hx as [? _].
      - intros x Hx Hne. by apply elem_of_without. }
    apply list_elem_of_split in Hp as (l1 & l2 & E). rewrite E in Hw, Hm, Hn, Hlen.
    rewrite without_middle in Hm by done. eapply detach_spec; [done|lia|done].
  - eapply detach_absent_spec; [done|done|]. apply HQ; [|done..]. rewrite without_absent by done.
    eapply queues_proper; [|exact H]. intros q'. unfold upd. by case_decide; subst.
Qed.

(** Pushing puts the process at the tail; one that was in the queue leaves its place. *)
Lemma push_queues s L q p b (Q : unit -> kstate MM -> Prop) :
  queues s L -> valid_queue q -> k_procs s !! p = Some b -> (forall q', q' <> q -> p ∉ L q') ->
  (forall s', queues s' (upd L q (without p (L q) ++ [p])) -> (forall q', q' <> q -> queue_of s' q' = queue_of s q') ->
     strip s' = strip s -> Q tt s') ->
  runs (process_queue_push q p) s Q.
Proof.
  intros H Hq Hb Hother HQ.
  assert (p <> 0) as Hp0 by (intros ->; by rewrite (qs_null _ _ H) in Hb).
  pose proof (qs_wf _ _ H q Hq) as Hw. pose proof (queues_length _ _ q H) as Hlen.
  destruct (decide (p ∈ L q)) as [Hp|Hp].
  - assert (Hm : forall s', moved s s' q (without p (L q) ++ [p]) p (0, 0) -> Q tt s').
    { intros s' Hm. apply HQ; [|apply Hm..].
      eapply queues_moved; try done; intros x; rewrite elem_of_app, elem_of_without, list_elem_of_singleton; tauto. }
    pose proof (queues_NoDup _ _ q H) as Hn.
    apply list_elem_of_split in Hp as (l1 & l2 & E). rewrite E in Hw, Hm, Hn, Hlen.
    rewrite without_middle in Hm by done. eapply push_again_spec; [done|lia|done].
  - rewrite without_absent in HQ by done.
    assert (qv s p = Some (0, 0)) as Hv.
    { unfold qv. rewrite Hb. simpl. f_equal. eapply qs_free; [done|done|]. intros q'.
      destruct (decide (q' = q)) as [->|]; auto. }
    eapply push_spec; [done|lia|done|done|done|]. intros s' Hm. apply HQ; [|apply Hm..].
    eapply queues_moved; try done; intros x; rewrite elem_of_app, list_elem_of_singleton; tauto.
Qed.

(** Popping takes the head. *)
Lemma pop_queues s L q (Q : Z -> kstate MM -> Prop) :
  queues s L -> valid_queue q ->
  match L q with
  | [] => Q 0 s
  | p :: l' => forall s', queues s' (upd L q l') -> (forall q', q' <> q -> queue_of s' q' = queue_of s q') ->
      strip s' = strip s -> Q p s'
  end ->
  runs (process_queue_pop q) s Q.
Proof.
  intros H Hq HQ. pose proof (qs_wf _ _ H q Hq) as Hw. pose proof (queues_length _ _ q H).
  pose proof (queues_NoDup _ _ q H) as Hn. eapply pop_spec; [done|lia|].
  pose proof (fun q' p => qs_disjoint _ _ H q' q p) as Hd.
  destruct (L q) as [|p l'] eqn:E; [done|].
  intros s' Hm. apply HQ; [|apply Hm..]. apply NoDup_cons in Hn as [Hp Hn].
  eapply queues_moved; try done.
  - intros x Hx _. rewrite E. by right.
  - intros x Hx Hne. rewrite E in Hx. by apply elem_of_cons in Hx as [|].
  - intros q' Hne Hp'. apply Hne, (Hd q' p); [done|]. by left.
Qed.

(** The queues the program starts with. *)
Lemma queues_empty s :
  ready_queues (k_sched s) = replicate 3 empty_queue -> blocked_q (k_sched s) = empty_queue ->
  finished_q (k_sched s) = empty_queue -> map_Forall (fun _ b => links b = (0, 0)) (k_procs s) ->
  k_procs s !! 0 = None -> Z.of_nat (size (k_procs s)) < 2 ^ 64 - 1 -> queues s (fun _ => []).
Proof.
  intros Hr Hb Hf Hl H0 Hs. split; [by rewrite Hr| |done| | |done|done].
  - intros q Hq. exists empty_queue. split_and!; try done; [|apply NoDup_singleton].
    apply (queue_of_valid s) in Hq; [|by rewrite Hr]. destruct q as [pr| |]; cbn in *; [|by f_equal..].
    destruct (pr <? 0); [by destruct Hq|]. rewrite Hr in *. destruct Hq as [h Eh].
    change [empty_queue; empty_queue; empty_queue] with (replicate 3 empty_queue) in *.
    rewrite Eh. by apply lookup_replicate in Eh as [-> _].
  - by intros q q' p ?%elem_of_nil.
  - intros p b Eb _. exact (Hl p b Eb).
Qed.
End Queues.
