(* ===== verification/SchedView.v ===== *)
(** * Reasoning about the scheduler above its queues

    [shows s L t]: the state [s] holds its processes in the lists [L] and is
    otherwise [t], a state without links.  The rules below run the operations of
    [ProcQueue] and [SchedCore] on [L] and [t] instead of on pointers. *)
From S2P Require Import Prelude LinkedList KState ProcQueue SchedCore QueueFacts.

Section View.
Context {MM : Type}.
Implicit Types (s t : kstate MM) (q : qref) (l : list Z) (L : qref -> list Z).

Definition shows s L t : Prop := queues s L /\ strip s = t.

Lemma shows_lookup s L t p : shows s L t -> k_procs t !! p = unlinked <$> k_procs s !! p.
Proof. intros [_ <-]. apply lookup_fmap. Qed.

Lemma shows_proc s L t p b :
  shows s L t -> k_procs t !! p = Some b -> exists b', k_procs s !! p = Some b' /\ unlinked b' = b.
Proof. intros H Hb. rewrite (shows_lookup _ _ _ _ H) in Hb. apply fmap_Some in Hb as (b' & ? & ->). eauto. Qed.

Lemma shows_elem s L t q p : shows s L t -> p ∈ L q -> exists b, k_procs t !! p = Some b.
Proof.
  intros H Hp. destruct (queues_in_table _ _ _ _ (proj1 H) Hp) as [b Hb].
  exists (unlinked b). by rewrite (shows_lookup _ _ _ _ H), Hb.
Qed.

Lemma shows_null s L t p : shows s L t -> is_Some (k_procs t !! p) -> p <> 0.
Proof.
  intros H Hp ->. rewrite (shows_lookup _ _ _ _ H), (qs_null _ _ (proj1 H)) in Hp. by destruct Hp.
Qed.

Lemma shows_size s L t : shows s L t -> size (k_procs t) = size (k_procs s).
Proof. intros [_ <-]. apply map_size_fmap. Qed.

#[export] Instance shows_proper s : Proper (pointwise_relation qref eq ==> eq ==> impl) (shows s).
Proof. intros L L' E t ? <- [H1 H2]. split; [|done]. by eapply queues_proper. Qed.

(** ** Reading and writing *)

Lemma shows_pload s L t p b (Q : process_t -> kstate MM -> Prop) :
  shows s L t -> k_procs t !! p = Some b ->
  (forall b', unlinked b' = b -> k_procs s !! p = Some b' -> Q b' s) -> runs (pload p) s Q.
Proof.
  intros H Hb HQ. destruct (shows_proc _ _ _ _ _ H Hb) as (b' & Eb & Eu).
  eapply runs_pload; [done|]. by apply HQ.
Qed.

(** The links of a process of a queue. *)
Lemma shows_pload_in s L t q l1 p l2 (Q : process_t -> kstate MM -> Prop) :
  shows s L t -> L q = l1 ++ p :: l2 ->
  (forall b', k_procs t !! p = Some (unlinked b') -> p_queue_next b' = first 0 l2 -> Q b' s) ->
  runs (pload p) s Q.
Proof.
  intros H E HQ. assert (p ∈ L q) as Hp by (rewrite E, elem_of_app; right; by left).
  destruct (qs_wf _ _ (proj1 H) q) as (h & _ & _ & _ & _ & _ & Hd); [by eapply queues_elem_valid; [apply H|]|].
  pose proof (dll_lookup _ _ _ _ l1 p l2 Hd E) as Hl. destruct (qv_proc _ _ _ Hl) as (b & Eb & El).
  eapply runs_pload; [done|]. apply HQ.
  - by rewrite (shows_lookup _ _ _ _ H), Eb.
  - by injection El.
Qed.

Lemma shows_pstore s L t p b f (Q : unit -> kstate MM -> Prop) :
  shows s L t -> k_procs t !! p = Some b ->
  (forall x, unlinked (f x) = f (unlinked x)) -> (forall x, links (f x) = links x) ->
  (forall s', shows s' L (t <| k_procs ::= <[p := f b]> |>) -> Q tt s') ->
  runs (pstore p f) s Q.
Proof.
  intros H Hb Hf Hl HQ. destruct (shows_proc _ _ _ _ _ H Hb) as (b' & Eb & Eu).
  eapply runs_pstore; [done|]. apply HQ. split; [by apply queues_alter, H|].
  destruct H as [_ <-]. unfold strip, set_field, set_k_sched, set_k_procs. cbn. f_equal.
  apply map_eq. intros x. rewrite lookup_fmap. destruct (decide (x = p)) as [->|].
  - rewrite lookup_alter_eq, Eb, lookup_insert_eq. simpl. by rewrite Hf, Eu.
  - by rewrite lookup_alter_ne, lookup_insert_ne, lookup_fmap by done.
Qed.

Lemma shows_gets {A} s L t (f : kstate MM -> A) (Q : A -> kstate MM -> Prop) :
  shows s L t -> (forall x, f (strip x) = f x) -> Q (f t) s -> runs (gets f) s Q.
Proof. intros [_ <-] Hf HQ. apply runs_gets. by rewrite <- Hf. Qed.

Lemma shows_modify s L t f (Q : unit -> kstate MM -> Prop) :
  shows s L t -> (forall x, strip (f x) = f (strip x)) -> (forall x, k_procs (f x) = k_procs x) ->
  (forall x q, queue_of (f x) q = queue_of x q) ->
  (forall x, length (ready_queues (k_sched (f x))) = length (ready_queues (k_sched x))) ->
  (forall s', shows s' L (f t) -> Q tt s') -> runs (modify f) s Q.
Proof.
  intros [H <-] Hs Hp Hq Hl HQ. apply runs_modify, HQ. split; [|done].
  eapply queues_ext; [|by apply Hq|done| |done].
  - intros p. unfold qv. by rewrite Hp.
  - by rewrite Hp.
Qed.

Lemma shows_q_load s L t q (Q : process_queue_t -> kstate MM -> Prop) :
  shows s L t -> valid_queue q -> (forall h, q_head h = first 0 (L q) -> Q h s) -> runs (q_load q) s Q.
Proof.
  intros [H _] Hq HQ. destruct (qs_wf _ _ H q Hq) as (h & Eh & Hh & _).
  eapply runs_q_load; [done|]. by apply HQ.
Qed.

Lemma store_twice t p b b' :
  t <| k_procs ::= <[p := b]> |> <| k_procs ::= <[p := b']> |> = t <| k_procs ::= <[p := b']> |>.
Proof. unfold set_field, set_k_procs. cbn. f_equal. apply insert_insert_eq. Qed.

(** ** Queues *)

Lemma shows_push s L t q p (Q : unit -> kstate MM -> Prop) :
  shows s L t -> valid_queue q -> is_Some (k_procs t !! p) -> (forall q', q' <> q -> p ∉ L q') ->
  (forall s', shows s' (upd L q (without p (L q) ++ [p])) t -> Q tt s') ->
  runs (process_queue_push q p) s Q.
Proof.
  intros H Hq [b Hb] Hp HQ. destruct (shows_proc _ _ _ _ _ H Hb) as (b' & Eb & _). destruct H as [H Ht].
  eapply push_queues; try done. intros s' H' _ Hs. apply HQ. split; congruence.
Qed.

Lemma shows_remove s L t q p (Q : unit -> kstate MM -> Prop) :
  shows s L t -> valid_queue q -> (forall s', shows s' (upd L q (without p (L q))) t -> Q tt s') ->
  runs (process_queue_remove q p) s Q.
Proof.
  intros [H Ht] Hq HQ. eapply remove_queues; try done. intros s' H' _ Hs. apply HQ. split; congruence.
Qed.

Lemma shows_pop s L t q (Q : Z -> kstate MM -> Prop) :
  shows s L t -> valid_queue q ->
  match L q with [] => Q 0 s | p :: l' => forall s', shows s' (upd L q l') t -> Q p s' end ->
  runs (process_queue_pop q) s Q.
Proof.
  intros [H Ht] Hq HQ. eapply pop_queues; try done. destruct (L q); [done|].
  intros s' H' _ Hs. apply HQ. split; congruence.
Qed.

Lemma clamp_range pr : 0 <= clamp_priority pr <= PROCESS_PRIORITY_MAX.
Proof.
  unfold clamp_priority, PROCESS_PRIORITY_MAX. pose proof (wrap_range 8 pr ltac:(lia)).
  destruct (Z.gtb_spec (u8 pr) 2); lia.
Qed.
Lemma clamp_small pr : 0 <= pr <= PROCESS_PRIORITY_MAX -> clamp_priority pr = pr.
Proof.
  unfold clamp_priority, PROCESS_PRIORITY_MAX. intros H. rewrite wrap_small by lia.
  destruct (Z.gtb_spec pr 2); lia.
Qed.

Lemma shows_ready_push s L t p b (Q : unit -> kstate MM -> Prop) :
  let c := clamp_priority (p_priority b) in
  shows s L t -> k_procs t !! p = Some b -> (forall q', q' <> Ready c -> p ∉ L q') ->
  (forall s', shows s' (upd L (Ready c) (without p (L (Ready c)) ++ [p]))
                (t <| k_procs ::= <[p := b <| p_priority := c |>]> |>) -> Q tt s') ->
  runs (ready_queue_push p) s Q.
Proof.
  intros c H Hb Hp HQ. unfold ready_queue_push.
  assert (p <> 0) as H0 by (eapply shows_null; [done|by eexists]). rewrite (proj2 (Z.eqb_neq p 0) H0).
  apply runs_bind. eapply shows_pload; [done|done|]. intros b0 E0 _. apply runs_bind.
  eapply shows_pstore; [done|done|done|done|]. intros s1 H1. subst b. cbn [p_priority unlinked] in *.
  change (p_priority (unlinked b0)) with (p_priority b0) in *.
  apply runs_bind. eapply shows_pload; [done|by cbn; apply lookup_insert_eq|]. intros b1 E1 _.
  apply (f_equal p_priority) in E1. cbn in E1. rewrite E1. fold c.
  eapply shows_push; [exact H1|apply clamp_range|cbn; rewrite lookup_insert_eq; by eexists|done|done].
Qed.
End View.
