(* ===== verification/QueueTheorems.v ===== *)
(** * What the queues of the scheduler promise

    The linked queues of process.c refine lists: any sequence of pushes, pops
    and removals returns what the same sequence on lists returns. *)
From S2P Require Import Prelude LinkedList KState Video ProcQueue SchedCore QueueFacts SchedView.

(** ** The abstract queues *)

Inductive queue_op := OpPush (q : qref) (p : Z) | OpPop (q : qref) | OpRemove (q : qref) (p : Z) | OpIsEmpty (q : qref).
Definition op_queue (o : queue_op) : qref :=
  match o with OpPush q _ | OpPop q | OpRemove q _ | OpIsEmpty q => q end.

(** A push moves the process to the tail, a pop takes the head. *)
Definition spec_op (o : queue_op) (L : qref -> list Z) : Z * (qref -> list Z) :=
  match o with
  | OpPush q p => (0, upd L q (without p (L q) ++ [p]))
  | OpPop q => match L q with [] => (0, L) | p :: l => (p, upd L q l) end
  | OpRemove q p => (0, upd L q (without p (L q)))
  | OpIsEmpty q => (match L q with [] => 1 | _ => 0 end, L)
  end.
Fixpoint spec_ops (os : list queue_op) (L : qref -> list Z) : list Z * (qref -> list Z) :=
  match os with
  | [] => ([], L)
  | o :: os => let r := spec_op o L in let rs := spec_ops os r.2 in (r.1 :: rs.1, rs.2)
  end.

(** A process is pushed when it is in no other queue. *)
Definition op_ok (known : Z -> Prop) (o : queue_op) (L : qref -> list Z) : Prop :=
  valid_queue (op_queue o) /\
  match o with OpPush q p => known p /\ forall q', q' <> q -> p ∉ L q' | _ => True end.
Fixpoint ops_ok (known : Z -> Prop) (os : list queue_op) (L : qref -> list Z) : Prop :=
  match os with
  | [] => True
  | o :: os => op_ok known o L /\ ops_ok known os (spec_op o L).2
  end.

Section Run.
Context {MM : Type}.
Abbreviation K := (M (kstate MM)).
Implicit Types s : kstate MM.

Definition run_op (o : queue_op) : K Z :=
  match o with
  | OpPush q p => process_queue_push q p ;; mret 0
  | OpPop q => process_queue_pop q
  | OpRemove q p => process_queue_remove q p ;; mret 0
  | OpIsEmpty q => b ← process_queue_is_empty q; mret (cbool b)
  end.
Fixpoint run_ops (os : list queue_op) : K (list Z) :=
  match os with
  | [] => mret []
  | o :: os => r ← run_op o; rs ← run_ops os; mret (r :: rs)
  end.

Definition in_table s (p : Z) : Prop := is_Some (k_procs s !! p).

Lemma run_op_spec s L o :
  queues s L -> op_ok (in_table s) o L ->
  runs (run_op o) s (fun r s' => r = (spec_op o L).1 /\ shows s' (spec_op o L).2 (strip s)).
Proof.
  intros H [Hq Ho]. assert (shows s L (strip s)) as Hs by done.
  destruct o as [q p|q|q p|q]; simpl in Hq, Ho |- *.
  - destruct Ho as [[b Hb] Ho]. apply runs_bind. eapply shows_push; [done|done| |done|].
    + rewrite (shows_lookup _ _ _ _ Hs), Hb. by eexists.
    + intros s' H'. by apply runs_ret.
  - eapply shows_pop; [done|done|]. destruct (L q); [done|]. intros s' H'. done.
  - apply runs_bind. eapply shows_remove; [done|done|]. intros s' H'. by apply runs_ret.
  - unfold process_queue_is_empty. apply runs_bind, runs_bind. eapply shows_q_load; [done|done|].
    intros h Hh. do 2 apply runs_ret. split; [|done]. rewrite Hh.
    destruct (L q) as [|p l] eqn:E; [done|]. cbn.
    rewrite (proj2 (Z.eqb_neq p 0)); [done|]. eapply queues_nonnull; [done|]. rewrite E. by left.
Qed.

Lemma in_table_strip s s' : strip s' = strip s -> forall p, in_table s' p <-> in_table s p.
Proof.
  intros E p. split; intros [b Hb].
  - destruct (strip_proc s' s p b (eq_sym E) Hb) as (b' & ? & _). by exists b'.
  - destruct (strip_proc s s' p b E Hb) as (b' & ? & _). by exists b'.
Qed.

Lemma ops_ok_iff k k' os : (forall p, k p <-> k' p) -> forall L, ops_ok k os L -> ops_ok k' os L.
Proof.
  intros E. induction os as [|o os IH]; intros L; [done|]. simpl. intros [[Hq Ho] H]. split; [split|by apply IH].
  - done.
  - destruct o; try done. destruct Ho as [Hk Ho]. split; [by apply E|done].
Qed.

Lemma run_ops_shows os : forall s L,
  queues s L -> ops_ok (in_table s) os L ->
  runs (run_ops os) s (fun rs s' => rs = (spec_ops os L).1 /\ shows s' (spec_ops os L).2 (strip s)).
Proof.
  induction os as [|o os IH]; intros s L H Hok; simpl in *; [by apply runs_ret|].
  destruct Hok as [Ho Hos]. apply runs_bind. eapply runs_mono; [by apply run_op_spec|].
  intros r s1 [-> [H1 E1]]. apply runs_bind. eapply runs_mono.
  - apply IH; [done|]. eapply ops_ok_iff; [|done]. intros p. by rewrite in_table_strip.
  - intros rs s2 [-> H2]. apply runs_ret. by rewrite <- E1.
Qed.

(** C6: the linked queues of process.c refine lists.  A sequence of pushes,
    pops, removals and tests for emptiness terminates without touching anything
    but the links, returns what the sequence returns on lists (a push moves the
    process to the tail of the queue, a pop takes the head, a removal works
    anywhere), and leaves queues that hold those lists. *)
Theorem queues_refine_lists os s L :
  queues s L -> ops_ok (in_table s) os L ->
  runs (run_ops os) s (fun rs s' =>
    rs = (spec_ops os L).1 /\ queues s' (spec_ops os L).2 /\ strip s' = strip s).
Proof.
  intros H Hok. eapply runs_mono; [by apply run_ops_shows|]. intros rs s' (E & H' & Hs). done.
Qed.
End Run.

(** ** A small system *)

Definition demo_mode : vbe_mode_info := mk_vbe 3072 1024 768 24 0xFD000000.
Definition demo_process (pid prio wait : Z) (st : process_state_t) : process_t :=
  zero_process <| p_pid := pid |> <| p_priority := prio |> <| p_base_priority := prio |>
    <| p_wait_ticks := wait |> <| p_state := st |>.
(** Three processes that are in no queue. *)
Definition demo_kernel : kstate unit :=
  kernel_boot tt demo_mode <| k_procs := list_to_map
    [(0x1000, demo_process 1 1 0 PROCESS_STATE_READY); (0x2000, demo_process 2 1 0 PROCESS_STATE_READY);
     (0x3000, demo_process 3 2 0 PROCESS_STATE_READY)] |>.

Lemma demo_kernel_queues : queues demo_kernel (fun _ => []).
Proof.
  apply queues_empty; try reflexivity.
  apply (bool_decide_unpack (map_Forall _ _)). vm_compute. exact I.
Qed.

Lemma queues_refine_lists_witness :
  runs (run_ops [OpPush (Ready 1) 0x1000; OpPush (Ready 1) 0x2000; OpPush (Ready 1) 0x3000; OpPop (Ready 1);
                 OpPush (Ready 1) 0x2000; OpRemove (Ready 1) 0x3000; OpIsEmpty (Ready 1); OpPop (Ready 1); OpPop (Ready 1)])
    demo_kernel (fun rs s' => rs = [0; 0; 0; 0x1000; 0; 0; 0; 0x2000; 0] /\ strip s' = strip demo_kernel).
Proof.
  eapply runs_mono.
  - apply (queues_refine_lists _ demo_kernel (fun _ => []) demo_kernel_queues).
    simpl. unfold op_ok. split_and!; try done; try (eexists; vm_compute; reflexivity).
    all: intros q' Hq'; rewrite ?upd_ne by done; apply not_elem_of_nil.
  - intros rs s' (-> & _ & E). split; [vm_compute; reflexivity|done].
Defined.
