(* ===== verification/Semaphore.v ===== *)
(** * Semaphores (src/Kernel/ipc/semaphore.c)

    Sixty-four slots.  A process that waits on an exhausted semaphore joins the
    tail of its list of waiters and blocks; a signal hands the unit to the head. *)
From S2P Require Import Prelude KState SchedCore.

Section Semaphore.
Context {MM : Type}.
Abbreviation K := (M (kstate MM)).

(** [s->...] for a pointer [s] into the array. *)
Definition sload (sem : nat) : K semaphore_t := gets_opt (fun s => k_sems s !! sem).
Definition sstore (sem : nat) (f : semaphore_t -> semaphore_t) : K unit :=
  _ ← sload sem; modify (fun s => s <| k_sems ::= alter f sem |>).

(** The spin lock of asm/libasm.asm ([xchg] in a loop).  The kernel runs on one
    processor with interrupts masked: a lock that is taken is never released. *)
Definition acquire (sem : nat) : K unit :=
  s ← sload sem;
  if ctrue (sem_lock s) then diverge else sstore sem (fun x => x <| sem_lock := 1 |>).
Definition release (sem : nat) : K unit := sstore sem (fun x => x <| sem_lock := 0 |>).

Fixpoint find_slot (id : Z) (i : nat) (l : list semaphore_t) : option nat :=
  match l with
  | [] => None
  | s :: l' => if sem_used s && (sem_id s =? id) then Some i else find_slot id (S i) l'
  end.
Definition find_slot_by_id (id : Z) : K (option nat) := gets (fun s => find_slot id 0 (k_sems s)).
Definition sem_get_by_id (id : Z) : K (option nat) := if id =? 0 then mret None else find_slot_by_id id.

Fixpoint free_slot (i : nat) (l : list semaphore_t) : option nat :=
  match l with [] => None | s :: l' => if sem_used s then free_slot (S i) l' else Some i end.

Definition sem_alloc (initial_value : Z) : K Z :=
  slot ← gets (fun s => free_slot 0 (k_sems s));
  match slot with
  | None => mret 0
  | Some i =>
      sstore i (fun x => x <| sem_used := true |>) ;;
      id ← gets k_next_sem_id;
      modify (fun s => s <| k_next_sem_id ::= fun n => u64 (n + 1) |>) ;;
      sstore i (fun x => x <| sem_id := id |>) ;;
      sstore i (fun x => x <| sem_value := initial_value |>) ;;
      sstore i (fun x => x <| sem_refcount := 1 |>) ;;
      sstore i (fun x => x <| sem_lock := 0 |>) ;;
      sstore i (fun x => x <| sem_wait_tail := 0 |> <| sem_wait_head := 0 |>) ;;
      s ← sload i; mret (sem_id s)
  end.

Definition sem_open_by_id (id : Z) : K Z :=
  s ← sem_get_by_id id;
  match s with
  | None => mret 0
  | Some i =>
      acquire i ;;
      sstore i (fun x => x <| sem_refcount ::= fun n => i32 (n + 1) |>) ;;
      release i ;;
      mret 1
  end.

Definition sem_close_by_id (id : Z) : K Z :=
  s ← sem_get_by_id id;
  match s with
  | None => mret 0
  | Some i =>
      acquire i ;;
      sstore i (fun x => x <| sem_refcount ::= fun n => i32 (n - 1) |>) ;;
      x ← sload i;
      let ref := sem_refcount x in
      release i ;;
      when (ref <=? 0)
        (acquire i ;;
         sstore i (fun x => x <| sem_used := false |>) ;;
         sstore i (fun x => x <| sem_wait_tail := 0 |> <| sem_wait_head := 0 |>) ;;
         release i) ;;
      mret 1
  end.

Definition enqueue_waiter (i : nat) (p : Z) : K unit :=
  pstore p (fun x => x <| p_sem_waiter_next := 0 |>) ;;
  s ← sload i;
  if sem_wait_head s =? 0 then
    sstore i (fun x => x <| sem_wait_tail := p |> <| sem_wait_head := p |>)
  else
    pstore (sem_wait_tail s) (fun x => x <| p_sem_waiter_next := p |>) ;;
    sstore i (fun x => x <| sem_wait_tail := p |>).

Definition dequeue_waiter (i : nat) : K Z :=
  s ← sload i;
  let p := sem_wait_head s in
  if p =? 0 then mret 0 else
  b ← pload p;
  sstore i (fun x => x <| sem_wait_head := p_sem_waiter_next b |>) ;;
  s ← sload i;
  when (sem_wait_head s =? 0) (sstore i (fun x => x <| sem_wait_tail := 0 |>)) ;;
  pstore p (fun x => x <| p_sem_waiter_next := 0 |>) ;;
  mret p.

Definition sem_wait_by_id (id : Z) : K Z :=
  s ← sem_get_by_id id;
  match s with
  | None => mret 0
  | Some i =>
      me ← scheduler_current_process;
      if me =? 0 then mret 0 else
      acquire i ;;
      x ← sload i;
      if sem_value x >? 0 then
        sstore i (fun x => x <| sem_value ::= fun v => i32 (v - 1) |>) ;;
        release i ;;
        mret 1
      else
        pstore me (fun b => b <| p_waiting_on_sem := sem_id x |>) ;;
        enqueue_waiter i me ;;
        release i ;;
        scheduler_block_current ;;
        scheduler_yield_current ;;
        mret 1
  end.

Definition sem_signal_by_id (id : Z) : K Z :=
  s ← sem_get_by_id id;
  match s with
  | None => mret 0
  | Some i =>
      acquire i ;;
      w ← dequeue_waiter i;
      (if ctrue w then
         pstore w (fun b => b <| p_waiting_on_sem := 0 |>) ;;
         scheduler_unblock_process w
       else sstore i (fun x => x <| sem_value ::= fun v => i32 (v + 1) |>)) ;;
      release i ;;
      mret 1
  end.

(** One round of the loop of [sem_set_by_id]: wakes one waiter. *)
Definition awaken_step (i : nat) (newval awaken : Z) : K (Z + Z) :=
  if negb (awaken <? newval) then mret (inr awaken) else
  w ← dequeue_waiter i;
  if w =? 0 then mret (inr awaken) else
  pstore w (fun b => b <| p_waiting_on_sem := 0 |>) ;;
  scheduler_unblock_process w ;;
  mret (inl (i32 (awaken + 1))).
(** A process is in the list of waiters once, so the control blocks bound the loop. *)
Definition sem_set_by_id (id newval : Z) : K Z :=
  s ← sem_get_by_id id;
  match s with
  | None => mret 0
  | Some i =>
      if newval <? 0 then mret 0 else
      acquire i ;;
      n ← gets (fun s => size (k_procs s));
      awaken ← while_fuel (S (S n)) (awaken_step i newval) 0;
      sstore i (fun x => x <| sem_value := i32 (newval - awaken) |>) ;;
      release i ;;
      mret 1
  end.

(** The value through the out-parameter, when the function returns 1. *)
Definition sem_get_value_by_id (id : Z) : K (option Z) :=
  s ← sem_get_by_id id;
  match s with
  | None => mret None
  | Some i =>
      acquire i ;;
      x ← sload i;
      release i ;;
      mret (Some (sem_value x))
  end.
End Semaphore.
