(* ===== verification/Pipe.v ===== *)
(** * Pipes (src/Kernel/ipc/pipe.c)

    Sixty-four slots, each with a circular buffer of 4096 bytes and three
    semaphores: the items, the spaces and a mutex. *)
From S2P Require Import Prelude CLib KState Semaphore.

Section Pipe.
Context {MM : Type}.
Abbreviation K := (M (kstate MM)).

(** [p->...] for a pointer [p] into the array. *)
Definition pipe_load (p : nat) : K pipe_t := gets_opt (fun s => k_pipes s !! p).
Definition pipe_store (p : nat) (f : pipe_t -> pipe_t) : K unit :=
  _ ← pipe_load p; modify (fun s => s <| k_pipes ::= alter f p |>).

Definition pipe_system_init : K unit :=
  for_up 0 64 (fun i => pipe_store (Z.to_nat i) (fun p =>
    p <| pipe_used := false |> <| pipe_id := 0 |> <| pipe_read_pos := 0 |> <| pipe_write_pos := 0 |>
      <| pipe_count := 0 |> <| pipe_readers := 0 |> <| pipe_writers := 0 |> <| pipe_sem_items := 0 |>
      <| pipe_sem_spaces := 0 |> <| pipe_mutex := 0 |>)) ;;
  modify (fun s => s <| k_next_pipe_id := 1 |>).

Fixpoint find_pipe (id : Z) (i : nat) (l : list pipe_t) : option nat :=
  match l with
  | [] => None
  | p :: l' => if pipe_used p && (pipe_id p =? id) then Some i else find_pipe id (S i) l'
  end.
Definition find_pipe_by_id (id : Z) : K (option nat) := gets (fun s => find_pipe id 0 (k_pipes s)).
Definition pipe_get_by_id (id : Z) : K (option nat) := if id =? 0 then mret None else find_pipe_by_id id.
Definition pipe_get_id (p : option nat) : K Z :=
  match p with None => mret 0 | Some i => x ← pipe_load i; mret (pipe_id x) end.

Fixpoint free_pipe (i : nat) (l : list pipe_t) : option nat :=
  match l with [] => None | p :: l' => if pipe_used p then free_pipe (S i) l' else Some i end.

Definition pipe_create : K Z :=
  slot ← gets (fun s => free_pipe 0 (k_pipes s));
  match slot with
  | None => mret 0
  | Some i =>
      pipe_store i (fun _ => zero_pipe) ;;
      items ← sem_alloc 0;
      pipe_store i (fun p => p <| pipe_sem_items := items |>) ;;
      if items =? 0 then mret 0 else
      spaces ← sem_alloc PIPE_BUFFER_SIZE;
      pipe_store i (fun p => p <| pipe_sem_spaces := spaces |>) ;;
      if spaces =? 0 then sem_close_by_id items ;; mret 0 else
      mutex ← sem_alloc 1;
      pipe_store i (fun p => p <| pipe_mutex := mutex |>) ;;
      if mutex =? 0 then sem_close_by_id items ;; sem_close_by_id spaces ;; mret 0 else
      id ← gets k_next_pipe_id;
      modify (fun s => s <| k_next_pipe_id ::= fun n => u64 (n + 1) |>) ;;
      pipe_store i (fun p => p <| pipe_id := id |>) ;;
      pipe_store i (fun p => p <| pipe_read_pos := 0 |> <| pipe_write_pos := 0 |> <| pipe_count := 0 |>
                              <| pipe_readers := 0 |> <| pipe_writers := 0 |>) ;;
      pipe_store i (fun p => p <| pipe_used := true |>) ;;
      x ← pipe_load i; mret (pipe_id x)
  end.

Definition pipe_open_by_id (id is_writer : Z) : K Z :=
  p ← pipe_get_by_id id;
  match p with
  | None => mret 0
  | Some i =>
      x ← pipe_load i;
      sem_wait_by_id (pipe_mutex x) ;;
      (if ctrue is_writer then pipe_store i (fun p => p <| pipe_writers ::= fun n => i32 (n + 1) |>)
       else pipe_store i (fun p => p <| pipe_readers ::= fun n => i32 (n + 1) |>)) ;;
      x ← pipe_load i;
      sem_signal_by_id (pipe_mutex x) ;;
      mret 1
  end.

(** Drops one reader or writer; whether it was the last writer. *)
Definition pipe_drop_end (i : nat) (is_writer : Z) : K bool :=
  x ← pipe_load i;
  if ctrue is_writer then
    if pipe_writers x >? 0 then
      pipe_store i (fun p => p <| pipe_writers ::= fun n => n - 1 |>) ;;
      x ← pipe_load i; mret (pipe_writers x =? 0)
    else mret false
  else
    when (pipe_readers x >? 0) (pipe_store i (fun p => p <| pipe_readers ::= fun n => n - 1 |>)) ;;
    mret false.

(** The branch of [pipe_close_by_id] taken when no reader and no writer is left. *)
Definition pipe_destroy (i : nat) : K unit :=
  x ← pipe_load i;
  let items_id := pipe_sem_items x in
  let spaces_id := pipe_sem_spaces x in
  let mutex_id := pipe_mutex x in
  pipe_store i (fun p => p <| pipe_used := false |> <| pipe_id := 0 |> <| pipe_sem_items := 0 |>
    <| pipe_sem_spaces := 0 |> <| pipe_mutex := 0 |> <| pipe_read_pos := 0 |> <| pipe_write_pos := 0 |>
    <| pipe_count := 0 |>) ;;
  sem_signal_by_id mutex_id ;;
  sem_close_by_id items_id ;;
  sem_close_by_id spaces_id ;;
  sem_close_by_id mutex_id ;;
  mret tt.

Definition pipe_close_by_id (id is_writer : Z) : K Z :=
  p ← pipe_get_by_id id;
  match p with
  | None => mret 0
  | Some i =>
      x ← pipe_load i;
      sem_wait_by_id (pipe_mutex x) ;;
      was_last_writer ← pipe_drop_end i is_writer;
      x ← pipe_load i;
      (if (pipe_readers x =? 0) && (pipe_writers x =? 0) then pipe_destroy i
       else
         when was_last_writer
           (let readers_to_wake := pipe_readers x in
            for_up 0 (Z.to_nat (Z.min readers_to_wake 100)) (fun _ =>
              x ← pipe_load i; sem_signal_by_id (pipe_sem_items x) ;; mret tt)) ;;
         x ← pipe_load i;
         sem_signal_by_id (pipe_mutex x) ;; mret tt) ;;
      mret 1
  end.

(** Each round of the two loops below moves a byte or ends a wait: [wakeups]
    bounds the waits of one call. *)
Section Transfer.
Variable wakeups : nat.

Definition pipe_read_step (i : nat) (buffer count bytes_read : Z) : K (Z + Z) :=
  if negb (bytes_read <? count) then mret (inr bytes_read) else
  x ← pipe_load i;
  r ← sem_wait_by_id (pipe_mutex x);
  if r =? 0 then mret (inr bytes_read) else
  x ← pipe_load i;
  if (pipe_count x =? 0) && (pipe_writers x =? 0) then
    sem_signal_by_id (pipe_mutex x) ;; mret (inr bytes_read)
  else if pipe_count x >? 0 then
    mstore (store8 (buffer + bytes_read) (default 0 (pipe_buffer x !! pipe_read_pos x))) ;;
    pipe_store i (fun p => p <| pipe_read_pos ::= fun r => (r + 1) mod PIPE_BUFFER_SIZE |>) ;;
    pipe_store i (fun p => p <| pipe_count ::= fun n => u64 (n - 1) |>) ;;
    x ← pipe_load i;
    sem_signal_by_id (pipe_mutex x) ;;
    x ← pipe_load i;
    sem_signal_by_id (pipe_sem_spaces x) ;;
    mret (inl (bytes_read + 1))
  else if bytes_read >? 0 then
    sem_signal_by_id (pipe_mutex x) ;; mret (inr bytes_read)
  else
    sem_signal_by_id (pipe_mutex x) ;;
    x ← pipe_load i;
    r ← sem_wait_by_id (pipe_sem_items x);
    if r =? 0 then mret (inr bytes_read) else mret (inl bytes_read).

Definition pipe_read (p : option nat) (buffer count : Z) : K Z :=
  match p with
  | None => mret 0
  | Some i =>
      if (buffer =? 0) || (count =? 0) then mret 0 else
      bytes_read ← while_fuel (S (Z.to_nat count + wakeups)) (pipe_read_step i buffer count) 0;
      mret (i32 bytes_read)
  end.

Definition pipe_write_step (i : nat) (buffer count bytes_written : Z) : K (Z + Z) :=
  if negb (bytes_written <? count) then mret (inr bytes_written) else
  x ← pipe_load i;
  r ← sem_wait_by_id (pipe_mutex x);
  if r =? 0 then mret (inr bytes_written) else
  x ← pipe_load i;
  if pipe_readers x =? 0 then
    sem_signal_by_id (pipe_mutex x) ;; mret (inr bytes_written)
  else if pipe_count x <? PIPE_BUFFER_SIZE then
    c ← mload (fun m => load8 m (buffer + bytes_written));
    pipe_store i (fun p => p <| pipe_buffer ::= <[pipe_write_pos p := c]> |>) ;;
    pipe_store i (fun p => p <| pipe_write_pos ::= fun w => (w + 1) mod PIPE_BUFFER_SIZE |>) ;;
    pipe_store i (fun p => p <| pipe_count ::= fun n => u64 (n + 1) |>) ;;
    x ← pipe_load i;
    sem_signal_by_id (pipe_mutex x) ;;
    x ← pipe_load i;
    sem_signal_by_id (pipe_sem_items x) ;;
    mret (inl (bytes_written + 1))
  else
    sem_signal_by_id (pipe_mutex x) ;;
    x ← pipe_load i;
    r ← sem_wait_by_id (pipe_sem_spaces x);
    if r =? 0 then mret (inr bytes_written) else mret (inl bytes_written).

Definition pipe_write (p : option nat) (buffer count : Z) : K Z :=
  match p with
  | None => mret 0
  | Some i =>
      if (buffer =? 0) || (count =? 0) then mret 0 else
      bytes_written ← while_fuel (S (Z.to_nat count + wakeups)) (pipe_write_step i buffer count) 0;
      mret (i32 bytes_written)
  end.
End Transfer.
End Pipe.
