(* ===== verification/Process.v ===== *)
(** * Control blocks (src/Kernel/proc/process.c, and the first frame of a
    process from src/Kernel/asm/interrupts.asm) *)
From S2P Require Import Prelude CLib MmInterface KState Semaphore Pipe.

Definition STDIN : Z := 0.
Definition STDOUT : Z := 1.

(** The addresses of the assembly routines a frame refers to. *)
Class Text := { process_start : Z; idle_entry : Z }.

Section Process.
Context {MM : Type} `{MemManager MM} `{Text}.
Abbreviation K := (M (kstate MM)).

(** The loop of [copy_name]: [n] characters are left. *)
Fixpoint copy_name_loop (n : nat) (m : memory) (src : cstring) (i : Z) (name : list Z) : Z * list Z :=
  match n with
  | O => (i, name)
  | S n' =>
      if char_at m src i =? 0 then (i, name)
      else copy_name_loop n' m src (i + 1) (<[Z.to_nat i := char_at m src i]> name)
  end.
(** "proc" *)
Definition default_name : cstring := CLit [112; 114; 111; 99].
Definition copied_name (m : memory) (name : cstring) (old : list Z) : list Z :=
  let src := if cstring_is_null name then default_name else name in
  let '(i, l) := copy_name_loop (Z.to_nat PROCESS_NAME_MAX_LEN) m src 0 old in
  <[Z.to_nat (if i <? PROCESS_NAME_MAX_LEN + 1 then i else PROCESS_NAME_MAX_LEN) := 0]> l.
Definition copy_name (p : Z) (name : cstring) : K unit :=
  m ← mload id; pstore p (fun x => x <| p_name ::= copied_name m name |>).

Definition process_system_init : K unit := modify (fun s => s <| k_next_pid := 1 |>).

(** [setup_process_context]: the frame [iretq] and [popState] will take off the
    stack, lowest address first. *)
Definition initial_frame (stack_top entry_point arg : Z) : list Z :=
  [0; 0; 0; 0; 0; 0; 0; entry_point; 0; arg; stack_top; 0; 0; 0; 0;
   process_start; 0x8; 0x202; stack_top; 0].
Fixpoint store_words (a : Z) (ws : list Z) (m : memory) : memory :=
  match ws with [] => m | w :: ws' => store_words (a + 8) ws' (store64 a w m) end.
Definition setup_process_context (stack_top entry_point arg : Z) : K Z :=
  let rsp := Z.land stack_top (bnot 64 15) - 160 in
  mstore (store_words rsp (initial_frame stack_top entry_point arg)) ;;
  mret rsp.

Definition fd_load (p : Z) (i : Z) : K fd_entry_t :=
  b ← pload p; gets_opt (fun _ => p_fds b !! Z.to_nat i).
Definition fd_store (p : Z) (i : Z) (e : fd_entry_t) : K unit :=
  pstore p (fun x => x <| p_fds ::= <[Z.to_nat i := e]> |>).

Definition is_pipe_type (t : fd_type_t) : bool :=
  match t with FD_TYPE_TERMINAL => false | _ => true end.
Definition is_writer_type (t : fd_type_t) : Z :=
  match t with FD_TYPE_PIPE_WRITE => 1 | _ => 0 end.

(** [if (id != 0) { pipe = pipe_get_by_id(id); if (pipe && pipe_open_by_id(id, w)) fds[i] = ...; }] *)
Definition open_std (p i : Z) (id is_writer : Z) (t : fd_type_t) : K unit :=
  if id =? 0 then mret tt else
  pipe ← pipe_get_by_id id;
  match pipe with
  | None => mret tt
  | Some _ =>
      ok ← pipe_open_by_id id is_writer;
      when (ctrue ok) (fd_store p i (mk_fd t pipe))
  end.

(** One round of the loop that gives the child the descriptors of its parent. *)
Definition inherit_fd (p parent stdin_pipe_id stdout_pipe_id i : Z) : K unit :=
  if ((i =? STDIN) && ctrue stdin_pipe_id) || ((i =? STDOUT) && ctrue stdout_pipe_id) then mret tt else
  parent_fd ← fd_load parent i;
  child_fd ← fd_load p i;
  fd_store p i (mk_fd (fd_type parent_fd) (fd_pipe child_fd)) ;;
  if is_pipe_type (fd_type parent_fd) then
    match fd_pipe parent_fd with
    | Some _ =>
        pipe_id ← pipe_get_id (fd_pipe parent_fd);
        if ctrue pipe_id then
          ok ← pipe_open_by_id pipe_id (is_writer_type (fd_type parent_fd));
          if ctrue ok then
            child_fd ← fd_load p i;
            parent_fd ← fd_load parent i;
            fd_store p i (mk_fd (fd_type child_fd) (fd_pipe parent_fd))
          else fd_store p i fd_terminal
        else fd_store p i fd_terminal
    | None => fd_store p i fd_terminal
    end
  else fd_store p i (mk_fd (fd_type parent_fd) None).

(** [if (parent) { ... }]: the new block becomes the first child. *)
Definition attach_child (p parent : Z) : K unit :=
  if parent =? 0 then mret tt else
  pstore p (fun x => x <| p_parent := parent |>) ;;
  b ← pload parent;
  pstore p (fun x => x <| p_next_sibling := p_first_child b |>) ;;
  when (ctrue (p_first_child b)) (pstore (p_first_child b) (fun x => x <| p_prev_sibling := p |>)) ;;
  pstore parent (fun x => x <| p_first_child := p |>).

(** From the second allocation to the name: the fields of a new block. *)
Definition init_block (p stack : Z) (name : cstring) (entry_point entry_arg is_foreground : Z) : K unit :=
  pstore p (fun x => x <| p_kernel_stack_top := stack + PROCESS_KERNEL_STACK_SIZE |>
    <| p_user_stack_base := 0 |> <| p_user_stack_top := 0 |>) ;;
  pid ← gets k_next_pid;
  modify (fun s => s <| k_next_pid ::= fun n => u64 (n + 1) |>) ;;
  pstore p (fun x => x <| p_pid := pid |> <| p_entry_point := entry_point |> <| p_entry_arg := entry_arg |>
    <| p_state := PROCESS_STATE_NEW |> <| p_is_foreground := is_foreground |>
    <| p_priority := PROCESS_PRIORITY_DEFAULT |> <| p_base_priority := PROCESS_PRIORITY_DEFAULT |>
    <| p_wait_ticks := 0 |>) ;;
  copy_name p name ;;
  pstore p (fun x => x <| p_parent := 0 |> <| p_first_child := 0 |> <| p_next_sibling := 0 |>
    <| p_prev_sibling := 0 |> <| p_queue_next := 0 |> <| p_queue_prev := 0 |>) ;;
  for_up 0 16 (fun i => fd_store p i fd_terminal).

Definition process_create (name : cstring) (entry_point entry_arg parent is_foreground
    stdin_pipe_id stdout_pipe_id : Z) : K Z :=
  if entry_point =? 0 then mret 0 else
  p ← on_mm (malloc sizeof_process);
  if p =? 0 then mret 0 else
  modify (fun s => s <| k_procs ::= <[p := zero_process]> |>) ;;
  stack ← on_mm (malloc PROCESS_KERNEL_STACK_SIZE);
  pstore p (fun x => x <| p_kernel_stack_base := stack |>) ;;
  if stack =? 0 then
    on_mm (mfree p) ;; modify (fun s => s <| k_procs ::= delete p |>) ;; mret 0
  else
  init_block p stack name entry_point entry_arg is_foreground ;;
  open_std p STDIN stdin_pipe_id 0 FD_TYPE_PIPE_READ ;;
  open_std p STDOUT stdout_pipe_id 1 FD_TYPE_PIPE_WRITE ;;
  when (ctrue parent) (for_up 0 16 (inherit_fd p parent stdin_pipe_id stdout_pipe_id)) ;;
  attach_child p parent ;;
  b ← pload p;
  rsp ← setup_process_context (p_kernel_stack_top b) (p_entry_point b) (p_entry_arg b);
  pstore p (fun x => x <| p_rsp := rsp |>) ;;
  pstore p (fun x => x <| p_rbp := p_kernel_stack_top x |>) ;;
  pstore p (fun x => x <| p_state := PROCESS_STATE_READY |>) ;;
  mret p.

(** One round of the loop that closes the descriptors. *)
Definition close_fd (p i : Z) : K unit :=
  e ← fd_load p i;
  if is_pipe_type (fd_type e) then
    match fd_pipe e with
    | Some _ =>
        pipe_id ← pipe_get_id (fd_pipe e);
        when (ctrue pipe_id) (pipe_close_by_id pipe_id (is_writer_type (fd_type e)) ;; mret tt)
    | None => mret tt
    end ;;
    fd_store p i fd_terminal
  else mret tt.
Definition process_close_fds (p : Z) : K unit :=
  if p =? 0 then mret tt else for_up 0 16 (close_fd p).

Definition detach_from_parent (p : Z) : K unit :=
  b ← pload p;
  if p_parent b =? 0 then mret tt else
  (if ctrue (p_prev_sibling b)
   then pstore (p_prev_sibling b) (fun x => x <| p_next_sibling := p_next_sibling b |>)
   else
     bp ← pload (p_parent b);
     when (p_first_child bp =? p) (pstore (p_parent b) (fun x => x <| p_first_child := p_next_sibling b |>))) ;;
  b ← pload p;
  when (ctrue (p_next_sibling b)) (pstore (p_next_sibling b) (fun x => x <| p_prev_sibling := p_prev_sibling b |>)) ;;
  pstore p (fun x => x <| p_prev_sibling := 0 |> <| p_next_sibling := 0 |> <| p_parent := 0 |>).

Definition process_destroy (p : Z) : K unit :=
  if p =? 0 then mret tt else
  for_up 0 16 (close_fd p) ;;
  detach_from_parent p ;;
  b ← pload p;
  when (ctrue (p_kernel_stack_base b)) (on_mm (mfree (p_kernel_stack_base b))) ;;
  b ← pload p;
  when (ctrue (p_user_stack_base b)) (on_mm (mfree (p_user_stack_base b))) ;;
  on_mm (mfree p) ;;
  modify (fun s => s <| k_procs ::= delete p |>).
End Process.
