(* ===== verification/Keyboard.v ===== *)
(** * The keyboard driver (src/Kernel/drivers/keyBoardDriver.c) *)
From S2P Require Import Prelude KState Semaphore.

Definition ESC : Z := 0x1B.
Definition SHIFT_L : Z := 0x2A.
Definition SHIFT_R : Z := 0x36.
Definition CTRL_L : Z := 0x1D.
Definition CTRL_L_RELEASE : Z := 0x9D.
Definition CAPSLOCK : Z := 0x3A.
Definition RELEASE_OFFSET : Z := 0x80.
Definition KEY_COUNT : Z := 0x54.
Definition BUFFER_SIZE : Z := 256.
Definition SC_DELETE : Z := 0x53.
Definition SC_UP : Z := 0x48.
Definition SC_DOWN : Z := 0x50.
Definition SC_LEFT : Z := 0x4B.
Definition SC_RIGHT : Z := 0x4D.

(** The characters of a key, without and with shift; the table goes on with zeros. *)
Definition scancode_table : list (Z * Z) := [
  (0, 0); (27, 27); (49, 33); (50, 64); (51, 35); (52, 36); (53, 37); (54, 94);
  (55, 38); (56, 42); (57, 40); (48, 41); (45, 95); (61, 43); (8, 8); (9, 9);
  (113, 81); (119, 87); (101, 69); (114, 82); (116, 84); (121, 89); (117, 85); (105, 73);
  (111, 79); (112, 80); (91, 123); (93, 125); (10, 10); (0, 0); (97, 65); (115, 83);
  (100, 68); (102, 70); (103, 71); (104, 72); (106, 74); (107, 75); (108, 76); (59, 58);
  (39, 34); (124, 124); (0, 0); (92, 92); (122, 90); (120, 88); (99, 67); (118, 86);
  (98, 66); (110, 78); (109, 77); (44, 60); (46, 62); (47, 63); (0, 0); (0, 0);
  (0, 0); (32, 32)
].
Definition scancode_char (scancode shift : Z) : Z :=
  let '(a, b) := default (0, 0) (scancode_table !! Z.to_nat scancode) in
  if shift =? 0 then a else b.

(** [(('a' <= c) && (c <= 'z'))] raised to upper case. *)
Definition capitalise (c : Z) : Z := if (c >=? 97) && (c <=? 122) then c - 32 else c.

Section Keyboard.
Context {MM : Type}.
Abbreviation K := (M (kstate MM)).

Definition gets_kbd {A} (f : keyboard -> A) : K A := gets (fun s => f (k_kbd s)).
Definition modify_kbd (f : keyboard -> keyboard) : K unit := modify (fun s => s <| k_kbd ::= f |>).

Definition update_flags (scancode : Z) (k : keyboard) : keyboard :=
  if scancode =? CTRL_L then k <| activeCtrl := 1 |>
  else if scancode =? CTRL_L_RELEASE then k <| activeCtrl := 0 |>
  else if (scancode =? SHIFT_L) || (scancode =? SHIFT_R) then k <| activeShift := 1 |>
  else if (scancode =? SHIFT_L + RELEASE_OFFSET) || (scancode =? SHIFT_R + RELEASE_OFFSET)
       then k <| activeShift := 0 |>
  else if scancode =? CAPSLOCK then k <| activeCapsLock ::= fun c => if c =? 0 then 1 else 0 |>
  else k.
Definition updateFlags (scancode : Z) : K unit := modify_kbd (update_flags scancode).

Definition buffer_full : K bool := gets_kbd (fun k => kb_size k =? BUFFER_SIZE).
Definition buffer_empty : K bool := gets_kbd (fun k => kb_size k =? 0).

Definition buffer_push (c : Z) : K bool :=
  full ← buffer_full;
  if full : bool then mret false else
  modify_kbd (fun k => k <| kb_buffer ::= <[kb_writeIndex k := c]> |>) ;;
  modify_kbd (fun k => k <| kb_writeIndex ::= fun w => (w + 1) mod BUFFER_SIZE |>) ;;
  modify_kbd (fun k => k <| kb_size ::= fun n => n + 1 |>) ;;
  mret true.

Definition buffer_pop : K Z :=
  empty ← buffer_empty;
  if empty : bool then mret 0 else
  c ← gets_kbd (fun k => default 0 (kb_buffer k !! kb_readIndex k));
  modify_kbd (fun k => k <| kb_readIndex ::= fun r => (r + 1) mod BUFFER_SIZE |>) ;;
  modify_kbd (fun k => k <| kb_size ::= fun n => n - 1 |>) ;;
  mret c.

Definition keyboard_read_getchar : K Z := buffer_pop.

Definition buffer_clear : K unit :=
  modify_kbd (fun k => k <| kb_readIndex := 0 |> <| kb_writeIndex := 0 |> <| kb_size := 0 |>).

Definition keyboard_init : K unit :=
  id ← gets_kbd kbd_sem_id;
  if id =? 0 then id ← sem_alloc 0; modify_kbd (fun k => k <| kbd_sem_id := id |>) else mret tt.

Definition keyboard_wait_step (_ : unit) : K (unit + unit) :=
  empty ← buffer_empty;
  if negb empty then mret (inr tt) else
  id ← gets_kbd kbd_sem_id;
  when (ctrue id) (sem_wait_by_id id ;; mret tt) ;;
  mret (inl tt).
(** The process is woken up at most [wakeups] times with the buffer still empty. *)
Definition keyboard_wait_for_char (wakeups : nat) : K unit := while_fuel (S wakeups) keyboard_wait_step tt.

Definition keyboard_clear_buffer : K unit :=
  buffer_clear ;;
  id ← gets_kbd kbd_sem_id;
  when (ctrue id) (sem_set_by_id id 0 ;; mret tt).

(** Keys that have no character: code 1, the arrows, 0x1B and delete. *)
Definition no_char (scancode : Z) : bool :=
  (scancode =? 1) || (scancode =? SC_UP) || (scancode =? SC_DOWN) || (scancode =? SC_LEFT) ||
  (scancode =? SC_RIGHT) || (scancode =? ESC) || (scancode =? SC_DELETE).
Definition sc_to_ascii (k : keyboard) (scancode : Z) : Z :=
  if no_char scancode then 0 else
  if scancode <? KEY_COUNT then
    let c := scancode_char scancode (activeShift k) in
    if ctrue (activeCapsLock k) then capitalise c else c
  else 0.
Definition scToAscii (scancode : Z) : K Z := gets_kbd (fun k => sc_to_ascii k scancode).

Definition is_key_pressed (scancode : Z) : K Z := gets_kbd (fun k => default 0 (key_states k !! scancode)).

(** [if (buffer_push(c) && kbd_sem_id != 0) sem_signal_by_id(kbd_sem_id);] *)
Definition push_and_signal (c : Z) : K unit :=
  pushed ← buffer_push c;
  if pushed : bool then
    id ← gets_kbd kbd_sem_id;
    when (ctrue id) (sem_signal_by_id id ;; mret tt)
  else mret tt.

(** [key_states[...] = ...], by the release bit. *)
Definition record_key (scancode : Z) (k : keyboard) : keyboard :=
  if ctrue (Z.land scancode RELEASE_OFFSET)
  then k <| key_states ::= <[Z.land scancode (bnot 8 RELEASE_OFFSET) := 0]> |>
  else k <| key_states ::= <[scancode := 1]> |>.
End Keyboard.
