(* ===== verification/Scheduler.v ===== *)
(** * The scheduler (src/Kernel/proc/scheduler.c)

    Three ready queues by priority, a queue of blocked and one of finished
    processes.  [schedule] is called by the timer interrupt with the stack
    pointer of the process it interrupted and returns the one to go on with. *)
From S2P Require Import Prelude CLib MmInterface KState ProcQueue SchedCore Semaphore Pipe Process Keyboard.

Definition priorities_up : list Z := [0; 1; 2].

Section Scheduler.
Context {MM : Type} `{MemManager MM} `{Text}.
Abbreviation K := (M (kstate MM)).

(** A bound on the rounds of a walk along a queue. *)
Definition walk_fuel : K nat := gets (fun s => S (S (size (k_procs s)))).

(** One round of the loop of [apply_aging] on the queue [pr]. *)
Definition aging_step (pr p : Z) : K (Z + unit) :=
  if p =? 0 then mret (inr tt) else
  pstore p (fun x => x <| p_wait_ticks ::= fun n => u64 (n + 1) |>) ;;
  b ← pload p;
  if (p_wait_ticks b >=? AGING_THRESHOLD) && (p_priority b <? PROCESS_PRIORITY_MAX) then
    process_queue_remove (Ready pr) p ;;
    pstore p (fun x => x <| p_priority := clamp_priority (p_priority b + AGING_BOOST) |>) ;;
    b ← pload p;
    process_queue_push (Ready (p_priority b)) p ;;
    pstore p (fun x => x <| p_wait_ticks := 0 |>) ;;
    q ← q_load (Ready pr);
    mret (inl (q_head q))
  else
    mret (inl (p_queue_next b)).
(** A promotion starts the walk again with one process less in the queue. *)
Definition age_queue (pr : Z) : K unit :=
  n ← walk_fuel;
  q ← q_load (Ready pr);
  while_fuel (n * n) (aging_step pr) (q_head q).
Definition apply_aging : K unit := age_queue 0 ;; age_queue 1 ;; age_queue 2.

(** [if (p->is_foreground && p->parent && p->parent->state != FINISHED) p->parent->is_foreground = 1;];
    whether the foreground was given back. *)
Definition return_foreground (p : Z) : K bool :=
  b ← pload p;
  if ctrue (p_is_foreground b) && ctrue (p_parent b) then
    bp ← pload (p_parent b);
    if bool_decide (p_state bp = PROCESS_STATE_FINISHED) then mret false else
    pstore (p_parent b) (fun x => x <| p_is_foreground := 1 |>) ;; mret true
  else mret false.

Definition wake_waiter (p : Z) (_ : unit) : K (unit + unit) :=
  b ← pload p;
  let w := p_waiters_head b in
  if w =? 0 then mret (inr tt) else
  bw ← pload w;
  pstore p (fun x => x <| p_waiters_head := p_waiter_next bw |>) ;;
  pstore w (fun x => x <| p_waiter_next := 0 |>) ;;
  pstore w (fun x => x <| p_waiting_on_pid := 0 |>) ;;
  pstore w (fun x => x <| p_state := PROCESS_STATE_READY |>) ;;
  ready_queue_push w ;;
  mret (inl tt).
(** [while (p->waiters_head) { ... }] *)
Definition wake_waiters (p : Z) : K unit := n ← walk_fuel; while_fuel n (wake_waiter p) tt.

Definition save_context (p current_rsp : Z) : K unit :=
  if p =? 0 then mret tt else
  pstore p (fun x => x <| p_rsp := current_rsp |>) ;;
  rbp ← mload (fun m => load64 m (current_rsp + 8 * 10));
  pstore p (fun x => x <| p_rbp := rbp |>) ;;
  b ← pload p;
  match p_state b with
  | PROCESS_STATE_RUNNING =>
      idle ← gets_sched idle_p;
      if negb (p =? idle) then
        pstore p (fun x => x <| p_state := PROCESS_STATE_READY |>) ;;
        ready_queue_push p
      else mret tt
  | PROCESS_STATE_BLOCKED => process_queue_push Blocked p
  | PROCESS_STATE_FINISHED =>
      given ← return_foreground p;
      when given keyboard_clear_buffer ;;
      wake_waiters p ;;
      process_queue_push Finished p
  | _ => mret tt
  end.

(** "idle" *)
Definition idle_name : cstring := CLit [105; 100; 108; 101].
Definition init_scheduler : K unit :=
  process_system_init ;;
  for_up 0 3 (fun pr => process_queue_init (Ready pr)) ;;
  process_queue_init Blocked ;;
  process_queue_init Finished ;;
  p ← process_create idle_name idle_entry 0 0 0 0 0;
  modify_sched (fun c => c <| idle_p := p |>) ;;
  if ctrue p then
    pstore p (fun x => x <| p_state := PROCESS_STATE_RUNNING |>) ;;
    modify_sched (fun c => c <| current := p |>) ;;
    t ← ticks_elapsed;
    modify_sched (fun c => c <| last_switch_tick := u64 t |>)
  else mret tt.

Definition scheduler_collect_finished : K Z := process_queue_pop Finished.

(** The head of the highest ready queue that is not empty, or NULL. *)
Fixpoint peek_highest (prs : list Z) : K Z :=
  match prs with
  | [] => mret 0
  | pr :: prs => q ← q_load (Ready pr); if ctrue (q_head q) then mret (q_head q) else peek_highest prs
  end.

(** [for (i = 0; i < MAX_FINISHED_COLLECT; i++) { ... }] *)
Fixpoint collect (n : nat) : K unit :=
  match n with
  | O => mret tt
  | S n' =>
      fp ← scheduler_collect_finished;
      if fp =? 0 then mret tt else process_destroy fp ;; collect n'
  end.

(** From the choice of the next process to the return. *)
Definition switch_to_next (now : Z) : K Z :=
  next ← ready_queue_pop_highest;
  idle ← gets_sched idle_p;
  let next := if next =? 0 then idle else next in
  pstore next (fun x => x <| p_state := PROCESS_STATE_RUNNING |>) ;;
  pstore next (fun x => x <| p_wait_ticks := 0 |>) ;;
  b ← pload next;
  when (negb (next =? idle) && (p_priority b >? p_base_priority b))
    (pstore next (fun x => x <| p_priority := p_base_priority b |>)) ;;
  modify_sched (fun c => c <| current := next |>) ;;
  modify_sched (fun c => c <| last_switch_tick := now |>) ;;
  collect (Z.to_nat MAX_FINISHED_COLLECT) ;;
  b ← pload next;
  mret (p_rsp b).

Definition schedule (current_rsp : Z) : K Z :=
  c ← gets_sched current;
  if c =? 0 then mret current_rsp else
  t ← ticks_elapsed;
  let now := u64 t in
  apply_aging ;;
  last ← gets_sched last_switch_tick;
  let quantum_expired := u64 (now - last) >=? QUANTUM_TICKS in
  bc ← pload c;
  let must_switch := negb (bool_decide (p_state bc = PROCESS_STATE_RUNNING)) in
  peek ← peek_highest priorities_down;
  higher_pr_ready ← (if peek =? 0 then mret false
                     else bk ← pload peek; mret (p_priority bk >? p_priority bc));
  resched ← gets_sched need_resched;
  if negb (must_switch || higher_pr_ready || quantum_expired || resched) then mret current_rsp else
  modify_sched (fun d => d <| need_resched := false |>) ;;
  save_context c current_rsp ;;
  switch_to_next now.

Definition scheduler_spawn_process (name : cstring) (entry_point entry_arg parent priority is_foreground
    stdin_pipe_id stdout_pipe_id : Z) : K Z :=
  p ← process_create name entry_point entry_arg parent is_foreground stdin_pipe_id stdout_pipe_id;
  if p =? 0 then mret 0 else
  let pr := clamp_priority priority in
  pstore p (fun x => x <| p_priority := pr |>) ;;
  pstore p (fun x => x <| p_base_priority := pr |>) ;;
  pstore p (fun x => x <| p_wait_ticks := 0 |>) ;;
  scheduler_add_process p ;;
  mret p.

Definition scheduler_finish_current : K unit :=
  c ← gets_sched current;
  idle ← gets_sched idle_p;
  if (c =? 0) || (c =? idle) then mret tt else
  process_close_fds c ;;
  c ← gets_sched current;
  pstore c (fun x => x <| p_state := PROCESS_STATE_FINISHED |>) ;;
  modify_sched (fun d => d <| need_resched := true |>).

(** The walk of [find_in_queue]. *)
Definition pid_step (pid it : Z) : K (Z + Z) :=
  if it =? 0 then mret (inr 0) else
  b ← pload it;
  if p_pid b =? pid then mret (inr it) else mret (inl (p_queue_next b)).
Definition find_in_queue (q : qref) (pid : Z) : K Z :=
  n ← walk_fuel; h ← q_load q; while_fuel n (pid_step pid) (q_head h).

Fixpoint find_in_queues (qs : list qref) (pid : Z) : K Z :=
  match qs with
  | [] => mret 0
  | q :: qs => p ← find_in_queue q pid; if ctrue p then mret p else find_in_queues qs pid
  end.
Definition scheduler_find_by_pid (pid : Z) : K Z :=
  p ← find_in_queues [Ready 0; Ready 1; Ready 2; Blocked; Finished] pid;
  if ctrue p then mret p else
  c ← gets_sched current;
  if c =? 0 then mret 0 else
  b ← pload c;
  mret (if p_pid b =? pid then c else 0).

Definition scheduler_unblock_by_pid (pid : Z) : K Z :=
  p ← scheduler_find_by_pid pid;
  if p =? 0 then mret 0 else scheduler_unblock_process p ;; mret 1.

Definition scheduler_kill_by_pid (pid : Z) : K Z :=
  p ← scheduler_find_by_pid pid;
  if p =? 0 then mret 0 else
  process_close_fds p ;;
  return_foreground p ;;
  b ← pload p;
  (match p_state b with
   | PROCESS_STATE_READY => process_queue_remove (Ready (p_priority b)) p
   | PROCESS_STATE_BLOCKED => process_queue_remove Blocked p
   | _ => mret tt
   end) ;;
  pstore p (fun x => x <| p_state := PROCESS_STATE_FINISHED |>) ;;
  wake_waiters p ;;
  process_queue_push Finished p ;;
  c ← gets_sched current;
  when (p =? c) (modify_sched (fun d => d <| need_resched := true |>)) ;;
  mret 1.

Definition scheduler_set_priority (pid new_priority : Z) : K Z :=
  p ← scheduler_find_by_pid pid;
  idle ← gets_sched idle_p;
  if (p =? 0) || (p =? idle) then mret 0 else
  let clamped := clamp_priority new_priority in
  b ← pload p;
  let oldp := p_priority b in
  if oldp =? clamped then mret 1 else
  when (bool_decide (p_state b = PROCESS_STATE_READY)) (process_queue_remove (Ready oldp) p) ;;
  pstore p (fun x => x <| p_priority := clamped |>) ;;
  pstore p (fun x => x <| p_base_priority := clamped |>) ;;
  pstore p (fun x => x <| p_wait_ticks := 0 |>) ;;
  b ← pload p;
  when (bool_decide (p_state b = PROCESS_STATE_READY)) (ready_queue_push p) ;;
  resched_if_higher p ;;
  mret 1.

Definition scheduler_block_by_pid (pid : Z) : K Z :=
  p ← scheduler_find_by_pid pid;
  idle ← gets_sched idle_p;
  if (p =? 0) || (p =? idle) then mret 0 else
  c ← gets_sched current;
  if p =? c then
    pstore c (fun x => x <| p_state := PROCESS_STATE_BLOCKED |>) ;;
    modify_sched (fun d => d <| need_resched := true |>) ;;
    mret 1
  else
  b ← pload p;
  if bool_decide (p_state b = PROCESS_STATE_READY) then
    process_queue_remove (Ready (p_priority b)) p ;;
    pstore p (fun x => x <| p_state := PROCESS_STATE_BLOCKED |>) ;;
    process_queue_push Blocked p ;;
    modify_sched (fun d => d <| need_resched := true |>) ;;
    mret 1
  else mret 1.

(** ** Listing *)

Definition process_state_code (st : process_state_t) : Z :=
  match st with
  | PROCESS_STATE_NEW => 0 | PROCESS_STATE_READY => 1 | PROCESS_STATE_RUNNING => 2
  | PROCESS_STATE_BLOCKED => 3 | PROCESS_STATE_FINISHED => 4
  end.
(** [process_info_t]: the pid at 0, the name at 8, the state at 44, the priority
    at 48, [rsp] at 56, [rbp] at 64, [foreground] at 72. *)
Definition sizeof_process_info : Z := 80.

(** The characters of a name before its null. *)
Fixpoint name_chars (l : list Z) : list Z :=
  match l with [] => [] | c :: l' => if c =? 0 then [] else c :: name_chars l' end.
Definition write_info (b : process_t) (a : Z) (m : memory) : memory :=
  let name := take (Z.to_nat PROCESS_NAME_MAX_LEN) (name_chars (p_name b)) in
  let m := store64 a (p_pid b) m in
  let m := store_bytes (a + 8) name m in
  let m := store8 (a + 8 + Z.of_nat (length name)) 0 m in
  let m := store32 (a + 44) (process_state_code (p_state b)) m in
  let m := store32 (a + 48) (p_priority b) m in
  let m := store64 (a + 56) (p_rsp b) m in
  let m := store64 (a + 64) (p_rbp b) m in
  store32 (a + 72) (p_is_foreground b) m.

(** The number of entries after the call. *)
Definition add_process_to_list (p buffer count max_count : Z) : K Z :=
  idle ← gets_sched idle_p;
  if (p =? 0) || (buffer =? 0) || (count >=? max_count) || (p =? idle) then mret count else
  b ← pload p;
  mstore (write_info b (buffer + sizeof_process_info * count)) ;;
  mret (u64 (count + 1)).

Definition list_step (buffer max_count : Z) (st : Z * Z) : K ((Z * Z) + Z) :=
  let '(p, count) := st in
  if (p =? 0) || negb (count <? max_count) then mret (inr count) else
  count ← add_process_to_list p buffer count max_count;
  b ← pload p;
  mret (inl (p_queue_next b, count)).
Definition list_queue (buffer max_count : Z) (q : qref) (count : Z) : K Z :=
  n ← walk_fuel; h ← q_load q; while_fuel n (list_step buffer max_count) (q_head h, count).

(** The entry of the current process, if its pid is already in the buffer. *)
Definition update_current (b : process_t) (buffer i : Z) : K (option unit) :=
  let a := buffer + sizeof_process_info * i in
  pid ← mload (fun m => load64 m a);
  if pid =? p_pid b then
    mstore (fun m => store32 (a + 72) (p_is_foreground b) (store64 (a + 64) (p_rbp b)
      (store64 (a + 56) (p_rsp b) (store32 (a + 44) (process_state_code (p_state b)) m)))) ;;
    mret (Some tt)
  else mret None.

Definition scheduler_list_all_processes (buffer max_count : Z) : K Z :=
  if (buffer =? 0) || (max_count =? 0) then mret 0 else
  count ← list_queue buffer max_count (Ready 0) 0;
  count ← list_queue buffer max_count (Ready 1) count;
  count ← list_queue buffer max_count (Ready 2) count;
  count ← list_queue buffer max_count Blocked count;
  count ← list_queue buffer max_count Finished count;
  c ← gets_sched current;
  if ctrue c && (count <? max_count) then
    b ← pload c;
    already_added ← for_first 0 (Z.to_nat count) (update_current b buffer);
    match already_added with
    | Some _ => mret count
    | None => add_process_to_list c buffer count max_count
    end
  else mret count.

(** The walk that looks for a process in the foreground. *)
Definition foreground_step (p : Z) : K (Z + option Z) :=
  if p =? 0 then mret (inr None) else
  b ← pload p;
  if ctrue (p_is_foreground b) then mret (inr (Some (p_pid b))) else mret (inl (p_queue_next b)).
Fixpoint foreground_in (qs : list qref) : K Z :=
  match qs with
  | [] => mret 0
  | q :: qs =>
      n ← walk_fuel; h ← q_load q;
      r ← while_fuel n foreground_step (q_head h);
      match r with Some pid => mret pid | None => foreground_in qs end
  end.
Definition scheduler_get_foreground_pid : K Z :=
  c ← gets_sched current;
  idle ← gets_sched idle_p;
  r ← (if ctrue c && negb (c =? idle) then
         b ← pload c; mret (if ctrue (p_is_foreground b) then Some (p_pid b) else None)
       else mret None);
  match r with
  | Some pid => mret pid
  | None => foreground_in [Ready 0; Ready 1; Ready 2; Blocked]
  end.

(** ** The keyboard interrupt (src/Kernel/drivers/keyBoardDriver.c) *)

(** [getScanCode] reads port 0x60: the code is an argument. *)
Definition keyboard_interrupt_handler (scancode : Z) : K unit :=
  updateFlags scancode ;;
  modify_kbd (record_key scancode) ;;
  cAscii ← scToAscii scancode;
  ctrl ← gets_kbd activeCtrl;
  if ctrue ctrl && ((cAscii =? 99) || (cAscii =? 67)) then
    fg_pid ← scheduler_get_foreground_pid;
    when (ctrue fg_pid) (scheduler_kill_by_pid fg_pid ;; keyboard_clear_buffer)
  else if ctrue ctrl && ((cAscii =? 100) || (cAscii =? 68)) then push_and_signal 0x04
  else if ctrue cAscii then push_and_signal cAscii
  else mret tt.

(** ** Interrupts (src/Kernel/interrupts/irqDispatcher.c, src/Kernel/asm/interrupts.asm) *)

Definition int_20 : K unit := timer_handler.
Definition int_21 (scancode : Z) : K unit := keyboard_interrupt_handler scancode.
Definition irqDispatcher (irq scancode : Z) : K unit :=
  if irq =? 0 then int_20 else if irq =? 1 then int_21 scancode else mret tt.

(** [_irq00Handler] between saving and restoring the registers. *)
Definition irq00 (rsp : Z) : K Z := timer_handler ;; schedule rsp.
End Scheduler.
