(* ===== verification/SchedFacts.v ===== *)
(** * The invariant of the scheduler, aging

    [sched_ok t L]: a process of a queue is in the state and at the priority the
    queue is for.  [apply_aging] keeps it, and moves no process but upwards. *)
From S2P Require Import Prelude LinkedList CLib KState ProcQueue SchedCore QueueFacts SchedView Scheduler.

Section SchedFacts.
Context {MM : Type}.
Implicit Types (s t : kstate MM) (q : qref) (l : list Z) (L : qref -> list Z).

Definition fits q (b : process_t) : Prop :=
  match q with
  | Ready pr => p_state b = PROCESS_STATE_READY /\ p_priority b = pr
  | Blocked => p_state b = PROCESS_STATE_BLOCKED
  | Finished => p_state b = PROCESS_STATE_FINISHED
  end.

(** A priority is one of the three, and a process below the highest has not yet
    waited for its promotion. *)
Definition sound (b : process_t) : Prop :=
  0 <= p_priority b <= PROCESS_PRIORITY_MAX /\ 0 <= p_base_priority b <= PROCESS_PRIORITY_MAX /\
  (p_priority b < PROCESS_PRIORITY_MAX -> 0 <= p_wait_ticks b < AGING_THRESHOLD).

Record sched_ok t L : Prop := {
  so_sound : forall p b, k_procs t !! p = Some b -> sound b;
  so_fits : forall q p b, p ∈ L q -> k_procs t !! p = Some b -> fits q b;
  so_idle : exists b, k_procs t !! idle_p (k_sched t) = Some b /\ p_state b = PROCESS_STATE_RUNNING;
  so_running : forall p b, k_procs t !! p = Some b -> p_state b = PROCESS_STATE_RUNNING ->
                 p = current (k_sched t) \/ p = idle_p (k_sched t);
  so_current : is_Some (k_procs t !! current (k_sched t)) }.

(** A process is in the queue its state tells, if in any. *)
Lemma fits_queue q q' b : fits q b -> p_state b = PROCESS_STATE_READY -> q' = Ready (p_priority b) -> q = q'.
Proof. destruct q; simpl; [intros (_ & ->) _ ->; done|congruence..]. Qed.

Lemma so_out t L p b q :
  sched_ok t L -> k_procs t !! p = Some b ->
  p_state b <> PROCESS_STATE_READY -> p_state b <> PROCESS_STATE_BLOCKED -> p_state b <> PROCESS_STATE_FINISHED ->
  p ∉ L q.
Proof. intros H Hb H1 H2 H3 Hp. pose proof (so_fits _ _ H q p b Hp Hb) as Hf. destruct q; simpl in Hf; [by destruct Hf|done..]. Qed.

Lemma so_idle_out t L q : sched_ok t L -> idle_p (k_sched t) ∉ L q.
Proof. intros H. destruct (so_idle _ _ H) as (b & Hb & E). apply (so_out t L _ b); [done|done|by rewrite E..]. Qed.

(** The control block of [p] changes, and [p] alone changes queues. *)
Lemma so_update t L L' p b' :
  sched_ok t L -> sound b' -> (forall q x, x <> p -> x ∈ L' q -> x ∈ L q) -> (forall q, p ∈ L' q -> fits q b') ->
  (p = idle_p (k_sched t) -> p_state b' = PROCESS_STATE_RUNNING) ->
  (p_state b' = PROCESS_STATE_RUNNING -> p = current (k_sched t) \/ p = idle_p (k_sched t)) ->
  sched_ok (t <| k_procs ::= <[p := b']> |>) L'.
Proof.
  intros [H0 H1 H2 H4 H3] Hb Ho Hp Hi Hr. split; cbn.
  - intros x b. destruct (decide (x = p)) as [->|Hne].
    + rewrite lookup_insert_eq. by intros [= <-].
    + rewrite lookup_insert_ne by done. apply H0.
  - intros q x b Hx. destruct (decide (x = p)) as [->|Hne].
    + rewrite lookup_insert_eq. intros [= <-]. auto.
    + rewrite lookup_insert_ne by done. apply H1. auto.
  - destruct (decide (idle_p (k_sched t) = p)) as [<-|Hne].
    + rewrite lookup_insert_eq. eauto.
    + by rewrite lookup_insert_ne.
  - intros x b. destruct (decide (x = p)) as [->|Hne].
    + rewrite lookup_insert_eq. by intros [= <-].
    + rewrite lookup_insert_ne by done. apply H4.
  - destruct (decide (current (k_sched t) = p)) as [E|Hne].
    + rewrite E, lookup_insert_eq. by eexists.
    + by rewrite lookup_insert_ne.
Qed.

Lemma so_sub t L L' : sched_ok t L -> (forall q x, x ∈ L' q -> x ∈ L q) -> sched_ok t L'.
Proof. intros [H0 H1 H2 H3 H4] Ho. split; [done| |done|done|done]. intros q p b Hp. apply H1. auto. Qed.

(** ** Aging *)

(** What a process has waited for: the number of ticks it takes to get where it
    is from priority 0. *)
Definition seniority (b : process_t) : Z :=
  if p_priority b <? PROCESS_PRIORITY_MAX then AGING_THRESHOLD * p_priority b + p_wait_ticks b
  else AGING_THRESHOLD * PROCESS_PRIORITY_MAX.
Definition top_seniority : Z := AGING_THRESHOLD * PROCESS_PRIORITY_MAX.

Definition unaged (b : process_t) : process_t := b <| p_wait_ticks := 0 |> <| p_priority := 0 |>.
(** [b'] is [b] after some aging; [older]: after at least one tick. *)
Definition as_old (b b' : process_t) : Prop :=
  unaged b' = unaged b /\ p_priority b <= p_priority b' /\ seniority b <= seniority b'.
Definition older (b b' : process_t) : Prop :=
  as_old b b' /\ Z.min (seniority b + 1) top_seniority <= seniority b'.

#[export] Instance as_old_preorder : PreOrder as_old.
Proof.
  split; [by intros b|]. intros b1 b2 b3 (E1 & P1 & S1) (E2 & P2 & S2). split; [congruence|lia].
Qed.
Lemma older_as_old b1 b2 b3 : older b1 b2 -> as_old b2 b3 -> older b1 b3.
Proof. intros [H1 S1] H2. split; [by etrans|]. destruct H2 as (_ & _ & S2). lia. Qed.
Lemma as_old_older b1 b2 b3 : as_old b1 b2 -> older b2 b3 -> older b1 b3.
Proof. intros H1 [H2 S2]. split; [by etrans|]. destruct H1 as (_ & _ & S1). lia. Qed.

Definition tick (b : process_t) : process_t := b <| p_wait_ticks ::= fun n => u64 (n + 1) |>.
Definition promote (b : process_t) : process_t := b <| p_priority := p_priority b + 1 |> <| p_wait_ticks := 0 |>.
Definition due (b : process_t) : bool :=
  (p_wait_ticks b + 1 >=? AGING_THRESHOLD) && (p_priority b <? PROCESS_PRIORITY_MAX).

Lemma tick_older pr b : fits (Ready pr) b -> sound b -> due b = false ->
  fits (Ready pr) (tick b) /\ sound (tick b) /\ older b (tick b).
Proof.
  unfold due, sound, older, as_old, seniority, top_seniority, PROCESS_PRIORITY_MAX, AGING_THRESHOLD, tick.
  cbn. unfold PROCESS_PRIORITY_MAX, AGING_THRESHOLD. intros (Hs & Hp) (Hpr & Hba & Hw).
  rewrite Hp in *. rewrite andb_false_iff. intros Hd. destruct (Z.ltb_spec pr 2).
  - assert (0 <= p_wait_ticks b < 199) as Hw2 by (specialize (Hw ltac:(lia)); destruct Hd as [Hd|]; [lia|done]).
    rewrite wrap_small by lia. split_and!; lia || done.
  - split_and!; lia || done.
Qed.

Lemma promote_older pr b : fits (Ready pr) b -> sound b -> due b = true ->
  fits (Ready (pr + 1)) (promote (tick b)) /\ sound (promote (tick b)) /\ older b (promote (tick b)) /\ pr < PROCESS_PRIORITY_MAX.
Proof.
  unfold due, sound, older, as_old, seniority, top_seniority, PROCESS_PRIORITY_MAX, AGING_THRESHOLD, tick, promote.
  cbn. unfold PROCESS_PRIORITY_MAX, AGING_THRESHOLD. intros (Hs & Hp) (Hpr & Hba & Hw).
  rewrite Hp in *. rewrite andb_true_iff. intros [Hd1 Hd2]. destruct (Z.ltb_spec pr 2); [|done].
  specialize (Hw ltac:(lia)). destruct (Z.ltb_spec (pr + 1) 2); split_and!; lia || done.
Qed.

(** [T] are the processes that have had their tick; a process of the queue [pr]
    is still in it or in the next one. *)
Record ages (pr : Z) (T : Z -> Prop) t L t' L' : Prop := {
  ag_ok : sched_ok t' L';
  ag_rest : t' = t <| k_procs := k_procs t' |>;
  ag_same : forall q, q <> Ready pr -> q <> Ready (pr + 1) -> L' q = L q;
  ag_stay : forall p, p ∈ L' (Ready pr) -> p ∈ L (Ready pr);
  ag_next : forall p, p ∈ L (Ready (pr + 1)) -> p ∈ L' (Ready (pr + 1));
  ag_from : forall p, p ∈ L' (Ready (pr + 1)) -> p ∈ L (Ready pr) \/ p ∈ L (Ready (pr + 1));
  ag_to : forall p, p ∈ L (Ready pr) -> p ∈ L' (Ready pr) \/ p ∈ L' (Ready (pr + 1));
  ag_out : forall p, p ∉ L (Ready pr) -> k_procs t' !! p = k_procs t !! p;
  ag_proc : forall p b, k_procs t !! p = Some b -> exists b', k_procs t' !! p = Some b' /\ as_old b b' /\ (T p -> older b b') }.

Lemma ages_refl pr t L : sched_ok t L -> ages pr (fun _ => False) t L t L.
Proof. intros H. split; try done; try tauto; [by destruct t|]. intros p b Hb. exists b. done. Qed.

Lemma ages_step pr (T : Z -> Prop) t L t1 L1 p b b' L2 :
  ages pr T t L t1 L1 -> p ∈ L1 (Ready pr) -> k_procs t1 !! p = Some b -> older b b' ->
  sched_ok (t1 <| k_procs ::= <[p := b']> |>) L2 ->
  (forall q, q <> Ready pr -> q <> Ready (pr + 1) -> L2 q = L1 q) ->
  (forall x, x ∈ L2 (Ready pr) -> x ∈ L1 (Ready pr)) ->
  (forall x, x ∈ L1 (Ready (pr + 1)) -> x ∈ L2 (Ready (pr + 1))) ->
  (forall x, x ∈ L2 (Ready (pr + 1)) -> x = p \/ x ∈ L1 (Ready (pr + 1))) ->
  (forall x, x ∈ L1 (Ready pr) -> x ∈ L2 (Ready pr) \/ x ∈ L2 (Ready (pr + 1))) ->
  ages pr (fun x => T x \/ x = p) t L (t1 <| k_procs ::= <[p := b']> |>) L2.
Proof.
  intros [A1 A2 A3 A4 A5 A6 A7 A8 A9] Hp Hb Ho Hok E1 E2 E3 E4 E5. split; [done| | | | | | | |].
  - rewrite A2. done.
  - intros q Hq Hq'. rewrite E1, A3; done.
  - auto.
  - auto.
  - intros x Hx. destruct (E4 x Hx) as [->|Hx']; auto.
  - intros x Hx. destruct (A7 x Hx); auto.
  - intros x Hx. cbn. rewrite lookup_insert_ne; [auto|]. intros ->. auto.
  - intros x bx Hx. cbn. destruct (A9 x bx Hx) as (b1 & Hb1 & H1 & H2).
    destruct (decide (x = p)) as [->|Hne].
    + rewrite lookup_insert_eq. exists b'. rewrite Hb in Hb1. injection Hb1 as <-.
      assert (older bx b') as Hob by (by eapply as_old_older). split; [done|]. split; [apply Hob|done].
    + rewrite lookup_insert_ne by done. exists b1. split_and!; [done|done|]. intros [?|?]; [by apply H2|done].
Qed.

Lemma aging_step_spec s t L pr (T : Z -> Prop) t0 L0 l1 p l2 (Q : Z + unit -> kstate MM -> Prop) :
  shows s L t -> ages pr T t0 L0 t L -> 0 <= pr <= PROCESS_PRIORITY_MAX -> L (Ready pr) = l1 ++ p :: l2 ->
  (forall s' t', shows s' L t' -> ages pr (fun x => T x \/ x = p) t0 L0 t' L -> Q (inl (first 0 l2)) s') ->
  (forall s' t' L', shows s' L' t' -> ages pr (fun x => T x \/ x = p) t0 L0 t' L' ->
     L' (Ready pr) = l1 ++ l2 -> Q (inl (first 0 (l1 ++ l2))) s') ->
  runs (aging_step pr p) s Q.
Proof.
  intros H Ha Hpr E Hstay Hup. pose proof (ag_ok _ _ _ _ _ _ Ha) as Hok.
  assert (p ∈ L (Ready pr)) as Hp by (rewrite E, elem_of_app; right; by left).
  destruct (shows_elem _ _ _ _ _ H Hp) as [b Hb]. pose proof (so_fits _ _ Hok _ _ _ Hp Hb) as Hf. pose proof (so_sound _ _ Hok _ _ Hb) as Hsound.
  assert (p <> 0) as H0 by (eapply shows_null; [done|by eexists]).
  assert (p <> idle_p (k_sched t)) as Hidle by (intros ->; by apply (so_idle_out t L (Ready pr))).
  unfold aging_step. rewrite (proj2 (Z.eqb_neq p 0) H0).
  apply runs_bind. eapply shows_pstore; [done|done|done|done|]. intros s1 H1. fold (tick b) in H1.
  apply runs_bind. eapply shows_pload_in; [exact H1|exact E|]. intros b1 E1 En.
  cbn in E1. rewrite lookup_insert_eq in E1. apply (inj Some) in E1.
  pose proof (f_equal p_wait_ticks E1) as Ew. pose proof (f_equal p_priority E1) as Ep. cbn in Ew, Ep.
  assert ((p_wait_ticks b1 >=? AGING_THRESHOLD) && (p_priority b1 <? PROCESS_PRIORITY_MAX) = due b) as ->.
  { unfold due. rewrite <- Ep, <- Ew. destruct Hf as (_ & Hfp). destruct Hsound as (_ & _ & Hw). rewrite Hfp in *.
    destruct (Z.ltb_spec pr PROCESS_PRIORITY_MAX) as [Hlt|]; [|by rewrite !andb_false_r].
    rewrite wrap_small; [done|]. unfold AGING_THRESHOLD in Hw. specialize (Hw Hlt). lia. }
  destruct (due b) eqn:Ed.
  - destruct (promote_older _ _ Hf Hsound Ed) as (Hf' & Hs' & Ho & Hpr2).
    apply runs_bind. eapply shows_remove; [done|done|]. intros s2 H2.
    apply runs_bind. eapply shows_pstore; [done|cbn; apply lookup_insert_eq|done|done|]. intros s3 H3.
    apply runs_bind. eapply shows_pload; [done|cbn; apply lookup_insert_eq|]. intros b3 E3 _.
    apply (f_equal p_priority) in E3. cbn in E3. rewrite E3.
    assert (clamp_priority (p_priority b1 + AGING_BOOST) = pr + 1) as Ecl.
    { rewrite <- Ep, (proj2 Hf). apply clamp_small. unfold AGING_BOOST. lia. }
    rewrite Ecl in *.
    pose proof (queues_NoDup _ _ (Ready pr) (proj1 H)) as Hnd. rewrite E in Hnd.
    assert (forall q, q <> Ready pr -> p ∉ L q) as Hother.
    { intros q Hq Hx. apply Hq. by eapply qs_disjoint; [apply H| |]. }
    apply runs_bind. eapply shows_push; [exact H3|unfold valid_queue; lia|cbn; rewrite lookup_insert_eq; by eexists| |].
    { intros q _. unfold upd. case_decide; [|by apply Hother]. subst. rewrite elem_of_without. tauto. }
    intros s4 H4. apply runs_bind. eapply shows_pstore; [done|cbn; apply lookup_insert_eq|done|done|]. intros s5 H5.
    rewrite !store_twice in H5. rewrite upd_ne in H5 by (intros [=]; lia).
    rewrite (without_absent p (L (Ready (pr + 1)))) in H5 by (apply Hother; intros [=]; lia).
    rewrite E, without_middle in H5 by done.
    assert (tick b <| p_priority := pr + 1 |> <| p_wait_ticks := 0 |> = promote (tick b)) as Eb.
    { unfold promote. cbn. by rewrite (proj2 Hf). }
    cbn in H5. cbn in Eb. rewrite Eb in H5.
    apply runs_bind. eapply shows_q_load; [exact H5|done|]. intros h Hh. apply runs_ret.
    rewrite upd_ne, upd_eq in Hh by (intros [=]; lia). rewrite Hh.
    eapply Hup; [exact H5| |by rewrite upd_ne, upd_eq by (intros [=]; lia)].
    assert (forall x, x ∈ l1 ++ l2 -> x ∈ L (Ready pr)) as Hsub.
    { intros x. rewrite E, !elem_of_app, elem_of_cons. tauto. }
    assert (forall x, x ∈ L (Ready pr) -> x ∈ l1 ++ l2 \/ x = p) as Hsub2.
    { intros x. rewrite E, !elem_of_app, elem_of_cons. tauto. }
    assert (p ∉ l1 ++ l2) as Hp12.
    { rewrite <- (without_middle l1 p l2) by done. rewrite elem_of_without. tauto. }
    eapply ages_step; [exact Ha|exact Hp|exact Hb|exact Ho| | | | | |].
    + eapply so_update; [exact Hok|exact Hs'| | |done|by rewrite (proj1 Hf')].
      * intros q x Hx. unfold upd. repeat case_decide; subst; auto.
        rewrite elem_of_app, list_elem_of_singleton. tauto.
      * intros q. unfold upd. repeat case_decide; subst; [done|intros Hx; by destruct Hp12|].
        intros Hx. by apply Hother in Hx.
    + intros q Hq1 Hq2. by rewrite !upd_ne.
    + intros x. rewrite upd_ne, upd_eq by (intros [=]; lia). auto.
    + intros x Hx. rewrite upd_eq, elem_of_app. by left.
    + intros x. rewrite upd_eq, elem_of_app, list_elem_of_singleton. tauto.
    + intros x Hx. rewrite upd_ne, !upd_eq, (elem_of_app _ [p]), list_elem_of_singleton by (intros [=]; lia).
      destruct (Hsub2 x Hx); auto.
  - destruct (tick_older _ _ Hf Hsound Ed) as (Hf' & Hs' & Ho). apply runs_ret. rewrite En.
    eapply Hstay; [exact H1|]. eapply ages_step; [done|done|done|done| |tauto..].
    eapply so_update; [exact Hok|exact Hs'|done| |done|by rewrite (proj1 Hf')]. intros q Hx.
    assert (q = Ready pr) as -> by (eapply qs_disjoint; [apply H|done|done]). done.
Qed.

Lemma ages_weaken pr (T T' : Z -> Prop) t L t' L' :
  (forall x, T' x -> T x) -> ages pr T t L t' L' -> ages pr T' t L t' L'.
Proof.
  intros HT [A1 A2 A3 A4 A5 A6 A7 A8 A9]. split; try done.
  intros x b Hb. destruct (A9 x b Hb) as (b' & ? & ? & ?). exists b'. auto.
Qed.

(** The walk along the queue [pr]: [l1] is behind it, [l2] ahead. *)
Lemma aging_loop pr t0 L0 : 0 <= pr <= PROCESS_PRIORITY_MAX -> forall fuel s t L (T : Z -> Prop) l1 l2 (Q : unit -> kstate MM -> Prop),
  shows s L t -> ages pr T t0 L0 t L -> L (Ready pr) = l1 ++ l2 ->
  (forall x, x ∈ l1 -> T x) -> (forall x, x ∈ L0 (Ready pr) -> x ∉ l1 ++ l2 -> T x) ->
  (length (l1 ++ l2) * length (l1 ++ l2) + length l2 < fuel)%nat ->
  (forall s' t' L', shows s' L' t' -> ages pr (fun x => x ∈ L0 (Ready pr)) t0 L0 t' L' -> Q tt s') ->
  runs (while_fuel fuel (aging_step pr) (first 0 l2)) s Q.
Proof.
  intros Hpr. induction fuel as [|fuel IH]; intros s t L T l1 l2 Q H Ha E HT1 HT2 Hf HQ; [lia|].
  simpl while_fuel. apply runs_bind. destruct l2 as [|p l2].
  - apply runs_ret, runs_ret, (HQ s t L H). eapply ages_weaken; [|done]. intros x Hx.
    destruct (decide (x ∈ l1)); [auto|]. apply HT2; [done|]. by rewrite app_nil_r.
  - rewrite length_app, length_cons in Hf.
    eapply (aging_step_spec s t L pr T t0 L0 l1 p l2); [done|done|done|done| |].
    + intros s' t' H' Ha'. eapply (IH s' t' L _ (l1 ++ [p]) l2); [done|done|by rewrite <- app_assoc| | | |done].
      * intros x. rewrite elem_of_app, list_elem_of_singleton. intros [|]; auto.
      * intros x Hx Hn. left. apply HT2; [done|]. by rewrite <- app_assoc in Hn.
      * rewrite !length_app. simpl. nia.
    + intros s' t' L' H' Ha' E'. eapply (IH s' t' L' _ [] (l1 ++ l2)); [done|done|done| | | |done].
      * by intros x ?%elem_of_nil.
      * intros x Hx Hn. destruct (decide (x = p)) as [|Hne]; [by right|left]. apply HT2; [done|].
        simpl in Hn. rewrite elem_of_app in *. rewrite elem_of_cons. tauto.
      * simpl. rewrite !length_app. nia.
Qed.

Lemma age_queue_spec s t L pr (Q : unit -> kstate MM -> Prop) :
  shows s L t -> sched_ok t L -> 0 <= pr <= PROCESS_PRIORITY_MAX ->
  (forall s' t' L', shows s' L' t' -> ages pr (fun x => x ∈ L (Ready pr)) t L t' L' -> Q tt s') ->
  runs (age_queue pr) s Q.
Proof.
  intros H Hok Hpr HQ. unfold age_queue, walk_fuel. apply runs_bind.
  apply runs_gets. apply runs_bind. eapply shows_q_load; [done|done|]. intros h ->.
  eapply (aging_loop pr t L Hpr _ s t L (fun _ => False) [] (L (Ready pr))); [done|by apply ages_refl|done| | | |done].
  - by intros x ?%elem_of_nil.
  - by intros x Hx [].
  - simpl. pose proof (q_wf_bound _ _ _ (qs_wf _ _ (proj1 H) (Ready pr) Hpr)). nia.
Qed.

(** The whole of [apply_aging]; [T] are the queues that have been aged. *)
Record aged (T : Z -> Prop) t L t' L' : Prop := {
  ad_ok : sched_ok t' L';
  ad_rest : t' = t <| k_procs := k_procs t' |>;
  ad_other : forall q, (forall pr, q <> Ready pr) -> L' q = L q;
  ad_ready : forall p, (exists pr, p ∈ L' (Ready pr)) <-> (exists pr, p ∈ L (Ready pr));
  ad_above : forall pr p, (forall pr', T pr' -> pr' < pr) -> p ∈ L (Ready pr) -> p ∈ L' (Ready pr);
  ad_out : forall p, (forall pr, p ∉ L (Ready pr)) -> k_procs t' !! p = k_procs t !! p;
  ad_proc : forall p b, k_procs t !! p = Some b -> exists b', k_procs t' !! p = Some b' /\ as_old b b' /\
              ((exists pr, T pr /\ p ∈ L (Ready pr)) -> older b b') }.

Lemma aged_refl t L : sched_ok t L -> aged (fun _ => False) t L t L.
Proof.
  intros H. split; try done; [by destruct t|].
  intros p b Hb. exists b. split; [done|]. split; [done|]. by intros (pr & [] & _).
Qed.

Lemma aged_step (T : Z -> Prop) pr t L t1 L1 t2 L2 :
  aged T t L t1 L1 -> ages pr (fun x => x ∈ L1 (Ready pr)) t1 L1 t2 L2 -> (forall pr', T pr' -> pr' < pr) ->
  aged (fun pr' => pr' = pr \/ T pr') t L t2 L2.
Proof.
  intros [D1 D2 D3 D4 D5 D6 D7] [A1 A2 A3 A4 A5 A6 A7 A8 A9] HT. split; [done| | | | | |].
  - rewrite A2, D2. done.
  - intros q Hq. rewrite A3 by done. auto.
  - intros p. rewrite <- D4. split; intros [pr' Hp].
    + destruct (decide (Ready pr' = Ready pr)) as [E|]; [rewrite E in Hp; eauto|].
      destruct (decide (Ready pr' = Ready (pr + 1))) as [E|]; [rewrite E in Hp; destruct (A6 _ Hp); eauto|].
      rewrite A3 in Hp by done. eauto.
    + destruct (decide (Ready pr' = Ready pr)) as [E|]; [rewrite E in Hp; destruct (A7 _ Hp); eauto|].
      destruct (decide (Ready pr' = Ready (pr + 1))) as [E|]; [rewrite E in Hp; eauto|].
      exists pr'. by rewrite A3.
  - intros pr' p Hpr' Hp. specialize (D5 pr' p ltac:(auto) Hp). pose proof (Hpr' pr (or_introl eq_refl)).
    destruct (decide (pr' = pr + 1)) as [->|]; [auto|]. rewrite A3; [done|intros [=]; lia..].
  - intros p Hp. rewrite A8; [by apply D6|]. intros Hx.
    assert (exists pr, p ∈ L (Ready pr)) as [pr' Hx'] by (apply D4; eauto). by apply (Hp pr').
  - intros p b Hb. destruct (D7 p b Hb) as (b1 & Hb1 & H1 & HT1). destruct (A9 p b1 Hb1) as (b2 & Hb2 & H2 & HT2).
    exists b2. split; [done|]. split; [by etrans|]. intros (pr' & [->|HT'] & Hp).
    + eapply as_old_older; [done|]. apply HT2. by apply D5.
    + eapply older_as_old; [|done]. apply HT1. eauto.
Qed.

Definition is_aged := aged (fun pr => 0 <= pr <= PROCESS_PRIORITY_MAX).

Lemma apply_aging_spec s t L (Q : unit -> kstate MM -> Prop) :
  shows s L t -> sched_ok t L -> (forall s' t' L', shows s' L' t' -> is_aged t L t' L' -> Q tt s') ->
  runs apply_aging s Q.
Proof.
  intros H Hok HQ. pose proof (aged_refl _ _ Hok) as D0. unfold PROCESS_PRIORITY_MAX in *.
  apply runs_bind. eapply age_queue_spec; [exact H|exact Hok|done|]. intros s1 t1 L1 H1 A1.
  pose proof (aged_step _ 0 _ _ _ _ _ _ D0 A1 ltac:(by intros ? [])) as D1.
  apply runs_bind. eapply age_queue_spec; [exact H1|apply D1|done|]. intros s2 t2 L2 H2 A2.
  pose proof (aged_step _ 1 _ _ _ _ _ _ D1 A2 ltac:(intros ? [->|[]]; lia)) as D2.
  eapply age_queue_spec; [exact H2|apply D2|done|]. intros s3 t3 L3 H3 A3.
  pose proof (aged_step _ 2 _ _ _ _ _ _ D2 A3 ltac:(intros ? [->|[->|[]]]; lia)) as D3.
  eapply (HQ s3 t3 L3 H3). destruct D3 as [D31 D32 D33 D34 D35 D36 D37]. split; try done.
  - intros pr p Hpr. apply D35. intros pr' [->|[->|[->|[]]]]; apply Hpr; unfold PROCESS_PRIORITY_MAX; lia.
  - intros p b Hb. destruct (D37 p b Hb) as (b' & ? & ? & Hd). exists b'. split_and!; [done|done|].
    intros (pr & Hpr & Hp). apply Hd. exists pr. split; [unfold PROCESS_PRIORITY_MAX in Hpr; lia|done].
Qed.

(** A process as senior as can be has the highest priority. *)
Lemma seniority_top b : sound b -> top_seniority <= seniority b ->
  p_priority b = PROCESS_PRIORITY_MAX.
Proof.
  unfold top_seniority, seniority, AGING_THRESHOLD, PROCESS_PRIORITY_MAX. intros (Hpr & _ & Hw). unfold PROCESS_PRIORITY_MAX in *.
  destruct (Z.ltb_spec (p_priority b) 2); [|lia]. unfold PROCESS_PRIORITY_MAX, AGING_THRESHOLD in Hw. lia.
Qed.

Fixpoint aging_rounds (n : nat) : M (kstate MM) unit :=
  match n with O => mret tt | S n => apply_aging ;; aging_rounds n end.

Lemma aging_rounds_spec n p : forall s t L b,
  shows s L t -> sched_ok t L -> (exists pr, p ∈ L (Ready pr)) -> k_procs t !! p = Some b ->
  runs (aging_rounds n) s (fun _ s' => exists t' L' b',
    shows s' L' t' /\ sched_ok t' L' /\ (exists pr, p ∈ L' (Ready pr)) /\ k_procs t' !! p = Some b' /\
    as_old b b' /\ Z.min (seniority b + Z.of_nat n) top_seniority <= seniority b').
Proof.
  induction n as [|n IH]; intros s t L b H Hok Hp Hb.
  - apply runs_ret. exists t, L, b. split_and!; try done. lia.
  - apply runs_bind. eapply apply_aging_spec; [done|done|]. intros s1 t1 L1 H1 D.
    destruct (ad_proc _ _ _ _ _ D p b Hb) as (b1 & Hb1 & Ho & Hold).
    assert (older b b1) as [_ Hold1].
    { apply Hold. destruct Hp as [pr Hp]. exists pr. split; [|done].
      apply (queues_elem_valid _ _ (Ready pr) p (proj1 H) Hp). }
    eapply runs_mono; [apply (IH s1 t1 L1 b1); [done|apply D|by eapply ad_ready|done]|].
    intros _ s2 (t2 & L2 & b2 & ? & ? & ? & ? & Ho2 & ?). exists t2, L2, b2.
    split_and!; try done; [by etrans|]. lia.
Qed.
End SchedFacts.
