(* ===== verification/SchedSwitch.v ===== *)
(** * The switch of [schedule]

    Saving the context of the process that leaves the processor, choosing the
    next one and dispatching it, as functions on the abstract state of
    [SchedView]. *)
From S2P Require Import Prelude LinkedList CLib MmInterface KState ProcQueue SchedCore QueueFacts SchedView Pipe Process Scheduler SchedFacts.

Section SchedSwitch.
Context {MM : Type} {mmgr : MemManager MM}.
Implicit Types (s t : kstate MM) (q : qref) (l : list Z) (L : qref -> list Z).

(** The head of the highest ready queue that is not empty, or NULL. *)
Definition highest L : Z := first 0 (L (Ready 2) ++ L (Ready 1) ++ L (Ready 0)).
Definition drop_proc (p : Z) L : qref -> list Z := fun q => without p (L q).

Lemma highest_elem L : highest L <> 0 -> exists pr, 0 <= pr <= PROCESS_PRIORITY_MAX /\ highest L ∈ L (Ready pr).
Proof.
  intros Hn. unfold highest in *.
  assert (first 0 (L (Ready 2) ++ L (Ready 1) ++ L (Ready 0)) ∈ L (Ready 2) ++ L (Ready 1) ++ L (Ready 0)) as Hin.
  { apply first_elem. intros E. by rewrite E in Hn. }
  unfold PROCESS_PRIORITY_MAX. apply elem_of_app in Hin as [|[|]%elem_of_app]; [exists 2|exists 1|exists 0]; split; (lia || done).
Qed.

Lemma queues_nil_first s L q : queues s L -> first 0 (L q) = 0 -> L q = [].
Proof.
  intros H E. destruct (L q) as [|p l] eqn:El; [done|]. cbn in E. subst.
  exfalso. eapply (queues_nonnull s L q 0); [done|rewrite El; by left|done].
Qed.

Lemma shows_drop s L t q p l : shows s (upd L q l) t -> L q = p :: l -> queues s (upd L q l) ->
  (forall q', p ∉ upd L q l q') -> shows s (drop_proc p L) t.
Proof.
  intros Hs E H Hp. eapply shows_proper; [|reflexivity|exact Hs]. intros q'. unfold drop_proc.
  specialize (Hp q'). destruct (decide (q' = q)) as [->|Hne].
  - rewrite upd_eq in *. rewrite E. unfold without. rewrite filter_cons_False by tauto.
    symmetry. by apply (without_absent p l).
  - rewrite upd_ne in * by done. by rewrite without_absent.
Qed.

Lemma peek_spec s L t (Q : Z -> kstate MM -> Prop) :
  shows s L t -> Q (highest L) s -> runs (peek_highest priorities_down) s Q.
Proof.
  intros H HQ. unfold highest in HQ. cbn [peek_highest priorities_down].
  assert (forall pr k (R : Z -> kstate MM -> Prop), 0 <= pr <= PROCESS_PRIORITY_MAX ->
    (L (Ready pr) = [] -> runs k s R) -> (forall p l, L (Ready pr) = p :: l -> R p s) ->
    runs (q ← q_load (Ready pr); if ctrue (q_head q) then mret (q_head q) else k) s R) as Hq.
  { intros pr k R Hpr H1 H2. apply runs_bind. eapply shows_q_load; [exact H|done|]. intros h ->.
    unfold ctrue. destruct (Z.eqb_spec (first 0 (L (Ready pr))) 0) as [E|E]; cbn [negb].
    - apply H1. by eapply queues_nil_first; [apply H|].
    - apply runs_ret. destruct (L (Ready pr)) as [|p l]; [done|]. by eapply H2. }
  unfold PROCESS_PRIORITY_MAX in Hq.
  apply Hq; [done| |]; [intros E2; rewrite E2 in HQ|intros p l E2; by rewrite E2 in HQ].
  apply Hq; [done| |]; [intros E1; rewrite E1 in HQ|intros p l E1; by rewrite E1 in HQ].
  apply Hq; [done| |]; [intros E0; rewrite E0 in HQ|intros p l E0; by rewrite E0 in HQ].
  by apply runs_ret.
Qed.

Lemma pop_highest_spec s L t (Q : Z -> kstate MM -> Prop) :
  shows s L t -> (forall s', shows s' (drop_proc (highest L) L) t -> Q (highest L) s') ->
  runs ready_queue_pop_highest s Q.
Proof.
  intros H HQ. unfold ready_queue_pop_highest. cbn [pop_highest priorities_down].
  assert (forall pr (k : M (kstate MM) Z) (R : Z -> kstate MM -> Prop), 0 <= pr <= PROCESS_PRIORITY_MAX ->
    (L (Ready pr) = [] -> runs k s R) ->
    (forall p l s', L (Ready pr) = p :: l -> shows s' (drop_proc p L) t -> R p s') ->
    runs (p ← process_queue_pop (Ready pr); if ctrue p then mret p else k) s R) as Hq.
  { intros pr k R Hpr H1 H2. apply runs_bind. eapply shows_pop; [exact H|done|].
    destruct (L (Ready pr)) as [|p l] eqn:E; [by apply H1|]. intros s' H'.
    assert (p <> 0) as H0 by (eapply (queues_nonnull s L (Ready pr)); [apply H|rewrite E; by left]).
    unfold ctrue. rewrite (proj2 (Z.eqb_neq p 0) H0). apply runs_ret. eapply H2; [done|].
    eapply shows_drop; [done|done|apply H'|]. intros q'.
    pose proof (queues_NoDup _ _ (Ready pr) (proj1 H)) as Hn. rewrite E in Hn. apply NoDup_cons in Hn as [Hn _].
    destruct (decide (q' = Ready pr)) as [->|Hne]; [by rewrite upd_eq|]. rewrite upd_ne by done.
    intros Hx. apply Hne. eapply qs_disjoint; [apply H|done|rewrite E; by left]. }
  unfold highest, PROCESS_PRIORITY_MAX in *.
  apply Hq; [done| |]; [intros E2; rewrite E2 in HQ|intros p l s' E2; rewrite E2 in HQ; apply HQ].
  apply Hq; [done| |]; [intros E1; rewrite E1 in HQ|intros p l s' E1; rewrite E1 in HQ; apply HQ].
  apply Hq; [done| |]; [intros E0; rewrite E0 in HQ|intros p l s' E0; rewrite E0 in HQ; apply HQ].
  apply runs_ret, HQ. eapply shows_proper; [|reflexivity|exact H]. intros q. unfold drop_proc. symmetry.
  apply without_absent. intros Hx. by apply (queues_nonnull _ _ _ _ (proj1 H) Hx).
Qed.

(** ** Saving the context *)

Definition saved t (c rsp : Z) (b : process_t) : process_t :=
  let b1 := b <| p_rsp := rsp |> <| p_rbp := load64 (k_mem t) (rsp + 80) |> in
  if bool_decide (p_state b = PROCESS_STATE_RUNNING) && negb (c =? idle_p (k_sched t))
  then b1 <| p_state := PROCESS_STATE_READY |> <| p_priority := clamp_priority (p_priority b) |>
  else b1.
(** A process that was running goes to the tail of its ready queue, one that
    blocks to the tail of the blocked queue. *)
Definition requeued t (c : Z) (b : process_t) L : qref -> list Z :=
  match p_state b with
  | PROCESS_STATE_RUNNING =>
      if c =? idle_p (k_sched t) then L else let q := Ready (clamp_priority (p_priority b)) in upd L q (L q ++ [c])
  | PROCESS_STATE_BLOCKED => upd L Blocked (without c (L Blocked) ++ [c])
  | _ => L
  end.

Lemma save_context_spec s L t c b rsp (Q : unit -> kstate MM -> Prop) :
  shows s L t -> sched_ok t L -> k_procs t !! c = Some b -> p_state b <> PROCESS_STATE_FINISHED ->
  (forall s', shows s' (requeued t c b L) (t <| k_procs ::= <[c := saved t c rsp b]> |>) -> Q tt s') ->
  runs (save_context c rsp) s Q.
Proof.
  intros Hs Hok Hb Hnf HQ. unfold save_context, saved, requeued in *.
  assert (c <> 0) as H0 by (eapply shows_null; [done|by eexists]). rewrite (proj2 (Z.eqb_neq c 0) H0).
  apply runs_bind. eapply shows_pstore; [done|done|done|done|]. intros s1 H1.
  apply runs_bind. unfold mload. eapply shows_gets; [exact H1|done|].
  apply runs_bind. eapply shows_pstore; [exact H1|cbn; apply lookup_insert_eq|done|done|]. intros s2 H2. rewrite store_twice in H2.
  apply runs_bind. eapply shows_pload; [exact H2|cbn; apply lookup_insert_eq|]. intros b2 E2 _.
  apply (f_equal p_state) in E2. cbn in E2. rewrite E2.
  pose proof (fun q => so_out t L c b q Hok Hb) as Hout.
  destruct (p_state b) eqn:Est; try (apply runs_ret, HQ; exact H2); [| |done].
  - apply runs_bind. unfold gets_sched. eapply shows_gets; [exact H2|done|].
    match goal with |- context [c =? ?x] => change x with (idle_p (k_sched t)) end.
    destruct (c =? idle_p (k_sched t)) eqn:Ei; cbn [negb andb bool_decide decide_rel]; [by apply runs_ret, HQ|].
    apply runs_bind. eapply shows_pstore; [exact H2|cbn; apply lookup_insert_eq|done|done|]. intros s3 H3. rewrite store_twice in H3.
    eapply shows_ready_push; [exact H3|cbn; apply lookup_insert_eq| |].
    + intros q' _. by apply Hout.
    + intros s4 H4. rewrite store_twice in H4. apply HQ. cbn in H4. rewrite without_absent in H4 by (by apply Hout). exact H4.
  - eapply shows_push; [exact H2|done|cbn; rewrite lookup_insert_eq; by eexists| |exact HQ].
    intros q' Hq' Hx. apply Hq'. pose proof (so_fits _ _ Hok _ _ _ Hx Hb) as Hf.
    destruct q'; simpl in Hf; [destruct Hf|done|]; congruence.
Qed.

Lemma saved_ok t L c b rsp :
  sched_ok t L -> k_procs t !! c = Some b -> c = current (k_sched t) -> p_state b <> PROCESS_STATE_FINISHED ->
  sched_ok (t <| k_procs ::= <[c := saved t c rsp b]> |>) (requeued t c b L) /\
  (p_state (saved t c rsp b) = PROCESS_STATE_RUNNING -> c = idle_p (k_sched t)).
Proof.
  intros Hok Hb Hc Hnf. pose proof (so_sound _ _ Hok _ _ Hb) as Hsd.
  pose proof (fun q => so_out t L c b q Hok Hb) as Hout. pose proof (so_idle _ _ Hok) as (bi & Hbi & Esi).
  assert (forall q, c ∈ L q -> fits q b) as Hfit by (intros q Hq; by eapply so_fits).
  assert (c = idle_p (k_sched t) -> p_state b = PROCESS_STATE_RUNNING) as Hidle.
  { intros Ei. rewrite <- Ei, Hb in Hbi. by injection Hbi as <-. }
  assert (sound (saved t c rsp b)) as Hss.
  { unfold saved. case_match; [|exact Hsd]. unfold sound. cbn. rewrite clamp_small by apply Hsd. apply Hsd. }
  split.
  - apply (so_update t L); [done|done| | | |by intros _; left].
    + intros q x Hx. unfold requeued. destruct (p_state b); [done..| | |done].
      * destruct (c =? _); [done|]. unfold upd. case_decide; [|done]. subst.
        rewrite elem_of_app, list_elem_of_singleton. tauto.
      * unfold upd. case_decide; [|done]. subst. rewrite elem_of_app, elem_of_without, list_elem_of_singleton. tauto.
    + intros q. unfold requeued, saved.
      destruct (p_state b) eqn:Es; first [rewrite bool_decide_true by done|rewrite bool_decide_false by done]; cbn [andb negb].
      * intros Hq. by apply Hout in Hq.
      * intros Hq. apply Hfit in Hq. destruct q; cbn in Hq |- *; [destruct Hq; split; congruence|congruence..].
      * destruct (c =? _) eqn:Ei; cbn.
        -- intros Hq. by apply Hout in Hq.
        -- unfold upd. case_decide; [by subst|]. intros Hq. by apply Hout in Hq.
      * unfold upd. case_decide; [intros _; subst; done|]. intros Hq. apply Hfit in Hq.
        destruct q; cbn in Hq |- *; [destruct Hq; congruence|done|congruence].
      * done.
    + intros Ei. unfold saved. rewrite (Hidle Ei), Ei, Z.eqb_refl. cbn. auto.
  - unfold saved. destruct (bool_decide_reflect (p_state b = PROCESS_STATE_RUNNING)) as [E|E]; [|done].
    destruct (Z.eqb_spec c (idle_p (k_sched t))); [done|]. cbn. done.
Qed.

(** ** Dispatching *)

Definition chosen t L : Z := if highest L =? 0 then idle_p (k_sched t) else highest L.
(** A process that aging had raised falls back to its own priority. *)
Definition dispatched t (p : Z) (b : process_t) : process_t :=
  let b1 := b <| p_state := PROCESS_STATE_RUNNING |> <| p_wait_ticks := 0 |> in
  if negb (p =? idle_p (k_sched t)) && (p_priority b >? p_base_priority b)
  then b1 <| p_priority := p_base_priority b |> else b1.
Definition switched t (p : Z) (b : process_t) (now : Z) : kstate MM :=
  t <| k_procs ::= <[p := dispatched t p b]> |>
    <| k_sched ::= fun c => c <| current := p |> |> <| k_sched ::= fun c => c <| last_switch_tick := now |> |>.

Lemma chosen_proc s L t : shows s L t -> sched_ok t L -> exists b, k_procs t !! chosen t L = Some b.
Proof.
  intros H Hok. unfold chosen. destruct (Z.eqb_spec (highest L) 0) as [E|E].
  - destruct (so_idle _ _ Hok) as (b & Hb & _). eauto.
  - destruct (highest_elem L E) as (pr & _ & Hp). by eapply shows_elem.
Qed.

(** Up to the loop that collects. *)
Lemma switch_until_collect s L t b now (Q : Z -> kstate MM -> Prop) :
  shows s L t -> k_procs t !! chosen t L = Some b ->
  (forall s', shows s' (drop_proc (highest L) L) (switched t (chosen t L) b now) ->
     runs (collect (Z.to_nat MAX_FINISHED_COLLECT) ;; b ← pload (chosen t L); mret (p_rsp b)) s' Q) ->
  runs (switch_to_next now) s Q.
Proof.
  intros H Hb HQ. unfold switch_to_next. apply runs_bind. eapply pop_highest_spec; [exact H|]. intros s1 H1.
  apply runs_bind. unfold gets_sched. eapply shows_gets; [exact H1|done|]. fold (chosen t L).
  set (p := chosen t L) in *. cbv zeta.
  apply runs_bind. eapply shows_pstore; [exact H1|done|done|done|]. intros s2 H2.
  apply runs_bind. eapply shows_pstore; [exact H2|cbn; apply lookup_insert_eq|done|done|]. intros s3 H3. rewrite store_twice in H3.
  apply runs_bind. eapply shows_pload; [exact H3|cbn; apply lookup_insert_eq|]. intros b3 E3 _.
  assert (p_priority b3 = p_priority b /\ p_base_priority b3 = p_base_priority b) as [-> ->].
  { by split; [apply (f_equal p_priority) in E3|apply (f_equal p_base_priority) in E3]. }
  apply runs_bind. match goal with |- context [p =? ?x] => change x with (idle_p (k_sched t)) end.
  assert (forall R : unit -> kstate MM -> Prop,
    (forall s', shows s' (drop_proc (highest L) L) (t <| k_procs ::= <[p := dispatched t p b]> |>) -> R tt s') ->
    runs (when (negb (p =? idle_p (k_sched t)) && (p_priority b >? p_base_priority b))
      (pstore p (fun x => x <| p_priority := p_base_priority b |>))) s3 R) as Hw.
  { intros R HR. unfold dispatched in HR. destruct (negb _ && _).
    - eapply shows_pstore; [exact H3|cbn; apply lookup_insert_eq|done|done|]. intros s4 H4. rewrite store_twice in H4. by apply HR.
    - by apply runs_ret, HR. }
  apply Hw. clear Hw. intros s4 H4.
  apply runs_bind. eapply shows_modify; [exact H4|done..|]. intros s5 H5.
  apply runs_bind. eapply shows_modify; [exact H5|done..|]. intros s6 H6. by apply HQ.
Qed.

(** No process has finished. *)
Lemma switch_spec s L t b now (Q : Z -> kstate MM -> Prop) :
  shows s L t -> L Finished = [] -> k_procs t !! chosen t L = Some b ->
  (forall s', shows s' (drop_proc (highest L) L) (switched t (chosen t L) b now) -> Q (p_rsp b) s') ->
  runs (switch_to_next now) s Q.
Proof.
  intros H Hfin Hb HQ. eapply switch_until_collect; [exact H|exact Hb|]. intros s6 H6.
  apply runs_bind. simpl collect. unfold scheduler_collect_finished. apply runs_bind.
  eapply shows_pop; [exact H6|done|]. unfold drop_proc at 1. rewrite Hfin. cbn. apply runs_ret.
  apply runs_bind. eapply shows_pload; [exact H6|cbn; apply lookup_insert_eq|]. intros b7 E7 _.
  assert (p_rsp b7 = p_rsp b) as ->.
  { apply (f_equal p_rsp) in E7. unfold dispatched in E7. by destruct (negb _ && _). }
  apply runs_ret. by apply HQ.
Qed.

Lemma switched_ok s t L b now :
  shows s L t -> sched_ok t L -> k_procs t !! chosen t L = Some b ->
  (forall p b, k_procs t !! p = Some b -> p_state b = PROCESS_STATE_RUNNING -> p = idle_p (k_sched t)) ->
  sched_ok (switched t (chosen t L) b now) (drop_proc (highest L) L).
Proof.
  intros H Hok Hb Hrun. pose proof (so_sound _ _ Hok _ _ Hb) as Hsd.
  assert (forall q, chosen t L ∉ drop_proc (highest L) L q) as Hout.
  { intros q. unfold drop_proc, chosen. rewrite elem_of_without.
    destruct (Z.eqb_spec (highest L) 0) as [E|E]; [|tauto]. intros [Hx _]. by apply (so_idle_out t L q Hok). }
  assert (p_state (dispatched t (chosen t L) b) = PROCESS_STATE_RUNNING) as Ed.
  { unfold dispatched. by destruct (negb _ && _). }
  assert (sound (dispatched t (chosen t L) b)) as Hsn.
  { unfold dispatched, sound in *. destruct (negb _ && _); cbn; destruct Hsd as (? & ? & ?); split_and!; unfold AGING_THRESHOLD; lia. }
  destruct Hok as [K1 K2 K3 K4 K5]. split; cbn.
  - intros p b0. destruct (decide (p = chosen t L)) as [->|Hne].
    + rewrite lookup_insert_eq. by intros [= <-].
    + rewrite lookup_insert_ne by done. apply K1.
  - intros q p b0 Hp. rewrite lookup_insert_ne by (intros <-; by apply (Hout q)).
    apply K2. apply elem_of_without in Hp. apply Hp.
  - destruct (decide (idle_p (k_sched t) = chosen t L)) as [->|Hne].
    + rewrite lookup_insert_eq. eauto.
    + by rewrite lookup_insert_ne.
  - intros p b0. destruct (decide (p = chosen t L)) as [->|Hne]; [auto|].
    rewrite lookup_insert_ne by done. intros Hp Hr. right. by eapply Hrun.
  - rewrite lookup_insert_eq. by eexists.
Qed.
End SchedSwitch.
