(* ===== verification/SchedTheorems.v ===== *)
(** * What the scheduler promises

    [apply_aging] ends, moves processes upwards only and lets none starve; the
    timer's [schedule] refines an executable specification: requeue the running
    process at the tail of its queue, take the head of the highest queue. *)
From S2P Require Import Prelude LinkedList CLib MmInterface MmSimple KState ProcQueue SchedCore QueueFacts SchedView QueueTheorems Pipe Process Scheduler SchedFacts SchedSwitch.

Section Spec.
Context {MM : Type}.
Implicit Types (s t : kstate MM) (L : qref -> list Z).

Definition now_of t : Z := u64 (i32 (k_ticks t)).
Definition quantum_expired t : bool := u64 (now_of t - last_switch_tick (k_sched t)) >=? QUANTUM_TICKS.
Definition higher_ready t L (b : process_t) : bool :=
  if highest L =? 0 then false
  else match k_procs t !! highest L with Some bk => p_priority bk >? p_priority b | None => false end.
(** The running process [b] has to leave the processor. *)
Definition switch_due t L (b : process_t) : bool :=
  negb (bool_decide (p_state b = PROCESS_STATE_RUNNING)) || higher_ready t L b || quantum_expired t ||
  need_resched (k_sched t).

(** [schedule] after aging: the stack pointer, the state, the queues. *)
Definition spec_schedule t L (rsp : Z) : option (Z * kstate MM * (qref -> list Z)) :=
  let c := current (k_sched t) in
  b ← k_procs t !! c;
  if switch_due t L b then
    let t1 := t <| k_sched ::= fun d => d <| need_resched := false |> |> <| k_procs ::= <[c := saved t c rsp b]> |> in
    let L1 := requeued t c b L in
    bn ← k_procs t1 !! chosen t1 L1;
    Some (p_rsp bn, switched t1 (chosen t1 L1) bn (now_of t), drop_proc (highest L1) L1)
  else Some (rsp, t, L).
End Spec.

Section Theorems.
Context {MM : Type} {mmgr : MemManager MM}.
Implicit Types (s t : kstate MM) (L : qref -> list Z).

Lemma aged_sched t L t1 L1 : is_aged t L t1 L1 -> k_sched t1 = k_sched t /\ k_ticks t1 = k_ticks t.
Proof. intros D. by rewrite (ad_rest _ _ _ _ _ D). Qed.

Lemma sched_ok_resched t L b :
  sched_ok t L -> sched_ok (t <| k_sched ::= fun d => d <| need_resched := b |> |>) L.
Proof. intros [H1 H2 H3 H4 H5]. by split. Qed.

Lemma need_resched_spec s L t b (Q : unit -> kstate MM -> Prop) :
  shows s L t -> (forall s', shows s' L (t <| k_sched ::= fun d => d <| need_resched := b |> |>) -> Q tt s') ->
  runs (modify_sched (fun d => d <| need_resched := b |>)) s Q.
Proof. intros H HQ. unfold modify_sched. by eapply shows_modify; [exact H|done..|]. Qed.

(** The part of [schedule] that follows the decision to switch. *)
Lemma do_switch_spec s L t b rsp :
  shows s L t -> sched_ok t L -> L Finished = [] -> k_procs t !! current (k_sched t) = Some b ->
  p_state b <> PROCESS_STATE_FINISHED -> switch_due t L b = true ->
  runs (modify_sched (fun d => d <| need_resched := false |>) ;;
        save_context (current (k_sched t)) rsp ;; switch_to_next (now_of t)) s
    (fun r s' => exists t' L', spec_schedule t L rsp = Some (r, t', L') /\ shows s' L' t' /\ sched_ok t' L').
Proof.
  intros H Hok Hfin Hb Hnf Hdue. set (c := current (k_sched t)) in *.
  apply runs_bind. eapply need_resched_spec; [exact H|]. intros s1 H1.
  pose proof (sched_ok_resched _ _ false Hok) as Hok1.
  apply runs_bind. eapply save_context_spec; [exact H1|exact Hok1|exact Hb|done|]. intros s2 H2.
  destruct (saved_ok _ _ c b rsp Hok1 Hb eq_refl Hnf) as [Hok2 Hidle].
  destruct (chosen_proc _ _ _ H2 Hok2) as [bn Hbn].
  eapply switch_spec; [exact H2| |exact Hbn|].
  { unfold requeued. destruct (p_state b); try done. by case_match. }
  intros s3 H3. eexists _, _. split; [|split; [exact H3|]].
  - unfold spec_schedule. fold c. rewrite Hb. cbn [mbind option_bind]. rewrite Hdue.
    cbv zeta. change (saved (t <| k_sched ::= _ |>) c rsp b) with (saved t c rsp b) in *.
    change (requeued (t <| k_sched ::= _ |>) c b L) with (requeued t c b L) in *. by rewrite Hbn.
  - eapply switched_ok; [exact H2|exact Hok2|exact Hbn|]. intros p b0. cbn.
    destruct (decide (p = c)) as [->|Hne].
    + rewrite lookup_insert_eq. intros [= <-]. apply Hidle.
    + rewrite lookup_insert_ne by done. intros Hp Hr.
      destruct (so_running _ _ Hok p b0 Hp Hr) as [E|E]; [by rewrite E in Hne|done].
Qed.

(** [schedule] ages and decides; what a switch does is left to the caller. *)
Lemma schedule_decides s L t rsp (Q : Z -> kstate MM -> Prop) :
  shows s L t -> sched_ok t L ->
  (forall s1 t1 L1 b, shows s1 L1 t1 -> is_aged t L t1 L1 -> k_procs t1 !! current (k_sched t1) = Some b ->
     if switch_due t1 L1 b
     then runs (modify_sched (fun d => d <| need_resched := false |>) ;; save_context (current (k_sched t1)) rsp ;;
                switch_to_next (now_of t1)) s1 Q
     else Q rsp s1) ->
  runs (schedule rsp) s Q.
Proof.
  intros H Hok HQ. unfold schedule, gets_sched. apply runs_bind. eapply shows_gets; [exact H|done|].
  assert (current (k_sched t) <> 0) as Hc0 by (eapply shows_null; [done|apply Hok]).
  rewrite (proj2 (Z.eqb_neq _ _) Hc0).
  apply runs_bind. unfold ticks_elapsed. eapply shows_gets; [exact H|done|]. cbv zeta. fold (now_of t).
  apply runs_bind. eapply apply_aging_spec; [exact H|exact Hok|]. intros s1 t1 L1 H1 D.
  destruct (aged_sched _ _ _ _ D) as [Es Et].
  destruct (so_current _ _ Hok) as [b0 Hb0]. destruct (ad_proc _ _ _ _ _ D _ _ Hb0) as (b & Hb & _ & _).
  assert (now_of t = now_of t1) as -> by (unfold now_of; by rewrite Et). rewrite <- Es in Hb |- *.
  specialize (HQ s1 t1 L1 b H1 D Hb). set (c := current (k_sched t1)) in *.
  apply runs_bind. eapply shows_gets; [exact H1|done|].
  apply runs_bind. eapply shows_pload; [exact H1|exact Hb|]. intros b1 E1 _.
  assert (p_state b1 = p_state b /\ p_priority b1 = p_priority b) as [-> ->] by by subst b.
  apply runs_bind. eapply peek_spec; [exact H1|].
  assert (forall R : bool -> kstate MM -> Prop, R (higher_ready t1 L1 b) s1 ->
    runs (if highest L1 =? 0 then mret false
          else bk ← pload (highest L1); mret (p_priority bk >? p_priority b)) s1 R) as Hhigher.
  { intros R HR. unfold higher_ready in HR. destruct (Z.eqb_spec (highest L1) 0) as [|Hne]; [by apply runs_ret|].
    destruct (highest_elem L1 Hne) as (pr & _ & Hp). destruct (shows_elem _ _ _ _ _ H1 Hp) as [bk Hbk].
    apply runs_bind. eapply shows_pload; [exact H1|exact Hbk|]. intros b2 E2 _. rewrite Hbk in HR.
    apply runs_ret. by subst bk. }
  apply runs_bind, Hhigher. apply runs_bind. eapply shows_gets; [exact H1|done|].
  fold (quantum_expired t1). fold (switch_due t1 L1 b). destruct (switch_due t1 L1 b); cbn [negb]; [exact HQ|by apply runs_ret].
Qed.

Lemma schedule_spec s L t rsp (Q : Z -> kstate MM -> Prop) :
  shows s L t -> sched_ok t L -> L Finished = [] ->
  (forall b, k_procs t !! current (k_sched t) = Some b -> p_state b <> PROCESS_STATE_FINISHED) ->
  (forall r s' t1 L1 t' L', is_aged t L t1 L1 -> spec_schedule t1 L1 rsp = Some (r, t', L') ->
     shows s' L' t' -> sched_ok t' L' -> Q r s') ->
  runs (schedule rsp) s Q.
Proof.
  intros H Hok Hfin Hnf HQ. eapply schedule_decides; [exact H|exact Hok|]. intros s1 t1 L1 b H1 D Hb.
  destruct (aged_sched _ _ _ _ D) as [Es _]. destruct (so_current _ _ Hok) as [b0 Hb0].
  assert (p_state b <> PROCESS_STATE_FINISHED) as Hnf1.
  { destruct (ad_proc _ _ _ _ _ D _ _ Hb0) as (b' & Hb' & (Hab & _) & _). rewrite <- Es, Hb in Hb'. injection Hb' as <-.
    apply (f_equal p_state) in Hab. cbn in Hab. rewrite Hab. by apply Hnf. }
  destruct (switch_due t1 L1 b) eqn:Edue.
  - eapply runs_mono; [eapply do_switch_spec; [exact H1|apply D| |exact Hb|done|done]|].
    + rewrite (ad_other _ _ _ _ _ D); done.
    + intros r s' (t' & L' & E & H' & Hok'). by eapply HQ.
  - eapply HQ; [exact D| |exact H1|apply D]. unfold spec_schedule. rewrite Hb. cbn [mbind option_bind]. by rewrite Edue.
Qed.

(** C2: [schedule] refines its specification while no process has ended (the one
    that runs is not finished, and the queue of finished processes is empty; the
    end of a process is [SchedCollect.schedule_collects]).  With well-formed queues
    a timer interrupt ages the ready processes, decides whether the running
    one must leave (it is not running any more, a process of higher priority is
    ready, its quantum is over, or a reschedule was asked for), and if so saves
    its stack pointer, puts it at the tail of the queue of its priority (the
    blocked queue when it blocks), and returns the saved stack pointer of the
    head of the highest ready queue, or of the idle process when all are empty.
    The invariant of the scheduler holds again after it. *)
Theorem schedule_refines_spec s L t rsp :
  shows s L t -> sched_ok t L -> L Finished = [] ->
  (forall b, k_procs t !! current (k_sched t) = Some b -> p_state b <> PROCESS_STATE_FINISHED) ->
  runs (schedule rsp) s (fun r s' => exists t1 L1 t' L',
    is_aged t L t1 L1 /\ spec_schedule t1 L1 rsp = Some (r, t', L') /\ shows s' L' t' /\ sched_ok t' L').
Proof.
  intros H Hok Hfin Hnf. eapply schedule_spec; [exact H|done..|].
  intros r s' t1 L1 t' L' D E H' Hok'. by exists t1, L1, t', L'.
Qed.

(** C29: aging ends and only helps.  [apply_aging] terminates on well-formed
    queues, keeps the scheduler's invariant and the set of ready processes,
    changes nothing of the others, and makes every ready process older: it has
    waited one tick more, or has been raised to the next priority. *)
Theorem aging_advances s L t :
  shows s L t -> sched_ok t L ->
  runs apply_aging s (fun _ s' => exists t' L', shows s' L' t' /\ sched_ok t' L' /\
    (forall p, (exists pr, p ∈ L' (Ready pr)) <-> (exists pr, p ∈ L (Ready pr))) /\
    (forall p, (forall pr, p ∉ L (Ready pr)) -> k_procs t' !! p = k_procs t !! p) /\
    (forall p b pr, p ∈ L (Ready pr) -> k_procs t !! p = Some b ->
       exists b', k_procs t' !! p = Some b' /\ older b b')).
Proof.
  intros H Hok. eapply apply_aging_spec; [done|done|]. intros s' t' L' H' D. exists t', L'.
  split_and!; [done|apply D|apply D|apply D|]. intros p b pr Hp Hb.
  destruct (ad_proc _ _ _ _ _ D p b Hb) as (b' & Hb' & _ & Ho). exists b'. split; [done|]. apply Ho.
  exists pr. split; [|done]. apply (queues_elem_valid _ _ _ _ (proj1 H) Hp).
Qed.

(** C28: no ready process starves.  After 400 rounds of aging in which a process
    stays ready, whatever its priority was, it has the highest. *)
Theorem aging_prevents_starvation s L t p b pr n :
  shows s L t -> sched_ok t L -> p ∈ L (Ready pr) -> k_procs t !! p = Some b -> 400 <= Z.of_nat n ->
  runs (aging_rounds n) s (fun _ s' => exists t' L' b', shows s' L' t' /\ sched_ok t' L' /\
    k_procs t' !! p = Some b' /\ p_priority b' = PROCESS_PRIORITY_MAX /\ p ∈ L' (Ready PROCESS_PRIORITY_MAX)).
Proof.
  intros H Hok Hp Hb Hn. eapply runs_mono; [by eapply aging_rounds_spec; eauto|].
  intros _ s' (t' & L' & b' & H' & Hok' & [pr' Hp'] & Hb' & _ & Hs). exists t', L', b'.
  pose proof (so_sound _ _ Hok _ _ Hb) as (Hpb & _ & Hw).
  assert (p_priority b' = PROCESS_PRIORITY_MAX) as E.
  { apply seniority_top; [by eapply so_sound|]. etrans; [|exact Hs]. unfold seniority, top_seniority in *.
    unfold PROCESS_PRIORITY_MAX, AGING_THRESHOLD in *. destruct (Z.ltb_spec (p_priority b) 2); lia. }
  split_and!; try done. rewrite <- E. pose proof (so_fits _ _ Hok' _ _ _ Hp' Hb') as Hf.
  cbn in Hf. by destruct Hf as [_ <-].
Qed.
End Theorems.

(** ** A system of three processes

    The idle process runs; two processes are ready, one of them close to its
    promotion. *)

Definition demo_ready : kstate mm :=
  kernel_boot mm_boot demo_mode
    <| k_procs := list_to_map
         [(0x1000, demo_process 1 1 0 PROCESS_STATE_RUNNING);
          (0x2000, demo_process 2 1 0 PROCESS_STATE_READY <| p_rsp := 0x8000 |>);
          (0x3000, demo_process 3 0 199 PROCESS_STATE_READY <| p_rsp := 0x7000 |>)] |>
    <| k_ticks := 100 |>
    <| k_sched ::= fun c => c <| current := 0x1000 |> <| idle_p := 0x1000 |> |>.
Definition demo_lists : qref -> list Z :=
  (spec_ops [OpPush (Ready 1) 0x2000; OpPush (Ready 0) 0x3000] (fun _ => [])).2.
Definition demo_sched : kstate mm :=
  after (run_ops [OpPush (Ready 1) 0x2000; OpPush (Ready 0) 0x3000]) demo_ready.

Lemma demo_ready_queues : queues demo_ready (fun _ => []).
Proof.
  apply queues_empty; try reflexivity.
  apply (bool_decide_unpack (map_Forall _ _)). vm_compute. exact I.
Qed.

Lemma demo_sched_shows : shows demo_sched demo_lists (strip demo_ready).
Proof.
  pose proof (run_ops_shows [OpPush (Ready 1) 0x2000; OpPush (Ready 0) 0x3000] demo_ready _ demo_ready_queues) as H.
  apply runs_after in H as (rs & _ & H); [exact H|]. simpl. unfold op_ok.
  split_and!; try done; try (eexists; vm_compute; reflexivity).
  - intros q' _. apply not_elem_of_nil.
  - intros q' _. unfold upd. case_decide; [|apply not_elem_of_nil]. by intros ?%list_elem_of_singleton.
Qed.

Lemma demo_sched_ok : sched_ok (strip demo_ready) demo_lists.
Proof.
  split.
  - apply (bool_decide_unpack (map_Forall (fun _ b => sound b) (k_procs (strip demo_ready)))). vm_compute. exact I.
  - intros q p b Hp. unfold demo_lists in Hp. cbn in Hp. unfold upd in Hp. repeat case_decide; subst; try discriminate; cbn in Hp.
    + apply list_elem_of_singleton in Hp as ->. vm_compute. by intros [= <-].
    + apply list_elem_of_singleton in Hp as ->. vm_compute. by intros [= <-].
    + by apply elem_of_nil in Hp.
  - eexists. split; vm_compute; reflexivity.
  - intros p b Hp Hr. left.
    assert (map_Forall (fun p b => p_state b = PROCESS_STATE_RUNNING -> p = 0x1000) (k_procs (strip demo_ready))) as Hm.
    { apply (bool_decide_unpack _). vm_compute. exact I. }
    by apply (Hm p b).
  - eexists. vm_compute. reflexivity.
Qed.

Lemma schedule_refines_spec_witness :
  runs (schedule (H := simple_manager 0) 0x9000) demo_sched (fun r s' => exists t1 L1 t' L',
    is_aged (strip demo_ready) demo_lists t1 L1 /\ spec_schedule t1 L1 0x9000 = Some (r, t', L') /\
    shows s' L' t' /\ sched_ok t' L').
Proof.
  apply (schedule_refines_spec demo_sched demo_lists (strip demo_ready) 0x9000 demo_sched_shows demo_sched_ok).
  - reflexivity.
  - vm_compute. by intros b [= <-].
Defined.

Lemma aging_advances_witness :
  runs apply_aging demo_sched (fun _ s' => exists t' L', shows s' L' t' /\ sched_ok t' L' /\
    (forall p, (exists pr, p ∈ L' (Ready pr)) <-> (exists pr, p ∈ demo_lists (Ready pr))) /\
    (forall p, (forall pr, p ∉ demo_lists (Ready pr)) -> k_procs t' !! p = k_procs (strip demo_ready) !! p) /\
    (forall p b pr, p ∈ demo_lists (Ready pr) -> k_procs (strip demo_ready) !! p = Some b ->
       exists b', k_procs t' !! p = Some b' /\ older b b')).
Proof. exact (aging_advances demo_sched demo_lists (strip demo_ready) demo_sched_shows demo_sched_ok). Defined.

Lemma aging_prevents_starvation_witness :
  runs (aging_rounds 400) demo_sched (fun _ s' => exists t' L' b', shows s' L' t' /\ sched_ok t' L' /\
    k_procs t' !! 0x2000 = Some b' /\ p_priority b' = PROCESS_PRIORITY_MAX /\
    0x2000 ∈ L' (Ready PROCESS_PRIORITY_MAX)).
Proof.
  eapply (aging_prevents_starvation demo_sched demo_lists (strip demo_ready) 0x2000 _ 1 400 demo_sched_shows demo_sched_ok).
  - by left.
  - vm_compute. reflexivity.
  - lia.
Defined.
