(* ===== verification/SemFacts.v ===== *)
(** * The waiting lists of the semaphores

    [sems_ok t W]: the waiters of the slot [i] are the processes [W i], first
    come first; all of them are blocked; a semaphore with units has no waiter. *)
From S2P Require Import Prelude LinkedList KState ProcQueue SchedCore QueueFacts SchedView Semaphore Scheduler SchedFacts.

Lemma list_alter_is_insert {A} (f : A -> A) (l : list A) i x : l !! i = Some x -> alter f i l = <[i := f x]> l.
Proof. revert i. induction l as [|y l IH]; intros [|i]; simpl; try done; [by intros [= ->]|]. intros Hx. f_equal. by apply IH. Qed.

Section SemFacts.
Context {MM : Type}.
Implicit Types (s t : kstate MM) (q : qref) (l : list Z) (L : qref -> list Z) (W : nat -> list Z).

(** ** The rules of [SchedView] for semaphores *)

Lemma shows_sload s L t i x (Q : semaphore_t -> kstate MM -> Prop) :
  shows s L t -> k_sems t !! i = Some x -> Q x s -> runs (sload i) s Q.
Proof. intros [_ <-] Hx HQ. by eapply runs_gets_opt. Qed.

Lemma shows_sstore s L t i x f (Q : unit -> kstate MM -> Prop) :
  shows s L t -> k_sems t !! i = Some x ->
  (forall s', shows s' L (t <| k_sems ::= <[i := f x]> |>) -> Q tt s') -> runs (sstore i f) s Q.
Proof.
  intros H Hx HQ. apply runs_bind. eapply shows_sload; [exact H|exact Hx|].
  eapply shows_modify; [exact H|done..|]. intros s' H'. apply HQ.
  replace (t <| k_sems ::= <[i := f x]> |>) with (t <| k_sems ::= alter f i |>); [done|].
  unfold set_field, set_k_sems. f_equal. by apply list_alter_is_insert.
Qed.

Lemma sems_twice t i x x' :
  t <| k_sems ::= <[i := x]> |> <| k_sems ::= <[i := x']> |> = t <| k_sems ::= <[i := x']> |>.
Proof. unfold set_field, set_k_sems. cbn. f_equal. apply list_insert_insert_eq. Qed.

(** ** Waking a process up *)

Definition readied (b : process_t) : process_t :=
  b <| p_state := PROCESS_STATE_READY |> <| p_priority := clamp_priority (p_priority b) |>.
Definition with_resched t (r : bool) : kstate MM := t <| k_sched ::= fun c => c <| need_resched := r |> |>.

Lemma with_resched_id t : with_resched t (need_resched (k_sched t)) = t.
Proof. by destruct t as [? ? ? ? [] ? ? ? ? ? ? ?]. Qed.

Lemma unblock_spec s L t w b bc (Q : unit -> kstate MM -> Prop) :
  let pr := clamp_priority (p_priority b) in
  let L' := upd (upd L Blocked (without w (L Blocked))) (Ready pr) (L (Ready pr) ++ [w]) in
  shows s L t -> sched_ok t L -> k_procs t !! w = Some b -> p_state b = PROCESS_STATE_BLOCKED ->
  k_procs t !! current (k_sched t) = Some bc ->
  (forall s' r, shows s' L' (with_resched (t <| k_procs ::= <[w := readied b]> |>) r) -> Q tt s') ->
  runs (scheduler_unblock_process w) s Q.
Proof.
  intros pr L' H Hok Hb Hst Hbc HQ. unfold scheduler_unblock_process.
  assert (w <> 0) as H0 by (eapply shows_null; [done|by eexists]). rewrite (proj2 (Z.eqb_neq w 0) H0).
  assert (forall q, q <> Blocked -> w ∉ L q) as Hout.
  { intros q Hq Hx. pose proof (so_fits _ _ Hok _ _ _ Hx Hb) as Hf. apply Hq.
    destruct q; cbn in Hf; [destruct Hf; congruence|done|congruence]. }
  apply runs_bind. eapply shows_pload; [exact H|exact Hb|]. intros b1 E1 _.
  assert (p_state b1 = PROCESS_STATE_BLOCKED) as -> by by subst b.
  rewrite bool_decide_true by done. apply runs_bind. eapply shows_remove; [exact H|done|]. intros s2 H2.
  apply runs_bind. eapply shows_pstore; [exact H2|exact Hb|done|done|]. intros s3 H3.
  apply runs_bind. eapply shows_ready_push; [exact H3|cbn; apply lookup_insert_eq| |].
  { intros q' _. unfold upd. case_decide as E; [subst; rewrite elem_of_without; tauto|by apply Hout]. }
  intros s4 H4. rewrite store_twice in H4.
  change (clamp_priority (p_priority (b <| p_state := PROCESS_STATE_READY |>))) with pr in H4.
  rewrite (upd_ne L Blocked _ (Ready pr)) in H4 by done.
  rewrite (without_absent w (L (Ready pr))) in H4 by by apply Hout. change (shows s4 L' (t <| k_procs ::= <[w := readied b]> |>)) in H4.
  unfold resched_if_higher, gets_sched. apply runs_bind. eapply shows_gets; [exact H4|done|].
  change (current (k_sched (t <| k_procs ::= _ |>))) with (current (k_sched t)).
  assert (current (k_sched t) <> 0) as Hc by (eapply shows_null; [exact H|by eexists]).
  rewrite (proj2 (Z.eqb_neq _ 0) Hc).
  apply runs_bind. eapply shows_pload; [exact H4|cbn; apply lookup_insert_eq|]. intros b4 _ _.
  assert (exists bc', k_procs (t <| k_procs ::= <[w := readied b]> |>) !! current (k_sched t) = Some bc') as [bc' Hbc'].
  { cbn. destruct (decide (current (k_sched t) = w)) as [->|]; [rewrite lookup_insert_eq|rewrite lookup_insert_ne by done]; eauto. }
  apply runs_bind. eapply shows_pload; [exact H4|exact Hbc'|]. intros b5 _ _.
  apply runs_when; intros _.
  - unfold modify_sched. eapply shows_modify; [exact H4|done..|]. intros s5 H5. by apply (HQ s5 true).
  - apply (HQ s4 (need_resched (k_sched t))).
    by change (need_resched (k_sched t)) with (need_resched (k_sched (t <| k_procs ::= <[w := readied b]> |>))); rewrite with_resched_id.
Qed.

Lemma readied_ok t L w b r :
  let pr := clamp_priority (p_priority b) in
  let L' := upd (upd L Blocked (without w (L Blocked))) (Ready pr) (L (Ready pr) ++ [w]) in
  sched_ok t L -> k_procs t !! w = Some b -> p_state b = PROCESS_STATE_BLOCKED ->
  sched_ok (with_resched (t <| k_procs ::= <[w := readied b]> |>) r) L'.
Proof.
  intros pr L' Hok Hb Hst.
  assert (forall q, q <> Blocked -> w ∉ L q) as Hout.
  { intros q Hq Hx. pose proof (so_fits _ _ Hok _ _ _ Hx Hb) as Hf. apply Hq.
    destruct q; cbn in Hf; [destruct Hf; congruence|done|congruence]. }
  assert (sched_ok (t <| k_procs ::= <[w := readied b]> |>) L') as [K1 K2 K3 K4 K5]; [|by split].
  eapply so_update; [exact Hok| | | | |done].
  - pose proof (so_sound _ _ Hok _ _ Hb) as Hs. unfold sound, readied in *. cbn. by rewrite clamp_small by apply Hs.
  - intros q x Hx. unfold L', upd. repeat case_decide; subst; [| |done].
    + rewrite elem_of_app, list_elem_of_singleton. tauto.
    + rewrite elem_of_without. tauto.
  - intros q. unfold L', upd. repeat case_decide; subst; [done|rewrite elem_of_without; tauto|].
    intros Hx. by apply Hout in Hx.
  - intros ->. destruct (so_idle _ _ Hok) as (bi & Hbi & E). rewrite Hb in Hbi. injection Hbi as <-. congruence.
Qed.

(** ** One list of waiters *)

Definition nxt t (p : Z) : option Z := p_sem_waiter_next <$> k_procs t !! p.
Record wlist t (x : semaphore_t) (ws : list Z) : Prop := {
  wl_head : sem_wait_head x = first 0 ws;
  wl_tail : sem_wait_tail x = final 0 ws;
  wl_next : sll (nxt t) ws 0;
  wl_nodup : NoDup (0 :: ws) }.

(** The control block without what a semaphore writes. *)
Definition unwait (b : process_t) : process_t := b <| p_sem_waiter_next := 0 |> <| p_waiting_on_sem := 0 |>.
Definition wframe t t' : Prop :=
  (forall y, unwait <$> k_procs t' !! y = unwait <$> k_procs t !! y) /\ k_sched t' = k_sched t.

Lemma wframe_proc t t' y b : wframe t t' -> k_procs t !! y = Some b ->
  exists b', k_procs t' !! y = Some b' /\ unwait b' = unwait b.
Proof. intros [Hy _] Hb. specialize (Hy y). rewrite Hb in Hy. apply fmap_Some in Hy as (b' & ? & ?). eauto. Qed.
#[export] Instance wframe_preorder : PreOrder wframe.
Proof. split; [done|]. intros t1 t2 t3 [H1 E1] [H2 E2]. split; [intros y; by rewrite H2|congruence]. Qed.
Lemma wframe_sym t t' : wframe t t' -> wframe t' t.
Proof. intros [H E]. by split. Qed.

Lemma wframe_ok t t' L : wframe t t' -> sched_ok t L -> sched_ok t' L.
Proof.
  intros Hf [H1 H2 H3 H4 H5]. pose proof (proj2 Hf) as E.
  assert (Hb : forall p b', k_procs t' !! p = Some b' -> exists b, k_procs t !! p = Some b /\ unwait b = unwait b').
  { intros p b'. apply wframe_proc. by apply wframe_sym. }
  assert (forall b b', unwait b = unwait b' -> sound b -> sound b') as Hs.
  { intros b b' Eu. pose proof (f_equal p_priority Eu) as E1. pose proof (f_equal p_base_priority Eu) as E2.
    pose proof (f_equal p_wait_ticks Eu) as E3. cbn in E1, E2, E3. unfold sound. by rewrite E1, E2, E3. }
  split; rewrite ?E.
  - intros p b' Hp. destruct (Hb p b' Hp) as (b & Hb0 & Eu). by eapply Hs, H1.
  - intros q p b' Hq Hp. destruct (Hb p b' Hp) as (b & Hb0 & Eu). pose proof (H2 q p b Hq Hb0) as Hf2.
    pose proof (f_equal p_state Eu) as E1. pose proof (f_equal p_priority Eu) as E2. cbn in E1, E2.
    destruct q; cbn in *; [rewrite <- E1, <- E2|rewrite <- E1..]; done.
  - destruct H3 as (b & Hb0 & Es). destruct (wframe_proc _ _ _ _ Hf Hb0) as (b' & Hb' & Eu).
    exists b'. split; [done|]. apply (f_equal p_state) in Eu. cbn in Eu. congruence.
  - intros p b' Hp Hr. destruct (Hb p b' Hp) as (b & Hb0 & Eu). apply (H4 p b Hb0).
    apply (f_equal p_state) in Eu. cbn in Eu. congruence.
  - destruct H5 as [b Hb0]. destruct (wframe_proc _ _ _ _ Hf Hb0) as (b' & Hb' & _). by eexists.
Qed.

Lemma nxt_insert t p b y : nxt (t <| k_procs ::= <[p := b]> |>) y = if decide (y = p) then Some (p_sem_waiter_next b) else nxt t y.
Proof.
  unfold nxt. cbn. case_decide; [subst; by rewrite lookup_insert_eq|by rewrite lookup_insert_ne].
Qed.

Lemma wframe_insert t p b b' : k_procs t !! p = Some b -> unwait b' = unwait b ->
  wframe t (t <| k_procs ::= <[p := b']> |>).
Proof.
  intros Hb Hu. split; [|done]. intros y. cbn. destruct (decide (y = p)) as [->|].
  - rewrite lookup_insert_eq, Hb. simpl. by rewrite Hu.
  - by rewrite lookup_insert_ne.
Qed.
Lemma wframe_sems t i x : wframe t (t <| k_sems ::= <[i := x]> |>).
Proof. done. Qed.

(** [t'] differs from [t] in the slot [i] and in what the semaphores write. *)
Record waits t t' (i : nat) (x' : semaphore_t) (ps : list Z) : Prop := {
  wt_sems : k_sems t' = <[i := x']> (k_sems t);
  wt_frame : wframe t t';
  wt_other : forall y, y ∉ ps -> k_procs t' !! y = k_procs t !! y;
  wt_rest : t' = t <| k_procs := k_procs t' |> <| k_sems := k_sems t' |> }.

Lemma enqueue_spec s L t i x ws p b (Q : unit -> kstate MM -> Prop) :
  shows s L t -> k_sems t !! i = Some x -> wlist t x ws -> p ∉ ws -> k_procs t !! p = Some b ->
  (forall s' t', let x' := x <| sem_wait_tail := p |> <| sem_wait_head := first p ws |> in
     shows s' L t' -> waits t t' i x' (p :: ws) -> wlist t' x' (ws ++ [p]) ->
     (exists b', k_procs t' !! p = Some b' /\ b' = b <| p_sem_waiter_next := 0 |>) -> Q tt s') ->
  runs (enqueue_waiter i p) s Q.
Proof.
  intros H Hx [Wh Wt Wn Wd] Hp Hb HQ. unfold enqueue_waiter.
  pose proof Wd as [W0 Wd']%NoDup_cons. assert (p <> 0) as Hp0 by (eapply shows_null; [done|by eexists]).
  apply runs_bind. eapply shows_pstore; [exact H|exact Hb|done|done|]. intros s1 H1.
  apply runs_bind. eapply shows_sload; [exact H1|exact Hx|]. rewrite Wh, Wt.
  assert (NoDup (0 :: ws ++ [p])) as Hnd.
  { rewrite app_comm_cons. apply NoDup_app. split; [done|]. split; [|apply NoDup_singleton].
    intros y Hy ->%list_elem_of_singleton. by apply elem_of_cons in Hy as [|]. }
  destruct (Z.eqb_spec (first 0 ws) 0) as [E|E].
  - apply first_zero in E; [|done]. subst ws. eapply shows_sstore; [exact H1|exact Hx|]. intros s2 H2.
    eapply (HQ s2 _ H2); [split| |].
    + done.
    + etrans; [by apply (wframe_insert t p b (b <| p_sem_waiter_next := 0 |>))|apply wframe_sems].
    + intros y Hy. cbn. rewrite lookup_insert_ne; [done|]. intros ->. apply Hy. by left.
    + by destruct t.
    + split; [done..| |done]. split; [|done]. etrans; [apply nxt_insert|]. by rewrite decide_True.
    + cbn. rewrite lookup_insert_eq. eauto.
  - assert (ws <> []) as Hne by (intros ->; done). pose proof (final_elem 0 ws Hne) as Hf.
    assert (final 0 ws <> p) as Hfp by (intros E'; apply Hp; by rewrite <- E').
    assert (exists v, nxt t (final 0 ws) = Some v) as [v Hv].
    { destruct ws as [|y l _] using rev_ind; [done|]. rewrite final_snoc.
      apply sll_app in Wn as [_ [Wn _]]. eauto. }
    unfold nxt in Hv. apply fmap_Some in Hv as (bf & Hbf & _).
    apply runs_bind. eapply shows_pstore; [exact H1|cbn; rewrite lookup_insert_ne by done; exact Hbf|done|done|]. intros s2 H2.
    eapply shows_sstore; [exact H2|exact Hx|]. intros s3 H3.
    assert (x <| sem_wait_tail := p |> = x <| sem_wait_tail := p |> <| sem_wait_head := first p ws |>) as Ex.
    { destruct x. cbn in *. unfold set_sem_wait_head, set_sem_wait_tail. cbn. f_equal. rewrite Wh. by destruct ws. }
    rewrite Ex in H3. eapply (HQ s3 _ H3); [split| |].
    + done.
    + etrans; [by apply (wframe_insert t p b (b <| p_sem_waiter_next := 0 |>))|].
      etrans; [|apply wframe_sems]. eapply wframe_insert; [cbn; rewrite lookup_insert_ne by done; exact Hbf|done].
    + intros y [Hyp Hy]%not_elem_of_cons. cbn. rewrite !lookup_insert_ne; [done|done|].
      intros E1. apply Hy. by rewrite <- E1.
    + by destruct t.
    + split; [cbn; by destruct ws|by rewrite final_snoc| |done].
      destruct ws as [|y l _] using rev_ind; [done|]. rewrite final_snoc in *.
      apply sll_app in Wn as [Wn1 _]. rewrite <- app_assoc. apply sll_app. split.
      * eapply sll_ext; [exact Wn1|]. intros z Hz.
        assert (z <> p) by (intros ->; apply Hp; rewrite elem_of_app; by left).
        assert (z <> y) by (intros ->; apply NoDup_app in Wd' as (_ & Hd & _); apply (Hd y Hz); by left).
        etrans; [apply nxt_insert|]. rewrite decide_False by done. etrans; [apply nxt_insert|]. by rewrite decide_False.
      * split; [|split; [|done]].
        -- etrans; [apply nxt_insert|]. by rewrite decide_True.
        -- etrans; [apply nxt_insert|]. rewrite decide_False by done. etrans; [apply nxt_insert|]. by rewrite decide_True.
    + cbn. rewrite lookup_insert_ne, lookup_insert_eq by done. eauto.
Qed.

Lemma dequeue_spec s L t i x w ws (Q : Z -> kstate MM -> Prop) :
  shows s L t -> k_sems t !! i = Some x -> wlist t x (w :: ws) ->
  (forall s' t' x' b, shows s' L t' -> waits t t' i x' [w] -> wlist t' x' ws -> w <> 0 ->
     sem_value x' = sem_value x -> sem_used x' = sem_used x -> sem_id x' = sem_id x -> sem_lock x' = sem_lock x ->
     k_procs t !! w = Some b -> k_procs t' !! w = Some (b <| p_sem_waiter_next := 0 |>) -> Q w s') ->
  runs (dequeue_waiter i) s Q.
Proof.
  intros H Hx [Wh Wt [Wn1 Wn2] [W0 [Ww Wd]%NoDup_cons]%NoDup_cons] HQ. cbn [first] in *.
  unfold dequeue_waiter. apply not_elem_of_cons in W0 as [Hw0 W0].
  apply runs_bind. eapply shows_sload; [exact H|exact Hx|]. rewrite Wh. change (first 0 (w :: ws)) with w.
  rewrite (proj2 (Z.eqb_neq w 0)) by congruence.
  apply fmap_Some in Wn1 as (b & Hb & Eb).
  apply runs_bind. eapply shows_pload; [exact H|exact Hb|]. intros b1 E1 _.
  assert (p_sem_waiter_next b1 = first 0 ws) as -> by (rewrite Eb, <- E1; done).
  apply runs_bind. eapply shows_sstore; [exact H|exact Hx|]. intros s2 H2.
  assert ((i < length (k_sems t))%nat) as Hi by (by eapply lookup_lt_Some).
  apply runs_bind. eapply shows_sload; [exact H2|cbn; by apply list_lookup_insert_eq|]. cbn [sem_wait_head].
  assert (Hafter : forall (R : unit -> kstate MM -> Prop),
    (forall s' x', shows s' L (t <| k_sems ::= <[i := x']> |>) -> sem_wait_head x' = first 0 ws ->
       sem_wait_tail x' = final 0 ws -> sem_value x' = sem_value x -> sem_used x' = sem_used x ->
       sem_id x' = sem_id x -> sem_lock x' = sem_lock x -> R tt s') ->
    runs (when (sem_wait_head (x <| sem_wait_head := first 0 ws |>) =? 0) (sstore i (fun x => x <| sem_wait_tail := 0 |>))) s2 R).
  { intros R HR. cbn. destruct (Z.eqb_spec (first 0 ws) 0) as [E|E].
    - eapply shows_sstore; [exact H2|cbn; by apply list_lookup_insert_eq|]. intros s3 H3. rewrite sems_twice in H3.
      eapply HR; [exact H3|done| |done..]. cbn. apply first_zero in E; [|done]. by subst.
    - apply runs_ret. eapply HR; [exact H2|done| |done..]. cbn. rewrite Wt. destruct ws as [|y l _] using rev_ind; [done|].
      by rewrite app_comm_cons, !final_snoc. }
  apply runs_bind, Hafter. clear Hafter H2. intros s3 x' H3 Eh Et Ev Eu Ei El.
  apply runs_bind. eapply shows_pstore; [exact H3|exact Hb|done|done|]. intros s4 H4. apply runs_ret.
  eapply (HQ s4 _ x' b H4); [split|split|congruence|done..|].
  - done.
  - etrans; [apply wframe_sems|by eapply wframe_insert].
  - intros y Hy. cbn. rewrite lookup_insert_ne; [done|]. intros ->. apply Hy. by left.
  - by destruct t.
  - done.
  - done.
  - eapply sll_ext; [exact Wn2|]. intros y Hy. etrans; [apply nxt_insert|]. rewrite decide_False; [done|]. by intros ->.
  - by apply NoDup_cons.
  - cbn. by rewrite lookup_insert_eq.
Qed.
End SemFacts.
