(* ===== verification/SchedCalls.v ===== *)
(** * The calls that act on a process by its pid

    [scheduler_find_by_pid], and blocking, unblocking and changing the priority of
    the process it finds, as functions on the queues seen as lists.  Together with
    the timer they refine an abstract scheduler whose invariant they keep. *)
From S2P Require Import Prelude LinkedList CLib MmInterface MmSimple KState ProcQueue SchedCore QueueFacts SchedView QueueTheorems Pipe Process Scheduler SchedFacts SchedSwitch SemFacts SchedTheorems.

(** ** The specification *)

Section Spec.
Context {MM : Type}.
Implicit Types (s t : kstate MM) (L : qref -> list Z).

Definition has_pid t (pid p : Z) : bool :=
  match k_procs t !! p with Some b => p_pid b =? pid | None => false end.
(** The order in which the queues are searched; the running process comes last. *)
Definition searched : list qref := [Ready 0; Ready 1; Ready 2; Blocked; Finished].
Definition first_with t (pid : Z) (l : list Z) : Z := first 0 (filter (fun p => has_pid t pid p = true) l).
Definition find_pid t L (pid : Z) : Z :=
  let p := first_with t pid (mjoin (L <$> searched)) in
  if negb (p =? 0) then p else if has_pid t pid (current (k_sched t)) then current (k_sched t) else 0.

(** A process of a higher priority than the running one asks for a switch. *)
Definition resched_for t (p : Z) : kstate MM :=
  match k_procs t !! p, k_procs t !! current (k_sched t) with
  | Some b, Some bc => if p_priority b >? p_priority bc then with_resched t true else t
  | _, _ => t
  end.
Definition with_proc t (p : Z) (b : process_t) : kstate MM := t <| k_procs ::= <[p := b]> |>.
(** [p] goes to the tail of the queue [q]. *)
Definition to_tail (q : qref) (p : Z) L : qref -> list Z := upd L q (without p (L q) ++ [p]).

Inductive call :=
  | CallBlock (pid : Z)
  | CallUnblock (pid : Z)
  | CallPriority (pid new_priority : Z)
  | CallTick (rsp : Z).

Definition spec_block t L (p : Z) (b : process_t) : kstate MM * (qref -> list Z) :=
  let t1 := with_resched (with_proc t p (b <| p_state := PROCESS_STATE_BLOCKED |>)) true in
  if p =? current (k_sched t) then (t1, L)
  else if bool_decide (p_state b = PROCESS_STATE_READY) then (t1, to_tail Blocked p (drop_proc p L))
  else (t, L).
Definition spec_unblock t L (p : Z) (b : process_t) : kstate MM * (qref -> list Z) :=
  (resched_for (with_proc t p (b <| p_state := PROCESS_STATE_READY |>)) p,
   to_tail (Ready (p_priority b)) p (if bool_decide (p_state b = PROCESS_STATE_BLOCKED) then drop_proc p L else L)).
Definition spec_priority t L (p : Z) (b : process_t) (pr : Z) : kstate MM * (qref -> list Z) :=
  let b1 := b <| p_priority := pr |> <| p_base_priority := pr |> <| p_wait_ticks := 0 |> in
  if p_priority b =? pr then (t, L)
  else (resched_for (with_proc t p b1) p,
        if bool_decide (p_state b = PROCESS_STATE_READY) then to_tail (Ready pr) p (drop_proc p L) else L).

(** What a call returns and leaves; the timer ages the ready processes first. *)
Inductive spec_call t L : call -> Z -> kstate MM -> (qref -> list Z) -> Prop :=
  | spec_none c pid : (c = CallBlock pid \/ c = CallUnblock pid \/ exists pr, c = CallPriority pid pr) ->
      find_pid t L pid = 0 \/ ((forall pid', c <> CallUnblock pid') /\ find_pid t L pid = idle_p (k_sched t)) ->
      spec_call t L c 0 t L
  | spec_blocks pid b : find_pid t L pid <> 0 -> find_pid t L pid <> idle_p (k_sched t) ->
      k_procs t !! find_pid t L pid = Some b ->
      spec_call t L (CallBlock pid) 1 (spec_block t L (find_pid t L pid) b).1 (spec_block t L (find_pid t L pid) b).2
  | spec_unblocks pid b : find_pid t L pid <> 0 -> k_procs t !! find_pid t L pid = Some b ->
      spec_call t L (CallUnblock pid) 1 (spec_unblock t L (find_pid t L pid) b).1 (spec_unblock t L (find_pid t L pid) b).2
  | spec_sets pid pr b : find_pid t L pid <> 0 -> find_pid t L pid <> idle_p (k_sched t) ->
      k_procs t !! find_pid t L pid = Some b ->
      spec_call t L (CallPriority pid pr) 1 (spec_priority t L (find_pid t L pid) b (clamp_priority pr)).1
        (spec_priority t L (find_pid t L pid) b (clamp_priority pr)).2
  | spec_tick rsp r t1 L1 t' L' : is_aged t L t1 L1 -> spec_schedule t1 L1 rsp = Some (r, t', L') ->
      spec_call t L (CallTick rsp) r t' L'.

(** The invariant: no process has ended, and the one that has the processor is
    in no queue. *)
Record steady t L : Prop := {
  st_sched : sched_ok t L;
  st_none_finished : forall p b, k_procs t !! p = Some b -> p_state b <> PROCESS_STATE_FINISHED;
  st_no_finished : L Finished = [];
  st_current : exists b, k_procs t !! current (k_sched t) = Some b /\
    (p_state b = PROCESS_STATE_RUNNING \/ p_state b = PROCESS_STATE_BLOCKED) /\ (forall q, current (k_sched t) ∉ L q) }.
End Spec.

Section Theorems.
Context {MM : Type} {mmgr : MemManager MM}.
Implicit Types (s t : kstate MM) (q : qref) (l : list Z) (L : qref -> list Z).

(** The calls themselves. *)
Definition run_call (c : call) : M (kstate MM) Z :=
  match c with
  | CallBlock pid => scheduler_block_by_pid pid
  | CallUnblock pid => scheduler_unblock_by_pid pid
  | CallPriority pid pr => scheduler_set_priority pid pr
  | CallTick rsp => schedule rsp
  end.

(** ** Finding a process *)

Lemma find_in_queue_spec s L t q pid (Q : Z -> kstate MM -> Prop) :
  shows s L t -> valid_queue q -> Q (first_with t pid (L q)) s -> runs (find_in_queue q pid) s Q.
Proof.
  intros H Hq HQ. unfold find_in_queue, walk_fuel. apply runs_bind. apply runs_gets.
  apply runs_bind. eapply shows_q_load; [exact H|exact Hq|]. intros h ->.
  pose proof (q_wf_bound _ _ _ (qs_wf _ _ (proj1 H) q Hq)) as Hlen.
  assert (forall l2 l1 fuel, L q = l1 ++ l2 -> (length l2 < fuel)%nat -> Q (first_with t pid l2) s ->
    runs (while_fuel fuel (pid_step pid) (first 0 l2)) s Q) as Hloop.
  { induction l2 as [|p l2 IH]; intros l1 [|fuel] E Hf HQ'; simpl in Hf; try lia; simpl while_fuel.
    - apply runs_bind, runs_ret, runs_ret, HQ'.
    - assert (p ∈ L q) as Hp by (rewrite E, elem_of_app; right; by left).
      assert (p <> 0) as H0 by (eapply queues_nonnull; [apply H|exact Hp]).
      apply runs_bind. unfold pid_step. change (first 0 (p :: l2)) with p. rewrite (proj2 (Z.eqb_neq p 0) H0).
      apply runs_bind. eapply shows_pload_in; [exact H|exact E|]. intros b Hb Hn.
      unfold first_with in HQ'. cbn [filter list_filter] in HQ'. unfold has_pid in HQ'. rewrite Hb in HQ'.
      change (p_pid (unlinked b)) with (p_pid b) in HQ'. destruct (p_pid b =? pid).
      + by apply runs_ret, runs_ret.
      + apply runs_ret. rewrite Hn. apply (IH (l1 ++ [p])); [by rewrite <- app_assoc|lia|exact HQ']. }
  apply (Hloop (L q) []); [done|lia|exact HQ].
Qed.

Lemma first_with_app t pid l l' : 0 ∉ l ->
  first_with t pid (l ++ l') = if first_with t pid l =? 0 then first_with t pid l' else first_with t pid l.
Proof.
  intros H0. unfold first_with. rewrite filter_app. destruct (filter _ l) as [|p l1] eqn:E; [done|].
  change (first 0 ((p :: l1) ++ ?x)) with p. change (first 0 (p :: l1)) with p.
  destruct (Z.eqb_spec p 0) as [->|]; [|done]. exfalso. apply H0.
  assert (0 ∈ filter (fun p => has_pid t pid p = true) l) as Hin by (rewrite E; by left).
  by apply list_elem_of_filter in Hin as [_ Hin].
Qed.

Lemma find_in_queues_spec s L t pid qs : forall (Q : Z -> kstate MM -> Prop),
  shows s L t -> Forall valid_queue qs -> Q (first_with t pid (mjoin (L <$> qs))) s -> runs (find_in_queues qs pid) s Q.
Proof.
  induction qs as [|q qs IH]; intros Q H Hqs HQ; simpl; [by apply runs_ret|].
  apply Forall_cons in Hqs as [Hq Hqs]. apply runs_bind. eapply find_in_queue_spec; [exact H|exact Hq|].
  assert (0 ∉ L q) as H0 by (intros Hx; by eapply queues_nonnull; [apply H|exact Hx|]).
  change (mjoin (L <$> q :: qs)) with (L q ++ mjoin (L <$> qs)) in HQ. rewrite first_with_app in HQ by done. unfold ctrue.
  destruct (Z.eqb_spec (first_with t pid (L q)) 0) as [E|E]; cbn [negb].
  - by apply IH.
  - by apply runs_ret.
Qed.

Lemma find_by_pid_spec s L t pid (Q : Z -> kstate MM -> Prop) :
  shows s L t -> is_Some (k_procs t !! current (k_sched t)) -> Q (find_pid t L pid) s ->
  runs (scheduler_find_by_pid pid) s Q.
Proof.
  intros H [b Hb] HQ. unfold scheduler_find_by_pid. fold searched. apply runs_bind.
  assert (Forall valid_queue searched) as Hv by (by repeat constructor; unfold PROCESS_PRIORITY_MAX).
  eapply find_in_queues_spec; [exact H|exact Hv|].
  unfold find_pid in HQ. change (ctrue ?x) with (negb (x =? 0)).
  destruct (negb (first_with t pid (mjoin (L <$> searched)) =? 0)); [by apply runs_ret|].
  apply runs_bind. unfold gets_sched. eapply shows_gets; [exact H|done|].
  assert (current (k_sched t) <> 0) as H0 by (eapply shows_null; [done|by eexists]).
  rewrite (proj2 (Z.eqb_neq _ 0) H0). apply runs_bind. eapply shows_pload; [exact H|exact Hb|]. intros b' E _.
  apply runs_ret. unfold has_pid in HQ. rewrite Hb, <- E in HQ. exact HQ.
Qed.

(** What is found is in a queue, or has the processor. *)
Lemma find_pid_some t L pid : (forall q, 0 ∉ L q) -> find_pid t L pid <> 0 ->
  has_pid t pid (find_pid t L pid) = true /\ ((exists q, find_pid t L pid ∈ L q) \/ find_pid t L pid = current (k_sched t)).
Proof.
  intros H0. unfold find_pid, first_with. destruct (filter _ _) as [|p l] eqn:E.
  - change (first 0 (@nil Z)) with 0. cbn [negb Z.eqb]. destruct (has_pid t pid (current (k_sched t))) eqn:Eh; [auto|done].
  - change (first 0 (p :: l)) with p.
    assert (p ∈ filter (fun p => has_pid t pid p = true) (mjoin (L <$> searched))) as Hin by (rewrite E; by left).
    apply list_elem_of_filter in Hin as [Hp Hin].
    apply list_elem_of_join in Hin as (l' & Hpl & Hl). apply list_elem_of_fmap in Hl as (q & -> & _).
    assert (p <> 0) as Hp0 by (intros ->; by apply (H0 q)). rewrite (proj2 (Z.eqb_neq p 0) Hp0). cbn [negb]. eauto.
Qed.

(** ** The calls *)

Lemma resched_spec s L t p (Q : unit -> kstate MM -> Prop) :
  shows s L t -> is_Some (k_procs t !! p) -> is_Some (k_procs t !! current (k_sched t)) ->
  (forall s', shows s' L (resched_for t p) -> Q tt s') -> runs (resched_if_higher p) s Q.
Proof.
  intros H [b Hb] [bc Hbc] HQ. unfold resched_if_higher, resched_for in *. rewrite Hb, Hbc in HQ.
  apply runs_bind. unfold gets_sched. eapply shows_gets; [exact H|done|].
  assert (current (k_sched t) <> 0) as H0 by (eapply shows_null; [done|by eexists]).
  rewrite (proj2 (Z.eqb_neq _ 0) H0).
  apply runs_bind. eapply shows_pload; [exact H|exact Hb|]. intros b1 E1 _.
  apply runs_bind. eapply shows_pload; [exact H|exact Hbc|]. intros b2 E2 _.
  assert (p_priority b1 = p_priority b /\ p_priority b2 = p_priority bc) as [-> ->] by (by subst b bc).
  destruct (p_priority b >? p_priority bc); cbn [when]; [|by apply runs_ret, HQ].
  unfold modify_sched. by eapply shows_modify; [exact H|done..|].
Qed.

Lemma steady_nonnull s L t : shows s L t -> forall q, 0 ∉ L q.
Proof. intros H q Hx. by eapply queues_nonnull; [apply H|exact Hx|]. Qed.

(** A process that was found has a control block, and is ready or blocked in the
    queue that fits it, or has the processor. *)
Lemma found_proc s L t pid : shows s L t -> steady t L -> find_pid t L pid <> 0 ->
  exists b, k_procs t !! find_pid t L pid = Some b /\ p_pid b = pid /\
    (find_pid t L pid <> current (k_sched t) ->
       (p_state b = PROCESS_STATE_READY /\ find_pid t L pid ∈ L (Ready (p_priority b)) \/
        p_state b = PROCESS_STATE_BLOCKED /\ find_pid t L pid ∈ L Blocked)).
Proof.
  intros H Hst Hn. destruct (find_pid_some t L pid (steady_nonnull _ _ _ H) Hn) as [Hh Hin].
  unfold has_pid in Hh. destruct (k_procs t !! find_pid t L pid) as [b|] eqn:Hb; [|done].
  exists b. split; [done|]. split; [by apply Z.eqb_eq|]. intros Hc. destruct Hin as [[q Hq]|]; [|done].
  pose proof (so_fits _ _ (st_sched _ _ Hst) _ _ _ Hq Hb) as Hf. destruct q as [pr| |]; cbn in Hf.
  - destruct Hf as [Hf <-]. auto.
  - auto.
  - rewrite (st_no_finished _ _ Hst) in Hq. by apply elem_of_nil in Hq.
Qed.

Lemma block_spec s L t pid (Q : Z -> kstate MM -> Prop) :
  shows s L t -> steady t L ->
  (forall r s' t' L', spec_call t L (CallBlock pid) r t' L' -> shows s' L' t' -> Q r s') ->
  runs (scheduler_block_by_pid pid) s Q.
Proof.
  intros H Hst HQ. pose proof (st_sched _ _ Hst) as Hok. unfold scheduler_block_by_pid.
  apply runs_bind. eapply find_by_pid_spec; [exact H|apply Hok|]. set (p := find_pid t L pid) in *.
  apply runs_bind. unfold gets_sched. eapply shows_gets; [exact H|done|].
  destruct (Z.eqb_spec p 0) as [E0|E0]; cbn [orb].
  { apply runs_ret. eapply HQ; [|exact H]. apply (spec_none _ _ _ pid); auto. }
  destruct (Z.eqb_spec p (idle_p (k_sched t))) as [Ei|Ei].
  { apply runs_ret. eapply HQ; [|exact H]. apply (spec_none _ _ _ pid); [auto|]. right. split; [done|exact Ei]. }
  destruct (found_proc _ _ _ _ H Hst E0) as (b & Hb & _ & Hq). fold p in Hb, Hq.
  assert (forall s' t' L', (t', L') = spec_block t L p b -> shows s' L' t' -> Q 1 s') as HQ1.
  { intros s' t' L' E H'. pose proof (spec_blocks t L pid b E0 Ei Hb) as Hs. fold p in Hs. rewrite <- E in Hs. by eapply HQ. }
  clear HQ. unfold spec_block in HQ1.
  apply runs_bind. eapply shows_gets; [exact H|done|]. destruct (Z.eqb_spec p (current (k_sched t))) as [Ec|Ec].
  - rewrite <- Ec. apply runs_bind. eapply shows_pstore; [exact H|exact Hb|done|done|]. intros s1 H1.
    apply runs_bind. unfold modify_sched. eapply shows_modify; [exact H1|done..|]. intros s2 H2. apply runs_ret.
    eapply HQ1; [reflexivity|exact H2].
  - apply runs_bind. eapply shows_pload; [exact H|exact Hb|]. intros b1 E1 _.
    assert (p_state b1 = p_state b /\ p_priority b1 = p_priority b) as [-> ->] by (by subst b).
    destruct (bool_decide_reflect (p_state b = PROCESS_STATE_READY)) as [Es|Es].
    + destruct (Hq Ec) as [[_ Hin]|[Hbl _]]; [|congruence].
      apply runs_bind. eapply shows_remove; [exact H|apply (so_sound _ _ Hok _ _ Hb)|]. intros s1 H1.
      apply runs_bind. eapply shows_pstore; [exact H1|exact Hb|done|done|]. intros s2 H2.
      assert (forall q, q <> Ready (p_priority b) -> p ∉ L q) as Hout.
      { intros q Hne Hx. apply Hne. by eapply qs_disjoint; [apply H|exact Hx|]. }
      apply runs_bind. eapply shows_push; [exact H2|done|cbn; rewrite lookup_insert_eq; by eexists| |].
      { intros q' Hq'. unfold upd. case_decide; [subst; rewrite elem_of_without; tauto|auto]. }
      intros s3 H3. apply runs_bind. unfold modify_sched. eapply shows_modify; [exact H3|done..|]. intros s4 H4.
      apply runs_ret. eapply HQ1; [reflexivity|]. eapply shows_proper; [|reflexivity|exact H4].
      intros q. unfold to_tail, drop_proc, upd. repeat case_decide; subst; try done.
      * by rewrite !without_absent by (try rewrite without_absent; by apply Hout).
      * by rewrite without_absent by by apply Hout.
    + apply runs_ret. eapply HQ1; [reflexivity|exact H].
Qed.

Lemma set_priority_id b c : c = p_priority b -> b <| p_priority := c |> = b.
Proof. intros ->. by destruct b. Qed.

(** [ready_queue_push] of a process whose priority is in range. *)
Lemma ready_tail_spec s L t p b (Q : unit -> kstate MM -> Prop) :
  shows s L t -> k_procs t !! p = Some b -> sound b -> (forall q, q <> Ready (p_priority b) -> p ∉ L q) ->
  (forall s', shows s' (to_tail (Ready (p_priority b)) p L) t -> Q tt s') -> runs (ready_queue_push p) s Q.
Proof.
  intros H Hb Hs Hout HQ. pose proof (clamp_small _ (proj1 Hs)) as Ec.
  eapply shows_ready_push; [exact H|exact Hb|by rewrite Ec|]. rewrite Ec, (set_priority_id b) by done.
  intros s' H'. apply HQ. unfold to_tail. replace t with (t <| k_procs ::= <[p := b]> |>); [exact H'|].
  destruct t. unfold set_field, set_k_procs. cbn in *. f_equal. by apply insert_id.
Qed.

(** [when (state == wanted) remove(q, p)] of a process that is in no other queue. *)
Lemma drop_spec s L t q p (c : bool) (Q : unit -> kstate MM -> Prop) :
  shows s L t -> valid_queue q -> (c = true -> forall q', q' <> q -> p ∉ L q') ->
  (forall s', shows s' (if c then drop_proc p L else L) t -> Q tt s') ->
  runs (when c (process_queue_remove q p)) s Q.
Proof.
  intros H Hq Hout HQ. destruct c; cbn [when]; [|by apply runs_ret, HQ].
  eapply shows_remove; [exact H|exact Hq|]. intros s' H'. apply HQ. eapply shows_proper; [|reflexivity|exact H'].
  intros q'. unfold drop_proc, upd. case_decide; [by subst|]. symmetry. by apply without_absent, Hout.
Qed.

Lemma unblocks_spec s L t pid (Q : Z -> kstate MM -> Prop) :
  shows s L t -> steady t L -> find_pid t L pid <> current (k_sched t) ->
  (forall r s' t' L', spec_call t L (CallUnblock pid) r t' L' -> shows s' L' t' -> Q r s') ->
  runs (scheduler_unblock_by_pid pid) s Q.
Proof.
  intros H Hst Hc HQ. pose proof (st_sched _ _ Hst) as Hok. unfold scheduler_unblock_by_pid.
  apply runs_bind. eapply find_by_pid_spec; [exact H|apply Hok|]. set (p := find_pid t L pid) in *.
  destruct (Z.eqb_spec p 0) as [E0|E0].
  { apply runs_ret. eapply HQ; [|exact H]. apply (spec_none _ _ _ pid); auto. }
  destruct (found_proc _ _ _ _ H Hst E0) as (b & Hb & _ & Hq). fold p in Hb, Hq. specialize (Hq Hc).
  assert (forall s', shows s' (spec_unblock t L p b).2 (spec_unblock t L p b).1 -> Q 1 s') as HQ1.
  { intros s'. eapply HQ. by apply (spec_unblocks t L pid b). }
  clear HQ. unfold spec_unblock in HQ1. cbn [fst snd] in HQ1.
  assert (forall q q', p ∈ L q -> q' <> q -> p ∉ L q') as Hout.
  { intros q q' Hx Hne Hx'. apply Hne. by eapply qs_disjoint; [apply H|exact Hx'|]. }
  apply runs_bind. unfold scheduler_unblock_process. rewrite (proj2 (Z.eqb_neq p 0) E0).
  apply runs_bind. eapply shows_pload; [exact H|exact Hb|]. intros b1 E1 _.
  assert (p_state b1 = p_state b) as -> by (by subst b).
  apply runs_bind. eapply drop_spec; [exact H|done| |].
  { intros Ebl%bool_decide_eq_true q' Hq'. destruct Hq as [[Es _]|[_ Hin]]; [congruence|by eapply Hout]. }
  intros s1 H1. apply runs_bind. eapply shows_pstore; [exact H1|exact Hb|done|done|]. intros s2 H2.
  apply runs_bind. eapply ready_tail_spec; [exact H2|cbn; apply lookup_insert_eq|exact (so_sound _ _ Hok _ _ Hb)| |].
  { change (p_priority (b <| p_state := _ |>)) with (p_priority b). intros q Hne. destruct Hq as [[Es Hin]|[Es Hin]]; rewrite Es.
    - rewrite bool_decide_false by done. by eapply Hout.
    - rewrite bool_decide_true by done. unfold drop_proc. rewrite elem_of_without. tauto. }
  intros s3 H3. eapply resched_spec; [exact H3|cbn; rewrite lookup_insert_eq; by eexists| |].
  { cbn. rewrite lookup_insert_ne by done. apply Hok. }
  intros s4 H4. apply runs_ret, HQ1, H4.
Qed.

Lemma priority_spec s L t pid new (Q : Z -> kstate MM -> Prop) :
  shows s L t -> steady t L ->
  (forall r s' t' L', spec_call t L (CallPriority pid new) r t' L' -> shows s' L' t' -> Q r s') ->
  runs (scheduler_set_priority pid new) s Q.
Proof.
  intros H Hst HQ. pose proof (st_sched _ _ Hst) as Hok. unfold scheduler_set_priority.
  apply runs_bind. eapply find_by_pid_spec; [exact H|apply Hok|]. set (p := find_pid t L pid) in *.
  apply runs_bind. unfold gets_sched. eapply shows_gets; [exact H|done|].
  destruct (Z.eqb_spec p 0) as [E0|E0]; cbn [orb].
  { apply runs_ret. eapply HQ; [|exact H]. apply (spec_none _ _ _ pid); eauto. }
  destruct (Z.eqb_spec p (idle_p (k_sched t))) as [Ei|Ei].
  { apply runs_ret. eapply HQ; [|exact H]. apply (spec_none _ _ _ pid); [eauto|]. right. split; [done|exact Ei]. }
  destruct (found_proc _ _ _ _ H Hst E0) as (b & Hb & _ & Hq). fold p in Hb, Hq.
  set (pr := clamp_priority new). pose proof (clamp_range new) as Hpr. fold pr in Hpr.
  assert (forall s', shows s' (spec_priority t L p b pr).2 (spec_priority t L p b pr).1 -> Q 1 s') as HQ1.
  { intros s'. eapply HQ. by apply (spec_sets t L pid new b). }
  clear HQ. unfold spec_priority in HQ1. pose proof (so_sound _ _ Hok _ _ Hb) as Hs.
  apply runs_bind. eapply shows_pload; [exact H|exact Hb|]. intros b1 E1 _.
  assert (p_priority b1 = p_priority b /\ p_state b1 = p_state b) as [-> ->] by (by subst b).
  destruct (p_priority b =? pr); [by apply runs_ret, HQ1|]. cbn [fst snd] in HQ1.
  set (b2 := b <| p_priority := pr |> <| p_base_priority := pr |> <| p_wait_ticks := 0 |>) in *.
  assert (p_state b = PROCESS_STATE_READY -> p ∈ L (Ready (p_priority b))) as Hin.
  { intros Es. destruct (decide (p = current (k_sched t))) as [Ec|Ec]; [|destruct (Hq Ec) as [[_ ?]|[? _]]; [done|congruence]].
    destruct (st_current _ _ Hst) as (bc & Hbc & Hst' & _). rewrite <- Ec, Hb in Hbc. injection Hbc as <-. destruct Hst'; congruence. }
  apply runs_bind. eapply drop_spec; [exact H|apply Hs| |].
  { intros Es%bool_decide_eq_true q' Hne Hx. apply Hne. eapply qs_disjoint; [apply H|exact Hx|auto]. }
  intros s1 H1. apply runs_bind. eapply shows_pstore; [exact H1|exact Hb|done|done|]. intros s2 H2.
  apply runs_bind. eapply shows_pstore; [exact H2|cbn; apply lookup_insert_eq|done|done|]. intros s3 H3. rewrite store_twice in H3.
  apply runs_bind. eapply shows_pstore; [exact H3|cbn; apply lookup_insert_eq|done|done|]. intros s4 H4. rewrite store_twice in H4.
  fold b2 in H4. fold (with_proc t p b2) in H4.
  assert (k_procs (with_proc t p b2) !! p = Some b2) as Hb2 by (cbn; apply lookup_insert_eq).
  apply runs_bind. eapply shows_pload; [exact H4|exact Hb2|]. intros b5 E5 _.
  assert (p_state b5 = p_state b) as -> by exact (f_equal p_state E5).
  assert (forall s' L', shows s' L' (with_proc t p b2) -> (forall s'', shows s'' L' (resched_for (with_proc t p b2) p) -> Q 1 s'') ->
    runs (resched_if_higher p ;; mret 1) s' Q) as Hend.
  { intros s' L' H' HQ'. apply runs_bind. eapply resched_spec; [exact H'|by eexists| |].
    - change (k_procs (with_proc t p b2)) with (<[p := b2]> (k_procs t)).
      change (current (k_sched (with_proc t p b2))) with (current (k_sched t)).
      destruct (decide (current (k_sched t) = p)) as [->|]; [rewrite lookup_insert_eq; by eexists|].
      rewrite lookup_insert_ne by done. apply Hok.
    - intros s'' H''. by apply runs_ret, HQ'. }
  apply runs_bind. destruct (bool_decide_reflect (p_state b = PROCESS_STATE_READY)) as [Es|Es]; cbn [when].
  - eapply ready_tail_spec; [exact H4|exact Hb2| | |].
    + unfold sound. cbn. split_and!; unfold AGING_THRESHOLD; lia.
    + intros q _. unfold drop_proc. rewrite elem_of_without. tauto.
    + intros s5 H5. by eapply Hend.
  - apply runs_ret. by eapply Hend.
Qed.

(** ** What the calls keep *)

(** A switch changes of a process neither its pid, nor its place among the waiters
    of a semaphore, nor whether it is blocked or has ended. *)
Definition parked (b : process_t) : Z :=
  match p_state b with PROCESS_STATE_BLOCKED => 1 | PROCESS_STATE_FINISHED => 2 | _ => 0 end.
Definition view (b : process_t) : Z * Z * Z := (p_pid b, p_sem_waiter_next b, parked b).
Record quiet t t' : Prop := {
  qt_view : forall p, view <$> k_procs t' !! p = view <$> k_procs t !! p;
  qt_sems : k_sems t' = k_sems t;
  qt_idle : idle_p (k_sched t') = idle_p (k_sched t) }.
#[export] Instance quiet_preorder : PreOrder quiet.
Proof.
  split; [by intros t|]. intros t1 t2 t3 [V1 S1 I1] [V2 S2 I2]. split; [|congruence..]. intros p. by rewrite V2.
Qed.

Lemma quiet_insert t p b b' : k_procs t !! p = Some b -> view b' = view b -> quiet t (with_proc t p b').
Proof.
  intros Hb E. split; [|done..]. intros q. cbn. destruct (decide (q = p)) as [->|].
  - rewrite lookup_insert_eq, Hb. simpl. by rewrite E.
  - by rewrite lookup_insert_ne.
Qed.

Lemma quiet_not_finished t t' : quiet t t' -> (forall p b, k_procs t !! p = Some b -> p_state b <> PROCESS_STATE_FINISHED) ->
  forall p b, k_procs t' !! p = Some b -> p_state b <> PROCESS_STATE_FINISHED.
Proof.
  intros Hq Hn p b' Hb'. pose proof (qt_view _ _ Hq p) as E. rewrite Hb' in E. symmetry in E. apply fmap_Some in E as (b & Hb & E).
  specialize (Hn p b Hb). intros Ef. apply Hn. apply (f_equal snd) in E. cbn in E. unfold parked in E. rewrite Ef in E.
  by destruct (p_state b).
Qed.

Lemma aged_quiet s t L t1 L1 : shows s L t -> is_aged t L t1 L1 -> quiet t t1.
Proof.
  intros H D. split; [|by rewrite (ad_rest _ _ _ _ _ D)..]. intros p. destruct (k_procs t !! p) as [b|] eqn:Hb.
  - destruct (ad_proc _ _ _ _ _ D p b Hb) as (b' & Hb' & (E & _) & _). rewrite Hb'. simpl. f_equal. unfold view, parked.
    pose proof (f_equal p_pid E) as E1. pose proof (f_equal p_sem_waiter_next E) as E2. pose proof (f_equal p_state E) as E3.
    cbn in E1, E2, E3. by rewrite E1, E2, E3.
  - rewrite (ad_out _ _ _ _ _ D); [by rewrite Hb|]. intros pr Hp. destruct (shows_elem _ _ _ _ _ H Hp) as [b Hb']. congruence.
Qed.

Lemma quiet_saved t c rsp b : k_procs t !! c = Some b -> quiet t (with_proc t c (saved t c rsp b)).
Proof.
  intros Hb. eapply quiet_insert; [exact Hb|]. unfold saved, view, parked.
  destruct (bool_decide_reflect (p_state b = PROCESS_STATE_RUNNING)) as [E|E]; [|done]. destruct (_ =? _); [done|]. cbn. by rewrite E.
Qed.
Lemma quiet_switched t p b now : k_procs t !! p = Some b -> p_state b = PROCESS_STATE_READY \/ p_state b = PROCESS_STATE_RUNNING ->
  quiet t (switched t p b now).
Proof.
  intros Hb Hs. unfold switched. etrans; [eapply (quiet_insert t p b (dispatched t p b)); [exact Hb|]|by split].
  unfold dispatched, view, parked. destruct (_ && _); cbn; by destruct Hs as [-> | ->].
Qed.

Lemma switch_quiet t L rsp r t' L' : sched_ok t L -> spec_schedule t L rsp = Some (r, t', L') ->
  (forall b, k_procs t !! current (k_sched t) = Some b -> p_state b <> PROCESS_STATE_FINISHED) -> L Finished = [] ->
  quiet t t' /\ L' Finished = [] /\
  exists b, k_procs t' !! current (k_sched t') = Some b /\ p_state b = PROCESS_STATE_RUNNING.
Proof.
  intros Hok E Hnf Hfin. unfold spec_schedule in E. set (c := current (k_sched t)) in *.
  destruct (so_current _ _ Hok) as [b Hb]. fold c in Hb. rewrite Hb in E. cbn [mbind option_bind] in E.
  specialize (Hnf b Hb). destruct (switch_due t L b) eqn:Edue.
  - set (t0 := t <| k_sched ::= fun d => d <| need_resched := false |> |>) in *.
    fold (with_proc t0 c (saved t c rsp b)) in E. set (t1 := with_proc t0 c (saved t c rsp b)) in *.
    set (L1 := requeued t c b L) in *. destruct (k_procs t1 !! chosen t1 L1) as [bn|] eqn:Hbn; [|done]. injection E as <- <- <-.
    pose proof (sched_ok_resched _ _ false Hok) as Hok0. fold t0 in Hok0.
    destruct (saved_ok t0 L c b rsp Hok0 Hb eq_refl Hnf) as [Hok1 _].
    change (sched_ok t1 L1) in Hok1.
    assert (quiet t t1) as Q1.
    { etrans; [|apply (quiet_saved t0); exact Hb]. by split. }
    assert (p_state bn = PROCESS_STATE_READY \/ p_state bn = PROCESS_STATE_RUNNING) as Hs.
    { unfold chosen in Hbn. destruct (Z.eqb_spec (highest L1) 0) as [Eh|Eh].
      - right. destruct (so_idle _ _ Hok1) as (bi & Hbi & Ei). rewrite Hbn in Hbi. by injection Hbi as <-.
      - left. destruct (highest_elem L1 Eh) as (pr & _ & Hp). by apply (so_fits _ _ Hok1 _ _ _ Hp Hbn). }
    split; [etrans; [exact Q1|by apply quiet_switched]|]. split.
    + unfold drop_proc, L1, requeued. destruct (p_state b); try (by rewrite Hfin); [case_match|]; by rewrite ?upd_ne, Hfin.
    + exists (dispatched t1 (chosen t1 L1) bn). split; [cbn; by rewrite lookup_insert_eq|].
      unfold dispatched. by destruct (_ && _).
  - injection E as <- <- <-. split; [done|]. split; [done|]. exists b. split; [exact Hb|].
    unfold switch_due in Edue. destruct (bool_decide_reflect (p_state b = PROCESS_STATE_RUNNING)); [done|]. by cbn in Edue.
Qed.

Lemma steady_running t L b : sched_ok t L -> (forall p b, k_procs t !! p = Some b -> p_state b <> PROCESS_STATE_FINISHED) ->
  L Finished = [] -> k_procs t !! current (k_sched t) = Some b -> p_state b = PROCESS_STATE_RUNNING -> steady t L.
Proof.
  intros Hok Hnf Hfin Hb Hr. split; [done..|]. exists b. split; [done|]. split; [by left|].
  intros q. eapply so_out; [exact Hok|exact Hb|by rewrite Hr..].
Qed.

(** After the timer the process that has the processor runs. *)
Lemma tick_quiet s L t rsp r t1 L1 t' L' : shows s L t -> steady t L -> is_aged t L t1 L1 ->
  spec_schedule t1 L1 rsp = Some (r, t', L') -> sched_ok t' L' ->
  quiet t t' /\ steady t' L' /\ exists b, k_procs t' !! current (k_sched t') = Some b /\ p_state b = PROCESS_STATE_RUNNING.
Proof.
  intros H [Hok Hnf Hfin _] D E Hok'. pose proof (aged_quiet _ _ _ _ _ H D) as Q1.
  destruct (switch_quiet t1 L1 rsp r t' L' (ad_ok _ _ _ _ _ D) E) as (Q2 & Hfin' & b & Hb & Hr).
  - intros b. by apply (quiet_not_finished t t1).
  - rewrite (ad_other _ _ _ _ _ D); done.
  - assert (quiet t t') as Q by (by etrans). split; [done|]. split; [|eauto].
    eapply steady_running; [done| |done|exact Hb|done]. by apply (quiet_not_finished t t').
Qed.

Lemma steady_with_resched t L r : steady t L -> steady (with_resched t r) L.
Proof. intros [[K1 K2 K3 K4 K5] H2 H3 H4]. split; [by split|done..]. Qed.
Lemma steady_resched_for t L p : steady t L -> steady (resched_for t p) L.
Proof. intros H. unfold resched_for. repeat case_match; try done. by apply steady_with_resched. Qed.

(** A process that does not have the processor changes, and moves to the tail of
    the queue it now fits, or stays where it was. *)
Lemma steady_update t L L' p b b' : steady t L -> k_procs t !! p = Some b -> sound b' ->
  p <> idle_p (k_sched t) -> p <> current (k_sched t) ->
  p_state b' = PROCESS_STATE_READY \/ p_state b' = PROCESS_STATE_BLOCKED ->
  (forall q x, x <> p -> x ∈ L' q -> x ∈ L q) -> (forall q, p ∈ L' q -> fits q b') -> steady (with_proc t p b') L'.
Proof.
  intros [Hok Hnf Hfin (bc & Hbc & Hs & Ho)] Hb Hsd Hi Hc Hst Hx Hp. split.
  - eapply so_update; [exact Hok|exact Hsd|exact Hx|exact Hp|by intros ->|intros E; rewrite E in Hst; by destruct Hst].
  - intros x bx. cbn. destruct (decide (x = p)) as [->|].
    + rewrite lookup_insert_eq. intros [= <-] E. rewrite E in Hst. by destruct Hst.
    + rewrite lookup_insert_ne by done. apply Hnf.
  - destruct (L' Finished) as [|x l] eqn:E; [done|]. exfalso. destruct (decide (x = p)) as [->|Hne].
    + specialize (Hp Finished). rewrite E in Hp. specialize (Hp ltac:(by left)). cbn in Hp. rewrite Hp in Hst. by destruct Hst.
    + specialize (Hx Finished x Hne). rewrite E, Hfin in Hx. specialize (Hx ltac:(by left)). by apply elem_of_nil in Hx.
  - exists bc. cbn. rewrite lookup_insert_ne by done. split_and!; [done|done|].
    intros q Hq. apply (Ho q). by apply Hx.
Qed.

(** The process that has the processor changes, outside the queues. *)
Lemma steady_update_current t L b b' : steady t L -> k_procs t !! current (k_sched t) = Some b -> sound b' ->
  p_state b' = PROCESS_STATE_BLOCKED /\ current (k_sched t) <> idle_p (k_sched t) \/ p_state b' = p_state b ->
  steady (with_proc t (current (k_sched t)) b') L.
Proof.
  intros [Hok Hnf Hfin (bc & Hbc & Hs & Ho)] Hb Hsd Hst. rewrite Hb in Hbc. injection Hbc as <-.
  assert (p_state b' = PROCESS_STATE_RUNNING \/ p_state b' = PROCESS_STATE_BLOCKED) as Hs'.
  { destruct Hst as [[-> _] | ->]; auto. }
  split; [|intros x bx; cbn; destruct (decide (x = current (k_sched t))) as [->|]|done|].
  - eapply so_update; [exact Hok|exact Hsd|done|by intros q ?%Ho| |by intros _; left].
    intros E. destruct Hst as [[_ ?] | ->]; [done|]. destruct (so_idle _ _ Hok) as (bi & Hbi & Ei).
    rewrite <- E, Hb in Hbi. by injection Hbi as <-.
  - rewrite lookup_insert_eq. intros [= <-] E. rewrite E in Hs'. by destruct Hs'.
  - rewrite lookup_insert_ne by done. apply Hnf.
  - exists b'. cbn. rewrite lookup_insert_eq. done.
Qed.

(** A change the scheduler does not look at. *)
Lemma steady_fields t L p b b' : steady t L -> k_procs t !! p = Some b -> p_state b' = p_state b ->
  p_priority b' = p_priority b -> p_base_priority b' = p_base_priority b -> p_wait_ticks b' = p_wait_ticks b ->
  steady (with_proc t p b') L.
Proof.
  intros [Hok Hnf Hfin (bc & Hbc & Hs & Ho)] Hb E1 E2 E3 E4. split; [| |done|].
  - pose proof (so_sound _ _ Hok _ _ Hb) as Hsd. eapply so_update; [exact Hok| |done| | |].
    + unfold sound in *. by rewrite E2, E3, E4.
    + intros q Hq. pose proof (so_fits _ _ Hok _ _ _ Hq Hb) as Hf. destruct q; cbn in *; rewrite ?E1, ?E2; done.
    + intros ->. destruct (so_idle _ _ Hok) as (bi & Hbi & Ei). congruence.
    + rewrite E1. apply (so_running _ _ Hok p b Hb).
  - intros q d. cbn. destruct (decide (q = p)) as [->|].
    + rewrite lookup_insert_eq. intros [= <-]. rewrite E1. by apply (Hnf p).
    + rewrite lookup_insert_ne by done. apply Hnf.
  - destruct (decide (p = current (k_sched t))) as [->|Hne].
    + exists b'. cbn. rewrite lookup_insert_eq, E1. split_and!; [done| |done]. congruence.
    + exists bc. cbn. by rewrite lookup_insert_ne.
Qed.

Lemma to_tail_other q p L q' x : x <> p -> x ∈ to_tail q p L q' -> x ∈ L q'.
Proof.
  intros Hx. unfold to_tail, upd. case_decide; [subst|done]. rewrite elem_of_app, elem_of_without, list_elem_of_singleton. tauto.
Qed.
Lemma drop_other p L q x : x ∈ drop_proc p L q -> x ∈ L q.
Proof. unfold drop_proc. rewrite elem_of_without. tauto. Qed.
Lemma to_tail_self q p L q' : (forall q'', q'' <> q -> p ∉ L q'') -> p ∈ to_tail q p L q' -> q' = q.
Proof. intros Ho. unfold to_tail, upd. case_decide; [done|]. intros Hp. by apply Ho in Hp. Qed.
Lemma drop_self p L q : p ∉ drop_proc p L q.
Proof. unfold drop_proc. rewrite elem_of_without. tauto. Qed.

Lemma steady_block s t L pid b : shows s L t -> steady t L -> find_pid t L pid <> 0 ->
  find_pid t L pid <> idle_p (k_sched t) -> k_procs t !! find_pid t L pid = Some b ->
  steady (spec_block t L (find_pid t L pid) b).1 (spec_block t L (find_pid t L pid) b).2.
Proof.
  intros H Hst E0 Ei Hb. destruct (found_proc _ _ _ _ H Hst E0) as (b0 & Hb0 & _ & Hq).
  rewrite Hb in Hb0. injection Hb0 as <-. set (p := find_pid t L pid) in *.
  pose proof (so_sound _ _ (st_sched _ _ Hst) _ _ Hb) as Hs. unfold spec_block.
  destruct (Z.eqb_spec p (current (k_sched t))) as [Ec|Ec]; cbn [fst snd].
  - rewrite Ec in *. apply steady_with_resched. eapply steady_update_current; [exact Hst|exact Hb|exact Hs|by left].
  - destruct (bool_decide_reflect (p_state b = PROCESS_STATE_READY)); cbn [fst snd]; [|exact Hst].
    apply steady_with_resched. eapply steady_update; [exact Hst|exact Hb|exact Hs|done|done|by right| |].
    + intros q x Hx Hin. apply to_tail_other in Hin; [|done]. by apply drop_other in Hin.
    + intros q Hin. apply to_tail_self in Hin as ->; [done|]. intros q' _. apply drop_self.
Qed.

Lemma steady_unblock s t L pid b : shows s L t -> steady t L -> find_pid t L pid <> 0 ->
  find_pid t L pid <> current (k_sched t) -> k_procs t !! find_pid t L pid = Some b ->
  steady (spec_unblock t L (find_pid t L pid) b).1 (spec_unblock t L (find_pid t L pid) b).2.
Proof.
  intros H Hst E0 Ec Hb. destruct (found_proc _ _ _ _ H Hst E0) as (b0 & Hb0 & _ & Hq).
  rewrite Hb in Hb0. injection Hb0 as <-. specialize (Hq Ec). set (p := find_pid t L pid) in *.
  pose proof (so_sound _ _ (st_sched _ _ Hst) _ _ Hb) as Hs. unfold spec_unblock. cbn [fst snd].
  assert (p <> idle_p (k_sched t)) as Hi.
  { intros E. destruct (so_idle _ _ (st_sched _ _ Hst)) as (bi & Hbi & Ei). rewrite <- E, Hb in Hbi. injection Hbi as <-.
    destruct Hq as [[? _]|[? _]]; congruence. }
  apply steady_resched_for. eapply steady_update; [exact Hst|exact Hb|exact Hs|done|done|by left| |].
  - intros q x Hx Hin. apply to_tail_other in Hin; [|done]. case_bool_decide; [by apply drop_other in Hin|done].
  - intros q Hin. apply to_tail_self in Hin as ->; [done|]. intros q' Hne.
    case_bool_decide as Es; [apply drop_self|]. destruct Hq as [[_ Hq]|[? _]]; [|done].
    intros Hx. apply Hne. by eapply qs_disjoint; [apply H|exact Hx|].
Qed.

Lemma steady_priority s t L pid pr b : shows s L t -> steady t L -> find_pid t L pid <> 0 ->
  find_pid t L pid <> idle_p (k_sched t) -> k_procs t !! find_pid t L pid = Some b -> 0 <= pr <= PROCESS_PRIORITY_MAX ->
  steady (spec_priority t L (find_pid t L pid) b pr).1 (spec_priority t L (find_pid t L pid) b pr).2.
Proof.
  intros H Hst E0 Ei Hb Hpr. destruct (found_proc _ _ _ _ H Hst E0) as (b0 & Hb0 & _ & Hq).
  rewrite Hb in Hb0. injection Hb0 as <-. set (p := find_pid t L pid) in *. unfold spec_priority.
  destruct (p_priority b =? pr); cbn [fst snd]; [exact Hst|].
  assert (sound (b <| p_priority := pr |> <| p_base_priority := pr |> <| p_wait_ticks := 0 |>)) as Hs.
  { unfold sound. cbn. split_and!; unfold AGING_THRESHOLD; lia. }
  apply steady_resched_for. destruct (decide (p = current (k_sched t))) as [Ec|Ec].
  - rewrite bool_decide_false; [rewrite Ec in *; eapply steady_update_current; [exact Hst|exact Hb|exact Hs|by right]|].
    destruct (st_current _ _ Hst) as (bc & Hbc & Hs' & _). rewrite <- Ec, Hb in Hbc. injection Hbc as <-. by destruct Hs' as [-> | ->].
  - specialize (Hq Ec). eapply steady_update; [exact Hst|exact Hb|exact Hs|done|done| | |].
    + cbn. destruct Hq as [[? _]|[? _]]; auto.
    + intros q x Hx Hin. case_bool_decide; [|done]. apply to_tail_other in Hin; [|done]. by apply drop_other in Hin.
    + intros q Hin. case_bool_decide as Es.
      * apply to_tail_self in Hin as ->; [done|]. intros q' _. apply drop_self.
      * destruct Hq as [[? _]|[Es' Hbl]]; [done|].
        assert (q = Blocked) as -> by (by eapply qs_disjoint; [apply H|exact Hin|]). exact Es'.
Qed.

(** C5: the scheduler refines an abstract scheduler as long as no process has ended
    ([steady]: none is finished, so the queue of finished processes is empty, and the
    running one is in no queue).  In such a state blocking, unblocking and
    changing the priority of a process by its pid, and the timer, each do on the
    linked queues what the specification does on lists: the process that is found
    first in the queues moves to the tail of the queue for its new state and
    priority, a switch is asked for when it outranks the running one, and 0 is
    returned without a change when nobody has the pid or it is the idle process's.
    The state is steady again, whichever of them is called.  A process that unblocks
    itself is left out: the call would put the running process in a ready queue. *)
Theorem scheduler_calls_refine s L t c :
  shows s L t -> steady t L ->
  (forall pid, c = CallUnblock pid -> find_pid t L pid <> current (k_sched t)) ->
  runs (run_call c) s (fun r s' => exists t' L', spec_call t L c r t' L' /\ shows s' L' t' /\ steady t' L').
Proof.
  intros H Hst Hc.
  assert (forall r s' t' L', spec_call t L c r t' L' -> shows s' L' t' -> (forall rsp, c = CallTick rsp -> sched_ok t' L') ->
    exists t' L', spec_call t L c r t' L' /\ shows s' L' t' /\ steady t' L') as Hend.
  { intros r s' t' L' Hs H' Hok'. exists t', L'. split; [done|]. split; [done|]. destruct Hs.
    - done.
    - by eapply steady_block.
    - eapply steady_unblock; [done..|by apply Hc|done].
    - eapply steady_priority; [done..|apply clamp_range].
    - eapply (tick_quiet s L); [done..|]. by eapply Hok'. }
  destruct c as [pid|pid|pid pr|rsp].
  - eapply block_spec; [done..|]. intros r s' t' L' Hs H'. by eapply Hend.
  - eapply unblocks_spec; [done|done|by apply Hc|]. intros r s' t' L' Hs H'. by eapply Hend.
  - eapply priority_spec; [done..|]. intros r s' t' L' Hs H'. by eapply Hend.
  - eapply schedule_spec; [exact H|apply Hst|apply Hst| |].
    + intros b. apply (st_none_finished _ _ Hst).
    + intros r s' t1 L1 t' L' D E H' Hok'. eapply Hend; [by eapply spec_tick|exact H'|done].
Qed.
End Theorems.

(** ** The three processes of [SchedTheorems] *)

Lemma demo_steady : steady (strip demo_ready) demo_lists.
Proof.
  eapply steady_running; [exact demo_sched_ok| |reflexivity|vm_compute; reflexivity|reflexivity].
  apply (bool_decide_unpack (map_Forall (fun _ b => p_state b <> PROCESS_STATE_FINISHED) (k_procs (strip demo_ready)))).
  vm_compute. exact I.
Qed.

(** Process 3 is raised to the highest priority. *)
Lemma scheduler_calls_refine_witness :
  find_pid (strip demo_ready) demo_lists 3 = 0x3000 /\
  runs (run_call (mmgr := simple_manager 0) (CallPriority 3 2)) demo_sched (fun r s' => exists t' L',
    spec_call (strip demo_ready) demo_lists (CallPriority 3 2) r t' L' /\ shows s' L' t' /\ steady t' L').
Proof.
  split; [vm_compute; reflexivity|].
  apply (scheduler_calls_refine demo_sched demo_lists (strip demo_ready) (CallPriority 3 2) demo_sched_shows demo_steady).
  discriminate.
Defined.
