(* ===== verification/SemTheorems.v ===== *)
(** * What the semaphores promise

    A wait takes a unit or blocks the caller behind those that wait already; a
    signal gives the unit to the process that has waited longest. *)
From S2P Require Import Prelude LinkedList CLib MmInterface MmSimple KState ProcQueue SchedCore QueueFacts SchedView QueueTheorems Semaphore Scheduler SchedFacts SemFacts.

Section SemTheorems.
Context {MM : Type}.
Implicit Types (s t : kstate MM) (L : qref -> list Z) (W : nat -> list Z).

Record sems_ok t W : Prop := {
  sk_list : forall i x, k_sems t !! i = Some x -> wlist t x (W i);
  sk_unit : forall i x, k_sems t !! i = Some x -> sem_used x = true ->
              sem_lock x = 0 /\ - 2 ^ 31 <= sem_value x <= INT_MAX /\ (0 < sem_value x -> W i = []);
  sk_blocked : forall i p, p ∈ W i -> exists b, k_procs t !! p = Some b /\ p_state b = PROCESS_STATE_BLOCKED;
  sk_disjoint : forall i j p, p ∈ W i -> p ∈ W j -> i = j }.
Definition updW W (i : nat) (ws : list Z) : nat -> list Z := fun j => if decide (j = i) then ws else W j.

(** The slot of an identifier. *)
Definition slot_of t (id : Z) : option nat := if id =? 0 then None else find_slot id 0 (k_sems t).

Lemma find_slot_some id l : forall n i, find_slot id n l = Some i ->
  (n <= i)%nat /\ exists x, l !! (i - n)%nat = Some x /\ sem_used x = true /\ sem_id x = id.
Proof.
  induction l as [|x l IH]; intros n i; simpl; [done|].
  destruct (sem_used x && (sem_id x =? id)) eqn:E.
  - intros [= <-]. split; [lia|]. rewrite Nat.sub_diag. exists x.
    apply andb_true_iff in E as [? E%Z.eqb_eq]. done.
  - intros (Hi & y & Hy)%IH. split; [lia|]. exists y. by replace (i - n)%nat with (S (i - S n)) by lia.
Qed.
Lemma slot_of_some t id i : slot_of t id = Some i ->
  exists x, k_sems t !! i = Some x /\ sem_used x = true /\ sem_id x = id.
Proof.
  unfold slot_of. destruct (id =? 0); [done|]. intros (_ & x & H)%find_slot_some.
  rewrite Nat.sub_0_r in H. eauto.
Qed.

Lemma sem_get_spec s L t id (Q : option nat -> kstate MM -> Prop) :
  shows s L t -> Q (slot_of t id) s -> runs (sem_get_by_id id) s Q.
Proof.
  intros H HQ. unfold sem_get_by_id, slot_of in *. destruct (id =? 0); [by apply runs_ret|].
  by eapply shows_gets; [exact H|done|].
Qed.

Lemma acquire_spec s L t i x (Q : unit -> kstate MM -> Prop) :
  shows s L t -> k_sems t !! i = Some x -> sem_lock x = 0 ->
  (forall s', shows s' L (t <| k_sems ::= <[i := x <| sem_lock := 1 |>]> |>) -> Q tt s') -> runs (acquire i) s Q.
Proof.
  intros H Hx Hl HQ. apply runs_bind. eapply shows_sload; [exact H|exact Hx|]. rewrite Hl.
  by eapply shows_sstore; [exact H|exact Hx|].
Qed.

(** The invariant after a change of the slot [i] and of its waiters. *)
Lemma sems_ok_step t t' W i x' ws :
  sems_ok t W -> k_sems t' = <[i := x']> (k_sems t) ->
  wlist t' x' ws -> (sem_used x' = true -> sem_lock x' = 0 /\ - 2 ^ 31 <= sem_value x' <= INT_MAX /\ (0 < sem_value x' -> ws = [])) ->
  (forall j p, j <> i -> p ∈ W j -> k_procs t' !! p = k_procs t !! p /\ p ∉ ws) ->
  (forall p, p ∈ ws -> exists b, k_procs t' !! p = Some b /\ p_state b = PROCESS_STATE_BLOCKED) ->
  sems_ok t' (updW W i ws).
Proof.
  intros [K1 K2 K3 K4] Es Hw Hu Ho Hb. split; unfold updW.
  - intros j x. rewrite Es. case_decide as E.
    + subst. intros [(_ & <- & _)|[]]%list_lookup_insert_Some; done.
    + rewrite list_lookup_insert_ne by done. intros Hx. destruct (K1 j x Hx) as [? ? Hn ?]. split; try done.
      eapply sll_ext; [exact Hn|]. intros p Hp. unfold nxt. by rewrite (proj1 (Ho j p E Hp)).
  - intros j x. rewrite Es. case_decide as E.
    + subst. intros [(_ & <- & _)|[]]%list_lookup_insert_Some; done.
    + rewrite list_lookup_insert_ne by done. apply K2.
  - intros j p. case_decide as E; [apply Hb|]. intros Hp. rewrite (proj1 (Ho j p E Hp)). by eapply K3.
  - intros j j' p. repeat case_decide; subst; try done.
    + intros H1 H2. by destruct (Ho j' p).
    + intros H1 H2. by destruct (Ho j p).
    + apply K4.
Qed.

#[export] Instance sems_ok_proper t : Proper (pointwise_relation nat eq ==> impl) (sems_ok t).
Proof.
  intros W W' E [K1 K2 K3 K4]. split.
  - intros j y Hy. rewrite <- E. by apply K1.
  - intros j y Hy Hyu. rewrite <- E. by apply K2.
  - intros j p. rewrite <- E. apply K3.
  - intros j j' p. rewrite <- !E. apply K4.
Qed.

Lemma wlist_sems t i x x' ws y : wlist t x ws -> sem_wait_head x' = sem_wait_head x -> sem_wait_tail x' = sem_wait_tail x ->
  wlist (t <| k_sems ::= <[i := y]> |>) x' ws.
Proof. intros [? ? ? ?] E1 E2. split; congruence || done. Qed.

Lemma sem_eta_lock x f : sem_lock x = 0 ->
  x <| sem_lock := 1 |> <| sem_value ::= f |> <| sem_lock := 0 |> = x <| sem_value := f (sem_value x) |>.
Proof. destruct x. cbn. intros ->. done. Qed.

Lemma wait_spec s L t W id i x (Q : Z -> kstate MM -> Prop) :
  shows s L t -> sems_ok t W -> slot_of t id = Some i -> k_sems t !! i = Some x -> 0 < sem_value x ->
  current (k_sched t) <> 0 ->
  (forall s', let t' := t <| k_sems ::= <[i := x <| sem_value := sem_value x - 1 |>]> |> in
     shows s' L t' -> sems_ok t' W -> Q 1 s') ->
  runs (sem_wait_by_id id) s Q.
Proof.
  intros H Hok Hslot Hx Hv Hc HQ. destruct (slot_of_some _ _ _ Hslot) as (x0 & Hx0 & Hu & Hid).
  rewrite Hx in Hx0. injection Hx0 as <-. destruct (sk_unit _ _ Hok i x Hx Hu) as (Hl & Hr & Hw).
  apply runs_bind. eapply sem_get_spec; [exact H|]. rewrite Hslot.
  apply runs_bind. unfold scheduler_current_process, gets_sched. eapply shows_gets; [exact H|done|].
  rewrite (proj2 (Z.eqb_neq _ 0) Hc).
  assert ((i < length (k_sems t))%nat) as Hi by (by eapply lookup_lt_Some).
  apply runs_bind. eapply acquire_spec; [exact H|exact Hx|done|]. intros s1 H1.
  apply runs_bind. eapply shows_sload; [exact H1|cbn; by apply list_lookup_insert_eq|].
  match goal with |- context [?v >? 0] => assert ((v >? 0) = true) as -> by (apply Z.gtb_lt; exact Hv) end.
  apply runs_bind. eapply shows_sstore; [exact H1|cbn; by apply list_lookup_insert_eq|]. intros s2 H2. rewrite sems_twice in H2.
  apply runs_bind. eapply shows_sstore; [exact H2|cbn; by apply list_lookup_insert_eq|]. intros s3 H3. rewrite sems_twice in H3.
  apply runs_ret. cbv zeta.
  assert (x <| sem_lock := 1 |> <| sem_value ::= fun v => i32 (v - 1) |> <| sem_lock := 0 |> = x <| sem_value := sem_value x - 1 |>) as E.
  { unfold INT_MAX in Hr. rewrite sem_eta_lock by done. cbv beta. by rewrite swrap_small by lia. }
  apply HQ; [by rewrite <- E|].
  assert (sems_ok (t <| k_sems ::= <[i := x <| sem_value := sem_value x - 1 |>]> |>) (updW W i (W i))) as Hok'.
  { eapply sems_ok_step; [exact Hok|done| | | |].
    - eapply wlist_sems; [by eapply sk_list|done..].
    - intros _. cbn. split; [done|]. split; [lia|]. intros _. by apply Hw.
    - intros j p Hj Hp. split; [done|]. intros Hp'. apply Hj. by eapply sk_disjoint.
    - intros p Hp. by eapply (sk_blocked _ _ Hok). }
  eapply sems_ok_proper; [|exact Hok']. intros j. unfold updW. by case_decide; subst.
Qed.

(** A wait on a semaphore that has units takes one.  It returns 1 at once,
    with one unit less, and changes nothing else. *)
Theorem sem_wait_takes_unit s L t W id i x :
  shows s L t -> sems_ok t W -> slot_of t id = Some i -> k_sems t !! i = Some x -> 0 < sem_value x ->
  current (k_sched t) <> 0 ->
  runs (sem_wait_by_id id) s (fun r s' => let t' := t <| k_sems ::= <[i := x <| sem_value := sem_value x - 1 |>]> |> in
    r = 1 /\ shows s' L t' /\ sems_ok t' W).
Proof. intros H Hok Hslot Hx Hv Hc. eapply wait_spec; [exact H|done..|]. intros s' t' H' Hok'. done. Qed.

Lemma wlist_procs t t' x ws : k_procs t' = k_procs t -> wlist t x ws -> wlist t' x ws.
Proof.
  intros E [H1 H2 H3 H4]. split; try done. eapply sll_ext; [exact H3|]. intros p _. unfold nxt. by rewrite E.
Qed.

Lemma wlist_insert t x ws p b b' :
  k_procs t !! p = Some b -> p_sem_waiter_next b' = p_sem_waiter_next b -> wlist t x ws ->
  wlist (t <| k_procs ::= <[p := b']> |>) x ws.
Proof.
  intros Hb E [H1 H2 H3 H4]. split; try done. eapply sll_ext; [exact H3|]. intros y Hy.
  etrans; [apply nxt_insert|]. case_decide; [|done]. subst. unfold nxt. rewrite Hb. cbn. by rewrite E.
Qed.

Lemma yield_spec s L t {A} (k : M (kstate MM) A) (Q : kstate MM -> (kstate MM -> outcome (kstate MM) A) -> Prop) :
  shows s L t -> current (k_sched t) <> 0 -> current (k_sched t) <> idle_p (k_sched t) ->
  (forall s' tick, shows s' L (t <| k_sched ::= fun c => c <| last_switch_tick := tick |> |>) -> Q s' k) ->
  suspends (scheduler_yield_current ;; k) s TimerTick Q.
Proof.
  intros H H0 Hi HQ. apply suspends_bind_rest. unfold scheduler_yield_current, gets_sched.
  apply suspends_bind. eapply shows_gets; [exact H|done|]. apply suspends_bind. eapply shows_gets; [exact H|done|].
  rewrite (proj2 (Z.eqb_neq _ _) H0), (proj2 (Z.eqb_neq _ _) Hi). cbn [orb].
  apply suspends_bind. eapply shows_gets; [exact H|done|].
  apply suspends_bind. unfold modify_sched. eapply shows_modify; [exact H|done..|]. intros s3 H3.
  eexists _, _. split; [reflexivity|]. by eapply HQ.
Qed.

(** [scheduler_block_current] and [scheduler_yield_current] of a process that is
    not the idle one. *)
Lemma block_and_yield s L t b {A} (k : M (kstate MM) A) (Q : kstate MM -> (kstate MM -> outcome (kstate MM) A) -> Prop) :
  let me := current (k_sched t) in
  shows s L t -> me <> idle_p (k_sched t) -> k_procs t !! me = Some b ->
  (forall s' tick, shows s' L (with_resched (t <| k_procs ::= <[me := b <| p_state := PROCESS_STATE_BLOCKED |>]> |>) true
                      <| k_sched ::= fun c => c <| last_switch_tick := tick |> |>) -> Q s' k) ->
  suspends (scheduler_block_current ;; scheduler_yield_current ;; k) s TimerTick Q.
Proof.
  intros me H Hi Hb HQ. assert (me <> 0) as H0 by (eapply shows_null; [done|by eexists]).
  assert ((me =? 0) || (me =? idle_p (k_sched t)) = false) as E by (apply orb_false_iff; split; by apply Z.eqb_neq).
  apply suspends_bind. unfold scheduler_block_current, gets_sched.
  apply runs_bind. eapply shows_gets; [exact H|done|]. apply runs_bind. eapply shows_gets; [exact H|done|].
  fold me. rewrite E. apply runs_bind. eapply shows_pstore; [exact H|exact Hb|done|done|]. intros s1 H1.
  unfold modify_sched. eapply shows_modify; [exact H1|done..|]. intros s2 H2.
  by eapply yield_spec.
Qed.

Lemma running_not_waiting t W i p b : sems_ok t W -> k_procs t !! p = Some b ->
  p_state b = PROCESS_STATE_RUNNING -> p ∉ W i.
Proof. intros Hok Hb Hr Hp. destruct (sk_blocked _ _ Hok i p Hp) as (b' & Hb' & E). congruence. Qed.

(** From the test of the value to the release of the lock. *)
Lemma join_waiters s L t W i x b {A} (k : M (kstate MM) A) tr (Q : kstate MM -> (kstate MM -> outcome (kstate MM) A) -> Prop) :
  let me := current (k_sched t) in
  shows s L t -> sems_ok t W -> k_sems t !! i = Some x -> sem_lock x = 0 ->
  k_procs t !! me = Some b -> p_state b = PROCESS_STATE_RUNNING ->
  (forall s' t' x', shows s' L t' -> waits t t' i x' (me :: W i) -> wlist t' x' (W i ++ [me]) ->
     sem_lock x' = 0 -> sem_value x' = sem_value x -> sem_used x' = sem_used x -> sem_id x' = sem_id x ->
     (exists b', k_procs t' !! me = Some b' /\ unwait b' = unwait b) -> suspends k s' tr Q) ->
  forall s1, shows s1 L (t <| k_sems ::= <[i := x <| sem_lock := 1 |>]> |>) ->
  suspends (pstore me (fun b => b <| p_waiting_on_sem := sem_id x |>) ;; enqueue_waiter i me ;; release i ;; k) s1 tr Q.
Proof.
  intros me H Hok Hx Hl Hb Hr HQ s1 H1. assert ((i < length (k_sems t))%nat) as Hi by (by eapply lookup_lt_Some).
  set (b1 := b <| p_waiting_on_sem := sem_id x |>).
  apply suspends_bind. eapply shows_pstore; [exact H1|exact Hb|done|done|]. intros s2 H2. fold b1 in H2.
  set (t2 := t <| k_sems ::= <[i := x <| sem_lock := 1 |>]> |> <| k_procs ::= <[me := b1]> |>) in *.
  assert (wlist t2 (x <| sem_lock := 1 |>) (W i)) as Hw2.
  { eapply wlist_insert; [exact Hb|done|]. eapply wlist_sems; [by eapply sk_list|done..]. }
  apply suspends_bind. eapply enqueue_spec; [exact H2|cbn; by apply list_lookup_insert_eq|exact Hw2| |cbn; apply lookup_insert_eq|].
  { by eapply running_not_waiting. }
  intros s3 t3 x3 H3 [Es Ef Eo Er] Hw3 (b3 & Hb3 & Eb3).
  apply suspends_bind. eapply shows_sstore; [exact H3|rewrite Es; cbn; apply list_lookup_insert_eq; by rewrite length_insert|].
  intros s4 H4. eapply (HQ s4 _ (x3 <| sem_lock := 0 |>) H4); [split| |done..|].
  - cbn. rewrite Es. cbn. by rewrite !list_insert_insert_eq.
  - etrans; [|apply wframe_sems]. etrans; [|exact Ef]. etrans; [apply wframe_sems|]. by eapply wframe_insert.
  - intros y Hy. cbn. rewrite (Eo y Hy). cbn. rewrite lookup_insert_ne; [done|]. intros <-. apply Hy. by left.
  - rewrite Er. by destruct t.
  - eapply wlist_sems; [exact Hw3|done|done].
  - exists b3. split; [done|]. by rewrite Eb3.
Qed.

Lemma sems_ok_frame t t' W : k_sems t' = k_sems t -> k_procs t' = k_procs t -> sems_ok t W -> sems_ok t' W.
Proof.
  intros Es Ep [K1 K2 K3 K4]. split; rewrite ?Es, ?Ep; try done.
  intros i x Hx. eapply wlist_procs; [done|]. by apply K1.
Qed.

(** What a wait that blocks leaves as it is. *)
Record parks t t' (i : nat) (x : semaphore_t) (me : Z) : Prop := {
  pk_slot : exists x', k_sems t' = <[i := x']> (k_sems t) /\ sem_value x' = sem_value x /\
              sem_used x' = sem_used x /\ sem_id x' = sem_id x;
  pk_current : current (k_sched t') = current (k_sched t) /\ idle_p (k_sched t') = idle_p (k_sched t);
  pk_me : exists b b', k_procs t !! me = Some b /\ k_procs t' !! me = Some b' /\ p_pid b' = p_pid b /\ p_state b' = PROCESS_STATE_BLOCKED;
  pk_procs : forall p, p <> me -> (fun b => (p_pid b, p_state b)) <$> k_procs t' !! p = (fun b => (p_pid b, p_state b)) <$> k_procs t !! p }.

Lemma wait_blocks s L t W id i x b (Q : kstate MM -> (kstate MM -> outcome (kstate MM) Z) -> Prop) :
  let me := current (k_sched t) in
  shows s L t -> sched_ok t L -> sems_ok t W -> slot_of t id = Some i -> k_sems t !! i = Some x -> sem_value x <= 0 ->
  k_procs t !! me = Some b -> p_state b = PROCESS_STATE_RUNNING -> me <> idle_p (k_sched t) ->
  (forall s' k t', (forall s'', k s'' = Done 1 s'') -> shows s' L t' -> sched_ok t' L ->
     sems_ok t' (updW W i (W i ++ [me])) -> need_resched (k_sched t') = true -> parks t t' i x me -> Q s' k) ->
  suspends (sem_wait_by_id id) s TimerTick Q.
Proof.
  intros me H Hsok Hok Hslot Hx Hv Hb Hr Hi HQ. destruct (slot_of_some _ _ _ Hslot) as (x0 & Hx0 & Hu & Hid).
  rewrite Hx in Hx0. injection Hx0 as <-. destruct (sk_unit _ _ Hok i x Hx Hu) as (Hl & Hrng & Hw).
  apply suspends_bind. eapply sem_get_spec; [exact H|]. rewrite Hslot.
  apply suspends_bind. unfold scheduler_current_process, gets_sched. eapply shows_gets; [exact H|done|].
  assert (me <> 0) as H0 by (eapply shows_null; [done|by eexists]). fold me. rewrite (proj2 (Z.eqb_neq _ 0) H0).
  apply suspends_bind. eapply acquire_spec; [exact H|exact Hx|done|]. intros s1 H1.
  apply suspends_bind. eapply shows_sload; [exact H1|cbn; apply list_lookup_insert_eq; by eapply lookup_lt_Some|].
  match goal with |- context [?v >? 0] => assert ((v >? 0) = false) as -> by (destruct (Z.gtb_spec v 0) as [Hg|]; [cbn in Hg; lia|done]) end.
  eapply (join_waiters s L t W i x b); [exact H|exact Hok|exact Hx|exact Hl|exact Hb|exact Hr| |exact H1].
  fold me. intros s2 t2 x2 H2 [Es Ef Eo Er] Hw2 El Ev Eu Eid (b2 & Hb2 & Eb2).
  assert (k_sched t2 = k_sched t) as Esch by apply Ef.
  eapply (block_and_yield s2 L t2 b2); rewrite ?Esch; [exact H2|exact Hi|exact Hb2|].
  pose proof (wframe_ok _ _ _ Ef Hsok) as Hsok2.
  assert (forall q, me ∉ L q) as Hout by (intros q; eapply so_out; [exact Hsok|exact Hb|by rewrite Hr..]).
  fold me. intros s3 tick H3. eapply HQ; [done|exact H3|..]; clear HQ.
  - assert (sched_ok (t2 <| k_procs ::= <[me := b2 <| p_state := PROCESS_STATE_BLOCKED |>]> |>) L) as [K1 K2 K3 K4 K5]; [|by split].
    eapply so_update; [exact Hsok2|exact (so_sound _ _ Hsok2 _ _ Hb2)|done| |by rewrite Esch|done].
    intros q Hq. by apply Hout in Hq.
  - eapply sems_ok_step; [exact Hok|cbn; exact Es| | | |].
    + eapply wlist_procs; [|eapply (wlist_insert t2); [exact Hb2| |exact Hw2]]; done.
    + intros _. rewrite El, Ev. split; [done|]. split; [done|]. lia.
    + intros j p Hj Hp. assert (p <> me) as Hpm by (intros ->; by eapply (running_not_waiting t W j)).
      assert (p ∉ W i) as Hpi by (intros Hp'; apply Hj; by eapply sk_disjoint).
      split.
      * cbn. rewrite lookup_insert_ne by congruence. apply Eo. rewrite elem_of_cons. tauto.
      * rewrite elem_of_app, list_elem_of_singleton. tauto.
    + intros p. rewrite elem_of_app, list_elem_of_singleton. cbn. destruct (decide (p = me)) as [->|Hpm].
      * intros _. rewrite lookup_insert_eq. eauto.
      * rewrite lookup_insert_ne by congruence. intros [Hp|]; [|done].
        destruct (sk_blocked _ _ Hok i p Hp) as (bp & Hbp & Est). destruct (wframe_proc _ _ _ _ Ef Hbp) as (bp' & Hbp' & Eu').
        exists bp'. split; [done|]. apply (f_equal p_state) in Eu'. cbn in Eu'. congruence.
  - done.
  - split.
    + exists x2. cbn. by rewrite Es.
    + cbn. by rewrite Esch.
    + exists b. eexists. split; [exact Hb|]. split; [cbn; apply lookup_insert_eq|]. split; [|done].
      by apply (f_equal p_pid) in Eb2.
    + intros p Hp. cbn. rewrite lookup_insert_ne by congruence. pose proof (proj1 Ef p) as Ep.
      destruct (k_procs t2 !! p) as [c'|], (k_procs t !! p) as [c|]; try done. cbn in Ep |- *. apply (inj Some) in Ep.
      pose proof (f_equal p_pid Ep) as E1. pose proof (f_equal p_state Ep) as E2. cbn in E1, E2. by rewrite E1, E2.
Qed.

(** C7: a wait on a semaphore without units blocks.  The caller joins the tail
    of the waiters, is marked as blocked, and hands the processor over; when it
    is scheduled again the call returns 1. *)
Theorem sem_wait_blocks s L t W id i x b :
  let me := current (k_sched t) in
  shows s L t -> sched_ok t L -> sems_ok t W -> slot_of t id = Some i -> k_sems t !! i = Some x -> sem_value x <= 0 ->
  k_procs t !! me = Some b -> p_state b = PROCESS_STATE_RUNNING -> me <> idle_p (k_sched t) ->
  suspends (sem_wait_by_id id) s TimerTick (fun s' k =>
    (forall s'', k s'' = Done 1 s'') /\
    exists t' b', shows s' L t' /\ sched_ok t' L /\ sems_ok t' (updW W i (W i ++ [me])) /\
      k_procs t' !! me = Some b' /\ p_state b' = PROCESS_STATE_BLOCKED /\ need_resched (k_sched t') = true).
Proof.
  intros me H Hsok Hok Hslot Hx Hv Hb Hr Hi. eapply wait_blocks; [exact H|done..|].
  intros s' k t' Hk H' Hsok' Hok' Hn Hp. split; [exact Hk|]. destruct (pk_me _ _ _ _ _ Hp) as (_ & b' & _ & Hb' & _ & Hs').
  exists t', b'. done.
Qed.

(** What a signal on the slot [i] leaves as it is. *)
Record signalled t t' (i : nat) (x : semaphore_t) (v' : Z) : Prop := {
  sg_slot : exists x', k_sems t' = <[i := x']> (k_sems t) /\ sem_value x' = v' /\
              sem_used x' = sem_used x /\ sem_id x' = sem_id x;
  sg_rest : t' = t <| k_procs := k_procs t' |> <| k_sems := k_sems t' |> <| k_sched := k_sched t' |>;
  sg_current : current (k_sched t') = current (k_sched t) /\ idle_p (k_sched t') = idle_p (k_sched t);
  sg_fds : forall p, p_fds <$> k_procs t' !! p = p_fds <$> k_procs t !! p;
  sg_procs : forall p b', k_procs t' !! p = Some b' -> exists b, k_procs t !! p = Some b /\ p_pid b' = p_pid b /\
               (p_state b' = p_state b \/ p_state b = PROCESS_STATE_BLOCKED /\ p_state b' = PROCESS_STATE_READY) }.

Lemma signal_wakes s L t W id i x w ws b (Q : Z -> kstate MM -> Prop) :
  let pr := clamp_priority (p_priority b) in
  let L' := upd (upd L Blocked (without w (L Blocked))) (Ready pr) (L (Ready pr) ++ [w]) in
  shows s L t -> sched_ok t L -> sems_ok t W -> slot_of t id = Some i -> k_sems t !! i = Some x ->
  W i = w :: ws -> k_procs t !! w = Some b ->
  (forall s' t' b', shows s' L' t' -> sched_ok t' L' -> sems_ok t' (updW W i ws) -> signalled t t' i x (sem_value x) ->
     k_procs t' !! w = Some b' -> p_state b' = PROCESS_STATE_READY -> p_waiting_on_sem b' = 0 -> Q 1 s') ->
  runs (sem_signal_by_id id) s Q.
Proof.
  intros pr L' H Hsok Hok Hslot Hx HW Hb HQ. destruct (slot_of_some _ _ _ Hslot) as (x0 & Hx0 & Hu & Hid).
  rewrite Hx in Hx0. injection Hx0 as <-. destruct (sk_unit _ _ Hok i x Hx Hu) as (Hl & Hr & Hw).
  assert ((i < length (k_sems t))%nat) as Hi by (by eapply lookup_lt_Some).
  assert (p_state b = PROCESS_STATE_BLOCKED) as Hst.
  { destruct (sk_blocked _ _ Hok i w) as (b' & Hb' & E); [rewrite HW; by left|congruence]. }
  apply runs_bind. eapply sem_get_spec; [exact H|]. rewrite Hslot.
  apply runs_bind. eapply acquire_spec; [exact H|exact Hx|done|]. intros s1 H1.
  set (t1 := t <| k_sems ::= <[i := x <| sem_lock := 1 |>]> |>) in *.
  apply runs_bind. eapply (dequeue_spec s1 L t1 i _ w ws); [exact H1|cbn; by apply list_lookup_insert_eq| |].
  { apply (wlist_sems t i x); [|done|done]. rewrite <- HW. exact (sk_list _ _ Hok i x Hx). }
  intros s2 t2 x2 b2 H2 [Es Ef Eo Er] Hw2 Hw0 Ev Eu Ei El Hb2 Hb2'. change (k_procs t1 !! w) with (k_procs t !! w) in Hb2.
  rewrite Hb in Hb2. injection Hb2 as <-.
  assert (wframe t t2) as Ef' by (etrans; [apply wframe_sems|exact Ef]).
  pose proof (wframe_ok _ _ _ Ef' Hsok) as Hsok2. destruct (so_current _ _ Hsok2) as [bc Hbc].
  set (b3 := b <| p_sem_waiter_next := 0 |> <| p_waiting_on_sem := 0 |>).
  assert (wframe t2 (t2 <| k_procs ::= <[w := b3]> |>)) as Ef3 by by eapply wframe_insert.
  pose proof (wframe_ok _ _ _ Ef3 Hsok2) as Hsok3. destruct (so_current _ _ Hsok3) as [bc3 Hbc3].
  apply runs_bind. unfold ctrue. rewrite (proj2 (Z.eqb_neq w 0) Hw0). cbn [negb].
  apply runs_bind. eapply shows_pstore; [exact H2|exact Hb2'|done|done|]. intros s3 H3. fold b3 in H3.
  eapply (unblock_spec s3 L _ w b3); [exact H3|exact Hsok3|cbn; apply lookup_insert_eq|exact Hst|exact Hbc3|].
  rewrite store_twice. change (clamp_priority (p_priority b3)) with pr. intros s4 r H4.
  apply runs_bind. eapply shows_sstore; [exact H4|cbn; rewrite Es; cbn; apply list_lookup_insert_eq; by rewrite length_insert|].
  intros s5 H5. apply runs_ret. eapply HQ; [exact H5| | |split|cbn; apply lookup_insert_eq|done|done].
  - pose proof (readied_ok (t2 <| k_procs ::= <[w := b3]> |>) L w b3 r Hsok3 ltac:(cbn; apply lookup_insert_eq) Hst) as K.
    rewrite store_twice in K. eapply wframe_ok; [|exact K]. apply wframe_sems.
  - eapply (sems_ok_step t _ W i (x2 <| sem_lock := 0 |>)); [exact Hok| | | | |].
    + cbn. rewrite Es. cbn. by rewrite !list_insert_insert_eq.
    + apply (wlist_sems _ i x2); [|done|done]. eapply wlist_procs; [|eapply (wlist_insert t2 x2 ws w); [exact Hb2'| |exact Hw2]]; done.
    + intros _. cbn. rewrite Ev. cbn. split; [done|]. split; [done|]. intros Hv. specialize (Hw Hv). by rewrite HW in Hw.
    + intros j p Hj Hp. assert (p <> w) as Hpw by (intros ->; apply Hj; eapply sk_disjoint; [done..|rewrite HW; by left]).
      assert (p ∉ ws) as Hpi by (intros Hp'; apply Hj; eapply sk_disjoint; [done..|rewrite HW; by right]).
      split; [|done]. cbn. rewrite lookup_insert_ne by congruence. rewrite Eo; [done|]. by intros ->%list_elem_of_singleton.
    + intros p Hp. pose proof (sk_list _ _ Hok i x Hx) as [_ _ _ Hnd]. rewrite HW in Hnd.
      apply NoDup_cons in Hnd as [_ [Hnw _]%NoDup_cons]. assert (p <> w) as Hpw by (by intros ->).
      destruct (sk_blocked _ _ Hok i p) as (bp & Hbp & Est); [rewrite HW; by right|].
      exists bp. split; [|done]. cbn. rewrite lookup_insert_ne by congruence. rewrite Eo; [done|]. by intros ->%list_elem_of_singleton.
  - cbn. rewrite Es. cbn. rewrite !list_insert_insert_eq. eexists. exact (conj eq_refl (conj Ev (conj Eu Ei))).
  - rewrite Er. by destruct t.
  - cbn. by rewrite (proj2 Ef').
  - intros p. cbn. destruct (decide (p = w)) as [->|Hpw]; [by rewrite lookup_insert_eq, Hb|].
    rewrite lookup_insert_ne by congruence. rewrite Eo; [done|]. by intros ->%list_elem_of_singleton.
  - intros p b'. cbn. destruct (decide (p = w)) as [->|Hpw].
    + rewrite lookup_insert_eq. intros [= <-]. exists b. auto.
    + rewrite lookup_insert_ne by congruence. rewrite Eo by (by intros ->%list_elem_of_singleton). eauto.
Qed.

(** C8: a signal wakes the process that has waited longest.  The head of the
    waiters becomes ready, at the tail of the queue of its priority; the unit is
    handed to it, so the value does not change, and the others keep their order. *)
Theorem sem_signal_wakes_first s L t W id i x w ws b :
  let pr := clamp_priority (p_priority b) in
  let L' := upd (upd L Blocked (without w (L Blocked))) (Ready pr) (L (Ready pr) ++ [w]) in
  shows s L t -> sched_ok t L -> sems_ok t W -> slot_of t id = Some i -> k_sems t !! i = Some x ->
  W i = w :: ws -> k_procs t !! w = Some b ->
  runs (sem_signal_by_id id) s (fun r s' => r = 1 /\ exists t' x' b',
    shows s' L' t' /\ sched_ok t' L' /\ sems_ok t' (updW W i ws) /\
    k_sems t' !! i = Some x' /\ sem_value x' = sem_value x /\
    k_procs t' !! w = Some b' /\ p_state b' = PROCESS_STATE_READY /\ p_waiting_on_sem b' = 0).
Proof.
  intros pr L' H Hsok Hok Hslot Hx HW Hb. eapply signal_wakes; [exact H|exact Hsok|done..|].
  intros s' t' b' H' Hsok' Hok' [(x' & Es & Ev & _) _ _ _] Hb' Hst Hws. split; [done|]. exists t', x', b'.
  split_and!; try done. rewrite Es. apply list_lookup_insert_eq. by eapply lookup_lt_Some.
Qed.

Lemma signal_frees s L t W id i x (Q : Z -> kstate MM -> Prop) :
  shows s L t -> sems_ok t W -> slot_of t id = Some i -> k_sems t !! i = Some x -> W i = [] -> sem_value x < INT_MAX ->
  (forall s', let t' := t <| k_sems ::= <[i := x <| sem_value := sem_value x + 1 |>]> |> in
     shows s' L t' -> sems_ok t' W -> Q 1 s') ->
  runs (sem_signal_by_id id) s Q.
Proof.
  intros H Hok Hslot Hx HW Hv HQ. destruct (slot_of_some _ _ _ Hslot) as (x0 & Hx0 & Hu & Hid).
  rewrite Hx in Hx0. injection Hx0 as <-. destruct (sk_unit _ _ Hok i x Hx Hu) as (Hl & Hr & Hw).
  assert ((i < length (k_sems t))%nat) as Hi by (by eapply lookup_lt_Some).
  apply runs_bind. eapply sem_get_spec; [exact H|]. rewrite Hslot.
  apply runs_bind. eapply acquire_spec; [exact H|exact Hx|done|]. intros s1 H1.
  pose proof (sk_list _ _ Hok i x Hx) as Hwl. rewrite HW in Hwl.
  apply runs_bind. unfold dequeue_waiter. apply runs_bind.
  eapply shows_sload; [exact H1|cbn; by apply list_lookup_insert_eq|].
  match goal with |- context [?v =? 0] => assert (v = 0) as -> by apply (wl_head _ _ _ Hwl) end. apply runs_ret.
  apply runs_bind. eapply shows_sstore; [exact H1|cbn; by apply list_lookup_insert_eq|]. intros s2 H2. rewrite sems_twice in H2.
  apply runs_bind. eapply shows_sstore; [exact H2|cbn; by apply list_lookup_insert_eq|]. intros s3 H3. rewrite sems_twice in H3.
  apply runs_ret. cbv zeta.
  assert (x <| sem_lock := 1 |> <| sem_value ::= fun v => i32 (v + 1) |> <| sem_lock := 0 |> = x <| sem_value := sem_value x + 1 |>) as E.
  { unfold INT_MAX in *. rewrite sem_eta_lock by done. cbv beta. by rewrite swrap_small by lia. }
  apply HQ; [by rewrite <- E|]. eapply sems_ok_proper; [|eapply (sems_ok_step t _ W i _ (W i)); [exact Hok|done| | | |]].
  - intros j. unfold updW. by case_decide; subst.
  - eapply wlist_sems; [by eapply sk_list|done..].
  - intros _. cbn. rewrite HW. split; [done|]. split; [lia|done].
  - intros j p Hj Hp. split; [done|]. intros Hp'. apply Hj. by eapply sk_disjoint.
  - intros p Hp. by eapply (sk_blocked _ _ Hok).
Qed.

(** A signal that nobody waits for frees a unit. *)
Theorem sem_signal_frees_unit s L t W id i x :
  shows s L t -> sems_ok t W -> slot_of t id = Some i -> k_sems t !! i = Some x -> W i = [] -> sem_value x < INT_MAX ->
  runs (sem_signal_by_id id) s (fun r s' => let t' := t <| k_sems ::= <[i := x <| sem_value := sem_value x + 1 |>]> |> in
    r = 1 /\ shows s' L t' /\ sems_ok t' W).
Proof. intros H Hok Hslot Hx HW Hv. eapply signal_frees; [exact H|done..|]. intros s' t' H' Hok'. done. Qed.

(** Both cases at once, for the clients. *)
Lemma signal_any s L t W id i x (Q : Z -> kstate MM -> Prop) :
  shows s L t -> sched_ok t L -> sems_ok t W -> slot_of t id = Some i -> k_sems t !! i = Some x -> sem_value x < INT_MAX ->
  (forall s' L' t' W', shows s' L' t' -> sched_ok t' L' -> sems_ok t' W' ->
     signalled t t' i x (match W i with [] => sem_value x + 1 | _ => sem_value x end) ->
     W' i = tail (W i) -> (forall j, j <> i -> W' j = W j) -> Q 1 s') ->
  runs (sem_signal_by_id id) s Q.
Proof.
  intros H Hsok Hok Hslot Hx Hv HQ. destruct (W i) as [|w ws] eqn:HW.
  - eapply signal_frees; [exact H|done..|]. intros s' t' H' Hok'. eapply HQ; [exact H'| |exact Hok'| |by rewrite HW|done].
    + eapply wframe_ok; [|exact Hsok]. apply wframe_sems.
    + split; [by eexists|by destruct t|done|done|eauto].
  - destruct (sk_blocked _ _ Hok i w) as (b & Hb & _); [rewrite HW; by left|].
    eapply signal_wakes; [exact H|exact Hsok|done..|]. intros s' t' b' H' Hsok' Hok' Hsg _ _ _.
    eapply HQ; [exact H'|exact Hsok'|exact Hok'|exact Hsg|unfold updW; by rewrite decide_True|].
    intros j Hj. unfold updW. by rewrite decide_False.
Qed.

(** What is in use, under which identifiers. *)
Definition keys t : list (bool * Z) := (fun x => (sem_used x, sem_id x)) <$> k_sems t.
Lemma find_slot_keys id l : forall l' n,
  (fun x => (sem_used x, sem_id x)) <$> l = (fun x => (sem_used x, sem_id x)) <$> l' -> find_slot id n l = find_slot id n l'.
Proof.
  induction l as [|x l IH]; intros [|y l'] n E; simpl in *; try done. injection E as -> -> E. by rewrite (IH l' (S n) E).
Qed.
Lemma slot_of_keys t t' id : keys t' = keys t -> slot_of t' id = slot_of t id.
Proof. intros E. unfold slot_of. by rewrite (find_slot_keys id _ _ 0 E). Qed.
Lemma keys_insert t i x x' : k_sems t !! i = Some x -> sem_used x' = sem_used x -> sem_id x' = sem_id x ->
  keys (t <| k_sems ::= <[i := x']> |>) = keys t.
Proof.
  intros Hx Eu Ei. unfold keys. cbn. rewrite list_fmap_insert. apply list_insert_id. by rewrite list_lookup_fmap, Hx, Eu, Ei.
Qed.
Lemma keys_signalled t t' i x v : k_sems t !! i = Some x -> signalled t t' i x v -> keys t' = keys t.
Proof.
  intros Hx [(x' & Es & _ & Eu & Ei) _ _]. rewrite <- (keys_insert t i x x' Hx Eu Ei). unfold keys. cbn. by rewrite Es.
Qed.

(** ** Allocation *)

Lemma runs_sstore s i x f (Q : unit -> kstate MM -> Prop) :
  k_sems s !! i = Some x -> Q tt (s <| k_sems ::= <[i := f x]> |>) -> runs (sstore i f) s Q.
Proof.
  intros Hx HQ. apply runs_bind. eapply runs_gets_opt; [exact Hx|]. apply runs_modify.
  replace (s <| k_sems ::= alter f i |>) with (s <| k_sems ::= <[i := f x]> |>); [done|].
  unfold set_field, set_k_sems. f_equal. symmetry. by apply list_alter_is_insert.
Qed.

Lemma free_slot_some l : forall n i, free_slot n l = Some i ->
  (n <= i)%nat /\ exists x, l !! (i - n)%nat = Some x /\ sem_used x = false.
Proof.
  induction l as [|x l IH]; intros n i; simpl; [done|]. destruct (sem_used x) eqn:E.
  - intros (Hi & y & Hy)%IH. split; [lia|]. exists y. by replace (i - n)%nat with (S (i - S n)) by lia.
  - intros [= <-]. split; [lia|]. rewrite Nat.sub_diag. eauto.
Qed.

(** Every identifier in use was given out by [sem_alloc]. *)
Definition ids_ok s : Prop :=
  0 < k_next_sem_id s /\ forall i x, k_sems s !! i = Some x -> sem_used x = true -> 0 < sem_id x < k_next_sem_id s.

Lemma find_slot_insert id r v : forall l n i x, l !! i = Some x -> sem_used x = false ->
  (forall y, y ∈ l -> sem_used y = true -> sem_id y <> r) ->
  find_slot id n (<[i := mk_sem r v 1 0 0 0 true]> l) = if id =? r then Some (n + i)%nat else find_slot id n l.
Proof.
  induction l as [|y l IH]; intros n [|i] x; simpl; try done.
  - intros [= ->] Hu Hl. rewrite Hu, (Z.eqb_sym id r). destruct (r =? id); cbn; [f_equal; lia|done].
  - intros Hx Hu Hl. rewrite (IH (S n) i x Hx Hu) by (intros z Hz; apply Hl; by right).
    specialize (Hl y ltac:(by left)). destruct (sem_used y && (sem_id y =? id)) eqn:E.
    + apply andb_true_iff in E as [Ey E%Z.eqb_eq]. destruct (Z.eqb_spec id r); [|done]. subst. exfalso. by apply Hl.
    + destruct (id =? r); [f_equal; lia|done].
Qed.

(** allocating a semaphore gives a fresh identifier.  As long as a slot is
    free the identifier returned names a new semaphore with the given value and
    no waiter, and every other identifier names what it named; when the
    sixty-four slots are taken the call returns 0 and changes nothing. *)
Theorem sem_alloc_fresh s v :
  ids_ok s -> k_next_sem_id s < 2 ^ 64 - 1 ->
  runs (sem_alloc v) s (fun r s' =>
    match free_slot 0 (k_sems s) with
    | None => r = 0 /\ s' = s
    | Some i => r = k_next_sem_id s /\ ids_ok s' /\ slot_of s r = None /\ slot_of s' r = Some i /\
        k_sems s' = <[i := mk_sem r v 1 0 0 0 true]> (k_sems s) /\
        (forall id, id <> r -> slot_of s' id = slot_of s id)
    end).
Proof.
  intros [Hn Hids] Hb. apply runs_bind, runs_gets. destruct (free_slot 0 (k_sems s)) as [i|] eqn:Ef; [|by apply runs_ret].
  destruct (free_slot_some _ _ _ Ef) as (_ & x & Hx & Hu). rewrite Nat.sub_0_r in Hx.
  assert ((i < length (k_sems s))%nat) as Hi by (by eapply lookup_lt_Some).
  assert (forall y, y ∈ k_sems s -> sem_used y = true -> sem_id y <> k_next_sem_id s) as Hold.
  { intros y (j & Hj)%list_elem_of_lookup Hy. specialize (Hids j y Hj Hy). lia. }
  apply runs_bind. eapply runs_sstore; [exact Hx|]. apply runs_bind, runs_gets. apply runs_bind, runs_modify.
  do 5 (apply runs_bind; eapply runs_sstore; [cbn; apply list_lookup_insert_eq; by rewrite ?length_insert|]).
  apply runs_bind. eapply runs_gets_opt; [cbn; apply list_lookup_insert_eq; by rewrite ?length_insert|]. apply runs_ret.
  split; [done|]. unfold ids_ok, slot_of. cbn. rewrite !list_insert_insert_eq. rewrite wrap_small by lia.
  repeat match goal with |- context [<[i := ?y]> (k_sems s)] =>
    progress change y with (mk_sem (k_next_sem_id s) v 1 0 0 0 true) end.
  split_and!.
  - lia.
  - intros j y. destruct (decide (j = i)) as [->|Hj].
    + rewrite list_lookup_insert_eq by done. intros [= <-] _. cbn. lia.
    + rewrite list_lookup_insert_ne by done. intros Hy Hyu. specialize (Hids j y Hy Hyu). lia.
  - destruct (k_next_sem_id s =? 0); [done|]. destruct (find_slot _ 0 (k_sems s)) as [j|] eqn:E; [|done].
    apply find_slot_some in E as (_ & y & Hy & Hyu & Hyi). exfalso. eapply Hold; [|exact Hyu|exact Hyi]. by eapply list_elem_of_lookup_2.
  - rewrite (proj2 (Z.eqb_neq _ 0)) by lia. rewrite (find_slot_insert _ _ _ _ _ _ x) by done. by rewrite Z.eqb_refl.
  - done.
  - intros id Hid. rewrite (find_slot_insert _ _ _ _ _ _ x) by done. by rewrite (proj2 (Z.eqb_neq _ _) Hid).
Qed.
End SemTheorems.

(** ** A system with two semaphores

    The process 0x2000 runs; 0x3000 waits on the first semaphore, the second has
    three units. *)

Definition demo_sem_start : kstate mm :=
  kernel_boot mm_boot demo_mode
    <| k_procs := list_to_map
         [(0x1000, demo_process 1 1 0 PROCESS_STATE_RUNNING);
          (0x2000, demo_process 2 1 0 PROCESS_STATE_RUNNING);
          (0x3000, demo_process 3 1 0 PROCESS_STATE_BLOCKED)] |>
    <| k_sems ::= fun l => mk_sem 1 0 1 0 0x3000 0x3000 true :: mk_sem 2 3 1 0 0 0 true :: drop 2 l |>
    <| k_next_sem_id := 3 |>
    <| k_sched ::= fun c => c <| current := 0x2000 |> <| idle_p := 0x1000 |> |>.
Definition demo_blocked : qref -> list Z := (spec_ops [OpPush Blocked 0x3000] (fun _ => [])).2.
Definition demo_sem : kstate mm := after (run_ops [OpPush Blocked 0x3000]) demo_sem_start.
Definition demo_waiters : nat -> list Z := fun i => match i with O => [0x3000] | _ => [] end.

Lemma demo_sem_shows : shows demo_sem demo_blocked (strip demo_sem_start).
Proof.
  assert (queues demo_sem_start (fun _ => [])) as Hq.
  { apply queues_empty; try reflexivity. apply (bool_decide_unpack (map_Forall _ _)). vm_compute. exact I. }
  pose proof (run_ops_shows [OpPush Blocked 0x3000] demo_sem_start _ Hq) as H.
  apply runs_after in H as (rs & _ & H); [exact H|]. simpl. unfold op_ok.
  split_and!; try done; try (eexists; vm_compute; reflexivity). intros q' _. apply not_elem_of_nil.
Qed.

Lemma demo_sem_sched_ok : sched_ok (strip demo_sem_start) demo_blocked.
Proof.
  split.
  - apply (bool_decide_unpack (map_Forall (fun _ b => sound b) (k_procs (strip demo_sem_start)))). vm_compute. exact I.
  - intros q p b Hp. unfold demo_blocked in Hp. cbn in Hp. unfold upd in Hp. case_decide; subst; cbn in Hp.
    + apply list_elem_of_singleton in Hp as ->. vm_compute. by intros [= <-].
    + by apply elem_of_nil in Hp.
  - eexists. split; vm_compute; reflexivity.
  - intros p b Hp Hr.
    assert (map_Forall (fun p b => p_state b = PROCESS_STATE_RUNNING -> p = 0x2000 \/ p = 0x1000) (k_procs (strip demo_sem_start))) as Hm.
    { apply (bool_decide_unpack _). vm_compute. exact I. }
    by apply (Hm p b).
  - eexists. vm_compute. reflexivity.
Qed.

Lemma demo_sems_ok : sems_ok (strip demo_sem_start) demo_waiters.
Proof.
  assert (forall i x, k_sems (strip demo_sem_start) !! i = Some x ->
    i = 0%nat /\ x = mk_sem 1 0 1 0 0x3000 0x3000 true \/ (0 < i)%nat /\ (x = mk_sem 2 3 1 0 0 0 true \/ x = zero_sem)) as Hs.
  { intros [|[|i]] x; cbn [k_sems lookup list_lookup].
    - intros [= <-]. by left.
    - intros [= <-]. right. split; [lia|by left].
    - intros Hx. right. split; [lia|right]. change (replicate 62 zero_sem !! i = Some x) in Hx.
      by apply lookup_replicate in Hx as [-> _]. }
  split.
  - intros i x Hx. destruct (Hs i x Hx) as [[-> ->]|[Hi Hx']].
    + split; try reflexivity; [split; vm_compute; done|]. apply (bool_decide_unpack _). vm_compute. exact I.
    + destruct i; [lia|]. destruct Hx' as [->| ->]; split; try reflexivity; apply NoDup_singleton.
  - intros i x Hx Hu. destruct (Hs i x Hx) as [[-> ->]|[Hi Hx']].
    + split; [done|]. split; [done|]. cbn. lia.
    + destruct i; [lia|]. destruct Hx' as [->| ->]; split_and!; done.
  - intros [|i] p; cbn; [|by intros ?%elem_of_nil]. intros ->%list_elem_of_singleton. eexists. split; vm_compute; reflexivity.
  - intros [|i] [|j] p; cbn; try done; by intros ?%elem_of_nil || intros _ ?%elem_of_nil.
Qed.

Lemma sem_wait_takes_unit_witness :
  runs (sem_wait_by_id 2) demo_sem (fun r s' =>
    let t' := strip demo_sem_start <| k_sems ::= <[1%nat := mk_sem 2 3 1 0 0 0 true <| sem_value := 3 - 1 |>]> |> in
    r = 1 /\ shows s' demo_blocked t' /\ sems_ok t' demo_waiters).
Proof.
  apply (sem_wait_takes_unit demo_sem demo_blocked (strip demo_sem_start) demo_waiters 2 1 (mk_sem 2 3 1 0 0 0 true)
           demo_sem_shows demo_sems_ok); try reflexivity. vm_compute. discriminate.
Defined.

Lemma sem_wait_blocks_witness :
  suspends (sem_wait_by_id 1) demo_sem TimerTick (fun s' k =>
    (forall s'', k s'' = Done 1 s'') /\
    exists t' b', shows s' demo_blocked t' /\ sched_ok t' demo_blocked /\
      sems_ok t' (updW demo_waiters 0 (demo_waiters 0%nat ++ [0x2000])) /\
      k_procs t' !! 0x2000 = Some b' /\ p_state b' = PROCESS_STATE_BLOCKED /\ need_resched (k_sched t') = true).
Proof.
  eapply (sem_wait_blocks demo_sem demo_blocked (strip demo_sem_start) demo_waiters 1 0 (mk_sem 1 0 1 0 0x3000 0x3000 true)
           _ demo_sem_shows demo_sem_sched_ok demo_sems_ok); try reflexivity; vm_compute; discriminate.
Defined.

Lemma sem_signal_wakes_first_witness :
  runs (sem_signal_by_id 1) demo_sem (fun r s' => r = 1 /\ exists t' x' b',
    shows s' (upd (upd demo_blocked Blocked (without 0x3000 (demo_blocked Blocked))) (Ready 1) (demo_blocked (Ready 1) ++ [0x3000])) t' /\
    sched_ok t' (upd (upd demo_blocked Blocked (without 0x3000 (demo_blocked Blocked))) (Ready 1) (demo_blocked (Ready 1) ++ [0x3000])) /\
    sems_ok t' (updW demo_waiters 0 []) /\ k_sems t' !! 0%nat = Some x' /\ sem_value x' = 0 /\
    k_procs t' !! 0x3000 = Some b' /\ p_state b' = PROCESS_STATE_READY /\ p_waiting_on_sem b' = 0).
Proof.
  apply (sem_signal_wakes_first demo_sem demo_blocked (strip demo_sem_start) demo_waiters 1 0 (mk_sem 1 0 1 0 0x3000 0x3000 true)
           0x3000 [] (demo_process 3 1 0 PROCESS_STATE_BLOCKED) demo_sem_shows demo_sem_sched_ok demo_sems_ok); try reflexivity.
Defined.

Lemma sem_signal_frees_unit_witness :
  runs (sem_signal_by_id 2) demo_sem (fun r s' =>
    let t' := strip demo_sem_start <| k_sems ::= <[1%nat := mk_sem 2 3 1 0 0 0 true <| sem_value := 3 + 1 |>]> |> in
    r = 1 /\ shows s' demo_blocked t' /\ sems_ok t' demo_waiters).
Proof.
  apply (sem_signal_frees_unit demo_sem demo_blocked (strip demo_sem_start) demo_waiters 2 1 (mk_sem 2 3 1 0 0 0 true)
           demo_sem_shows demo_sems_ok); try reflexivity.
Defined.

Lemma sem_alloc_fresh_witness :
  runs (sem_alloc 7) demo_sem_start (fun r s' => r = 3 /\ slot_of s' 3 = Some 2%nat /\ slot_of s' 1 = Some 0%nat).
Proof.
  eapply runs_mono; [apply (sem_alloc_fresh demo_sem_start 7)|].
  - split; [reflexivity|]. intros [|[|i]] x; [intros [= <-] _; done|intros [= <-] _; done|].
    intros Hx Hu. change (replicate 62 zero_sem !! i = Some x) in Hx. by apply lookup_replicate in Hx as [-> _].
  - reflexivity.
  - intros r s'. change (free_slot 0 (k_sems demo_sem_start)) with (Some 2%nat). cbv iota.
    intros (-> & _ & _ & H2 & _ & Hid). split; [reflexivity|]. split; [exact H2|].
    rewrite Hid; [reflexivity|discriminate].
Defined.
