(* ===== verification/PipeFacts.v ===== *)
(** * One round of the loops of pipe.c

    [world m x n s]: nobody is in the critical section of the pipe, whose slot is
    [x]; the memory is [m]; its semaphores can be signalled [n] times more. *)
From S2P Require Import Prelude LinkedList Ring CLib Video KState ProcQueue SchedCore QueueFacts SchedView Semaphore Pipe SchedFacts SemFacts SemTheorems.

Section PipeFacts.
Context {MM : Type}.
Implicit Types (s t : kstate MM) (L : qref -> list Z) (W : nat -> list Z) (x : pipe_t).

Lemma shows_pipe_load s L t j x (Q : pipe_t -> kstate MM -> Prop) :
  shows s L t -> k_pipes t !! j = Some x -> Q x s -> runs (pipe_load j) s Q.
Proof. intros [_ <-] Hx HQ. by eapply runs_gets_opt. Qed.

Lemma shows_pipe_store s L t j x f (Q : unit -> kstate MM -> Prop) :
  shows s L t -> k_pipes t !! j = Some x ->
  (forall s', shows s' L (t <| k_pipes ::= <[j := f x]> |>) -> Q tt s') -> runs (pipe_store j f) s Q.
Proof.
  intros H Hx HQ. apply runs_bind. eapply shows_pipe_load; [exact H|exact Hx|].
  eapply shows_modify; [exact H|done..|]. intros s' H'. apply HQ.
  replace (t <| k_pipes ::= <[j := f x]> |>) with (t <| k_pipes ::= alter f j |>); [done|].
  unfold set_field, set_k_pipes. f_equal. by apply list_alter_is_insert.
Qed.

Lemma pipes_twice t j x x' :
  t <| k_pipes ::= <[j := x]> |> <| k_pipes ::= <[j := x']> |> = t <| k_pipes ::= <[j := x']> |>.
Proof. unfold set_field, set_k_pipes. cbn. f_equal. apply list_insert_insert_eq. Qed.

Definition pipe_data (x : pipe_t) : list Z := ring PIPE_BUFFER_SIZE (pipe_buffer x) (pipe_read_pos x) (pipe_count x).
Definition pipe_wf (x : pipe_t) : Prop := ring_wf PIPE_BUFFER_SIZE (pipe_read_pos x) (pipe_write_pos x) (pipe_count x).

Lemma pipe_data_length x : pipe_wf x -> Z.of_nat (length (pipe_data x)) = pipe_count x.
Proof. intros (_ & Hn & _). unfold pipe_data. rewrite ring_length. lia. Qed.

(** The slots of the pipe and of its mutex, its items and its spaces. *)
Context (j im ii isp : nat).
(** The screen and the descriptors of the running process, which stay as they are. *)
Context (vid : video) (fds : list fd_entry_t).

Record pipe_ready t W x (n : Z) : Prop := {
  pr_pipe : k_pipes t !! j = Some x;
  pr_mutex : slot_of t (pipe_mutex x) = Some im;
  pr_items : slot_of t (pipe_sem_items x) = Some ii;
  pr_spaces : slot_of t (pipe_sem_spaces x) = Some isp;
  pr_free : exists y, k_sems t !! im = Some y /\ sem_value y = 1;
  pr_nobody : W im = [];
  pr_room_items : exists y, k_sems t !! ii = Some y /\ sem_value y + n <= INT_MAX;
  pr_room_spaces : exists y, k_sems t !! isp = Some y /\ sem_value y + n <= INT_MAX;
  pr_distinct : im <> ii /\ im <> isp;
  pr_current : current (k_sched t) <> 0;
  pr_video : k_video t = vid;
  pr_fds : p_fds <$> k_procs t !! current (k_sched t) = Some fds }.

Definition world (m : memory) x (n : Z) s : Prop := exists L t W,
  shows s L t /\ sched_ok t L /\ sems_ok t W /\ pipe_ready t W x n /\ k_mem t = m.

Lemma world_less m x n n' s : n' <= n -> world m x n s -> world m x n' s.
Proof.
  intros Hn (L & t & W & H & Hso & Hse & [] & Em). exists L, t, W. split_and!; try done. split; try done.
  - destruct pr_room_items0 as (y & ? & ?). exists y. split; [done|lia].
  - destruct pr_room_spaces0 as (y & ? & ?). exists y. split; [done|lia].
Qed.

(** ** Entering and leaving the critical section *)

(** Inside: the mutex is taken. *)
Definition inside (m : memory) x (n : Z) s : Prop := exists L t W y,
  shows s L t /\ sched_ok t L /\ sems_ok t W /\ k_sems t !! im = Some y /\ sem_value y = 0 /\
  pipe_ready (t <| k_sems ::= <[im := y <| sem_value := 1 |>]> |>) W x n /\ k_mem t = m.

Lemma sem_eta_value (y : semaphore_t) v : sem_value y = v -> y <| sem_value := v |> = y.
Proof. destruct y. cbn. by intros ->. Qed.
Lemma sem_value_twice (y : semaphore_t) v v' : y <| sem_value := v |> <| sem_value := v' |> = y <| sem_value := v' |>.
Proof. done. Qed.
Lemma sems_id t i y : k_sems t !! i = Some y -> t <| k_sems ::= <[i := y]> |> = t.
Proof. intros Hy. destruct t. unfold set_field, set_k_sems. cbn in *. f_equal. by apply list_insert_id. Qed.

Lemma sems_ok_value t W i y v : sems_ok t W -> k_sems t !! i = Some y -> - 2 ^ 31 <= v <= INT_MAX -> W i = [] ->
  sems_ok (t <| k_sems ::= <[i := y <| sem_value := v |>]> |>) W.
Proof.
  intros Hok Hy Hv HW. eapply sems_ok_proper; [|eapply (sems_ok_step t _ W i _ (W i)); [exact Hok|done| | | |]].
  - intros j'. unfold updW. by case_decide; subst.
  - eapply wlist_sems; [by eapply sk_list|done..].
  - cbn. intros Hu. destruct (sk_unit _ _ Hok i y Hy Hu) as (? & ? & ?). done.
  - intros j' p Hj Hp. split; [done|]. rewrite HW. apply not_elem_of_nil.
  - rewrite HW. by intros p ?%elem_of_nil.
Qed.

Lemma enter_spec m x n s (Q : Z -> kstate MM -> Prop) :
  world m x n s -> (forall s', inside m x n s' -> Q 1 s') -> runs (sem_wait_by_id (pipe_mutex x)) s Q.
Proof.
  intros (L & t & W & H & Hso & Hse & Hp & Em) HQ. pose proof Hp as []. destruct pr_free0 as (y & Hy & Hv).
  eapply wait_spec; [exact H|exact Hse|exact pr_mutex0|exact Hy|lia|done|]. intros s' t' H' Hse'. apply HQ.
  exists L, t', W, (y <| sem_value := sem_value y - 1 |>). split_and!; [exact H'| |exact Hse'| |cbn; lia| |done].
  - eapply wframe_ok; [|exact Hso]. apply wframe_sems.
  - apply list_lookup_insert_eq. by eapply lookup_lt_Some.
  - unfold t'. rewrite sems_twice, sem_value_twice, sem_eta_value by done. by rewrite sems_id.
Qed.

Lemma leave_spec m x n s (Q : Z -> kstate MM -> Prop) :
  inside m x n s -> (forall s', world m x n s' -> Q 1 s') -> runs (sem_signal_by_id (pipe_mutex x)) s Q.
Proof.
  intros (L & t & W & y & H & Hso & Hse & Hy & Hv & Hp & Em) HQ. pose proof Hp as [].
  assert (slot_of t (pipe_mutex x) = Some im) as Hslot.
  { rewrite <- pr_mutex0. symmetry. apply slot_of_keys. by apply (keys_insert _ _ y). }
  eapply signal_frees; [exact H|exact Hse|exact Hslot|exact Hy|done|unfold INT_MAX; lia|].
  rewrite Hv. intros s' t' H' Hse'. apply HQ. exists L, t', W. split_and!; try done.
  eapply wframe_ok; [|exact Hso]. apply wframe_sems.
Qed.

Lemma pipe_load_world m x n s (Q : pipe_t -> kstate MM -> Prop) : world m x n s -> Q x s -> runs (pipe_load j) s Q.
Proof. intros (L & t & W & H & _ & _ & Hp & _) HQ. eapply shows_pipe_load; [exact H|apply Hp|done]. Qed.
Lemma pipe_load_inside m x n s (Q : pipe_t -> kstate MM -> Prop) : inside m x n s -> Q x s -> runs (pipe_load j) s Q.
Proof. intros (L & t & W & y & H & _ & _ & _ & _ & Hp & _) HQ. eapply shows_pipe_load; [exact H|apply Hp|done]. Qed.

Lemma pipe_store_inside m x n s f (Q : unit -> kstate MM -> Prop) :
  inside m x n s ->
  pipe_mutex (f x) = pipe_mutex x -> pipe_sem_items (f x) = pipe_sem_items x -> pipe_sem_spaces (f x) = pipe_sem_spaces x ->
  (forall s', inside m (f x) n s' -> Q tt s') -> runs (pipe_store j f) s Q.
Proof.
  intros (L & t & W & y & H & Hso & Hse & Hy & Hv & [] & Em) E1 E2 E3 HQ.
  eapply shows_pipe_store; [exact H|exact pr_pipe0|]. intros s' H'. apply HQ.
  exists L. eexists. exists W, y. split; [exact H'|]. split; [by destruct Hso|]. split; [by eapply sems_ok_frame; [..|exact Hse]|].
  split; [done|]. split; [done|]. split; [|done]. split; rewrite ?E1, ?E2, ?E3; try done.
  cbn. apply list_lookup_insert_eq. by eapply lookup_lt_Some.
Qed.

Lemma mload_inside {A} m x n s (f : memory -> A) (Q : A -> kstate MM -> Prop) :
  inside m x n s -> Q (f m) s -> runs (mload f) s Q.
Proof. intros (L & t & W & y & H & _ & _ & _ & _ & _ & <-) HQ. unfold mload. by eapply shows_gets; [exact H|done|]. Qed.

Lemma mstore_inside m x n s f (Q : unit -> kstate MM -> Prop) :
  inside m x n s -> (forall s', inside (f m) x n s' -> Q tt s') -> runs (mstore f) s Q.
Proof.
  intros (L & t & W & y & H & Hso & Hse & Hy & Hv & [] & Em) HQ. unfold mstore.
  eapply shows_modify; [exact H|done..|]. intros s' H'. apply HQ. exists L. eexists. exists W, y.
  split; [exact H'|]. split; [by destruct Hso|]. split; [by eapply sems_ok_frame; [..|exact Hse]|].
  split; [done|]. split; [done|]. split; [by split|]. cbn. by rewrite Em.
Qed.

(** A signal on the items or the spaces: a process that waits for it may become ready. *)
Lemma signal_world m x n s id i (Q : Z -> kstate MM -> Prop) :
  world m x n s -> 0 < n -> (id = pipe_sem_items x /\ i = ii) \/ (id = pipe_sem_spaces x /\ i = isp) ->
  (forall s', world m x (n - 1) s' -> Q 1 s') -> runs (sem_signal_by_id id) s Q.
Proof.
  intros (L & t & W & H & Hso & Hse & [] & Em) Hn Hid HQ.
  assert (slot_of t id = Some i /\ im <> i /\ exists y, k_sems t !! i = Some y /\ sem_value y + n <= INT_MAX) as (Hslot & Hdi & y & Hy & Hv).
  { destruct pr_distinct0. by destruct Hid as [[-> ->]|[-> ->]]. }
  eapply signal_any; [exact H|exact Hso|exact Hse|exact Hslot|exact Hy|lia|].
  intros s' L' t' W' H' Hso' Hse' Hsg HW' Hother. apply HQ.
  pose proof (keys_signalled _ _ _ _ _ Hy Hsg) as Hkeys. destruct Hsg as [(y' & Es & Ev & _) Er [Ec _] Efd].
  assert (Hroom : forall i', (exists y, k_sems t !! i' = Some y /\ sem_value y + n <= INT_MAX) ->
    exists y, k_sems t' !! i' = Some y /\ sem_value y + (n - 1) <= INT_MAX).
  { intros i' (z & Hz & Hzn). rewrite Es. destruct (decide (i' = i)) as [->|Hne].
    - exists y'. rewrite list_lookup_insert_eq by by eapply lookup_lt_Some. split; [done|]. rewrite Ev. destruct (W i); lia.
    - exists z. rewrite list_lookup_insert_ne by done. split; [done|lia]. }
  exists L', t', W'. split_and!; try done; [|by rewrite Er].
  split; rewrite ?(slot_of_keys t t' _ Hkeys), ?Ec; auto.
  - by rewrite Er.
  - destruct pr_free0 as (z & Hz & Hzv). exists z. rewrite Es, list_lookup_insert_ne by done. done.
  - by rewrite Hother.
  - by rewrite Er.
  - by rewrite Efd.
Qed.

(** ** The two steps *)

Definition pushed (c : Z) x : pipe_t :=
  x <| pipe_buffer ::= <[pipe_write_pos x := c]> |> <| pipe_write_pos ::= fun w => (w + 1) mod PIPE_BUFFER_SIZE |>
    <| pipe_count ::= fun n => u64 (n + 1) |>.
Definition popped x : pipe_t :=
  x <| pipe_read_pos ::= fun r => (r + 1) mod PIPE_BUFFER_SIZE |> <| pipe_count ::= fun n => u64 (n - 1) |>.

Lemma pushed_data c x : pipe_wf x -> pipe_count x < PIPE_BUFFER_SIZE ->
  pipe_wf (pushed c x) /\ pipe_data (pushed c x) = pipe_data x ++ [c].
Proof.
  unfold pipe_wf, pipe_data, pushed. cbn. unfold PIPE_BUFFER_SIZE. intros Hw Hlt.
  destruct (ring_push 4096 ltac:(lia) (pipe_buffer x) _ _ _ c Hw Hlt) as [Hw' Hr'].
  pose proof Hw as (_ & Hn & _). rewrite wrap_small by lia. done.
Qed.

Lemma popped_data x : pipe_wf x -> 0 < pipe_count x ->
  pipe_wf (popped x) /\ pipe_data x = default 0 (pipe_buffer x !! pipe_read_pos x) :: pipe_data (popped x).
Proof.
  unfold pipe_wf, pipe_data, popped. cbn. unfold PIPE_BUFFER_SIZE. intros Hw Hlt.
  destruct (ring_pop 4096 ltac:(lia) (pipe_buffer x) _ _ _ Hw Hlt) as [Hw' Hr'].
  pose proof Hw as (_ & Hn & _). rewrite wrap_small by lia. done.
Qed.

Lemma write_step m x n s buffer count written (Q : Z + Z -> kstate MM -> Prop) :
  world m x n s -> 0 < n -> pipe_count x < PIPE_BUFFER_SIZE -> pipe_readers x <> 0 -> written < count ->
  (forall s', world m (pushed (load8 m (buffer + written)) x) (n - 1) s' -> Q (inl (written + 1)) s') ->
  runs (pipe_write_step j buffer count written) s Q.
Proof.
  intros Hw Hn Hc Hr Hlt HQ. unfold pipe_write_step. rewrite (proj2 (Z.ltb_lt _ _) Hlt). cbn [negb].
  apply runs_bind. eapply pipe_load_world; [exact Hw|].
  apply runs_bind. eapply enter_spec; [exact Hw|]. intros s1 H1. cbn [Z.eqb].
  apply runs_bind. eapply pipe_load_inside; [exact H1|].
  rewrite (proj2 (Z.eqb_neq _ _) Hr), (proj2 (Z.ltb_lt _ _) Hc).
  apply runs_bind. eapply mload_inside; [exact H1|].
  apply runs_bind. eapply pipe_store_inside; [exact H1|done..|]. intros s2 H2.
  apply runs_bind. eapply pipe_store_inside; [exact H2|done..|]. intros s3 H3.
  apply runs_bind. eapply pipe_store_inside; [exact H3|done..|]. intros s4 H4.
  change (inside m (pushed (load8 m (buffer + written)) x) n s4) in H4.
  apply runs_bind. eapply pipe_load_inside; [exact H4|].
  apply runs_bind. eapply leave_spec; [exact H4|]. intros s5 H5.
  apply runs_bind. eapply pipe_load_world; [exact H5|].
  apply runs_bind. eapply signal_world; [exact H5|exact Hn|by left|]. intros s6 H6.
  by apply runs_ret, HQ.
Qed.

Lemma read_step m x n s buffer count got (Q : Z + Z -> kstate MM -> Prop) :
  world m x n s -> 0 < n -> 0 < pipe_count x -> got < count ->
  (forall s', world (store8 (buffer + got) (default 0 (pipe_buffer x !! pipe_read_pos x)) m) (popped x) (n - 1) s' ->
     Q (inl (got + 1)) s') ->
  runs (pipe_read_step j buffer count got) s Q.
Proof.
  intros Hw Hn Hc Hlt HQ. unfold pipe_read_step. rewrite (proj2 (Z.ltb_lt _ _) Hlt). cbn [negb].
  apply runs_bind. eapply pipe_load_world; [exact Hw|].
  apply runs_bind. eapply enter_spec; [exact Hw|]. intros s1 H1. cbn [Z.eqb].
  apply runs_bind. eapply pipe_load_inside; [exact H1|].
  rewrite (proj2 (Z.eqb_neq (pipe_count x) 0)) by lia. cbn [andb]. rewrite (proj2 (Z.gtb_lt _ _) Hc).
  apply runs_bind. eapply mstore_inside; [exact H1|]. intros s2 H2.
  apply runs_bind. eapply pipe_store_inside; [exact H2|done..|]. intros s3 H3.
  apply runs_bind. eapply pipe_store_inside; [exact H3|done..|]. intros s4 H4.
  match type of H4 with inside ?m' _ _ _ => change (inside m' (popped x) n s4) in H4 end.
  apply runs_bind. eapply pipe_load_inside; [exact H4|].
  apply runs_bind. eapply leave_spec; [exact H4|]. intros s5 H5.
  apply runs_bind. eapply pipe_load_world; [exact H5|].
  apply runs_bind. eapply signal_world; [exact H5|exact Hn|by right|]. intros s6 H6.
  by apply runs_ret, HQ.
Qed.

(** The ends of the loop of a read: nothing left and something read, or nothing
    to come. *)
Lemma read_stop m x n s buffer count got (Q : Z + Z -> kstate MM -> Prop) :
  world m x n s -> pipe_count x = 0 -> got < count -> 0 < got \/ pipe_writers x = 0 ->
  (forall s', world m x n s' -> Q (inr got) s') -> runs (pipe_read_step j buffer count got) s Q.
Proof.
  intros Hw Hc Hlt Hstop HQ. unfold pipe_read_step. rewrite (proj2 (Z.ltb_lt _ _) Hlt). cbn [negb].
  apply runs_bind. eapply pipe_load_world; [exact Hw|].
  apply runs_bind. eapply enter_spec; [exact Hw|]. intros s1 H1. cbn [Z.eqb].
  apply runs_bind. eapply pipe_load_inside; [exact H1|]. rewrite Hc. cbn [Z.eqb Z.gtb Z.compare andb].
  assert (forall Q : Z + Z -> kstate MM -> Prop, (forall s', world m x n s' -> Q (inr got) s') ->
    runs (sem_signal_by_id (pipe_mutex x) ;; mret (inr got)) s1 Q) as Hend.
  { intros Q' HQ'. apply runs_bind. eapply leave_spec; [exact H1|]. intros s2 H2. by apply runs_ret, HQ'. }
  destruct (Z.eqb_spec (pipe_writers x) 0) as [|Hwr]; [by apply Hend|].
  destruct Hstop as [Hg|]; [|done]. rewrite (proj2 (Z.gtb_lt _ _) Hg). by apply Hend.
Qed.

Lemma write_stop m x n s buffer count written (Q : Z + Z -> kstate MM -> Prop) :
  world m x n s -> pipe_readers x = 0 -> written < count ->
  (forall s', world m x n s' -> Q (inr written) s') -> runs (pipe_write_step j buffer count written) s Q.
Proof.
  intros Hw Hr Hlt HQ. unfold pipe_write_step. rewrite (proj2 (Z.ltb_lt _ _) Hlt). cbn [negb].
  apply runs_bind. eapply pipe_load_world; [exact Hw|].
  apply runs_bind. eapply enter_spec; [exact Hw|]. intros s1 H1. cbn [Z.eqb].
  apply runs_bind. eapply pipe_load_inside; [exact H1|]. rewrite Hr. cbn [Z.eqb].
  apply runs_bind. eapply leave_spec; [exact H1|]. intros s2 H2. by apply runs_ret, HQ.
Qed.
End PipeFacts.
