(* ===== verification/PipeTheorems.v ===== *)
(** * What the pipes promise

    Bytes come out of a pipe in the order in which they went in; a reader gets
    what there is, a writer that has no reader writes nothing. *)
From S2P Require Import Prelude LinkedList Ring CLib MmInterface Video MmSimple KState ProcQueue SchedCore QueueFacts SchedView QueueTheorems Semaphore Pipe Scheduler SchedFacts SemFacts SemTheorems PipeFacts.

Section PipeTheorems.
Context {MM : Type} (j im ii isp : nat) (vid : video) (fds : list fd_entry_t) (wakeups : nat).
Implicit Types (s t : kstate MM) (x : pipe_t) (m : memory).
Abbreviation world := (world j im ii isp vid fds).

Lemma write_loop m buffer count k : forall fuel s x n (Q : Z -> kstate MM -> Prop),
  let written := count - Z.of_nat k in
  world m x n s -> pipe_wf x -> Z.of_nat k <= n -> pipe_count x + Z.of_nat k <= PIPE_BUFFER_SIZE ->
  pipe_readers x <> 0 -> (k < fuel)%nat ->
  (forall s' x', world m x' (n - Z.of_nat k) s' -> pipe_wf x' ->
     pipe_data x' = pipe_data x ++ bytes_at m (buffer + written) k ->
     pipe_readers x' = pipe_readers x -> pipe_writers x' = pipe_writers x -> Q count s') ->
  runs (while_fuel fuel (pipe_write_step j buffer count) written) s Q.
Proof.
  induction k as [|k IH]; intros [|fuel] s x n Q written Hw Hx Hn Hc Hr Hf HQ; try lia; simpl while_fuel.
  - apply runs_bind. unfold pipe_write_step. unfold written. rewrite Z.sub_0_r. rewrite (proj2 (Z.ltb_ge _ _)) by lia.
    apply runs_ret, runs_ret. eapply (HQ s x); [by rewrite Z.sub_0_r|done|by rewrite app_nil_r|done..].
  - set (c := load8 m (buffer + written)). destruct (pushed_data c x Hx) as [Hx' Hd]; [lia|].
    apply runs_bind. eapply write_step; [exact Hw|lia|lia|done|unfold written; lia|]. fold c. intros s1 H1.
    replace (written + 1) with (count - Z.of_nat k) by (unfold written; lia).
    pose proof Hx as (_ & Hcnt & _). unfold PIPE_BUFFER_SIZE in Hcnt, Hc.
    eapply (IH fuel s1 (pushed c x) (n - 1)); [exact H1|exact Hx'|lia| |done|lia|].
    + cbn. unfold PIPE_BUFFER_SIZE. rewrite wrap_small by lia. lia.
    + intros s2 x2 H2 Hx2 Hd2 Er Ew. eapply (HQ s2 x2); [|exact Hx2| |exact Er|exact Ew].
      * by replace (n - Z.of_nat (S k)) with (n - 1 - Z.of_nat k) by lia.
      * rewrite Hd2, Hd, <- app_assoc. f_equal. unfold bytes_at. simpl. f_equal; [by rewrite Z.add_0_r|].
        rewrite <- fmap_S_seq, <- list_fmap_compose. apply list_fmap_ext. intros y i _. unfold compose. f_equal.
        unfold written. lia.
Qed.

Lemma read_loop buffer count : forall k fuel s x n m got (Q : Z -> kstate MM -> Prop),
  Z.of_nat k = Z.min (count - got) (pipe_count x) ->
  world m x n s -> pipe_wf x -> Z.of_nat k <= n -> 0 <= got <= count -> 0 < got \/ 0 < pipe_count x \/ pipe_writers x = 0 ->
  (k < fuel)%nat ->
  (forall s' x', world (store_bytes (buffer + got) (take k (pipe_data x)) m) x' (n - Z.of_nat k) s' -> pipe_wf x' ->
     pipe_data x' = drop k (pipe_data x) -> pipe_writers x' = pipe_writers x -> Q (got + Z.of_nat k) s') ->
  runs (while_fuel fuel (pipe_read_step j buffer count) got) s Q.
Proof.
  induction k as [|k IH]; intros [|fuel] s x n m got Q Hk Hw Hx Hn Hg Hstop Hf HQ; try lia; simpl while_fuel; apply runs_bind.
  - destruct (decide (got < count)) as [Hlt|].
    + pose proof Hx as (_ & Hcnt & _). assert (pipe_count x = 0) as Hc by lia.
      eapply read_stop; [exact Hw|exact Hc|done|lia|]. intros s1 H1. apply runs_ret.
      rewrite <- (Z.add_0_r got). eapply (HQ s1 x); [by rewrite Z.sub_0_r|done|done|done].
    + unfold pipe_read_step. rewrite (proj2 (Z.ltb_ge _ _)) by lia. apply runs_ret, runs_ret.
      rewrite <- (Z.add_0_r got). eapply (HQ s x); [by rewrite Z.sub_0_r|done|done|done].
  - destruct (popped_data x Hx) as [Hx' Hd]; [lia|]. eapply read_step; [exact Hw|lia|lia|lia|]. intros s1 H1.
    pose proof Hx as (_ & Hcnt & _). unfold PIPE_BUFFER_SIZE in Hcnt.
    assert (pipe_count (popped x) = pipe_count x - 1) as Ec by (cbn; rewrite wrap_small by lia; done).
    eapply (IH fuel s1 (popped x) (n - 1) _ (got + 1)); [lia|exact H1|exact Hx'|lia|lia|lia|lia|].
    intros s2 x2 H2 Hx2 Hd2 Ew2. replace (got + 1 + Z.of_nat k) with (got + Z.of_nat (S k)) by lia.
    eapply (HQ s2 x2); [|exact Hx2|by rewrite Hd|exact Ew2].
    rewrite Hd. cbn [take store_bytes]. replace (n - Z.of_nat (S k)) with (n - 1 - Z.of_nat k) by lia.
    by rewrite <- Z.add_assoc.
Qed.

Lemma write_spec m x n s buffer count (Q : Z -> kstate MM -> Prop) :
  world m x n s -> pipe_wf x -> buffer <> 0 -> 0 < count <= n -> count < 2 ^ 31 ->
  pipe_count x + count <= PIPE_BUFFER_SIZE -> pipe_readers x <> 0 ->
  (forall s' x', world m x' (n - count) s' -> pipe_wf x' ->
     pipe_data x' = pipe_data x ++ bytes_at m buffer (Z.to_nat count) ->
     pipe_readers x' = pipe_readers x -> pipe_writers x' = pipe_writers x -> Q count s') ->
  runs (pipe_write wakeups (Some j) buffer count) s Q.
Proof.
  intros Hw Hx Hb Hc Hc31 Hroom Hr HQ. unfold pipe_write.
  rewrite (proj2 (Z.eqb_neq buffer 0) Hb), (proj2 (Z.eqb_neq count 0)) by lia. cbn [orb].
  pose proof (write_loop m buffer count (Z.to_nat count)) as Hl. cbv zeta in Hl. rewrite Z2Nat.id, Z.sub_diag in Hl by lia.
  apply runs_bind. eapply Hl; [exact Hw|exact Hx|lia|lia|done|lia|]. intros s' x' H' Hx' Hd Er Ew. apply runs_ret.
  rewrite swrap_small by lia. rewrite Z.add_0_r in Hd. by eapply (HQ s' x').
Qed.

Lemma read_spec m x n s buffer count (Q : Z -> kstate MM -> Prop) :
  let k := Z.min count (pipe_count x) in
  world m x n s -> pipe_wf x -> buffer <> 0 -> 0 < count <= n -> count < 2 ^ 31 ->
  0 < pipe_count x \/ pipe_writers x = 0 ->
  (forall s' x', world (store_bytes buffer (take (Z.to_nat k) (pipe_data x)) m) x' (n - k) s' -> pipe_wf x' ->
     pipe_data x' = drop (Z.to_nat k) (pipe_data x) -> pipe_writers x' = pipe_writers x -> Q k s') ->
  runs (pipe_read wakeups (Some j) buffer count) s Q.
Proof.
  intros k Hw Hx Hb Hc Hc31 Hstop HQ. unfold pipe_read.
  rewrite (proj2 (Z.eqb_neq buffer 0) Hb), (proj2 (Z.eqb_neq count 0)) by lia. cbn [orb].
  pose proof Hx as (_ & Hcnt & _).
  apply runs_bind. eapply (read_loop buffer count (Z.to_nat k) _ s x n m 0); [unfold k; lia|exact Hw|exact Hx|unfold k; lia|lia|lia|unfold k; lia|].
  intros s' x' H' Hx' Hd Ew. apply runs_ret. rewrite Z.add_0_r in H'. rewrite Z2Nat.id in * by (unfold k; lia).
  rewrite swrap_small by (unfold k; lia). by eapply (HQ s' x').
Qed.

(** writing to a pipe appends.  When the buffer has room for the bytes and
    somebody reads, [pipe_write] takes all of them, in order, behind what the
    pipe held; when nobody reads it writes nothing and returns 0. *)
Theorem pipe_write_appends m x n s buffer count :
  world m x n s -> pipe_wf x -> buffer <> 0 -> 0 < count <= n -> count < 2 ^ 31 ->
  pipe_count x + count <= PIPE_BUFFER_SIZE ->
  runs (pipe_write wakeups (Some j) buffer count) s (fun r s' =>
    if pipe_readers x =? 0 then r = 0 /\ world m x n s'
    else r = count /\ exists x', world m x' (n - count) s' /\ pipe_wf x' /\
      pipe_data x' = pipe_data x ++ bytes_at m buffer (Z.to_nat count)).
Proof.
  intros Hw Hx Hb Hc Hc31 Hroom. destruct (Z.eqb_spec (pipe_readers x) 0) as [Hr|Hr].
  - unfold pipe_write. rewrite (proj2 (Z.eqb_neq buffer 0) Hb), (proj2 (Z.eqb_neq count 0)) by lia. cbn [orb].
    apply runs_bind. cbn [while_fuel]. apply runs_bind. eapply write_stop; [exact Hw|done|lia|]. intros s' H'.
    by apply runs_ret, runs_ret.
  - eapply write_spec; [exact Hw|done..|]. intros s' x' H' Hx' Hd _ _. split; [done|]. by exists x'.
Qed.

(** reading from a pipe takes the oldest bytes.  [pipe_read] returns as many
    bytes as are there, at most [count], stores them in the caller's buffer in
    the order they were written, and leaves the rest; it returns 0 at once when
    the pipe is empty and nobody can write any more. *)
Theorem pipe_read_takes_oldest m x n s buffer count :
  let k := Z.min count (Z.of_nat (length (pipe_data x))) in
  world m x n s -> pipe_wf x -> buffer <> 0 -> 0 < count <= n -> count < 2 ^ 31 ->
  pipe_data x <> [] \/ pipe_writers x = 0 ->
  runs (pipe_read wakeups (Some j) buffer count) s (fun r s' => r = k /\ exists x',
    world (store_bytes buffer (take (Z.to_nat k) (pipe_data x)) m) x' (n - k) s' /\ pipe_wf x' /\
    pipe_data x' = drop (Z.to_nat k) (pipe_data x)).
Proof.
  intros k Hw Hx Hb Hc Hc31 Hstop. pose proof (pipe_data_length x Hx) as El.
  eapply read_spec; [exact Hw|done..| |].
  - destruct Hstop as [Hd|]; [|by right]. left. destruct (pipe_data x) eqn:E; [done|]. rewrite <- El. simpl. lia.
  - intros s' x' H' Hx' Hd _. unfold k. rewrite El. split; [done|]. by exists x'.
Qed.

(** C9: what goes through a pipe arrives.  Bytes written to an empty pipe and
    read back are, in the reader's buffer, the bytes of the writer's buffer. *)
Theorem pipe_transfers m x n s from to count :
  world m x n s -> pipe_wf x -> pipe_data x = [] -> is_bytes m -> from <> 0 -> to <> 0 ->
  0 < count -> 2 * count <= n -> count <= PIPE_BUFFER_SIZE -> pipe_readers x <> 0 ->
  runs (w ← pipe_write wakeups (Some j) from count; r ← pipe_read wakeups (Some j) to count; mret (w, r)) s
    (fun wr s' => wr = (count, count) /\ exists m' x', world m' x' (n - 2 * count) s' /\ pipe_data x' = [] /\
      bytes_at m' to (Z.to_nat count) = bytes_at m from (Z.to_nat count)).
Proof.
  intros Hw Hx Hd Hm Hf Ht Hc Hn Hsz Hr. unfold PIPE_BUFFER_SIZE in *.
  pose proof (pipe_data_length x Hx) as El. rewrite Hd in El. simpl in El.
  apply runs_bind. eapply write_spec; [exact Hw|exact Hx|done|lia|lia|unfold PIPE_BUFFER_SIZE; lia|done|].
  intros s1 x1 H1 Hx1 Hd1 _ _. rewrite Hd in Hd1. simpl in Hd1.
  pose proof (pipe_data_length x1 Hx1) as El1. rewrite Hd1, bytes_at_length in El1.
  apply runs_bind. eapply read_spec; [exact H1|exact Hx1|done|lia|lia|lia|].
  rewrite <- El1, Z2Nat.id, Z.min_id, Hd1 by lia. rewrite firstn_all2, skipn_all2 by (rewrite bytes_at_length; lia).
  intros s2 x2 H2 Hx2 Hd2 _. apply runs_ret. split; [done|]. eexists _, x2. split; [|split; [exact Hd2|]].
  - by replace (n - 2 * count) with (n - count - count) by lia.
  - rewrite <- (bytes_at_length m from (Z.to_nat count)) at 2. apply bytes_at_store_bytes.
    unfold bytes_at. intros c (i & -> & _)%list_elem_of_fmap. apply Hm.
Qed.
End PipeTheorems.

(** ** A system with a pipe *)

Definition demo_pipe : pipe_t := mk_pipe 1 ∅ 0 0 0 1 1 1 2 3 true.
(** The running process has the descriptors [fds]. *)
Definition demo_piped_at (fds : list fd_entry_t) : kstate mm :=
  kernel_boot mm_boot demo_mode
    <| k_mem := store_bytes 0x500 [104; 111; 108; 97] ∅ |>
    <| k_procs := list_to_map
         [(0x1000, demo_process 1 1 0 PROCESS_STATE_RUNNING); (0x2000, demo_process 2 1 0 PROCESS_STATE_RUNNING <| p_fds := fds |>)] |>
    <| k_sems ::= fun l => mk_sem 1 0 1 0 0 0 true :: mk_sem 2 4096 1 0 0 0 true :: mk_sem 3 1 1 0 0 0 true :: drop 3 l |>
    <| k_pipes ::= fun l => demo_pipe :: drop 1 l |>
    <| k_sched ::= fun c => c <| current := 0x2000 |> <| idle_p := 0x1000 |> |>.
Definition demo_fds : list fd_entry_t := p_fds (demo_process 2 1 0 PROCESS_STATE_RUNNING).
Definition demo_piped : kstate mm := demo_piped_at demo_fds.
(** The same with three bytes in the pipe. *)
Definition demo_pipe_full : pipe_t := mk_pipe 1 (list_to_map [(4095, 65); (0, 66); (1, 67)]) 4095 2 3 1 1 1 2 3 true.
Definition demo_piped_full : kstate mm := demo_piped <| k_pipes ::= fun l => demo_pipe_full :: drop 1 l |>.

Abbreviation demo_world := (world 0 2 0 1 (video_boot demo_mode) demo_fds).

Lemma demo_piped_world_at fds x : pipe_mutex x = 3 -> pipe_sem_items x = 1 -> pipe_sem_spaces x = 2 ->
  world 0 2 0 1 (video_boot demo_mode) fds (store_bytes 0x500 [104; 111; 108; 97] ∅) x 1000
    (demo_piped_at fds <| k_pipes ::= fun l => x :: drop 1 l |>).
Proof.
  intros E1 E2 E3. set (s := demo_piped_at fds <| k_pipes ::= fun l => x :: drop 1 l |>).
  exists (fun _ => []), (strip s), (fun _ => []). split; [|split; [|split; [|split; [|done]]]].
  - split; [|done]. apply queues_empty; try reflexivity. apply (bool_decide_unpack (map_Forall _ _)). vm_compute. exact I.
  - split.
    + apply (bool_decide_unpack (map_Forall (fun _ b => sound b) (k_procs (strip s)))). vm_compute. exact I.
    + by intros q p b ?%elem_of_nil.
    + eexists. split; vm_compute; reflexivity.
    + intros p b Hp Hr.
      assert (map_Forall (fun p b => p_state b = PROCESS_STATE_RUNNING -> p = 0x2000 \/ p = 0x1000) (k_procs (strip s))) as Hm.
      { apply (bool_decide_unpack _). vm_compute. exact I. }
      by apply (Hm p b).
    + eexists. vm_compute. reflexivity.
  - assert (Forall (fun y => sem_wait_head y = 0 /\ sem_wait_tail y = 0 /\ sem_lock y = 0 /\ 0 <= sem_value y <= INT_MAX) (k_sems (strip s))) as Hall.
    { apply (bool_decide_unpack _). vm_compute. exact I. }
    rewrite Forall_lookup in Hall. split.
    + intros i y Hy. destruct (Hall i y Hy) as (? & ? & _). split; [done|done|done|apply NoDup_singleton].
    + intros i y Hy _. destruct (Hall i y Hy) as (_ & _ & ? & ?). split_and!; [done|lia|lia|done].
    + by intros i p ?%elem_of_nil.
    + by intros i i' p ?%elem_of_nil.
  - split; rewrite ?E1, ?E2, ?E3; try reflexivity; try (eexists; split; [vm_compute; reflexivity|vm_compute; try discriminate; try reflexivity]).
    + split; discriminate.
    + discriminate.
Qed.
Lemma demo_piped_world x : pipe_mutex x = 3 -> pipe_sem_items x = 1 -> pipe_sem_spaces x = 2 ->
  demo_world (store_bytes 0x500 [104; 111; 108; 97] ∅) x 1000 (demo_piped <| k_pipes ::= fun l => x :: drop 1 l |>).
Proof. apply demo_piped_world_at. Qed.

Lemma pipe_write_appends_witness :
  runs (pipe_write 0 (Some 0%nat) 0x500 4) (demo_piped <| k_pipes ::= fun l => demo_pipe :: drop 1 l |>) (fun r s' =>
    r = 4 /\ exists x', demo_world (store_bytes 0x500 [104; 111; 108; 97] ∅) x' (1000 - 4) s' /\
      pipe_data x' = [104; 111; 108; 97]).
Proof.
  eapply runs_mono.
  - apply (pipe_write_appends 0 2 0 1 (video_boot demo_mode) demo_fds 0 (store_bytes 0x500 [104; 111; 108; 97] ∅) demo_pipe 1000 _ 0x500 4);
      [by apply demo_piped_world|vm_compute; split_and!; (done || discriminate)|done|lia|lia|vm_compute; discriminate].
  - intros r s' H. cbn in H. destruct H as (-> & x' & Hw & _ & Hd). split; [done|]. exists x'. split; [exact Hw|].
    rewrite Hd. vm_compute. reflexivity.
Defined.

Lemma pipe_read_takes_oldest_witness :
  runs (pipe_read 0 (Some 0%nat) 0x900 2) demo_piped_full (fun r s' => r = 2 /\ exists x',
    demo_world (store_bytes 0x900 [65; 66] (store_bytes 0x500 [104; 111; 108; 97] ∅)) x' (1000 - 2) s' /\
    pipe_data x' = [67]).
Proof.
  eapply runs_mono.
  - apply (pipe_read_takes_oldest 0 2 0 1 (video_boot demo_mode) demo_fds 0 (store_bytes 0x500 [104; 111; 108; 97] ∅) demo_pipe_full 1000 _ 0x900 2);
      [by apply (demo_piped_world demo_pipe_full)|vm_compute; split_and!; (done || discriminate)|done|lia|lia|left; vm_compute; discriminate].
  - intros r s' (Hr & x' & Hw & _ & Hd). split; [exact Hr|]. exists x'. split; [exact Hw|exact Hd].
Defined.

Lemma pipe_transfers_witness :
  runs (w ← pipe_write 0 (Some 0%nat) 0x500 4; r ← pipe_read 0 (Some 0%nat) 0x900 4; mret (w, r))
    (demo_piped <| k_pipes ::= fun l => demo_pipe :: drop 1 l |>)
    (fun wr s' => wr = (4, 4) /\ exists m' x', demo_world m' x' (1000 - 2 * 4) s' /\ pipe_data x' = [] /\
      bytes_at m' 0x900 4 = bytes_at (store_bytes 0x500 [104; 111; 108; 97] ∅) 0x500 4).
Proof.
  apply (pipe_transfers 0 2 0 1 (video_boot demo_mode) demo_fds 0 (store_bytes 0x500 [104; 111; 108; 97] ∅) demo_pipe 1000 _ 0x500 0x900 4);
    [by apply demo_piped_world|vm_compute; split_and!; (done || discriminate)|done| |done|done|lia|lia|vm_compute; discriminate|done].
  intros a. cbn [store_bytes]. rewrite !load8_store8. repeat case_decide; vm_compute; split; (done || discriminate).
Defined.
