(* ===== verification/ProcPipes.v ===== *)
(** * The pipe ends of a process

    What [process_create] and [process_destroy] do to the pipes: every descriptor
    that names a pipe counts as one reader or one writer of it.  The mutex of the
    pipe is taken and given back, so the semaphores stay as they are. *)
From S2P Require Import Prelude CLib MmInterface KState SchedCore QueueFacts Semaphore SemFacts SemTheorems Pipe Process.

(** ** Counting ends *)

Definition end_of (t : fd_type_t) (j : nat) (e : fd_entry_t) : Prop := fd_type e = t /\ fd_pipe e = Some j.
#[export] Instance end_of_dec t j e : Decision (end_of t j e).
Proof. unfold end_of. solve_decision. Defined.

(** How many of the descriptors are of type [t] and name pipe [j]. *)
Definition ends (t : fd_type_t) (j : nat) (fds : list fd_entry_t) : Z := Z.of_nat (length (filter (end_of t j) fds)).
(** The pipes with the descriptors [fds] counted in. *)
Definition with_ends (fds : list fd_entry_t) (l : list pipe_t) : list pipe_t :=
  imap (fun j x => x <| pipe_readers ::= fun n => n + ends FD_TYPE_PIPE_READ j fds |>
                     <| pipe_writers ::= fun n => n + ends FD_TYPE_PIPE_WRITE j fds |>) l.
Definition terminals : list fd_entry_t := replicate 16 fd_terminal.

Lemma ends_bounds t j fds : 0 <= ends t j fds <= Z.of_nat (length fds).
Proof. unfold ends. pose proof (length_filter (end_of t j) fds). lia. Qed.
Lemma ends_insert t j fds i e : t <> FD_TYPE_TERMINAL -> fds !! i = Some fd_terminal ->
  ends t j (<[i := e]> fds) = ends t j fds + (if decide (end_of t j e) then 1 else 0).
Proof.
  intros Ht Hi. pose proof (lookup_lt_Some _ _ _ Hi) as Hlt. unfold ends.
  rewrite <- (take_drop_middle fds i fd_terminal Hi) at 2. rewrite insert_take_drop by done. rewrite !filter_app, !filter_cons.
  rewrite (decide_False (P := end_of t j fd_terminal)) by (by intros [? ?]).
  rewrite !length_app. destruct (decide (end_of t j e)); cbn [length]; lia.
Qed.
Lemma ends_in t j fds : (exists i e, fds !! i = Some e /\ end_of t j e) <-> 0 < ends t j fds.
Proof.
  unfold ends. split.
  - intros (i & e & Hi & He). assert (e ∈ filter (end_of t j) fds) as Hin by (apply list_elem_of_filter; split; [done|by eapply list_elem_of_lookup_2]).
    destruct (filter (end_of t j) fds); [by apply elem_of_nil in Hin|cbn [length]; lia].
  - destruct (filter (end_of t j) fds) as [|e l] eqn:E; [cbn [length]; lia|]. intros _.
    assert (e ∈ filter (end_of t j) fds) as Hin by (rewrite E; apply list_elem_of_here).
    apply list_elem_of_filter in Hin as [He Hin]. apply list_elem_of_lookup_1 in Hin as [i Hi]. eauto.
Qed.

Lemma end_of_same t t' j : (if decide (end_of t j (mk_fd t' (Some j))) then 1 else 0) = if decide (t = t') then 1 else 0.
Proof.
  destruct (decide (t = t')) as [->|Ht]; [by rewrite decide_True|]. rewrite decide_False; [done|]. by intros [E _].
Qed.
Lemma with_ends_lookup fds l j : with_ends fds l !! j =
  (fun x => x <| pipe_readers ::= fun n => n + ends FD_TYPE_PIPE_READ j fds |>
              <| pipe_writers ::= fun n => n + ends FD_TYPE_PIPE_WRITE j fds |>) <$> l !! j.
Proof. apply list_lookup_imap. Qed.
Lemma no_ends t j n : t <> FD_TYPE_TERMINAL -> ends t j (replicate n fd_terminal) = 0.
Proof.
  intros Ht. unfold ends. induction n as [|n IH]; [done|]. cbn [replicate]. rewrite filter_cons, decide_False; [exact IH|].
  by intros [? ?].
Qed.
Lemma with_ends_none l : with_ends terminals l = l.
Proof.
  apply list_eq. intros j. unfold terminals. rewrite with_ends_lookup, !no_ends by done. destruct (l !! j) as [x|]; [|done].
  cbn [fmap option_fmap option_map]. f_equal. destruct x. unfold set_field, set_pipe_readers, set_pipe_writers. cbn. by rewrite !Z.add_0_r.
Qed.

(** What [find_pipe] looks at does not change. *)
Lemma find_pipe_keys id l : forall l' n, (fun x => (pipe_used x, pipe_id x)) <$> l = (fun x => (pipe_used x, pipe_id x)) <$> l' ->
  find_pipe id n l = find_pipe id n l'.
Proof.
  induction l as [|x l IH]; intros [|y l'] n E; simpl in *; try done. injection E as -> -> E. by rewrite (IH l' (S n) E).
Qed.
Lemma find_with_ends id fds l : find_pipe id 0 (with_ends fds l) = find_pipe id 0 l.
Proof.
  apply find_pipe_keys. apply list_eq. intros j. rewrite !list_lookup_fmap, with_ends_lookup. by destruct (l !! j).
Qed.
Lemma find_pipe_used id l : forall n j, find_pipe id n l = Some j ->
  (n <= j)%nat /\ exists x, l !! (j - n)%nat = Some x /\ pipe_used x = true /\ pipe_id x = id.
Proof.
  induction l as [|x l IH]; intros n j E; simpl in *; [done|]. destruct (pipe_used x) eqn:Eu; cbn [andb] in E.
  - destruct (Z.eqb_spec (pipe_id x) id) as [Ei|Ei].
    + injection E as <-. split; [lia|]. exists x. by rewrite Nat.sub_diag.
    + apply IH in E as (Hn & y & Hy & Hu). split; [lia|]. exists y. by replace (j - n)%nat with (S (j - S n)) by lia.
  - apply IH in E as (Hn & y & Hy & Hu). split; [lia|]. exists y. by replace (j - n)%nat with (S (j - S n)) by lia.
Qed.

Section Ends.
Context {MM : Type}.
Implicit Types (s : kstate MM) (t : fd_type_t) (L : list pipe_t).

(** ** The mutex *)

(** Nobody is in the critical section, or waits for it. *)
Definition mutex_free s (id : Z) : Prop := id <> 0 /\ exists i y,
  find_slot id 0 (k_sems s) = Some i /\ k_sems s !! i = Some y /\
  sem_lock y = 0 /\ 0 < sem_value y < 2 ^ 31 /\ sem_wait_head y = 0.

(** The semaphores while the mutex is taken, and what giving it back leaves. *)
Lemma mutex_taken s id : mutex_free s id -> current (k_sched s) <> 0 -> exists S : list semaphore_t,
  runs (sem_wait_by_id id) s (fun _ s' => s' = s <| k_sems := S |>) /\
  forall L, runs (sem_signal_by_id id) (s <| k_sems := S |> <| k_pipes := L |>) (fun _ s' => s' = s <| k_pipes := L |>).
Proof.
  intros (Hid & i & y & Hfind & Hy & Hlock & Hv & Hhead) Hcur. pose proof (lookup_lt_Some _ _ _ Hy) as Hlt.
  set (y' := y <| sem_value := sem_value y - 1 |>). exists (<[i := y']> (k_sems s)). split.
  - unfold sem_wait_by_id, sem_get_by_id. rewrite (proj2 (Z.eqb_neq id 0) Hid). apply runs_bind, runs_gets. rewrite Hfind.
    apply runs_bind, runs_gets. rewrite (proj2 (Z.eqb_neq _ 0) Hcur).
    apply runs_bind. unfold acquire. apply runs_bind. eapply runs_gets_opt; [exact Hy|]. rewrite Hlock. cbn [ctrue Z.eqb negb].
    eapply runs_sstore; [exact Hy|]. apply runs_bind. eapply runs_gets_opt; [by apply list_lookup_insert_eq|].
    change (sem_value (y <| sem_lock := 1 |>)) with (sem_value y). rewrite Z.gtb_ltb, (proj2 (Z.ltb_lt 0 _)) by lia.
    apply runs_bind. eapply runs_sstore; [by apply list_lookup_insert_eq|].
    apply runs_bind. eapply runs_sstore; [cbn; rewrite list_insert_insert_eq; by apply list_lookup_insert_eq|]. apply runs_ret.
    destruct s. unfold set_field, set_k_sems. cbn -[swrap]. rewrite !list_insert_insert_eq. do 2 f_equal.
    unfold y'. destruct y. cbn -[swrap] in *. subst. unfold set_field, set_sem_lock, set_sem_value. cbn -[swrap]. by rewrite swrap_small by lia.
  - intros L. unfold sem_signal_by_id, sem_get_by_id. rewrite (proj2 (Z.eqb_neq id 0) Hid). apply runs_bind, runs_gets.
    change (k_sems (s <| k_sems := <[i := y']> (k_sems s) |> <| k_pipes := L |>)) with (<[i := y']> (k_sems s)).
    rewrite (find_slot_keys id _ (k_sems s)), Hfind.
    2: { rewrite list_fmap_insert. apply list_insert_id. by rewrite list_lookup_fmap, Hy. }
    assert (<[i := y']> (k_sems s) !! i = Some y') as Hy' by (by apply list_lookup_insert_eq).
    apply runs_bind. unfold acquire. apply runs_bind. eapply runs_gets_opt; [exact Hy'|].
    change (sem_lock y') with (sem_lock y). rewrite Hlock. cbn [ctrue Z.eqb negb]. eapply runs_sstore; [exact Hy'|].
    apply runs_bind. unfold dequeue_waiter. apply runs_bind. eapply (runs_gets_opt _ _ (y' <| sem_lock := 1 |>)); [cbn; rewrite list_insert_insert_eq; by apply list_lookup_insert_eq|].
    cbv beta zeta. change (sem_wait_head (y' <| sem_lock := 1 |>)) with (sem_wait_head y). rewrite Hhead. cbn [Z.eqb]. apply runs_ret. cbn [ctrue Z.eqb negb].
    apply runs_bind. eapply runs_sstore; [cbn; rewrite list_insert_insert_eq; by apply list_lookup_insert_eq|].
    apply runs_bind. eapply runs_sstore; [cbn; rewrite !list_insert_insert_eq; by apply list_lookup_insert_eq|]. apply runs_ret.
    destruct s. unfold set_field, set_k_sems, set_k_pipes. cbn -[swrap] in *. rewrite !list_insert_insert_eq. f_equal. apply list_insert_id.
    rewrite Hy. f_equal. unfold y'. destruct y. cbn -[swrap] in *. subst. unfold set_field, set_sem_lock, set_sem_value. cbn -[swrap].
    rewrite swrap_small by lia. f_equal. lia.
Qed.

(** ** Opening and closing an end *)

(** A pipe that is open, outside of every operation. *)
Record pipe_idle s (j : nat) (x : pipe_t) : Prop := {
  pi_slot : k_pipes s !! j = Some x;
  pi_used : pipe_used x = true;
  pi_id : pipe_id x <> 0;
  pi_found : find_pipe (pipe_id x) 0 (k_pipes s) = Some j;
  pi_readers : 0 <= pipe_readers x < 2 ^ 31 - 16;
  pi_writers : 0 <= pipe_writers x < 2 ^ 31 - 16;
  pi_mutex : mutex_free s (pipe_mutex x);
  pi_current : current (k_sched s) <> 0 }.
(** Every pipe is idle, or closed. *)
Definition pipes_idle s : Prop := forall j x, k_pipes s !! j = Some x ->
  if pipe_used x then pipe_idle s j x else pipe_id x = 0.

(** [s] with the pipes [L]. *)
Definition piped s L : kstate MM := s <| k_pipes := L |>.
Definition counted (t : fd_type_t) (d : Z) (x : pipe_t) : pipe_t :=
  match t with
  | FD_TYPE_PIPE_WRITE => x <| pipe_writers ::= fun n => n + d |>
  | _ => x <| pipe_readers ::= fun n => n + d |>
  end.

Lemma runs_pipe_store s j x f (Q : unit -> kstate MM -> Prop) :
  k_pipes s !! j = Some x -> Q tt (s <| k_pipes := <[j := f x]> (k_pipes s) |>) -> runs (pipe_store j f) s Q.
Proof.
  intros Hx HQ. apply runs_bind. eapply runs_gets_opt; [exact Hx|]. apply runs_modify.
  replace (s <| k_pipes ::= alter f j |>) with (s <| k_pipes := <[j := f x]> (k_pipes s) |>); [done|].
  unfold set_field, set_k_pipes. f_equal. symmetry. by apply list_alter_is_insert.
Qed.
Lemma piped_id s : s <| k_pipes := k_pipes s |> = s.
Proof. by destruct s. Qed.

(** [x] is the pipe at [j] but for its counts, and nobody uses it. *)
Record end_ready s (j : nat) (x : pipe_t) : Prop := {
  er_slot : k_pipes s !! j = Some x;
  er_id : pipe_id x <> 0;
  er_found : find_pipe (pipe_id x) 0 (k_pipes s) = Some j;
  er_mutex : mutex_free s (pipe_mutex x);
  er_current : current (k_sched s) <> 0 }.

Lemma open_end s j x t : end_ready s j x -> t <> FD_TYPE_TERMINAL ->
  (0 <= pipe_readers x < 2 ^ 31 - 1) -> (0 <= pipe_writers x < 2 ^ 31 - 1) ->
  runs (pipe_open_by_id (pipe_id x) (is_writer_type t)) s (fun r s' => r = 1 /\ s' = s <| k_pipes := <[j := counted t 1 x]> (k_pipes s) |>).
Proof.
  intros [Hx Hid Hfind Hmutex Hcur] Ht Hr Hw. unfold pipe_open_by_id, pipe_get_by_id.
  rewrite (proj2 (Z.eqb_neq _ 0) Hid). apply runs_bind, runs_gets. rewrite Hfind.
  apply runs_bind. eapply runs_gets_opt; [exact Hx|]. destruct (mutex_taken s _ Hmutex Hcur) as (S & Hwait & Hsignal).
  apply runs_bind. eapply runs_mono; [exact Hwait|]. intros _ ? ->.
  assert (counted t 1 x = (if ctrue (is_writer_type t) then x <| pipe_writers ::= fun n => i32 (n + 1) |> else x <| pipe_readers ::= fun n => i32 (n + 1) |>)) as Ec.
  { destruct x, t; [done|..]; unfold set_field, set_pipe_readers, set_pipe_writers in *; cbn -[swrap] in *; by rewrite swrap_small by lia. }
  apply runs_bind. apply (runs_mono _ _ (fun _ s' => s' = s <| k_sems := S |> <| k_pipes := <[j := counted t 1 x]> (k_pipes s) |>)).
  { rewrite Ec. destruct (ctrue (is_writer_type t)); by eapply runs_pipe_store. }
  intros [] ? ->. apply runs_bind. eapply runs_gets_opt; [by apply list_lookup_insert_eq, (lookup_lt_Some _ _ _ Hx)|].
  assert (pipe_mutex (counted t 1 x) = pipe_mutex x) as -> by by destruct t.
  apply runs_bind. eapply runs_mono; [apply Hsignal|]. intros _ ? ->. by apply runs_ret.
Qed.

(** An end that is not the last. *)
Lemma close_end s j x t : end_ready s j x -> t <> FD_TYPE_TERMINAL ->
  match t with FD_TYPE_PIPE_WRITE => 1 < pipe_writers x /\ 0 <= pipe_readers x
             | _ => 0 < pipe_readers x /\ 0 <= pipe_writers x /\ 1 < pipe_readers x + pipe_writers x end ->
  runs (pipe_close_by_id (pipe_id x) (is_writer_type t)) s (fun _ s' => s' = s <| k_pipes := <[j := counted t (-1) x]> (k_pipes s) |>).
Proof.
  intros [Hx Hid Hfind Hmutex Hcur] Ht Hcount. unfold pipe_close_by_id, pipe_get_by_id.
  rewrite (proj2 (Z.eqb_neq _ 0) Hid). apply runs_bind, runs_gets. rewrite Hfind.
  apply runs_bind. eapply runs_gets_opt; [exact Hx|]. destruct (mutex_taken s _ Hmutex Hcur) as (S & Hwait & Hsignal).
  apply runs_bind. eapply runs_mono; [exact Hwait|]. intros _ ? ->.
  assert (<[j := counted t (-1) x]> (k_pipes s) !! j = Some (counted t (-1) x)) as Hx' by (by apply list_lookup_insert_eq, (lookup_lt_Some _ _ _ Hx)).
  apply runs_bind. apply (runs_mono _ _ (fun last s' => last = false /\ s' = s <| k_sems := S |> <| k_pipes := <[j := counted t (-1) x]> (k_pipes s) |>)).
  { unfold pipe_drop_end. apply runs_bind. eapply runs_gets_opt; [exact Hx|]. destruct t; [done|..]; cbn [is_writer_type ctrue Z.eqb negb].
    - rewrite Z.gtb_ltb, (proj2 (Z.ltb_lt 0 _)) by lia. cbn [when]. apply runs_bind. eapply runs_pipe_store; [exact Hx|]. by apply runs_ret.
    - rewrite Z.gtb_ltb, (proj2 (Z.ltb_lt 0 _)) by lia. apply runs_bind. eapply runs_pipe_store; [exact Hx|].
      apply runs_bind. eapply runs_gets_opt; [exact Hx'|]. apply runs_ret. split; [|done].
      apply Z.eqb_neq. change (pipe_writers x + -1 <> 0). lia. }
  intros last ? [-> ->]. apply runs_bind. eapply runs_gets_opt; [exact Hx'|].
  assert ((pipe_readers (counted t (-1) x) =? 0) && (pipe_writers (counted t (-1) x) =? 0) = false) as ->.
  { destruct t; [done|..].
    - change (pipe_readers (counted FD_TYPE_PIPE_READ (-1) x)) with (pipe_readers x + -1).
      change (pipe_writers (counted FD_TYPE_PIPE_READ (-1) x)) with (pipe_writers x).
      apply andb_false_iff. rewrite !Z.eqb_neq. lia.
    - change (pipe_writers (counted FD_TYPE_PIPE_WRITE (-1) x)) with (pipe_writers x + -1).
      apply andb_false_iff. rewrite !Z.eqb_neq. lia. }
  cbn [when]. apply runs_bind, runs_bind, runs_ret. apply runs_bind. eapply runs_gets_opt; [exact Hx'|].
  assert (pipe_mutex (counted t (-1) x) = pipe_mutex x) as -> by by destruct t.
  apply runs_bind. eapply runs_mono; [apply Hsignal|]. intros _ ? ->. apply runs_ret. by apply runs_ret.
Qed.

(** ** The counts as descriptors change *)

Definition with_counts (fds : list fd_entry_t) (j : nat) (x : pipe_t) : pipe_t :=
  x <| pipe_readers ::= fun n => n + ends FD_TYPE_PIPE_READ j fds |> <| pipe_writers ::= fun n => n + ends FD_TYPE_PIPE_WRITE j fds |>.

Lemma with_ends_ext fds fds' L :
  (forall t j, t <> FD_TYPE_TERMINAL -> ends t j fds = ends t j fds') -> with_ends fds L = with_ends fds' L.
Proof. intros E. apply list_eq. intros j. rewrite !with_ends_lookup. destruct (L !! j); [|done]. cbn [fmap option_fmap option_map]. by rewrite !E. Qed.
(** A descriptor that names no pipe. *)
Lemma with_ends_plain fds i e L : fds !! i = Some fd_terminal -> fd_pipe e = None -> with_ends (<[i := e]> fds) L = with_ends fds L.
Proof.
  intros Hi He. apply with_ends_ext. intros t j Ht. rewrite ends_insert, decide_False by (done || by intros [_ E]; rewrite He in E). lia.
Qed.
Lemma with_ends_open fds i t j x L : fds !! i = Some fd_terminal -> t <> FD_TYPE_TERMINAL -> L !! j = Some x ->
  <[j := counted t 1 (with_counts fds j x)]> (with_ends fds L) = with_ends (<[i := mk_fd t (Some j)]> fds) L.
Proof.
  intros Hi Ht Hx. apply list_eq. intros k. rewrite with_ends_lookup, !ends_insert by done.
  destruct (decide (k = j)) as [->|Hk].
  - rewrite list_lookup_insert_eq by (unfold with_ends; rewrite length_imap; by eapply lookup_lt_Some).
    rewrite Hx. cbn [fmap option_fmap option_map]. f_equal. unfold with_counts.
    destruct t; [done|..]; rewrite !end_of_same; repeat case_decide; try congruence; destruct x;
      unfold counted, set_field, set_pipe_readers, set_pipe_writers; cbn; f_equal; lia.
  - rewrite list_lookup_insert_ne, with_ends_lookup by done. destruct (L !! k) as [y|]; [|done]. cbn [fmap option_fmap option_map].
    rewrite !(decide_False (P := end_of _ k _)) by (intros [_ E]; cbn in E; congruence). by rewrite !Z.add_0_r.
Qed.
Lemma with_ends_close fds i t j x L : fds !! i = Some (mk_fd t (Some j)) -> t <> FD_TYPE_TERMINAL -> L !! j = Some x ->
  <[j := counted t (-1) (with_counts fds j x)]> (with_ends fds L) = with_ends (<[i := fd_terminal]> fds) L.
Proof.
  intros Hi Ht Hx. pose proof (lookup_lt_Some _ _ _ Hi) as Hlt.
  assert (<[i := mk_fd t (Some j)]> (<[i := fd_terminal]> fds) = fds) as Efds by (rewrite list_insert_insert_eq; by apply list_insert_id).
  assert ((<[i := fd_terminal]> fds) !! i = Some fd_terminal) as Hi' by (by apply list_lookup_insert_eq).
  rewrite <- Efds at 1 2. rewrite <- (with_ends_open _ i t j x L Hi' Ht Hx), list_insert_insert_eq. apply list_insert_id.
  rewrite with_ends_lookup, Hx. cbn [fmap option_fmap option_map]. f_equal. unfold with_counts. rewrite !(ends_insert _ _ (<[i := fd_terminal]> fds)) by done.
  destruct t; [done|..]; rewrite !end_of_same; repeat case_decide; try congruence; destruct x;
    unfold counted, set_field, set_pipe_readers, set_pipe_writers; cbn; f_equal; lia.
Qed.

Lemma idle_ready s s' fds j x : pipes_idle s -> k_pipes s !! j = Some x -> pipe_used x = true ->
  k_pipes s' = with_ends fds (k_pipes s) -> k_sems s' = k_sems s -> k_sched s' = k_sched s -> end_ready s' j (with_counts fds j x).
Proof.
  intros Hidle Hx Hu Ep Es Ec. specialize (Hidle j x Hx). rewrite Hu in Hidle. destruct Hidle as [_ _ Hid Hf _ _ Hm Hcur]. split.
  - by rewrite Ep, with_ends_lookup, Hx.
  - done.
  - rewrite Ep, find_with_ends. exact Hf.
  - unfold mutex_free in *. rewrite Es. exact Hm.
  - by rewrite Ec.
Qed.
End Ends.

(** ** The descriptors of a new process *)

(** A descriptor of the parent, for its child: a closed pipe becomes the terminal. *)
Definition inherited (l : list pipe_t) (e : fd_entry_t) : fd_entry_t :=
  match fd_type e, fd_pipe e with
  | FD_TYPE_TERMINAL, _ => fd_terminal
  | _, None => fd_terminal
  | t, Some j => match l !! j with Some x => if pipe_used x then mk_fd t (Some j) else fd_terminal | None => fd_terminal end
  end.
(** The pipe that was asked for, if there is one. *)
Definition std_fd (id : Z) (t : fd_type_t) (l : list pipe_t) : fd_entry_t :=
  if id =? 0 then fd_terminal else match find_pipe id 0 l with Some j => mk_fd t (Some j) | None => fd_terminal end.
Definition child_fd (stdin stdout : Z) (parents : list fd_entry_t) (l : list pipe_t) (i : nat) : fd_entry_t :=
  let old := match parents !! i with Some e => inherited l e | None => fd_terminal end in
  match i with
  | O => if stdin =? 0 then old else std_fd stdin FD_TYPE_PIPE_READ l
  | S O => if stdout =? 0 then old else std_fd stdout FD_TYPE_PIPE_WRITE l
  | _ => old
  end.
Definition child_fds (stdin stdout : Z) (parents : list fd_entry_t) (l : list pipe_t) : list fd_entry_t :=
  child_fd stdin stdout parents l <$> seq 0 16.

(** Terminals, and ends of pipes that are open. *)
Definition fd_open (l : list pipe_t) (e : fd_entry_t) : Prop :=
  e = fd_terminal \/ exists t j x, e = mk_fd t (Some j) /\ t <> FD_TYPE_TERMINAL /\ l !! j = Some x /\ pipe_used x = true.
Lemma inherited_open l e : fd_open l (inherited l e).
Proof.
  unfold inherited. destruct (fd_type e), (fd_pipe e) as [j|]; try (by left); destruct (l !! j) as [x|] eqn:Hx; try (by left);
    (destruct (pipe_used x) eqn:Hu; [right|by left]); by eexists _, j, x.
Qed.
Lemma std_fd_open id t l : t <> FD_TYPE_TERMINAL -> fd_open l (std_fd id t l).
Proof.
  intros Ht. unfold std_fd. destruct (id =? 0); [by left|]. destruct (find_pipe id 0 l) as [j|] eqn:E; [|by left]. right.
  apply find_pipe_used in E as (_ & x & Hx & Hu & _). rewrite Nat.sub_0_r in Hx. by eexists t, j, x.
Qed.
Lemma child_fds_open stdin stdout parents l : Forall (fd_open l) (child_fds stdin stdout parents l).
Proof.
  apply Forall_fmap, Forall_forall. intros i _. unfold compose, child_fd. assert (fd_open l (match parents !! i with Some e => inherited l e | None => fd_terminal end)).
  { destruct (parents !! i); [apply inherited_open|by left]. }
  destruct i as [|[|i]]; [destruct (stdin =? 0)|destruct (stdout =? 0)|]; try done; by apply std_fd_open.
Qed.
Lemma child_fds_length stdin stdout parents l : length (child_fds stdin stdout parents l) = 16%nat.
Proof. unfold child_fds. by rewrite length_fmap, length_seq. Qed.
Lemma child_fds_lookup stdin stdout parents l i : (i < 16)%nat ->
  child_fds stdin stdout parents l !! i = Some (child_fd stdin stdout parents l i).
Proof. intros Hi. unfold child_fds. by rewrite list_lookup_fmap, lookup_seq_lt by done. Qed.

(** The first [k] descriptors of the parent have been handed down; now the next. *)
Lemma child_fds_next stdin stdout parents l k e : parents !! k = Some e -> (k < 16)%nat ->
  child_fds stdin stdout (take (S k) parents) l =
    <[k := child_fd stdin stdout parents l k]> (child_fds stdin stdout (take k parents) l).
Proof.
  intros He Hk. apply list_eq. intros i. destruct (decide (i < 16)%nat) as [Hi|Hi].
  - rewrite child_fds_lookup by done. destruct (decide (i = k)) as [->|Hik].
    + rewrite list_lookup_insert_eq by (by rewrite child_fds_length). f_equal. unfold child_fd. by rewrite lookup_take_lt by lia.
    + rewrite list_lookup_insert_ne, child_fds_lookup by done. f_equal. unfold child_fd.
      destruct (decide (i < k)%nat) as [Hlt|Hlt]; [by rewrite !lookup_take_lt by lia|by rewrite !lookup_take_ge by lia].
  - rewrite !lookup_ge_None_2; [done|rewrite length_insert, child_fds_length; lia|rewrite child_fds_length; lia].
Qed.
