(* ===== verification/ProcessTheorems.v ===== *)
(** * What the creation of a process promises

    [process_create] is proved against the interface of the memory manager: the
    block and the stack are new memory, the other processes keep their blocks but
    for the links of the family, and what the timer interrupt will take off the
    new stack starts the process at its entry point. *)
From S2P Require Import Prelude CLib MmInterface MmSimple MmSimpleFacts MmSimpleTheorems KState Semaphore Pipe Process QueueFacts QueueTheorems ProcPipes.

(** ** Words in memory *)

Lemma load8_store_words ws : forall a m b, b < a \/ a + 8 * Z.of_nat (length ws) <= b ->
  load8 (store_words a ws m) b = load8 m b.
Proof.
  induction ws as [|w ws IH]; intros a m b Hb; [done|]. cbn [store_words length] in *. rewrite IH by lia.
  unfold store64. rewrite load8_store_le, decide_False by lia. done.
Qed.
Lemma load64_store_words ws : forall a m i w, ws !! i = Some w ->
  load64 (store_words a ws m) (a + 8 * Z.of_nat i) = u64 w.
Proof.
  induction ws as [|w' ws IH]; intros a m i w E; [done|]. cbn [store_words]. destruct i as [|i]; simpl in E.
  - injection E as ->. rewrite Z.mul_0_r, Z.add_0_r. rewrite (load_le_ext 8 _ (store64 a w m)).
    + apply load_store_le.
    + intros b Hb. apply load8_store_words. lia.
  - replace (a + 8 * Z.of_nat (S i)) with (a + 8 + 8 * Z.of_nat i) by lia. by apply IH.
Qed.

(** A stack top rounded down to 16 bytes. *)
Lemma aligned_frame top : 0 <= top < 2 ^ 64 ->
  top - 15 <= Z.land top (bnot 64 15) <= top /\ Z.land top (bnot 64 15) mod 16 = 0.
Proof.
  intros Ht. change 15 with (2 ^ 4 - 1). rewrite land_align by lia.
  pose proof (Z.mod_pos_bound top 16 ltac:(lia)). change (2 ^ 4) with 16. dlia.
Qed.

Section Creation.
Context {MM : Type} `{MemManagerLaws MM} `{Text}.
Implicit Types (s : kstate MM) (b : process_t) (procs : gmap Z process_t).

(** [s] with what a creation changes. *)
Definition made s (a : MM) procs (n : Z) (m : memory) : kstate MM :=
  s <| k_mm := a |> <| k_procs := procs |> <| k_next_pid := n |> <| k_mem := m |>.

Lemma made_self s : made s (k_mm s) (k_procs s) (k_next_pid s) (k_mem s) = s.
Proof. by destruct s. Qed.

Lemma made_mm s a : made s a (k_procs s) (k_next_pid s) (k_mem s) = s <| k_mm := a |>.
Proof. by destruct s. Qed.

Lemma made_pload s a procs n m p b (Q : process_t -> kstate MM -> Prop) :
  procs !! p = Some b -> Q b (made s a procs n m) -> runs (pload p) (made s a procs n m) Q.
Proof. intros E HQ. by eapply runs_gets_opt. Qed.
Lemma made_pstore s a procs n m p b f (Q : unit -> kstate MM -> Prop) :
  procs !! p = Some b -> Q tt (made s a (<[p := f b]> procs) n m) -> runs (pstore p f) (made s a procs n m) Q.
Proof.
  intros E HQ. eapply runs_pstore; [exact E|].
  assert (alter f p procs = <[p := f b]> procs) as Ea.
  { apply map_eq. intros q. destruct (decide (q = p)) as [->|Hq].
    - by rewrite lookup_insert_eq, lookup_alter_eq, E.
    - by rewrite lookup_insert_ne, lookup_alter_ne by done. }
  rewrite <- Ea in HQ. exact HQ.
Qed.

(** A loop that leaves the state as it is. *)
Lemma runs_for_idle n : forall lo (body : Z -> M (kstate MM) unit) s (Q : unit -> kstate MM -> Prop),
  (forall i, lo <= i < lo + Z.of_nat n -> runs (body i) s (fun _ s' => s' = s)) -> Q tt s -> runs (for_up lo n body) s Q.
Proof.
  intros lo body s Q Hb HQ. apply (runs_for_up (fun _ t => t = s)); [done| |by intros t ->].
  intros i t Hi ->. by apply Hb.
Qed.

Lemma terminal_insert i : <[i := fd_terminal]> terminals = terminals.
Proof.
  destruct (decide (i < 16)%nat) as [Hi|Hi].
  - apply list_insert_id. by apply lookup_replicate_2.
  - apply list_insert_ge. unfold terminals. rewrite length_replicate. lia.
Qed.
Lemma fds_same b i : p_fds b = terminals -> b <| p_fds ::= <[i := fd_terminal]> |> = b.
Proof. destruct b. cbn. intros ->. unfold set_field, set_p_fds. cbn. by rewrite terminal_insert. Qed.

Lemma store_terminal s a procs n m p b i : procs !! p = Some b -> p_fds b = terminals ->
  runs (fd_store p i fd_terminal) (made s a procs n m) (fun _ s' => s' = made s a procs n m).
Proof.
  intros E Ef. eapply made_pstore; [exact E|]. rewrite fds_same by done. f_equal. by apply insert_id.
Qed.

(** ** The descriptors *)

(** The new block [b] at [p] has the descriptors [fds], the pipes are [L]. *)
Definition held s (a : MM) procs (n : Z) (m : memory) (p : Z) b (fds : list fd_entry_t) (L : list pipe_t) : kstate MM :=
  made (s <| k_pipes := L |>) a (<[p := b <| p_fds := fds |>]> procs) n m.

Section Descriptors.
Context s (a : MM) procs (n : Z) (m : memory) (p : Z) b (Hidle : pipes_idle s).
#[local] Abbreviation at_fds := (held s a procs n m p b).
#[local] Abbreviation counted_in fds := (held s a procs n m p b fds (with_ends fds (k_pipes s))).

Lemma held_load fds L i e (Q : fd_entry_t -> kstate MM -> Prop) :
  fds !! Z.to_nat i = Some e -> Q e (at_fds fds L) -> runs (fd_load p i) (at_fds fds L) Q.
Proof. intros He HQ. apply runs_bind. eapply made_pload; [apply lookup_insert_eq|]. by eapply runs_gets_opt. Qed.
Lemma held_load_other fds L q bq i e (Q : fd_entry_t -> kstate MM -> Prop) : q <> p -> procs !! q = Some bq ->
  p_fds bq !! Z.to_nat i = Some e -> Q e (at_fds fds L) -> runs (fd_load q i) (at_fds fds L) Q.
Proof.
  intros Hq Hbq He HQ. apply runs_bind. eapply made_pload; [by rewrite lookup_insert_ne by done|]. by eapply runs_gets_opt.
Qed.
Lemma held_store fds L i e (Q : unit -> kstate MM -> Prop) :
  Q tt (at_fds (<[Z.to_nat i := e]> fds) L) -> runs (fd_store p i e) (at_fds fds L) Q.
Proof. intros HQ. eapply made_pstore; [apply lookup_insert_eq|]. by rewrite insert_insert_eq. Qed.

Lemma held_open fds fds' i t j x (Q : Z -> kstate MM -> Prop) :
  k_pipes s !! j = Some x -> pipe_used x = true -> t <> FD_TYPE_TERMINAL -> length fds = 16%nat -> fds !! i = Some fd_terminal ->
  Q 1 (at_fds fds' (with_ends (<[i := mk_fd t (Some j)]> fds) (k_pipes s))) ->
  runs (pipe_open_by_id (pipe_id x) (is_writer_type t)) (at_fds fds' (with_ends fds (k_pipes s))) Q.
Proof.
  intros Hx Hu Ht Hl Hi HQ. pose proof (Hidle j x Hx) as Hp. rewrite Hu in Hp.
  assert (forall t', t' <> FD_TYPE_TERMINAL -> 0 <= ends t' j fds <= 15) as Hends.
  { intros t' Ht'. pose proof (ends_bounds t' j fds). pose proof (ends_bounds t' j (<[i := mk_fd t' (Some j)]> fds)) as Hb.
    rewrite ends_insert, decide_True in Hb by done. rewrite length_insert in Hb. lia. }
  pose proof (Hends FD_TYPE_PIPE_READ ltac:(done)) as Hr. pose proof (Hends FD_TYPE_PIPE_WRITE ltac:(done)) as Hw. destruct Hp as [_ _ _ _ Hpr Hpw _ _].
  eapply runs_mono.
  - apply (open_end _ j (with_counts fds j x) t); [by apply (idle_ready s)|done|..].
    + change (0 <= pipe_readers x + ends FD_TYPE_PIPE_READ j fds < 2 ^ 31 - 1). lia.
    + change (0 <= pipe_writers x + ends FD_TYPE_PIPE_WRITE j fds < 2 ^ 31 - 1). lia.
  - intros r s' [-> ->]. rewrite <- (with_ends_open _ _ _ _ x) in HQ by done. exact HQ.
Qed.

(** The standard input or output of the call. *)
Lemma held_std fds i id t : length fds = 16%nat -> fds !! Z.to_nat i = Some fd_terminal -> t <> FD_TYPE_TERMINAL ->
  runs (open_std p i id (is_writer_type t) t) (counted_in fds)
    (fun _ s' => s' = counted_in (<[Z.to_nat i := std_fd id t (k_pipes s)]> fds)).
Proof.
  intros Hl Hi Ht. unfold open_std, std_fd. destruct (Z.eqb_spec id 0) as [->|Hid].
  { apply runs_ret. by rewrite list_insert_id. }
  apply runs_bind. unfold pipe_get_by_id. rewrite (proj2 (Z.eqb_neq id 0) Hid). apply runs_gets.
  change (k_pipes (counted_in fds)) with (with_ends fds (k_pipes s)). rewrite find_with_ends.
  destruct (find_pipe id 0 (k_pipes s)) as [j|] eqn:E; [|apply runs_ret; by rewrite list_insert_id].
  apply find_pipe_used in E as (_ & x & Hx & Hu & <-). rewrite Nat.sub_0_r in Hx.
  apply runs_bind. eapply (held_open fds fds (Z.to_nat i)); try done. cbn [ctrue Z.eqb negb when]. by apply held_store.
Qed.

(** What the child has from its parent. *)
Lemma held_inherit fds parent bp i e stdin stdout : parent <> p -> procs !! parent = Some bp -> p_fds bp !! Z.to_nat i = Some e ->
  (forall j, fd_pipe e = Some j -> is_Some (k_pipes s !! j)) -> length fds = 16%nat -> fds !! Z.to_nat i = Some fd_terminal ->
  ((i =? STDIN) && ctrue stdin) || ((i =? STDOUT) && ctrue stdout) = false ->
  runs (inherit_fd p parent stdin stdout i) (counted_in fds)
    (fun _ s' => s' = counted_in (<[Z.to_nat i := inherited (k_pipes s) e]> fds)).
Proof.
  intros Hpp Hbp He Hsound Hl Hi Hskip. unfold inherit_fd. rewrite Hskip.
  apply runs_bind. eapply held_load_other; [done|exact Hbp|exact He|]. apply runs_bind. eapply held_load; [exact Hi|].
  apply runs_bind, held_store. set (k := Z.to_nat i) in *. assert (k < length fds)%nat as Hk by by eapply lookup_lt_Some.
  assert (forall e' (Q : unit -> kstate MM -> Prop), fd_pipe e' = None -> Q tt (counted_in (<[k := e']> fds)) ->
    runs (fd_store p i e') (at_fds (<[k := mk_fd (fd_type e) (fd_pipe fd_terminal)]> fds) (with_ends fds (k_pipes s))) Q) as Hplain.
  { intros e' Q He' HQ. apply held_store. fold k. rewrite list_insert_insert_eq. cbv beta in HQ. by rewrite with_ends_plain in HQ. }
  destruct (decide (fd_type e = FD_TYPE_TERMINAL)) as [Et|Et].
  { rewrite Et in *. cbn [is_pipe_type]. unfold inherited. rewrite Et. by apply Hplain. }
  assert (is_pipe_type (fd_type e) = true) as -> by by destruct (fd_type e).
  destruct (fd_pipe e) as [j|] eqn:Ep.
  2: { assert (inherited (k_pipes s) e = fd_terminal) as -> by (unfold inherited; rewrite Ep; by destruct (fd_type e)). by apply Hplain. }
  destruct (Hsound j eq_refl) as [x Hx]. pose proof (Hidle j x Hx) as Hp. apply runs_bind. unfold pipe_get_id.
  apply runs_bind. eapply (runs_gets_opt _ _ (with_counts fds j x)); [change (with_ends fds (k_pipes s) !! j = Some (with_counts fds j x)); by rewrite with_ends_lookup, Hx|].
  apply runs_ret. change (pipe_id (with_counts fds j x)) with (pipe_id x).
  assert (inherited (k_pipes s) e = if pipe_used x then mk_fd (fd_type e) (Some j) else fd_terminal) as ->.
  { unfold inherited. rewrite Ep, Hx. by destruct (fd_type e). }
  destruct (pipe_used x) eqn:Hu.
  - assert (ctrue (pipe_id x) = true) as -> by (destruct Hp; unfold ctrue; by rewrite (proj2 (Z.eqb_neq _ 0))).
    apply runs_bind. eapply (held_open fds _ k); try done. cbn [ctrue Z.eqb negb].
    apply runs_bind. eapply held_load; [by apply list_lookup_insert_eq|]. apply runs_bind. eapply held_load_other; [done|exact Hbp|exact He|].
    apply held_store. fold k. rewrite list_insert_insert_eq. cbn [fd_type]. by rewrite Ep.
  - rewrite Hp. cbn [ctrue Z.eqb negb]. by apply Hplain.
Qed.

End Descriptors.

(** ** The block *)

(** The block of a new process, before it has a family and a frame. *)
Definition new_block (pid stack : Z) (m : memory) (name : cstring) (entry_point entry_arg is_foreground : Z) : process_t :=
  zero_process <| p_kernel_stack_base := stack |> <| p_kernel_stack_top := stack + PROCESS_KERNEL_STACK_SIZE |>
    <| p_pid := pid |> <| p_entry_point := entry_point |> <| p_entry_arg := entry_arg |>
    <| p_is_foreground := is_foreground |> <| p_priority := PROCESS_PRIORITY_DEFAULT |>
    <| p_base_priority := PROCESS_PRIORITY_DEFAULT |> <| p_name := copied_name m name (replicate 33 0) |>.

Lemma init_block_spec s a procs n m p stack name ep ea fg (Q : unit -> kstate MM -> Prop) :
  procs !! p = Some (zero_process <| p_kernel_stack_base := stack |>) ->
  Q tt (made s a (<[p := new_block n stack m name ep ea fg]> procs) (u64 (n + 1)) m) ->
  runs (init_block p stack name ep ea fg) (made s a procs n m) Q.
Proof.
  intros E HQ. unfold init_block.
  apply runs_bind. eapply made_pstore; [exact E|]. apply runs_bind, runs_gets. apply runs_bind, runs_modify.
  match goal with |- runs _ ?t _ => change t with (made s a (k_procs t) (u64 (n + 1)) m) end. cbn [k_procs made set_field set_k_procs set_k_next_pid set_k_mem set_k_mm].
  apply runs_bind. eapply made_pstore; [apply lookup_insert_eq|]. rewrite insert_insert_eq.
  apply runs_bind. unfold copy_name. apply runs_bind, runs_gets. eapply made_pstore; [apply lookup_insert_eq|]. rewrite insert_insert_eq.
  apply runs_bind. eapply made_pstore; [apply lookup_insert_eq|]. rewrite insert_insert_eq.
  apply runs_for_idle; [|exact HQ]. intros i _. eapply store_terminal; [apply lookup_insert_eq|reflexivity].
Qed.

(** ** The family *)

(** The blocks of the others once [p] is the first child of [parent]. *)
Definition relinked (p parent : Z) procs : gmap Z process_t :=
  match procs !! parent with
  | None => procs
  | Some bp =>
      let c := p_first_child bp in
      let procs := if c =? 0 then procs else alter (fun x => x <| p_prev_sibling := p |>) c procs in
      <[parent := bp <| p_first_child := p |>]> procs
  end.
(** Where the new block stands. *)
Definition child_of (parent : Z) procs b : process_t :=
  match procs !! parent with
  | None => b
  | Some bp => b <| p_parent := parent |> <| p_next_sibling := p_first_child bp |>
  end.

(** A parent, if any, has sixteen descriptors that point into the array of pipes,
    and its first child is another process. *)
Definition may_have_child (parent : Z) procs (l : list pipe_t) : Prop :=
  parent = 0 \/ exists bp, procs !! parent = Some bp /\
    (length (p_fds bp) = 16%nat /\ forall i e j, p_fds bp !! i = Some e -> fd_pipe e = Some j -> is_Some (l !! j)) /\
    (p_first_child bp = 0 \/ p_first_child bp <> parent /\ is_Some (procs !! p_first_child bp)).
(** The descriptors a child can be given. *)
Definition parent_fds (parent : Z) procs : list fd_entry_t := match procs !! parent with Some bp => p_fds bp | None => [] end.

Lemma attach_child_spec s a procs n m p parent b l (Q : unit -> kstate MM -> Prop) :
  procs !! p = None -> procs !! 0 = None -> may_have_child parent procs l ->
  (forall procs', procs' !! p = Some (child_of parent procs b) -> (forall q, q <> p -> procs' !! q = relinked p parent procs !! q) ->
     Q tt (made s a procs' n m)) ->
  runs (attach_child p parent) (made s a (<[p := b]> procs) n m) Q.
Proof.
  intros Hp Hnull Hpar HQ. unfold attach_child. unfold child_of, relinked in HQ. destruct Hpar as [->|(bp & Hbp & _ & Hc)].
  - rewrite Hnull in HQ. apply runs_ret, HQ; [apply lookup_insert_eq|]. intros q Hq. by apply lookup_insert_ne.
  - rewrite Hbp in HQ. assert (parent <> 0) as Hpar by congruence. assert (parent <> p) as Hpp by congruence.
    rewrite (proj2 (Z.eqb_neq parent 0) Hpar). cbn zeta in HQ. set (c := p_first_child bp) in *.
    apply runs_bind. eapply made_pstore; [apply lookup_insert_eq|]. rewrite insert_insert_eq.
    apply runs_bind. eapply made_pload; [rewrite lookup_insert_ne by done; exact Hbp|].
    apply runs_bind. eapply made_pstore; [apply lookup_insert_eq|]. rewrite insert_insert_eq. fold c.
    set (b' := b <| p_parent := parent |> <| p_next_sibling := c |>) in *.
    apply runs_bind. unfold ctrue. destruct (Z.eqb_spec c 0) as [Ec|Ec]; cbn [negb when].
    + apply runs_ret. eapply made_pstore; [rewrite lookup_insert_ne by done; exact Hbp|].
      apply HQ; [by rewrite lookup_insert_ne, lookup_insert_eq by done|].
      intros q Hq. destruct (decide (q = parent)) as [->|Hqp]; [by rewrite !lookup_insert_eq|by rewrite !lookup_insert_ne by done].
    + destruct Hc as [|[Hcp [bc Hbc]]]; [done|]. assert (c <> p) as Hcp' by congruence.
      eapply made_pstore; [rewrite lookup_insert_ne by done; exact Hbc|].
      eapply made_pstore; [rewrite !lookup_insert_ne by done; exact Hbp|].
      apply HQ; [by rewrite !lookup_insert_ne, lookup_insert_eq by done|]. intros q Hq.
      destruct (decide (q = parent)) as [->|Hqp]; [by rewrite !lookup_insert_eq|]. rewrite !(lookup_insert_ne _ parent) by done.
      destruct (decide (q = c)) as [->|Hqc]; [by rewrite lookup_insert_eq, lookup_alter_eq, Hbc|].
      by rewrite lookup_insert_ne, lookup_alter_ne, lookup_insert_ne by done.
Qed.

(** ** The whole *)

(** The characters of a string, cut to 32, with zeros to the end of the array. *)
Definition named (m : memory) (src : cstring) (name : list Z) : Prop := exists chars,
  name = chars ++ replicate (33 - length chars) 0 /\ (length chars <= 32)%nat /\
  (forall i c, chars !! i = Some c -> c = char_at m src (Z.of_nat i) /\ c <> 0) /\
  (length chars = 32%nat \/ char_at m src (Z.of_nat (length chars)) = 0).

Lemma copy_name_loop_spec m src : forall n chars, (length chars + n <= 32)%nat -> exists rest,
  copy_name_loop n m src (Z.of_nat (length chars)) (chars ++ replicate (33 - length chars) 0) =
    (Z.of_nat (length (chars ++ rest)), (chars ++ rest) ++ replicate (33 - length (chars ++ rest)) 0) /\
  (length rest <= n)%nat /\
  (forall i c, rest !! i = Some c -> c = char_at m src (Z.of_nat (length chars + i)) /\ c <> 0) /\
  (length rest = n \/ char_at m src (Z.of_nat (length (chars ++ rest))) = 0).
Proof.
  induction n as [|n IH]; intros chars Hn; cbn [copy_name_loop].
  { exists []. rewrite app_nil_r. split_and!; [done|done|done|by left]. }
  destruct (Z.eqb_spec (char_at m src (Z.of_nat (length chars))) 0) as [E|E].
  { exists []. rewrite app_nil_r. split_and!; [done|cbn; lia|done|by right]. }
  set (c := char_at m src (Z.of_nat (length chars))) in *.
  destruct (IH (chars ++ [c]) ltac:(rewrite length_app; cbn; lia)) as (rest & E1 & Hl & Hc & He). exists (c :: rest).
  replace (chars ++ c :: rest) with ((chars ++ [c]) ++ rest) by by rewrite <- (assoc_L (++)).
  split_and!; [|cbn; lia| |destruct He as [He|He]; [left; cbn; lia|by right]].
  - rewrite <- E1. f_equal; [rewrite length_app; cbn; lia|]. rewrite Nat2Z.id, insert_app_r_alt by lia. rewrite Nat.sub_diag, <- (assoc_L (++)).
    f_equal. rewrite length_app. cbn [length]. by replace (33 - length chars)%nat with (S (33 - (length chars + 1))) by lia.
  - intros [|i] d Hd; cbn in Hd; [injection Hd as <-; by rewrite Nat.add_0_r|].
    replace (length chars + S i)%nat with (length (chars ++ [c]) + i)%nat by (rewrite length_app; cbn; lia). by apply Hc.
Qed.
Lemma copied_name_spec m name : named m (if cstring_is_null name then default_name else name) (copied_name m name (replicate 33 0)).
Proof.
  unfold copied_name. set (src := if cstring_is_null name then default_name else name).
  destruct (copy_name_loop_spec m src 32 [] ltac:(cbn; lia)) as (rest & E & Hl & Hc & He). cbn [app length Nat.sub] in *.
  change (Z.to_nat PROCESS_NAME_MAX_LEN) with 32%nat. change (Z.of_nat 0) with 0 in E. rewrite E.
  rewrite (proj2 (Z.ltb_lt _ _)) by (unfold PROCESS_NAME_MAX_LEN; lia). rewrite Nat2Z.id.
  exists rest. split_and!; [|done|exact Hc|exact He]. apply list_insert_id.
  rewrite lookup_app_r, Nat.sub_diag by lia. apply lookup_replicate_2. lia.
Qed.

(** A process that is ready to run [ep] for the first time, with descriptors [fds]. *)
Record started s (name : cstring) (parent ep ea fg : Z) (fds : list fd_entry_t) (pid stack : Z) b (m : memory) : Prop := {
  st_pid : p_pid b = pid;
  st_name : named (k_mem s) (if cstring_is_null name then default_name else name) (p_name b);
  st_state : p_state b = PROCESS_STATE_READY;
  st_priority : p_priority b = PROCESS_PRIORITY_DEFAULT /\ p_base_priority b = PROCESS_PRIORITY_DEFAULT /\ p_wait_ticks b = 0;
  st_entry : p_entry_point b = ep /\ p_entry_arg b = ea /\ p_is_foreground b = fg;
  st_fds : p_fds b = fds;
  st_family : p_parent b = parent /\ p_next_sibling b = default 0 (p_first_child <$> k_procs s !! parent);
  st_free : p_queue_next b = 0 /\ p_queue_prev b = 0 /\ p_waiters_head b = 0 /\ p_waiting_on_sem b = 0 /\ p_first_child b = 0;
  st_none : p_prev_sibling b = 0 /\ p_user_stack_base b = 0;
  st_stack : p_kernel_stack_base b = stack /\ p_kernel_stack_top b = stack + PROCESS_KERNEL_STACK_SIZE;
  st_rsp : stack <= p_rsp b /\ p_rsp b mod 16 = 0 /\ p_rsp b + 160 <= stack + PROCESS_KERNEL_STACK_SIZE;
  st_frame : forall i w, initial_frame (stack + PROCESS_KERNEL_STACK_SIZE) ep ea !! i = Some w ->
    load64 m (p_rsp b + 8 * Z.of_nat i) = u64 w;
  st_memory : forall x, x < stack \/ stack + PROCESS_KERNEL_STACK_SIZE <= x -> load8 m x = load8 (k_mem s) x }.

(** The last stores: the frame, the stack pointers and the state. *)
Lemma frame_spec s L a procs n p stack b parent name ep ea fg fds (Q : Z -> kstate MM -> Prop) :
  b = child_of parent (k_procs s) (new_block (k_next_pid s) stack (k_mem s) name ep ea fg <| p_fds := fds |>) ->
  (k_procs s !! parent = None -> parent = 0) -> procs !! p = Some b -> 0 < stack -> stack + PROCESS_KERNEL_STACK_SIZE < 2 ^ 63 ->
  (forall b' m, started s name parent ep ea fg fds (k_next_pid s) stack b' m ->
     Q p (made (s <| k_pipes := L |>) a (<[p := b']> procs) n m)) ->
  runs (b ← pload p;
        rsp ← setup_process_context (p_kernel_stack_top b) (p_entry_point b) (p_entry_arg b);
        pstore p (fun x => x <| p_rsp := rsp |>) ;;
        pstore p (fun x => x <| p_rbp := p_kernel_stack_top x |>) ;;
        pstore p (fun x => x <| p_state := PROCESS_STATE_READY |>) ;; mret p) (made (s <| k_pipes := L |>) a procs n (k_mem s)) Q.
Proof.
  intros Eb Hnone Hb Hs0 Hs HQ.
  assert (p_kernel_stack_top b = stack + PROCESS_KERNEL_STACK_SIZE /\ p_entry_point b = ep /\ p_entry_arg b = ea) as (Et & Ee & Ea).
  { rewrite Eb. unfold child_of. by destruct (k_procs s !! parent). }
  apply runs_bind. eapply made_pload; [exact Hb|]. rewrite Et, Ee, Ea. set (top := stack + PROCESS_KERNEL_STACK_SIZE) in *.
  assert (top = stack + 16384) as Etop by done. destruct (aligned_frame top) as [Hr Ha]; [lia|].
  set (rsp := Z.land top (bnot 64 15) - 160). apply runs_bind. unfold setup_process_context. fold rsp.
  apply runs_bind, runs_modify, runs_ret. set (m := store_words rsp (initial_frame top ep ea) (k_mem s)).
  match goal with |- runs _ ?t _ => change t with (made (s <| k_pipes := L |>) a procs n m) end.
  apply runs_bind. eapply made_pstore; [exact Hb|].
  apply runs_bind. eapply made_pstore; [apply lookup_insert_eq|]. rewrite insert_insert_eq.
  apply runs_bind. eapply made_pstore; [apply lookup_insert_eq|]. rewrite insert_insert_eq. apply runs_ret.
  apply HQ.
  assert (rsp + 160 <= top /\ stack <= rsp /\ rsp mod 16 = 0) as (H1' & H2' & H3').
  { unfold rsp. split_and!; [lia|lia|]. by rewrite Zminus_mod, Ha. }
  split; try (rewrite Eb; unfold child_of; by destruct (k_procs s !! parent)).
  - rewrite Eb. unfold child_of. destruct (k_procs s !! parent); apply copied_name_spec.
  - rewrite Eb. unfold child_of. destruct (k_procs s !! parent); [done|]. by rewrite Hnone.
  - intros i w Hi. change (load64 m (rsp + 8 * Z.of_nat i) = u64 w). by apply load64_store_words.
  - intros x Hx. apply load8_store_words. cbn [initial_frame length]. fold top in Hx. lia.
Qed.

(** The descriptors of the new process. *)
Definition new_fds s (parent stdin stdout : Z) : list fd_entry_t :=
  child_fds stdin stdout (parent_fds parent (k_procs s)) (k_pipes s).

(** The descriptors that the call names, then those of the parent. *)
Lemma descriptors_spec s a n m p b parent stdin stdout {B} (f : unit -> M (kstate MM) B) Q :
  pipes_idle s -> may_have_child parent (k_procs s) (k_pipes s) -> k_procs s !! p = None -> k_procs s !! 0 = None ->
  p_fds b = terminals ->
  (let fds := new_fds s parent stdin stdout in
   runs (f tt) (held s a (k_procs s) n m p b fds (with_ends fds (k_pipes s))) Q) ->
  runs (open_std p STDIN stdin 0 FD_TYPE_PIPE_READ ;; open_std p STDOUT stdout 1 FD_TYPE_PIPE_WRITE ;;
        u ← when (ctrue parent) (for_up 0 16 (inherit_fd p parent stdin stdout)); f u)
    (made s a (<[p := b]> (k_procs s)) n m) Q.
Proof.
  intros Hidle Hpar Hp Hnull Eb HQ. set (l := k_pipes s) in *.
  assert (made s a (<[p := b]> (k_procs s)) n m = held s a (k_procs s) n m p b terminals (with_ends terminals l)) as ->.
  { unfold held. rewrite with_ends_none. unfold l. rewrite piped_id. do 2 f_equal. by destruct b; cbn in Eb; subst. }
  apply runs_bind. eapply runs_mono; [by apply (held_std s a (k_procs s) n m p b Hidle terminals 0 stdin FD_TYPE_PIPE_READ)|]. intros _ ? ->.
  apply runs_bind. eapply runs_mono; [by apply (held_std s a (k_procs s) n m p b Hidle _ 1 stdout FD_TYPE_PIPE_WRITE)|]. intros _ ? ->. fold l.
  assert (<[Z.to_nat 1 := std_fd stdout FD_TYPE_PIPE_WRITE l]> (<[Z.to_nat 0 := std_fd stdin FD_TYPE_PIPE_READ l]> terminals) =
    child_fds stdin stdout (take 0 (parent_fds parent (k_procs s))) l) as ->.
  { unfold child_fds, child_fd, terminals. cbn. unfold std_fd. by destruct (stdin =? 0), (stdout =? 0). }
  apply runs_bind. unfold new_fds in HQ. fold l in HQ. destruct Hpar as [->|(bp & Hbp & (Hl & Hs) & _)].
  { cbn [ctrue Z.eqb negb when]. apply runs_ret. unfold parent_fds in *. rewrite Hnull in *. exact HQ. }
  assert (parent <> 0 /\ parent <> p) as [Hp0 Hpp] by (split; congruence). unfold ctrue at 1. rewrite (proj2 (Z.eqb_neq parent 0) Hp0). cbn [negb when].
  unfold parent_fds in *. rewrite Hbp in *. set (pf := p_fds bp) in *.
  apply (runs_for_up (fun i st => let fds := child_fds stdin stdout (take (Z.to_nat i) pf) l in st = held s a (k_procs s) n m p b fds (with_ends fds l))); [done| |].
  - intros i t Hi ->. destruct (lookup_lt_is_Some_2 pf (Z.to_nat i) ltac:(lia)) as [e He].
    replace (Z.to_nat (i + 1)) with (S (Z.to_nat i)) by lia. rewrite (child_fds_next _ _ _ _ _ e) by (done || lia).
    set (fds := child_fds stdin stdout (take (Z.to_nat i) pf) l).
    assert (fds !! Z.to_nat i = Some (child_fd stdin stdout (take (Z.to_nat i) pf) l (Z.to_nat i))) as Hold by (apply child_fds_lookup; lia).
    destruct (((i =? STDIN) && ctrue stdin) || ((i =? STDOUT) && ctrue stdout)) eqn:Hskip.
    + unfold inherit_fd. rewrite Hskip. apply runs_ret. cbv zeta. rewrite list_insert_id; [done|]. rewrite Hold. f_equal.
      unfold child_fd. apply orb_true_iff in Hskip as [[Hi' Hc]%andb_true_iff|[Hi' Hc]%andb_true_iff];
        apply Z.eqb_eq in Hi' as ->; apply negb_true_iff in Hc; cbn; by rewrite Hc.
    + cbv zeta. assert (child_fd stdin stdout pf l (Z.to_nat i) = inherited l e /\ child_fd stdin stdout (take (Z.to_nat i) pf) l (Z.to_nat i) = fd_terminal) as [-> Eold].
      { unfold child_fd. rewrite He, lookup_take_ge by lia. apply orb_false_iff in Hskip as [Hin Hout].
        destruct (Z.to_nat i) as [|[|k]] eqn:Ei; [|replace i with 1 in * by lia|done].
        - replace i with 0 in * by lia. cbn in Hin. apply negb_false_iff in Hin. by rewrite Hin.
        - cbn in Hout. apply negb_false_iff in Hout. by rewrite Hout. }
      eapply (held_inherit s a (k_procs s) n m p b Hidle fds parent bp i e);
        solve [done | apply child_fds_length | by rewrite Hold, Eold | intros j Hj; by eapply Hs].
  - intros t ->. cbv zeta. rewrite take_ge by lia. exact HQ.
Qed.

Lemma process_create_spec s live name ep ea parent fg stdin stdout :
  mm_live (k_mm s) live -> (forall q, is_Some (k_procs s !! q) -> is_Some (live !! q)) ->
  ep <> 0 -> may_have_child parent (k_procs s) (k_pipes s) -> pipes_idle s ->
  let fds := new_fds s parent stdin stdout in
  runs (process_create name ep ea parent fg stdin stdout) s (fun p s' =>
    p = 0 /\ mm_live (k_mm s') live /\ s' = s <| k_mm := k_mm s' |> \/
    p <> 0 /\ live !! p = None /\ exists b stack n1 n2,
      sizeof_process <= n1 /\ PROCESS_KERNEL_STACK_SIZE <= n2 /\ live !! stack = None /\ stack <> p /\
      mm_live (k_mm s') (<[stack := n2]> (<[p := n1]> live)) /\
      k_procs s' !! p = Some b /\ started s name parent ep ea fg fds (k_next_pid s) stack b (k_mem s') /\
      (forall q, q <> p -> k_procs s' !! q = relinked p parent (k_procs s) !! q) /\
      s' = made (s <| k_pipes := with_ends fds (k_pipes s) |>) (k_mm s') (k_procs s') (u64 (k_next_pid s + 1)) (k_mem s')).
Proof.
  intros Hl Hin Hep Hpar Hidle fds. unfold process_create. rewrite (proj2 (Z.eqb_neq ep 0) Hep).
  assert (k_procs s !! 0 = None) as Hnull.
  { destruct (k_procs s !! 0) as [b0|] eqn:E; [|done]. destruct (Hin 0 (ex_intro _ b0 E)) as [n0 Hn].
    pose proof (live_bounds _ _ _ _ Hl Hn). lia. }
  apply runs_bind, runs_zoom. eapply runs_mono; [apply (malloc_law _ live); [done|unfold sizeof_process; lia]|].
  intros p a1 [[-> H1']|(n1 & Hn1 & Hp0 & Hpl & H1')].
  { apply runs_ret. left. by destruct s. }
  rewrite (proj2 (Z.eqb_neq p 0) Hp0). assert (k_procs s !! p = None) as Hp.
  { destruct (k_procs s !! p) as [b0|] eqn:E; [|done]. destruct (Hin p (ex_intro _ b0 E)) as [? Hn]. congruence. }
  apply runs_bind, runs_modify. apply runs_bind, runs_zoom.
  eapply runs_mono; [apply (malloc_law _ (<[p := n1]> live)); [exact H1'|unfold PROCESS_KERNEL_STACK_SIZE; lia]|].
  intros stack a2 Hres. match goal with |- runs _ ?t _ => change t with (made s a2 (<[p := zero_process]> (k_procs s)) (k_next_pid s) (k_mem s)) end.
  apply runs_bind. eapply made_pstore; [apply lookup_insert_eq|]. rewrite insert_insert_eq.
  destruct Hres as [[-> H2']|(n2 & Hn2 & Hs0 & Hsl & H2')].
  - cbn [Z.eqb]. apply runs_bind, runs_zoom. eapply runs_mono; [apply (mfree_law _ (<[p := n1]> live) p n1); [exact H2'|apply lookup_insert_eq]|].
    intros [] a3 H3'. rewrite delete_insert_id in H3' by done. apply runs_bind, runs_modify, runs_ret. left. split; [done|].
    split; [exact H3'|].
    match goal with |- ?t = _ => change t with (made s a3 (delete p (<[p := zero_process <| p_kernel_stack_base := 0 |>]> (k_procs s))) (k_next_pid s) (k_mem s)) end.
    rewrite delete_insert_id by done. apply made_mm.
  - rewrite (proj2 (Z.eqb_neq stack 0) Hs0). apply lookup_insert_None in Hsl as [Hsl Hsp].
    pose proof (live_bounds _ _ stack n2 H2' (lookup_insert_eq _ _ _)) as Hb.
    apply runs_bind. eapply init_block_spec; [apply lookup_insert_eq|]. rewrite insert_insert_eq.
    set (b0 := new_block (k_next_pid s) stack (k_mem s) name ep ea fg).
    eapply descriptors_spec; [done|done|done|done|done|]. cbv zeta. fold fds. apply runs_bind. unfold held.
    eapply (attach_child_spec _ _ _ _ _ _ _ _ (k_pipes s)); [done|done|done|]. intros procs' Hpb Hothers.
    eapply frame_spec; [reflexivity| |exact Hpb|lia|lia|].
    { intros E. destruct Hpar as [|(bp & Hbp & _)]; [done|congruence]. }
    intros b m Hst. right. split; [done|]. split; [done|].
    exists b, stack, n1, n2. split_and!; try done; [by apply lookup_insert_eq|]. intros q Hq. rewrite <- Hothers by done. by apply lookup_insert_ne.
Qed.

(** ** Destruction *)







(** C11: creating a process.  The parent, if any, has sixteen descriptors, and no
    process is inside an operation of a pipe.  When the memory manager has no room
    for the block or for the stack the call returns 0 and everything is as it was,
    memory given back.  Otherwise it returns a new block, first child of its
    parent, with a fresh pid, the first 32 characters of its name, ready, in no
    queue; its stack is new memory, which holds at [p_rsp] the frame that starts the
    process at its entry point, with its argument and interrupts enabled; it has no
    user stack.  Its standard input and output are the pipes the call names, when
    they exist; the other descriptors are those of the parent, a pipe that was
    closed replaced by the terminal; every pipe counts one reader or writer more for
    each of its ends among them.  No other block changes but for the links of the
    family, the semaphores are as before, and nothing else changes. *)
Theorem process_create_starts s live name ep ea parent fg stdin stdout :
  mm_live (k_mm s) live -> (forall q, is_Some (k_procs s !! q) -> is_Some (live !! q)) ->
  ep <> 0 -> may_have_child parent (k_procs s) (k_pipes s) -> pipes_idle s ->
  let fds := child_fds stdin stdout (parent_fds parent (k_procs s)) (k_pipes s) in
  runs (process_create name ep ea parent fg stdin stdout) s (fun p s' =>
    p = 0 /\ mm_live (k_mm s') live /\ s' = s <| k_mm := k_mm s' |> \/
    p <> 0 /\ live !! p = None /\ exists b stack n1 n2,
      sizeof_process <= n1 /\ PROCESS_KERNEL_STACK_SIZE <= n2 /\ live !! stack = None /\ stack <> p /\
      mm_live (k_mm s') (<[stack := n2]> (<[p := n1]> live)) /\
      k_procs s' !! p = Some b /\ started s name parent ep ea fg fds (k_next_pid s) stack b (k_mem s') /\
      (forall q, q <> p -> k_procs s' !! q = relinked p parent (k_procs s) !! q) /\
      s' = made (s <| k_pipes := with_ends fds (k_pipes s) |>) (k_mm s') (k_procs s') (u64 (k_next_pid s + 1)) (k_mem s')).
Proof. apply process_create_spec. Qed.

End Creation.

(** A heap of 64 KB. *)
Definition demo_large_heap : mm := after (mm_init 65536 65536) mm_boot.
Definition demo_boot : kstate mm := kernel_boot demo_large_heap demo_mode.
#[local] Instance demo_text : Text := { process_start := 0x100; idle_entry := 0x200 }.
#[local] Instance demo_manager : MemManager mm := simple_manager 0.
#[local] Instance demo_laws : MemManagerLaws mm := simple_laws 0.

Lemma demo_boot_live : mm_live (k_mm demo_boot) ∅.
Proof.
  assert (runs (mm_init 65536 65536) mm_boot (fun _ s => simple_live s ∅)) as (u & s & E & K).
  { apply mm_init_spec; [lia|lia|lia|by vm_compute|]. intros s' Hwf _. by eexists _, _, _, _. }
  unfold demo_boot, demo_large_heap, after. rewrite E. exact K.
Qed.

(** A shell, with one block allocated and the write end of a pipe at descriptor 2;
    the pipe has another reader. *)
Definition demo_block_heap : mm := after (malloc sizeof_process) demo_large_heap.
Definition demo_shell : process_t := zero_process <| p_pid := 2 |> <| p_state := PROCESS_STATE_RUNNING |>
  <| p_fds := <[2%nat := mk_fd FD_TYPE_PIPE_WRITE (Some 0%nat)]> terminals |>.
Definition demo_shared_pipe : pipe_t := mk_pipe 5 ∅ 0 0 0 1 1 2 3 4 true.
Definition demo_pipes : list pipe_t := demo_shared_pipe :: replicate 63 zero_pipe.
Definition demo_family : kstate mm := kernel_boot demo_block_heap demo_mode
  <| k_procs := {[ 65576 := demo_shell ]} |> <| k_next_pid := 3 |> <| k_pipes := demo_pipes |>
  <| k_sems := mk_sem 2 0 1 0 0 0 true :: mk_sem 3 4096 1 0 0 0 true :: mk_sem 4 1 1 0 0 0 true :: replicate 61 zero_sem |>
  <| k_sched ::= fun d => d <| current := 65576 |> |>.

Lemma demo_family_live : exists n, mm_live (k_mm demo_family) {[ 65576 := n ]}.
Proof.
  destruct (malloc_law demo_large_heap ∅ sizeof_process demo_boot_live ltac:(done)) as (p & s & E & K).
  assert (s = demo_block_heap) as -> by (unfold demo_block_heap, after; by rewrite E).
  assert (p = 65576) as ->.
  { change p with (match @Done mm Z p demo_block_heap with Done q _ => q | _ => 0 end). rewrite <- E. vm_compute. reflexivity. }
  destruct K as [[? _]|(n & _ & _ & _ & Hl)]; [done|]. by exists n.
Qed.
Lemma demo_family_procs n q : is_Some (k_procs demo_family !! q) -> is_Some (({[ 65576 := n ]} : gmap Z Z) !! q).
Proof. intros [b Hb]. change (({[ 65576 := demo_shell ]} : gmap Z process_t) !! q = Some b) in Hb. apply lookup_singleton_Some in Hb as [<- _]. rewrite lookup_singleton_eq. by eexists. Qed.
Lemma demo_family_parent : may_have_child 65576 (k_procs demo_family) (k_pipes demo_family).
Proof.
  right. exists demo_shell. split; [reflexivity|]. split; [|by left]. split; [reflexivity|]. intros i e j Hi Hj.
  destruct (decide (i < 16)%nat) as [Hlt|Hge]; [|by rewrite lookup_ge_None_2 in Hi by (cbn; lia)].
  do 16 (destruct i as [|i]; [injection Hi as <-; cbn in Hj; try discriminate; injection Hj as <-; by eexists|]). lia.
Qed.
Lemma demo_family_idle : pipes_idle demo_family.
Proof.
  intros [|j] x Hx.
  - injection Hx as <-. cbn [pipe_used demo_shared_pipe]. split; try done.
    split; [done|]. exists 2%nat, (mk_sem 4 1 1 0 0 0 true). by repeat split.
  - change (replicate 63 zero_pipe !! j = Some x) in Hx. by apply lookup_replicate in Hx as [-> _].
Qed.

Lemma process_create_starts_witness :
  runs (process_create (CLit [115; 104]) 0x400000 0x700 65576 1 5 0) demo_family (fun p s' => exists b,
    k_procs s' !! p = Some b /\ p_pid b = 3 /\ p_state b = PROCESS_STATE_READY /\ take 4 (p_name b) = [115; 104; 0; 0] /\
    take 3 (p_fds b) = [mk_fd FD_TYPE_PIPE_READ (Some 0%nat); fd_terminal; mk_fd FD_TYPE_PIPE_WRITE (Some 0%nat)] /\
    take 1 (k_pipes s') = [demo_shared_pipe <| pipe_readers := 2 |> <| pipe_writers := 2 |>] /\
    load64 (k_mem s') (p_rsp b + 8 * 7) = 0x400000 /\ load64 (k_mem s') (p_rsp b + 8 * 9) = 0x700).
Proof.
  destruct demo_family_live as [n Hn].
  destruct (process_create_starts demo_family _ (CLit [115; 104]) 0x400000 0x700 65576 1 5 0 Hn
    (demo_family_procs n) ltac:(done) demo_family_parent demo_family_idle) as (p & s' & E & K).
  assert (p <> 0) as Hp.
  { change p with (match @Done (kstate mm) Z p s' with Done q _ => q | _ => 0 end). rewrite <- E. vm_compute. discriminate. }
  exists p, s'. split; [exact E|]. clear E. destruct K as [(Ep & _)|(_ & _ & b & stack & n1 & n2 & _ & _ & _ & _ & _ & Hb & Hst & _ & Es)]; [exact (False_ind _ (Hp Ep))|].
  destruct Hst as [Hpid (chars & Ename & Hlen & Hchars & Hend) Hstate _ _ Hfds _ _ _ _ _ Hframe _]. exists b. split; [exact Hb|]. split; [exact Hpid|].
  split; [exact Hstate|]. split; [|split; [rewrite Hfds; vm_compute; reflexivity|split; [rewrite Es; vm_compute; reflexivity|]]].
  - clear Es Hb. rewrite Ename. destruct chars as [|c0 [|c1 [|c2 chars]]]; cbn in Hend.
    + by destruct Hend.
    + by destruct Hend.
    + destruct (Hchars 0%nat c0 eq_refl) as [-> _], (Hchars 1%nat c1 eq_refl) as [-> _]. reflexivity.
    + by destruct (Hchars 2%nat c2 eq_refl).
  - split.
    + change 7 with (Z.of_nat 7) at 1. rewrite (Hframe 7%nat 0x400000 eq_refl). reflexivity.
    + change 9 with (Z.of_nat 9) at 1. rewrite (Hframe 9%nat 0x700 eq_refl). reflexivity.
Defined.

