(* ===== verification/SchedCollect.v ===== *)
(** * The end of a process

    When the process that runs has ended, [schedule] gives the foreground back to
    its parent, dispatches the next process and collects the block: it leaves the
    list of the children of its parent, and its memory goes back to the manager. *)
From S2P Require Import Prelude LinkedList CLib MmInterface MmSimple MmSimpleFacts MmSimpleTheorems KState ProcQueue SchedCore QueueFacts SchedView QueueTheorems Semaphore Pipe Process Keyboard Scheduler SchedFacts SchedSwitch SchedTheorems SemFacts ProcPipes ProcessTheorems.

(** ** The children of a process *)


(** [detach_from_parent] on the blocks of the others. *)
Definition unlink (c : Z) (b : process_t) (procs : gmap Z process_t) : gmap Z process_t :=
  if p_parent b =? 0 then procs else
  let procs := if p_prev_sibling b =? 0
    then alter (fun x => if p_first_child x =? c then x <| p_first_child := p_next_sibling b |> else x) (p_parent b) procs
    else alter (fun x => x <| p_next_sibling := p_next_sibling b |>) (p_prev_sibling b) procs in
  if p_next_sibling b =? 0 then procs
  else alter (fun x => x <| p_prev_sibling := p_prev_sibling b |>) (p_next_sibling b) procs.

(** A block but for the links of the family. *)
Definition orphan (b : process_t) : process_t := b <| p_first_child := 0 |> <| p_next_sibling := 0 |> <| p_prev_sibling := 0 |>.

Lemma alter_orphan f p (procs : gmap Z process_t) q : (forall x, orphan (f x) = orphan x) -> orphan <$> alter f p procs !! q = orphan <$> procs !! q.
Proof.
  intros Hf. destruct (decide (q = p)) as [->|]; [|by rewrite lookup_alter_ne].
  rewrite lookup_alter_eq. destruct (procs !! p); [|done]. cbn [fmap option_fmap option_map]. by rewrite Hf.
Qed.
Lemma unlink_orphan c b procs q : orphan <$> unlink c b procs !! q = orphan <$> procs !! q.
Proof.
  unfold unlink. destruct (p_parent b =? 0); [done|]. cbv zeta. destruct (p_next_sibling b =? 0); [|rewrite alter_orphan by done].
  all: destruct (p_prev_sibling b =? 0); apply alter_orphan; [intros x; by destruct (p_first_child x =? c)|done].
Qed.
Lemma unlink_some c b procs q : is_Some (unlink c b procs !! q) <-> is_Some (procs !! q).
Proof.
  pose proof (unlink_orphan c b procs q) as E. destruct (unlink c b procs !! q), (procs !! q); try done; by split; intros [? ?].
Qed.



Section Collect.
Context {MM : Type} `{MemManagerLaws MM}.
Implicit Types (s t : kstate MM) (L : qref -> list Z) (b : process_t).

(** ** More rules of [SchedView] *)


(** ** The foreground *)




(** ** Saving a process that has ended *)






(** ** Destroying a process *)






(** ** The invariants *)



(** ** The whole *)













End Collect.

(** ** A child in the foreground that ends *)

#[local] Instance collect_manager : MemManager mm := simple_manager 0.
#[local] Instance collect_laws : MemManagerLaws mm := simple_laws 0.



