(* ===== verification/Syscalls.v ===== *)
(** * System calls (src/Kernel/syscalls)

    [int 80h] enters through an interrupt gate: a system call runs with
    interrupts masked, and hands the processor over only where it yields or
    halts.  The arguments are the registers, 64-bit unsigned values; a handler
    that declares an [int] reads the low half. *)
From S2P Require Import Prelude CLib MmInterface Video KState SchedCore Semaphore Pipe Process Keyboard Scheduler.

Section Syscalls.
Context {MM : Type} `{MemManager MM} `{Text}.
(** A bound on the times one call is woken up in vain. *)
Context (wakeups : nat).
Abbreviation K := (M (kstate MM)).

(** One round of the loop that reads the terminal. *)
Definition read_char_step (buffer count read : Z) : K (Z + Z) :=
  if negb (read <? count) then mret (inr read) else
  c ← keyboard_read_getchar;
  if c =? 0 then keyboard_wait_for_char wakeups ;; mret (inl read) else
  if c =? 0x04 then mret (inr read) else
  mstore (store8 (buffer + read) c) ;;
  if c =? 10 then mret (inr (read + 1)) else mret (inl (read + 1)).

Definition syscall_read (fd buffer count : Z) : K Z :=
  let fd := i32 fd in
  let count := i32 count in
  if (buffer =? 0) || (count <=? 0) || (fd <? 0) || (fd >=? MAX_FDS) then mret 0 else
  current_process ← scheduler_current_process;
  if current_process =? 0 then mret 0 else
  fd_entry ← fd_load current_process fd;
  match fd_type fd_entry with
  | FD_TYPE_TERMINAL =>
      if negb (fd =? STDIN) then mret 0 else
      b ← pload current_process;
      if p_is_foreground b =? 0 then
        scheduler_block_by_pid (p_pid b) ;; mret 0
      else while_fuel (S (Z.to_nat count + wakeups)) (read_char_step buffer count) 0
  | FD_TYPE_PIPE_READ =>
      match fd_pipe fd_entry with
      | None => mret 0
      | Some _ => n ← pipe_read wakeups (fd_pipe fd_entry) buffer count; mret (u64 n)
      end
  | FD_TYPE_PIPE_WRITE => mret 0
  end.

Definition syscall_write (fd buffer count : Z) : K Z :=
  let fd := i32 fd in
  let count := i32 count in
  if (buffer =? 0) || (count <=? 0) || (fd <? 0) || (fd >=? MAX_FDS) then mret 0 else
  current_process ← scheduler_current_process;
  if current_process =? 0 then mret 0 else
  fd_entry ← fd_load current_process fd;
  match fd_type fd_entry with
  | FD_TYPE_TERMINAL =>
      if negb (fd =? STDOUT) then mret 0 else
      for_up 0 (Z.to_nat count) (fun i =>
        c ← mload (fun m => load8 m (buffer + i));
        on_video (video_putChar c FOREGROUND_COLOR BACKGROUND_COLOR)) ;;
      mret (u64 count)
  | FD_TYPE_PIPE_WRITE =>
      match fd_pipe fd_entry with
      | None => mret 0
      | Some _ => n ← pipe_write wakeups (fd_pipe fd_entry) buffer count; mret (u64 n)
      end
  | FD_TYPE_PIPE_READ => mret 0
  end.

Definition syscall_clearScreen : K Z := on_video video_clearScreen ;; mret 1.

(** [_hlt] waits for an interrupt: at most [wakeups] of them. *)
Definition sleep_step (target : Z) (_ : unit) : K (unit + unit) :=
  t ← ticks_elapsed;
  if u64 t <? target then suspend Halt ;; mret (inl tt) else mret (inr tt).
Definition sleep_ticks (duration : Z) : Z := u32 (u32 (u32 (i32 duration) * 18) + 999) / 1000.
Definition syscall_sleep (duration : Z) : K Z :=
  t ← ticks_elapsed;
  let target := u64 (u64 t + sleep_ticks duration) in
  while_fuel (S wakeups) (sleep_step target) tt ;;
  mret 0.

Definition syscall_video_putChar (c fg bg : Z) : K Z := on_video (video_putChar (i8 c) fg bg) ;; mret 0.

(** The write to port 0x604 turns the machine off. *)
Definition syscall_shutdown : K Z :=
  while_fuel (S wakeups) (fun _ : unit => suspend Halt ;; mret (inl tt)) tt.

Definition syscall_get_screen_dimensions (width_p height_p : Z) : K Z :=
  if (width_p =? 0) || (height_p =? 0) then mret 0 else
  w ← on_video video_get_width;
  mstore (store64 width_p w) ;;
  h ← on_video video_get_height;
  mstore (store64 height_p h) ;;
  mret 1.

Definition syscall_malloc (size : Z) : K Z :=
  if size =? 0 then mret 0 else on_mm (malloc size).
Definition syscall_free (address : Z) : K Z :=
  if address =? 0 then mret 0 else on_mm (mfree address) ;; mret 1.

(** The structure, copied to the caller word by word. *)
Definition stats_words (st : mm_stats_t) : list Z :=
  [total_bytes st; used_bytes st; free_bytes st; largest_free_block st;
   allocations st; frees st; failed_allocations st].
Definition syscall_meminfo (user_addr : Z) : K Z :=
  if user_addr =? 0 then mret 0 else
  st ← on_mm mm_stats;
  mstore (store_words user_addr (stats_words st)) ;;
  mret 1.

(** "user_process" *)
Definition user_process_name : cstring := CLit [117; 115; 101; 114; 95; 112; 114; 111; 99; 101; 115; 115].
(** [is_foreground], [stdin_pipe_id] and [stdout_pipe_id] from the last register. *)
Definition unpack_foreground (is_foreground_and_pipes : Z) : Z * Z * Z :=
  if is_foreground_and_pipes <=? 1 then (is_foreground_and_pipes, 0, 0)
  else (Z.land (Z.shiftr is_foreground_and_pipes 32) 0x1,
        Z.land is_foreground_and_pipes 0xFFFF,
        Z.land (Z.shiftr is_foreground_and_pipes 16) 0xFFFF).
Definition syscall_create_process (name function argv priority is_foreground_and_pipes : Z) : K Z :=
  let '(is_foreground, stdin_pipe_id, stdout_pipe_id) := unpack_foreground is_foreground_and_pipes in
  parent ← scheduler_current_process;
  when (ctrue is_foreground && ctrue parent) (pstore parent (fun x => x <| p_is_foreground := 0 |>)) ;;
  p ← scheduler_spawn_process (if ctrue name then CAddr name else user_process_name) function argv parent
        (u8 priority) is_foreground stdin_pipe_id stdout_pipe_id;
  if p =? 0 then
    when (ctrue is_foreground && ctrue parent) (pstore parent (fun x => x <| p_is_foreground := 1 |>)) ;;
    mret 0
  else
  b ← pload p; mret (p_pid b).

Definition syscall_kill (pid : Z) : K Z := r ← scheduler_kill_by_pid pid; mret (u64 r).
Definition syscall_block (pid : Z) : K Z := r ← scheduler_block_by_pid pid; mret (u64 r).
Definition syscall_unblock (pid : Z) : K Z := r ← scheduler_unblock_by_pid pid; mret (u64 r).

Definition syscall_get_type_of_mm (user_addr : Z) : K Z :=
  if user_addr =? 0 then mret 0 else
  mstore (store_bytes user_addr (mm_manager_name ++ [0])) ;;
  mret 1.

Definition syscall_getpid : K Z :=
  p ← scheduler_current_process;
  if p =? 0 then mret 0 else b ← pload p; mret (p_pid b).

Definition syscall_set_priority (pid newPrio : Z) : K Z :=
  r ← scheduler_set_priority pid (u8 newPrio); mret (u64 r).

(** [if (target->is_foreground) me->is_foreground = 1;] *)
Definition take_foreground (target me : Z) : K unit :=
  b ← pload target;
  when (ctrue (p_is_foreground b)) (pstore me (fun x => x <| p_is_foreground := 1 |>)).
Definition syscall_wait (pid : Z) : K Z :=
  if i64 pid <=? 0 then mret 0 else
  target ← scheduler_find_by_pid pid;
  if target =? 0 then mret 0 else
  b ← pload target;
  if bool_decide (p_state b = PROCESS_STATE_FINISHED) then
    me ← scheduler_current_process;
    (if ctrue me then take_foreground target me else mret tt) ;;
    mret 1
  else
  me ← scheduler_current_process;
  if (me =? 0) || (me =? target) then mret 0 else
  pstore me (fun x => x <| p_waiting_on_pid := pid |>) ;;
  b ← pload target;
  pstore me (fun x => x <| p_waiter_next := p_waiters_head b |>) ;;
  pstore target (fun x => x <| p_waiters_head := me |>) ;;
  scheduler_block_current ;;
  scheduler_yield_current ;;
  take_foreground target me ;;
  mret 1.

Definition syscall_sem_create (initial : Z) : K Z :=
  let initial := i32 initial in
  if initial <? 0 then mret 0 else sem_alloc initial.
Definition syscall_sem_open (sem_id : Z) : K Z := sem_open_by_id sem_id.
Definition syscall_sem_close (sem_id : Z) : K Z := sem_close_by_id sem_id.
Definition syscall_sem_wait (sem_id : Z) : K Z := sem_wait_by_id sem_id.
Definition syscall_sem_signal (sem_id : Z) : K Z := sem_signal_by_id sem_id.
Definition syscall_sem_set (sem_id newval : Z) : K Z := sem_set_by_id sem_id (i32 newval).
Definition syscall_sem_get (sem_id : Z) : K Z :=
  v ← sem_get_value_by_id sem_id;
  mret (match v with None => u64 (-1) | Some val => u64 val end).

Definition syscall_list_processes (user_addr max_count : Z) : K Z :=
  if (user_addr =? 0) || (max_count =? 0) || (max_count >? MAX_PROCESS_INFO) then mret 0 else
  scheduler_list_all_processes user_addr max_count.

Definition syscall_yield : K Z :=
  p ← scheduler_current_process;
  if p =? 0 then mret 0 else scheduler_yield_current ;; mret 1.

Definition syscall_pipe_create : K Z := pipe_create.
Definition syscall_pipe_open (pipe_id is_writer : Z) : K Z := pipe_open_by_id pipe_id (i32 is_writer).

(** The mode of the first descriptor of [p] open on the pipe. *)
Definition fd_on_pipe (p pipe_id i : Z) : K (option Z) :=
  entry ← fd_load p i;
  match fd_pipe entry with
  | Some _ =>
      if is_pipe_type (fd_type entry) then
        entry_pipe_id ← pipe_get_id (fd_pipe entry);
        mret (if entry_pipe_id =? pipe_id then Some (is_writer_type (fd_type entry)) else None)
      else mret None
  | None => mret None
  end.
Definition syscall_pipe_close (pipe_id : Z) : K Z :=
  if pipe_id =? 0 then mret 0 else
  current_process ← scheduler_current_process;
  if current_process =? 0 then mret 0 else
  found ← for_first 0 16 (fd_on_pipe current_process pipe_id);
  let is_writer := match found with Some w => w | None => 1 end in
  pipe_close_by_id pipe_id is_writer.

(** Closes the pipe a descriptor is open on. *)
Definition close_entry (entry : fd_entry_t) : K unit :=
  match fd_pipe entry with
  | Some _ =>
      old_id ← pipe_get_id (fd_pipe entry);
      when (ctrue old_id) (pipe_close_by_id old_id (is_writer_type (fd_type entry)) ;; mret tt)
  | None => mret tt
  end.

Definition syscall_pipe_dup (pipe_id fd mode : Z) : K Z :=
  if fd >=? MAX_FDS then mret 0 else
  current_process ← scheduler_current_process;
  if current_process =? 0 then mret 0 else
  pipe ← pipe_get_by_id pipe_id;
  match pipe with
  | None => mret 0
  | Some _ =>
      entry ← fd_load current_process fd;
      when (is_pipe_type (fd_type entry))
        (close_entry entry ;; fd_store current_process fd (mk_fd (fd_type entry) None)) ;;
      entry ← fd_load current_process fd;
      if (mode =? 0) || (mode =? 1) then
        fd_store current_process fd
          (mk_fd (if mode =? 0 then FD_TYPE_PIPE_READ else FD_TYPE_PIPE_WRITE) (fd_pipe entry)) ;;
        ok ← pipe_open_by_id pipe_id mode;
        if ok =? 0 then mret 0 else
        entry ← fd_load current_process fd;
        fd_store current_process fd (mk_fd (fd_type entry) pipe) ;;
        mret 1
      else mret 0
  end.

Definition syscall_pipe_release_fd (fd : Z) : K Z :=
  if fd >=? MAX_FDS then mret 0 else
  current_process ← scheduler_current_process;
  if current_process =? 0 then mret 0 else
  entry ← fd_load current_process fd;
  when (is_pipe_type (fd_type entry)) (close_entry entry) ;;
  fd_store current_process fd fd_terminal ;;
  mret 1.

Definition syscall_get_foreground_pid : K Z := scheduler_get_foreground_pid.

(** ** The dispatcher (src/Kernel/syscalls/syscallDispatcher.c) *)

Definition syscallHandlers : list (Z -> Z -> Z -> Z -> Z -> K Z) := [
  (fun a b c _ _ => syscall_read a b c);
  (fun a b c _ _ => syscall_write a b c);
  (fun _ _ _ _ _ => syscall_clearScreen);
  (fun a _ _ _ _ => syscall_sleep a);
  (fun a b c _ _ => syscall_video_putChar a b c);
  (fun _ _ _ _ _ => syscall_shutdown);
  (fun a b _ _ _ => syscall_get_screen_dimensions a b);
  (fun a _ _ _ _ => syscall_malloc a);
  (fun a _ _ _ _ => syscall_free a);
  (fun a _ _ _ _ => syscall_meminfo a);
  (fun a b c d e => syscall_create_process a b c d e);
  (fun a _ _ _ _ => syscall_kill a);
  (fun a _ _ _ _ => syscall_block a);
  (fun a _ _ _ _ => syscall_unblock a);
  (fun a _ _ _ _ => syscall_get_type_of_mm a);
  (fun _ _ _ _ _ => syscall_getpid);
  (fun a b _ _ _ => syscall_set_priority a b);
  (fun a _ _ _ _ => syscall_wait a);
  (fun a _ _ _ _ => syscall_sem_create a);
  (fun a _ _ _ _ => syscall_sem_open a);
  (fun a _ _ _ _ => syscall_sem_close a);
  (fun a _ _ _ _ => syscall_sem_wait a);
  (fun a _ _ _ _ => syscall_sem_signal a);
  (fun a b _ _ _ => syscall_sem_set a b);
  (fun a _ _ _ _ => syscall_sem_get a);
  (fun a b _ _ _ => syscall_list_processes a b);
  (fun _ _ _ _ _ => syscall_yield);
  (fun _ _ _ _ _ => syscall_pipe_create);
  (fun a b _ _ _ => syscall_pipe_open a b);
  (fun a _ _ _ _ => syscall_pipe_close a);
  (fun a b c _ _ => syscall_pipe_dup a b c);
  (fun a _ _ _ _ => syscall_pipe_release_fd a);
  (fun _ _ _ _ _ => syscall_get_foreground_pid) ].
Definition SYSCALLS_COUNT : Z := Z.of_nat (length syscallHandlers).

Definition syscallDispatcher (rdi rsi rdx r10 r8 rax : Z) : K Z :=
  if rax >=? SYSCALLS_COUNT then mret 0 else
  match syscallHandlers !! Z.to_nat rax with
  | Some h => h rdi rsi rdx r10 r8
  | None => fault
  end.
End Syscalls.
