(* ===== verification/KernelInv.v ===== *)
(** * An invariant of the whole kernel

    What holds between any two steps of the machine, whatever the processes do and
    however their system calls interleave: the spin locks are free, the buffers of
    the pipes and of the keyboard are sound rings, control blocks have priorities
    that name a queue and descriptors that name a pipe, and the cursor is on the
    screen.  Every operation of the kernel keeps it. *)
From S2P Require Import Prelude Ring CLib MmInterface Font Video VideoFacts VideoTheorems KState ProcQueue SchedCore Semaphore Pipe Process Keyboard Scheduler Syscalls.

Definition priority_ok (pr : Z) : Prop := 0 <= pr <= 2.
(** A descriptor points into the array of pipes. *)
Definition fd_ok (e : fd_entry_t) : Prop := forall i, fd_pipe e = Some i -> (i < 64)%nat.

Record block_ok (b : process_t) : Prop := {
  blk_priority : priority_ok (p_priority b);
  blk_base : priority_ok (p_base_priority b);
  blk_fds : length (p_fds b) = 16%nat /\ Forall fd_ok (p_fds b);
  blk_name : length (p_name b) = 33%nat }.

(** The indices agree with the count, and the array is written inside its bounds. *)
Record pipe_ok (x : pipe_t) : Prop := {
  pip_ring : ring_wf PIPE_BUFFER_SIZE (pipe_read_pos x) (pipe_write_pos x) (pipe_count x);
  pip_cells : forall a, is_Some (pipe_buffer x !! a) -> 0 <= a < PIPE_BUFFER_SIZE }.
Record kbd_ok (k : keyboard) : Prop := {
  kbd_ring : ring_wf BUFFER_SIZE (kb_readIndex k) (kb_writeIndex k) (kb_size k);
  kbd_cells : forall a, is_Some (kb_buffer k !! a) -> 0 <= a < BUFFER_SIZE;
  kbd_keys : forall a, is_Some (key_states k !! a) -> 0 <= a < 256 }.

Section Invariant.
Context (mode : vbe_mode_info) (scale cols rows : Z).
Context {MM : Type}.
Implicit Types s : kstate MM.

(** Inside a critical section one lock is held. *)
Record kernel_ok (held : option nat) (s : kstate MM) : Prop := {
  ker_locks : forall i x, k_sems s !! i = Some x -> held <> Some i -> sem_lock x = 0;
  ker_procs : forall p b, k_procs s !! p = Some b -> block_ok b;
  ker_queues : length (ready_queues (k_sched s)) = 3%nat;
  ker_pipes : length (k_pipes s) = 64%nat /\ forall i x, k_pipes s !! i = Some x -> pipe_ok x;
  ker_kbd : kbd_ok (k_kbd s);
  ker_screen : screen_ok mode scale cols rows (k_video s) }.
End Invariant.

(** ** Data *)

Lemma clamp_ok pr : priority_ok (clamp_priority pr).
Proof.
  unfold clamp_priority, priority_ok, PROCESS_PRIORITY_MAX. pose proof (wrap_range 8 pr ltac:(lia)). cbv zeta.
  destruct (Z.gtb_spec (u8 pr) 2); lia.
Qed.

Lemma fd_terminal_ok : fd_ok fd_terminal.
Proof. by intros i. Qed.
Lemma zero_block_ok : block_ok zero_process.
Proof.
  split; [done|done|split; [done|]|done]. cbn [p_fds zero_process]. apply Forall_replicate, fd_terminal_ok.
Qed.
Lemma zero_pipe_ok : pipe_ok zero_pipe.
Proof. split; [done|]. intros a [c E]. change ((∅ : gmap Z Z) !! a = Some c) in E. by rewrite lookup_empty in E. Qed.

(** A descriptor is replaced. *)
Lemma block_ok_fd b i e : block_ok b -> fd_ok e -> block_ok (b <| p_fds ::= <[i := e]> |>).
Proof.
  intros [Hp Hb [Hl Hf] Hn] He. split; [done|done| |done]. split.
  - change (length (<[i := e]> (p_fds b)) = 16%nat). by rewrite length_insert.
  - change (Forall fd_ok (<[i := e]> (p_fds b))). by apply Forall_insert.
Qed.

Lemma copy_name_loop_length n m src : forall i name, length (copy_name_loop n m src i name).2 = length name.
Proof.
  induction n as [|n IH]; intros i name; simpl; [done|]. destruct (_ =? 0); [done|]. by rewrite IH, length_insert.
Qed.
Lemma copied_name_length m name old : length (copied_name m name old) = length old.
Proof.
  unfold copied_name. pose proof (copy_name_loop_length (Z.to_nat PROCESS_NAME_MAX_LEN) m
    (if cstring_is_null name then default_name else name) 0 old) as Hl.
  destruct (copy_name_loop _ _ _ _ _) as [i l]. by rewrite length_insert.
Qed.

Lemma find_pipe_lt id l : forall i j, find_pipe id i l = Some j -> (j < i + length l)%nat.
Proof.
  induction l as [|x l IH]; intros i j E; simpl in *; [done|].
  destruct (_ && _); [injection E as <-; lia|]. apply IH in E. lia.
Qed.

(** A byte goes in and out of a pipe. *)
Lemma pipe_ok_push x c : pipe_ok x -> pipe_count x < PIPE_BUFFER_SIZE ->
  pipe_ok (x <| pipe_buffer ::= <[pipe_write_pos x := c]> |> <| pipe_write_pos ::= fun w => (w + 1) mod PIPE_BUFFER_SIZE |>
             <| pipe_count ::= fun n => u64 (n + 1) |>).
Proof.
  intros [Hr Hc] Hlt. pose proof (ring_push PIPE_BUFFER_SIZE ltac:(done) (pipe_buffer x) _ _ _ c Hr Hlt) as [Hr' _].
  destruct Hr as (Hr0 & Hn & Ew). split.
  - change (ring_wf PIPE_BUFFER_SIZE (pipe_read_pos x) ((pipe_write_pos x + 1) mod PIPE_BUFFER_SIZE) (u64 (pipe_count x + 1))).
    rewrite wrap_small; [exact Hr'|]. unfold PIPE_BUFFER_SIZE in *. lia.
  - intros a Ha. change (is_Some (<[pipe_write_pos x := c]> (pipe_buffer x) !! a)) in Ha.
    destruct (decide (a = pipe_write_pos x)) as [->|]; [rewrite Ew; by apply Z.mod_pos_bound|].
    rewrite lookup_insert_ne in Ha by done. auto.
Qed.
Lemma pipe_ok_pop x : pipe_ok x -> 0 < pipe_count x ->
  pipe_ok (x <| pipe_read_pos ::= fun r => (r + 1) mod PIPE_BUFFER_SIZE |> <| pipe_count ::= fun n => u64 (n - 1) |>).
Proof.
  intros [Hr Hc] Hlt. pose proof (ring_pop PIPE_BUFFER_SIZE ltac:(done) (pipe_buffer x) _ _ _ Hr Hlt) as [Hr' _].
  destruct Hr as (Hr0 & Hn & Ew). split; [|done].
  change (ring_wf PIPE_BUFFER_SIZE ((pipe_read_pos x + 1) mod PIPE_BUFFER_SIZE) (pipe_write_pos x) (u64 (pipe_count x - 1))).
  rewrite wrap_small; [exact Hr'|]. unfold PIPE_BUFFER_SIZE in *. lia.
Qed.

(** A character goes in and out of the keyboard's buffer. *)
Lemma kbd_ok_push k c : kbd_ok k -> kb_size k <> BUFFER_SIZE ->
  kbd_ok (k <| kb_buffer ::= <[kb_writeIndex k := c]> |> <| kb_writeIndex ::= fun w => (w + 1) mod BUFFER_SIZE |>
            <| kb_size ::= fun n => n + 1 |>).
Proof.
  intros [Hr Hc Hk] Hne. assert (kb_size k < BUFFER_SIZE) as Hlt by (destruct Hr; lia).
  pose proof (ring_push BUFFER_SIZE ltac:(done) (kb_buffer k) _ _ _ c Hr Hlt) as [Hr' _].
  destruct Hr as (_ & _ & Ew). split; [exact Hr'| |done]. intros a Ha.
  change (is_Some (<[kb_writeIndex k := c]> (kb_buffer k) !! a)) in Ha.
  destruct (decide (a = kb_writeIndex k)) as [->|]; [rewrite Ew; by apply Z.mod_pos_bound|].
  rewrite lookup_insert_ne in Ha by done. auto.
Qed.
Lemma kbd_ok_pop k : kbd_ok k -> kb_size k <> 0 ->
  kbd_ok (k <| kb_readIndex ::= fun r => (r + 1) mod BUFFER_SIZE |> <| kb_size ::= fun n => n - 1 |>).
Proof.
  intros [Hr Hc Hk] Hne. assert (0 < kb_size k) as Hlt by (destruct Hr; lia).
  pose proof (ring_pop BUFFER_SIZE ltac:(done) (kb_buffer k) _ _ _ Hr Hlt) as [Hr' _]. by split.
Qed.
Lemma kbd_ok_record scancode k : 0 <= scancode < 256 -> kbd_ok k -> kbd_ok (record_key scancode k).
Proof.
  intros Hs [Hr Hc Hk]. assert (forall j v, 0 <= j < 256 -> kbd_ok (k <| key_states ::= <[j := v]> |>)) as K.
  { intros j v Hj. split; [done|done|]. intros a Ha. change (is_Some (<[j := v]> (key_states k) !! a)) in Ha.
    destruct (decide (a = j)) as [->|]; [done|]. rewrite lookup_insert_ne in Ha by done. auto. }
  unfold record_key. destruct (ctrue _); apply K; [|done].
  assert (0 <= Z.land scancode (bnot 8 RELEASE_OFFSET)) by (apply Z.land_nonneg; lia). split; [done|].
  destruct (Z.eq_dec (Z.land scancode (bnot 8 RELEASE_OFFSET)) 0) as [->|]; [lia|].
  apply (Z.log2_lt_pow2 _ 8); [lia|].
  pose proof (Z.log2_land scancode (bnot 8 RELEASE_OFFSET) ltac:(lia) ltac:(vm_compute; discriminate)) as Hl.
  change (Z.log2 (bnot 8 RELEASE_OFFSET)) with 6 in Hl. lia.
Qed.

(** ** The accesses to the state *)

Section Accesses.
Context {mode : vbe_mode_info} {scale cols rows : Z}.
Context {MM : Type}.
Abbreviation ok := (@kernel_ok mode scale cols rows MM).
Implicit Types (s : kstate MM) (G : kstate MM -> Prop) (h : option nat).

(** Fields the invariant does not speak of. *)
Lemma keeps_mstore G h f : keeps G (ok h) (mstore f).
Proof. apply leads_modify. intros s [? ? ? ? ? ?]. by split. Qed.
Lemma keeps_next_pid G h f : keeps G (ok h) (modify (fun s => s <| k_next_pid ::= f |>)).
Proof. apply leads_modify. intros s [? ? ? ? ? ?]. by split. Qed.
Lemma keeps_next_sem_id G h f : keeps G (ok h) (modify (fun s => s <| k_next_sem_id ::= f |>)).
Proof. apply leads_modify. intros s [? ? ? ? ? ?]. by split. Qed.
Lemma keeps_next_pipe_id G h f : keeps G (ok h) (modify (fun s => s <| k_next_pipe_id ::= f |>)).
Proof. apply leads_modify. intros s [? ? ? ? ? ?]. by split. Qed.
Lemma keeps_timer_handler G h : keeps G (ok h) timer_handler.
Proof. apply leads_modify. intros s [? ? ? ? ? ?]. by split. Qed.
Lemma keeps_on_mm {A} h (m : M MM A) : keeps (ok h) (ok h) (on_mm m).
Proof.
  apply (keeps_zoom _ _ (fun _ => True)); [done| |apply keeps_anything]. intros s t [? ? ? ? ? ?] _. by split.
Qed.
Lemma keeps_on_video {A} h (m : M video A) :
  keeps (screen_ok mode scale cols rows) (screen_ok mode scale cols rows) m -> keeps (ok h) (ok h) (on_video m).
Proof.
  intros Hm. apply (keeps_zoom _ _ (screen_ok mode scale cols rows)); [by intros s []| |exact Hm].
  intros s t [? ? ? ? ? ?] Ht. by split.
Qed.

(** Control blocks. *)
Lemma leads_pload_bind {A} G h p (f : process_t -> M (kstate MM) A) J :
  (forall b, block_ok b -> leads G (ok h) (f b) J) -> leads G (ok h) (pload p ≫= f) J.
Proof. intros Hf. apply leads_gets_opt_bind. intros s b Hs Hb. by eapply Hf, (ker_procs _ _ _ _ _ _ Hs). Qed.
Lemma keeps_pstore G h p f : (forall b, block_ok b -> block_ok (f b)) -> keeps G (ok h) (pstore p f).
Proof.
  intros Hf. apply leads_pload_bind. intros _ _. apply leads_modify. intros s [? Hp ? ? ? ?]. split; [done| |done..].
  intros q b Hb. change (alter f p (k_procs s) !! q = Some b) in Hb.
  apply lookup_alter_Some in Hb as [(_ & b' & Hb' & ->)|[_ Hb]]; eauto.
Qed.
Lemma keeps_new_block G h p : keeps G (ok h) (modify (fun s => s <| k_procs ::= <[p := zero_process]> |>)).
Proof.
  apply leads_modify. intros s [? Hp ? ? ? ?]. split; [done| |done..]. intros q b Hb.
  change (<[p := zero_process]> (k_procs s) !! q = Some b) in Hb.
  apply lookup_insert_Some in Hb as [[_ <-]|[_ Hb]]; [apply zero_block_ok|eauto].
Qed.
Lemma keeps_delete_block G h p : keeps G (ok h) (modify (fun s => s <| k_procs ::= delete p |>)).
Proof.
  apply leads_modify. intros s [? Hp ? ? ? ?]. split; [done| |done..]. intros q b Hb.
  change (delete p (k_procs s) !! q = Some b) in Hb. apply lookup_delete_Some in Hb as [_ Hb]. eauto.
Qed.
Lemma leads_fd_load_bind {A} G h p i (f : fd_entry_t -> M (kstate MM) A) J :
  (forall e, fd_ok e -> leads G (ok h) (f e) J) -> leads G (ok h) (fd_load p i ≫= f) J.
Proof.
  intros Hf s Hs. unfold fd_load, pload, gets_opt, mbind, M_bind. destruct (k_procs s !! p) as [b|] eqn:Hb; [|done]. cbn [obind].
  destruct (p_fds b !! Z.to_nat i) as [e|] eqn:He; [|done]. apply Hf, Hs.
  destruct (ker_procs _ _ _ _ _ _ Hs _ _ Hb) as [_ _ [_ Hfds] _]. by eapply Forall_lookup_1.
Qed.
Lemma keeps_fd_store G h p i e : fd_ok e -> keeps G (ok h) (fd_store p i e).
Proof. intros He. apply keeps_pstore. intros b Hb. by apply block_ok_fd. Qed.

(** The scheduler's variables. *)
Lemma keeps_modify_sched G h f : (forall c, length (ready_queues (f c)) = length (ready_queues c)) -> keeps G (ok h) (modify_sched f).
Proof. intros Hf. apply leads_modify. intros s [? ? Hq ? ? ?]. split; [done|done| |done..]. rewrite <- Hq. apply Hf. Qed.
Lemma keeps_q_load G h q : keeps G (ok h) (q_load q).
Proof. destruct q; [apply keeps_gets_opt|apply keeps_gets|apply keeps_gets]. Qed.
Lemma keeps_q_store G h q v : keeps G (ok h) (q_store q v).
Proof.
  destruct q; [eapply leads_bind; [apply keeps_q_load|intros _]|..]; apply keeps_modify_sched; intros c; [|done..].
  apply length_insert.
Qed.

(** Semaphores. *)
Lemma keeps_sload G h i : keeps G (ok h) (sload i).
Proof. apply keeps_gets_opt. Qed.
Lemma leads_sstore G h h' i f :
  (forall x, sem_lock x = 0 \/ h = Some i -> sem_lock (f x) = 0 \/ h' = Some i) -> (h = h' \/ (h <> h' /\ (h = None \/ h = Some i))) ->
  leads G (ok h) (sstore i f) (ok h').
Proof.
  intros Hf Hh. eapply leads_bind; [apply keeps_sload|intros _]. apply leads_modify.
  intros s [Hl ? ? ? ? ?]. split; [|done..]. intros j x Hx Hj. change (alter f i (k_sems s) !! j = Some x) in Hx.
  destruct (decide (j = i)) as [->|Hne].
  - rewrite list_lookup_alter_eq in Hx. destruct (k_sems s !! i) as [y|] eqn:Hy; [|done]. injection Hx as <-.
    destruct (Hf y) as [E|E]; [|done|done]. destruct (decide (h = Some i)) as [->|Hn]; [by right|left; eauto].
  - rewrite list_lookup_alter_ne in Hx by done. apply (Hl j x Hx). intros E. destruct Hh as [-> | [_ [-> | ->]]]; congruence.
Qed.
Lemma keeps_sstore G h i f : (forall x, sem_lock (f x) = sem_lock x) -> keeps G (ok h) (sstore i f).
Proof. intros Hf. apply leads_sstore; [|by left]. intros x. by rewrite Hf. Qed.
Lemma keeps_sstore_unlock G i : keeps G (ok None) (sstore i (fun x => x <| sem_lock := 0 |>)).
Proof. apply leads_sstore; [by left|by left]. Qed.
(** A critical section starts with all locks free and ends so. *)
Lemma leads_acquire G i : leads G (ok None) (acquire i) (ok (Some i)).
Proof.
  eapply leads_bind; [apply keeps_sload|]. intros x. destruct (ctrue _); [apply leads_diverge|].
  apply leads_sstore; [by right|by right; split; [|left]].
Qed.
Lemma leads_release G i : leads G (ok (Some i)) (release i) (ok None).
Proof. apply leads_sstore; [by left|by right; split; [|right]]. Qed.

(** Pipes. *)
Lemma keeps_pipe_load G h i : keeps G (ok h) (pipe_load i).
Proof. apply keeps_gets_opt. Qed.
Lemma keeps_pipe_store G h i f : (forall x, pipe_ok x -> pipe_ok (f x)) -> keeps G (ok h) (pipe_store i f).
Proof.
  intros Hf. eapply leads_bind; [apply keeps_pipe_load|intros _]. apply leads_modify.
  intros s [? ? ? [Hl Hp] ? ?]. split; [done..| |done|done]. split.
  - change (length (alter f i (k_pipes s)) = 64%nat). by rewrite length_alter.
  - intros j x Hx. change (alter f i (k_pipes s) !! j = Some x) in Hx. destruct (decide (j = i)) as [->|Hne].
    + rewrite list_lookup_alter_eq in Hx. destruct (k_pipes s !! i) as [y|] eqn:Hy; [|done]. injection Hx as <-. eauto.
    + rewrite list_lookup_alter_ne in Hx by done. eauto.
Qed.
(** While a byte goes in or out, pipe [i] is [x] and its indices need not agree. *)
Definition moving h (i : nat) (x : pipe_t) s : Prop :=
  k_pipes s !! i = Some x /\ forall y, pipe_ok y -> ok h (s <| k_pipes ::= <[i := y]> |>).
Lemma moving_ok h i x s : pipe_ok x -> moving h i x s -> ok h s.
Proof.
  intros Hok [Hx Hs]. specialize (Hs x Hok). destruct s as [a b c d e f g pipes i' j k l].
  change (ok h (mk_kstate a b c d e f g (<[i := x]> pipes) i' j k l)) in Hs. by rewrite list_insert_id in Hs.
Qed.
Lemma leads_pipe_load_bind {A} G h i (f : pipe_t -> M (kstate MM) A) J :
  (forall x, pipe_ok x -> leads G (moving h i x) (f x) J) -> leads G (ok h) (pipe_load i ≫= f) J.
Proof.
  intros Hf s Hs. unfold pipe_load, gets_opt, mbind, M_bind. destruct (k_pipes s !! i) as [x|] eqn:Hx; [|done].
  cbn [obind]. apply (Hf x); [by eapply (proj2 (ker_pipes _ _ _ _ _ _ Hs))|]. split; [done|]. intros y Hy.
  destruct Hs as [? ? ? [Hl Hp] ? ?]. split; [done..| |done|done]. split.
  - change (length (<[i := y]> (k_pipes s)) = 64%nat). by rewrite length_insert.
  - intros j z Hz. change (<[i := y]> (k_pipes s) !! j = Some z) in Hz.
    apply list_lookup_insert_Some in Hz as [(_ & <- & _)|[_ Hz]]; eauto.
Qed.
Lemma leads_moving_ok {A} G h i x (m : M (kstate MM) A) J : pipe_ok x -> leads G (ok h) m J -> leads G (moving h i x) m J.
Proof. intros Hx Hm s Hs. apply Hm. by eapply moving_ok. Qed.
Lemma leads_moving_store {A} G h i x f (m : M (kstate MM) A) J :
  leads G (moving h i (f x)) m J -> leads G (moving h i x) (pipe_store i f ;; m) J.
Proof.
  intros Hm s [Hx Hs]. unfold pipe_store, pipe_load, gets_opt, modify, mbind, M_bind. rewrite Hx. cbn [obind].
  apply Hm. split.
  - change (alter f i (k_pipes s) !! i = Some (f x)). by rewrite list_lookup_alter_eq, Hx.
  - intros y Hy. specialize (Hs y Hy). destruct s as [a b c d e f' g pipes i' j k l].
    change (ok h (mk_kstate a b c d e f' g (<[i := y]> (alter f i pipes)) i' j k l)).
    change (ok h (mk_kstate a b c d e f' g (<[i := y]> pipes) i' j k l)) in Hs.
    replace (<[i := y]> (alter f i pipes)) with (<[i := y]> pipes); [done|].
    apply list_eq. intros n. destruct (decide (n = i)) as [->|].
    + destruct (decide (i < length pipes)%nat); [by rewrite !list_lookup_insert_eq by (by rewrite ?length_alter)|].
      rewrite !lookup_ge_None_2; [done|rewrite length_insert, length_alter; lia|rewrite length_insert; lia].
    + by rewrite !list_lookup_insert_ne, list_lookup_alter_ne.
Qed.
Lemma leads_moving_mload {A B} G h i x (f : memory -> B) (m : B -> M (kstate MM) A) J :
  (forall b, leads G (moving h i x) (m b) J) -> leads G (moving h i x) (mload f ≫= m) J.
Proof. intros Hm. apply leads_gets_bind. intros s _. apply Hm. Qed.
Lemma leads_moving_mstore {A} G h i x f (m : M (kstate MM) A) J :
  leads G (moving h i x) m J -> leads G (moving h i x) (mstore f ;; m) J.
Proof.
  intros Hm. eapply leads_bind; [|intros _; exact Hm]. apply leads_modify. intros s [Hx Hs]. split; [done|].
  intros y Hy. specialize (Hs y Hy). destruct Hs. by split.
Qed.
Lemma leads_pipe_get_bind {A} G h id (f : option nat -> M (kstate MM) A) J :
  (forall p, (forall i, p = Some i -> (i < 64)%nat) -> leads G (ok h) (f p) J) -> leads G (ok h) (pipe_get_by_id id ≫= f) J.
Proof.
  intros Hf. unfold pipe_get_by_id. destruct (id =? 0); [intros s Hs; by apply (Hf None)|].
  apply leads_gets_bind. intros s Hs. apply Hf. intros i E. apply find_pipe_lt in E.
  destruct (ker_pipes _ _ _ _ _ _ Hs) as [Hl _]. lia.
Qed.

(** The keyboard. *)
Lemma keeps_modify_kbd G h f : (forall k, kbd_ok k -> kbd_ok (f k)) -> keeps G (ok h) (modify_kbd f).
Proof. intros Hf. apply leads_modify. intros s [? ? ? ? Hk ?]. split; [done..| |done]. by apply Hf. Qed.
End Accesses.
