(* ===== verification/KernelKeeps.v ===== *)
(** * Every operation keeps the kernel's invariant

    An operation that never hands the processor over keeps it in any company
    ([G]) and, if it takes no lock, inside a critical section too ([h]).  One that
    may hand over relies on the others to keep it, and does so with all locks
    free. *)
From S2P Require Import Prelude Ring CLib MmInterface Font Video VideoFacts VideoTheorems KState ProcQueue SchedCore Semaphore Pipe Process Keyboard Scheduler Syscalls KernelInv.

(** A change of a control block that leaves it sound. *)
Ltac sound_block :=
  let b := fresh "b" in let Hb := fresh "Hb" in
  intros b Hb; destruct Hb; split; first [assumption | apply clamp_ok | by apply blk_base | done].
(** A descriptor that points into the array. *)
Ltac sound_fd :=
  first [apply fd_terminal_ok | assumption | by intros ? [=] | by intros ? [= <-]; eauto].
(** A change of a pipe that leaves its buffer sound. *)
Ltac sound_pipe :=
  let x := fresh "x" in let Hx := fresh "Hx" in
  intros x Hx; first [apply zero_pipe_ok | destruct Hx; split; first [assumption | done]].
(** [keep], with the accesses to the state. *)
Ltac keep_kernel_one :=
  match goal with
  | |- leads _ _ (pload _ ≫= _) _ => apply leads_pload_bind; intros ? ?
  | |- leads _ _ (fd_load _ _ ≫= _) _ => apply leads_fd_load_bind; intros ? ?
  | |- leads _ _ (pipe_get_by_id _ ≫= _) _ => apply leads_pipe_get_bind; intros ? ?
  | |- leads _ _ (acquire _ ≫= _) _ => eapply leads_bind; [apply leads_acquire|intros _]
  | |- leads _ _ (release _ ≫= _) _ => eapply leads_bind; [apply leads_release|intros _]
  | |- leads _ _ (release _) _ => apply leads_release
  | |- leads _ _ (pstore _ _) _ => apply keeps_pstore; sound_block
  | |- leads _ _ (modify_sched _) _ => apply keeps_modify_sched; done
  | |- leads _ _ (sstore _ _) _ => apply keeps_sstore; done
  | |- leads _ _ (gets _) _ => apply keeps_gets
  | |- leads _ _ (gets_sched _) _ => apply keeps_gets
  | |- leads _ _ (gets_kbd _) _ => apply keeps_gets
  | |- leads _ _ (mload _) _ => apply keeps_gets
  | |- leads _ _ ticks_elapsed _ => apply keeps_gets
  | |- leads _ _ (mstore _) _ => apply keeps_mstore
  | |- leads _ _ (sload _) _ => apply keeps_sload
  | |- leads _ _ (pipe_store _ _) _ => apply keeps_pipe_store; sound_pipe
  | |- leads _ _ (pipe_load _) _ => apply keeps_pipe_load
  | |- leads _ _ (q_load _) _ => apply keeps_q_load
  | |- leads _ _ (q_store _ _) _ => apply keeps_q_store
  | |- leads _ _ (fd_store _ _ _) _ => apply keeps_fd_store; sound_fd
  | |- leads _ _ (on_mm _) _ => apply keeps_on_mm
  end.
Ltac kern := repeat first [keep_kernel_one | solve [eauto with keeps nocore] | keep_one].

Section Keeps.
Context {mode : vbe_mode_info} {scale cols rows : Z}.
Context {MM : Type} `{MemManager MM} `{Text}.
Abbreviation ok := (@kernel_ok mode scale cols rows MM).
Implicit Types (s : kstate MM) (G : kstate MM -> Prop) (h : option nat).

(** ** Queues and the core of the scheduler *)

Lemma keeps_queue_init G h q : keeps G (ok h) (process_queue_init q).
Proof. apply keeps_q_store. Qed.
Lemma keeps_detach G h q p : keeps G (ok h) (detach_from_queue q p).
Proof. unfold detach_from_queue, find_step. kern. Qed.
#[local] Hint Resolve keeps_queue_init keeps_detach : keeps.
Lemma keeps_queue_remove G h q p : keeps G (ok h) (process_queue_remove q p).
Proof. unfold process_queue_remove. kern. Qed.
Lemma keeps_queue_push G h q p : keeps G (ok h) (process_queue_push q p).
Proof. unfold process_queue_push, link_last. kern. Qed.
Lemma keeps_queue_pop G h q : keeps G (ok h) (process_queue_pop q).
Proof. unfold process_queue_pop. kern. Qed.
#[local] Hint Resolve keeps_queue_remove keeps_queue_push keeps_queue_pop : keeps.

Lemma keeps_ready_push G h p : keeps G (ok h) (ready_queue_push p).
Proof. unfold ready_queue_push. kern. Qed.
Lemma keeps_pop_highest G h : keeps G (ok h) ready_queue_pop_highest.
Proof. unfold ready_queue_pop_highest, priorities_down, pop_highest. kern. Qed.
Lemma keeps_current G h : keeps G (ok h) scheduler_current_process.
Proof. apply keeps_gets. Qed.
#[local] Hint Resolve keeps_ready_push keeps_pop_highest keeps_current : keeps.
Lemma keeps_add_process G h p : keeps G (ok h) (scheduler_add_process p).
Proof. unfold scheduler_add_process. kern. Qed.
Lemma keeps_block_current G h : keeps G (ok h) scheduler_block_current.
Proof. unfold scheduler_block_current. kern. Qed.
Lemma keeps_yield_current h : keeps (ok h) (ok h) scheduler_yield_current.
Proof. unfold scheduler_yield_current. kern. Qed.
Lemma keeps_resched G h p : keeps G (ok h) (resched_if_higher p).
Proof. unfold resched_if_higher. kern. Qed.
#[local] Hint Resolve keeps_add_process keeps_block_current keeps_yield_current keeps_resched : keeps.
Lemma keeps_unblock_process G h p : keeps G (ok h) (scheduler_unblock_process p).
Proof. unfold scheduler_unblock_process. kern. Qed.
#[local] Hint Resolve keeps_unblock_process : keeps.

(** ** Semaphores *)

Lemma keeps_sem_get G h id : keeps G (ok h) (sem_get_by_id id).
Proof. unfold sem_get_by_id, find_slot_by_id. kern. Qed.
#[local] Hint Resolve keeps_sem_get keeps_next_sem_id keeps_sstore_unlock : keeps.
Lemma keeps_sem_alloc G v : keeps G (ok None) (sem_alloc v).
Proof. unfold sem_alloc. kern. Qed.
Lemma keeps_sem_open G id : keeps G (ok None) (sem_open_by_id id).
Proof. unfold sem_open_by_id. kern. Qed.
Lemma keeps_sem_close G id : keeps G (ok None) (sem_close_by_id id).
Proof. unfold sem_close_by_id. kern. Qed.
Lemma keeps_enqueue_waiter G h i p : keeps G (ok h) (enqueue_waiter i p).
Proof. unfold enqueue_waiter. kern. Qed.
Lemma keeps_dequeue_waiter G h i : keeps G (ok h) (dequeue_waiter i).
Proof. unfold dequeue_waiter. kern. Qed.
#[local] Hint Resolve keeps_sem_alloc keeps_sem_open keeps_sem_close keeps_enqueue_waiter keeps_dequeue_waiter : keeps.
Lemma keeps_sem_wait id : keeps (ok None) (ok None) (sem_wait_by_id id).
Proof. unfold sem_wait_by_id. kern. Qed.
Lemma keeps_sem_signal G id : keeps G (ok None) (sem_signal_by_id id).
Proof. unfold sem_signal_by_id. kern. Qed.
Lemma keeps_sem_set G id v : keeps G (ok None) (sem_set_by_id id v).
Proof. unfold sem_set_by_id, awaken_step. kern. Qed.
Lemma keeps_sem_get_value G id : keeps G (ok None) (sem_get_value_by_id id).
Proof. unfold sem_get_value_by_id. kern. Qed.
#[local] Hint Resolve keeps_sem_wait keeps_sem_signal keeps_sem_set keeps_sem_get_value : keeps.

(** ** Pipes *)

Lemma keeps_pipe_get_id G h p : keeps G (ok h) (pipe_get_id p).
Proof. unfold pipe_get_id. kern. Qed.
#[local] Hint Resolve keeps_pipe_get_id keeps_next_pipe_id : keeps.
Lemma keeps_pipe_create G : keeps G (ok None) pipe_create.
Proof. unfold pipe_create. kern. Qed.
Lemma keeps_pipe_open id w : keeps (ok None) (ok None) (pipe_open_by_id id w).
Proof. unfold pipe_open_by_id. kern. Qed.
Lemma keeps_pipe_drop_end G h i w : keeps G (ok h) (pipe_drop_end i w).
Proof. unfold pipe_drop_end. kern. Qed.
Lemma keeps_pipe_destroy G i : keeps G (ok None) (pipe_destroy i).
Proof. unfold pipe_destroy. kern. Qed.
#[local] Hint Resolve keeps_pipe_create keeps_pipe_open keeps_pipe_drop_end keeps_pipe_destroy : keeps.
Lemma keeps_pipe_close id w : keeps (ok None) (ok None) (pipe_close_by_id id w).
Proof. unfold pipe_close_by_id. kern. Qed.
#[local] Hint Resolve keeps_pipe_close : keeps.

Lemma keeps_pipe_read_step i buffer count n : keeps (ok None) (ok None) (pipe_read_step i buffer count n).
Proof.
  unfold pipe_read_step. destruct (negb _); [apply keeps_ret|].
  eapply leads_bind; [apply keeps_pipe_load|]. intros x. eapply leads_bind; [apply keeps_sem_wait|]. intros r.
  destruct (r =? 0); [apply keeps_ret|]. clear x. apply leads_pipe_load_bind. intros x Hx.
  destruct (_ && _); [apply leads_moving_ok; [done|kern]|].
  destruct (Z.gtb_spec (pipe_count x) 0) as [Hn|]; [|apply leads_moving_ok; [done|kern]].
  apply leads_moving_mstore. do 2 apply leads_moving_store. apply leads_moving_ok; [apply pipe_ok_pop; [done|lia]|kern].
Qed.
Lemma keeps_pipe_write_step i buffer count n : keeps (ok None) (ok None) (pipe_write_step i buffer count n).
Proof.
  unfold pipe_write_step. destruct (negb _); [apply keeps_ret|].
  eapply leads_bind; [apply keeps_pipe_load|]. intros x. eapply leads_bind; [apply keeps_sem_wait|]. intros r.
  destruct (r =? 0); [apply keeps_ret|]. clear x. apply leads_pipe_load_bind. intros x Hx.
  destruct (pipe_readers x =? 0); [apply leads_moving_ok; [done|kern]|].
  destruct (Z.ltb_spec (pipe_count x) PIPE_BUFFER_SIZE) as [Hn|]; [|apply leads_moving_ok; [done|kern]].
  apply leads_moving_mload. intros c. do 3 apply leads_moving_store. apply leads_moving_ok; [by apply pipe_ok_push|kern].
Qed.
#[local] Hint Resolve keeps_pipe_read_step keeps_pipe_write_step : keeps.
Lemma keeps_pipe_read wakeups p buffer count : keeps (ok None) (ok None) (pipe_read wakeups p buffer count).
Proof. unfold pipe_read. kern. Qed.
Lemma keeps_pipe_write wakeups p buffer count : keeps (ok None) (ok None) (pipe_write wakeups p buffer count).
Proof. unfold pipe_write. kern. Qed.
#[local] Hint Resolve keeps_pipe_read keeps_pipe_write : keeps.

(** ** Control blocks *)

Lemma keeps_copy_name G h p name : keeps G (ok h) (copy_name p name).
Proof.
  unfold copy_name. eapply leads_bind; [apply keeps_gets|]. intros m. apply keeps_pstore.
  intros b [? ? ? Hn]. split; [done..|]. rewrite <- Hn. apply copied_name_length.
Qed.
Lemma keeps_setup_context G h top ep a : keeps G (ok h) (setup_process_context top ep a).
Proof. unfold setup_process_context. kern. Qed.
Lemma keeps_attach_child G h p parent : keeps G (ok h) (attach_child p parent).
Proof. unfold attach_child. kern. Qed.
#[local] Hint Resolve keeps_copy_name keeps_setup_context keeps_attach_child keeps_next_pid keeps_new_block keeps_delete_block : keeps.
Lemma keeps_init_block G h p st name ep a fg : keeps G (ok h) (init_block p st name ep a fg).
Proof. unfold init_block. kern. Qed.
Lemma keeps_open_std p i id w t : keeps (ok None) (ok None) (open_std p i id w t).
Proof. unfold open_std. kern. Qed.
Lemma keeps_inherit_fd p parent a b i : keeps (ok None) (ok None) (inherit_fd p parent a b i).
Proof. unfold inherit_fd. kern. Qed.
#[local] Hint Resolve keeps_init_block keeps_open_std keeps_inherit_fd : keeps.
Lemma keeps_process_create name ep a parent fg i o : keeps (ok None) (ok None) (process_create name ep a parent fg i o).
Proof. unfold process_create. kern. Qed.
Lemma keeps_close_fd p i : keeps (ok None) (ok None) (close_fd p i).
Proof. unfold close_fd. kern. Qed.
Lemma keeps_detach_from_parent G h p : keeps G (ok h) (detach_from_parent p).
Proof. unfold detach_from_parent. kern. Qed.
#[local] Hint Resolve keeps_process_create keeps_close_fd keeps_detach_from_parent : keeps.
Lemma keeps_close_fds p : keeps (ok None) (ok None) (process_close_fds p).
Proof. unfold process_close_fds. kern. Qed.
Lemma keeps_process_destroy p : keeps (ok None) (ok None) (process_destroy p).
Proof. unfold process_destroy. kern. Qed.
#[local] Hint Resolve keeps_close_fds keeps_process_destroy : keeps.

(** ** The keyboard *)

Lemma keeps_buffer_push G h c : keeps G (ok h) (buffer_push c).
Proof.
  intros s Hs. unfold buffer_push, buffer_full, gets_kbd, gets, mbind, M_bind. cbn [obind].
  destruct (Z.eqb_spec (kb_size (k_kbd s)) BUFFER_SIZE) as [|Hne]; [done|].
  destruct Hs as [? ? ? ? Hk ?]. split; [done..| |done]. exact (kbd_ok_push _ c Hk Hne).
Qed.
Lemma keeps_buffer_pop G h : keeps G (ok h) buffer_pop.
Proof.
  intros s Hs. unfold buffer_pop, buffer_empty, gets_kbd, gets, mbind, M_bind. cbn [obind].
  destruct (Z.eqb_spec (kb_size (k_kbd s)) 0) as [|Hne]; [done|].
  destruct Hs as [? ? ? ? Hk ?]. split; [done..| |done]. exact (kbd_ok_pop _ Hk Hne).
Qed.
Lemma keeps_buffer_clear G h : keeps G (ok h) buffer_clear.
Proof. apply keeps_modify_kbd. intros k [? ? ?]. by split. Qed.
Lemma keeps_updateFlags G h c : keeps G (ok h) (updateFlags c).
Proof.
  apply keeps_modify_kbd. intros k [? ? ?]. unfold update_flags. repeat (destruct (_ : bool); [by split|]). by split.
Qed.
Lemma keeps_record_key G h c : 0 <= c < 256 -> keeps G (ok h) (modify_kbd (record_key c)).
Proof. intros Hc. apply keeps_modify_kbd. intros k. by apply kbd_ok_record. Qed.
#[local] Hint Resolve keeps_buffer_push keeps_buffer_pop keeps_buffer_clear keeps_updateFlags keeps_record_key : keeps.
Lemma keeps_set_kbd_sem G h i : keeps G (ok h) (modify_kbd (fun k => k <| kbd_sem_id := i |>)).
Proof. apply keeps_modify_kbd. intros k [? ? ?]. by split. Qed.
#[local] Hint Resolve keeps_set_kbd_sem : keeps.
Lemma keeps_keyboard_init G : keeps G (ok None) keyboard_init.
Proof. unfold keyboard_init. kern. Qed.
Lemma keeps_wait_for_char n : keeps (ok None) (ok None) (keyboard_wait_for_char n).
Proof. unfold keyboard_wait_for_char, keyboard_wait_step, buffer_empty. kern. Qed.
Lemma keeps_clear_buffer G : keeps G (ok None) keyboard_clear_buffer.
Proof. unfold keyboard_clear_buffer. kern. Qed.
Lemma keeps_push_and_signal G c : keeps G (ok None) (push_and_signal c).
Proof. unfold push_and_signal. kern. Qed.
#[local] Hint Resolve keeps_keyboard_init keeps_wait_for_char keeps_clear_buffer keeps_push_and_signal : keeps.

(** ** The scheduler and the interrupts *)

Lemma keeps_walk_fuel G h : keeps G (ok h) walk_fuel.
Proof. apply keeps_gets. Qed.
#[local] Hint Resolve keeps_walk_fuel keeps_timer_handler : keeps.
Lemma keeps_apply_aging G h : keeps G (ok h) apply_aging.
Proof. unfold apply_aging, age_queue, aging_step. kern. Qed.
Lemma keeps_return_foreground G h p : keeps G (ok h) (return_foreground p).
Proof. unfold return_foreground. kern. Qed.
Lemma keeps_wake_waiters G h p : keeps G (ok h) (wake_waiters p).
Proof. unfold wake_waiters, wake_waiter. kern. Qed.
#[local] Hint Resolve keeps_apply_aging keeps_return_foreground keeps_wake_waiters : keeps.
Lemma keeps_save_context G p rsp : keeps G (ok None) (save_context p rsp).
Proof. unfold save_context. kern. Qed.
Lemma keeps_init_scheduler : keeps (ok None) (ok None) init_scheduler.
Proof.
  unfold init_scheduler, process_system_init. apply (leads_bind _ _ (ok None)); [apply leads_modify; intros s [? ? ? ? ? ?]; by split|].
  kern.
Qed.
Lemma keeps_collect n : keeps (ok None) (ok None) (collect n).
Proof. induction n as [|n IH]; simpl; [apply keeps_ret|]. unfold scheduler_collect_finished. kern. Qed.
#[local] Hint Resolve keeps_save_context keeps_init_scheduler keeps_collect : keeps.
Lemma keeps_switch_to_next now : keeps (ok None) (ok None) (switch_to_next now).
Proof. unfold switch_to_next. kern. Qed.
#[local] Hint Resolve keeps_switch_to_next : keeps.
Lemma keeps_schedule rsp : keeps (ok None) (ok None) (schedule rsp).
Proof. unfold schedule, peek_highest, priorities_down. kern. Qed.
Lemma keeps_spawn name ep a parent pr fg i o :
  keeps (ok None) (ok None) (scheduler_spawn_process name ep a parent pr fg i o).
Proof. unfold scheduler_spawn_process. kern. Qed.
Lemma keeps_finish_current : keeps (ok None) (ok None) scheduler_finish_current.
Proof. unfold scheduler_finish_current. kern. Qed.
Lemma keeps_find_by_pid G h pid : keeps G (ok h) (scheduler_find_by_pid pid).
Proof. unfold scheduler_find_by_pid, find_in_queues, find_in_queue, pid_step. kern. Qed.
#[local] Hint Resolve keeps_schedule keeps_spawn keeps_finish_current keeps_find_by_pid : keeps.
Lemma keeps_unblock_by_pid G h pid : keeps G (ok h) (scheduler_unblock_by_pid pid).
Proof. unfold scheduler_unblock_by_pid. kern. Qed.
Lemma keeps_kill_by_pid pid : keeps (ok None) (ok None) (scheduler_kill_by_pid pid).
Proof. unfold scheduler_kill_by_pid. kern. Qed.
Lemma keeps_set_priority G h pid pr : keeps G (ok h) (scheduler_set_priority pid pr).
Proof. unfold scheduler_set_priority. kern. Qed.
Lemma keeps_block_by_pid G h pid : keeps G (ok h) (scheduler_block_by_pid pid).
Proof. unfold scheduler_block_by_pid. kern. Qed.
Lemma keeps_list_all G h buffer n : keeps G (ok h) (scheduler_list_all_processes buffer n).
Proof. unfold scheduler_list_all_processes, list_queue, list_step, add_process_to_list, update_current. kern. Qed.
Lemma keeps_foreground_pid G h : keeps G (ok h) scheduler_get_foreground_pid.
Proof. unfold scheduler_get_foreground_pid, foreground_in, foreground_step. kern. Qed.
#[local] Hint Resolve keeps_unblock_by_pid keeps_kill_by_pid keeps_set_priority keeps_block_by_pid keeps_list_all
  keeps_foreground_pid : keeps.
Lemma keeps_keyboard_interrupt c : 0 <= c < 256 -> keeps (ok None) (ok None) (keyboard_interrupt_handler c).
Proof. intros Hc. unfold keyboard_interrupt_handler, scToAscii. kern. Qed.
#[local] Hint Resolve keeps_keyboard_interrupt : keeps.
Lemma keeps_irqDispatcher irq c : 0 <= c < 256 -> keeps (ok None) (ok None) (irqDispatcher irq c).
Proof. intros Hc. unfold irqDispatcher, int_20, int_21. kern. Qed.
Lemma keeps_irq00 rsp : keeps (ok None) (ok None) (irq00 rsp).
Proof. unfold irq00. kern. Qed.

(** ** System calls *)

Context (Hgrid : grid_mode mode scale cols rows) (wakeups : nat).

Lemma keeps_on_putChar h c fg bg : keeps (ok h) (ok h) (on_video (video_putChar c fg bg)).
Proof. apply keeps_on_video. by apply keeps_putChar. Qed.
Lemma keeps_on_clear h : keeps (ok h) (ok h) (on_video video_clearScreen).
Proof. apply keeps_on_video. by apply keeps_fill_screen. Qed.
Lemma keeps_on_size h (f : vbe_mode_info -> Z) : keeps (ok h) (ok h) (on_video (gets (fun v => f (VBEModeInfo v)))).
Proof. apply keeps_on_video, keeps_gets. Qed.
#[local] Hint Resolve keeps_on_putChar keeps_on_clear keeps_on_size : keeps.

Lemma keeps_syscall_read fd buffer n : keeps (ok None) (ok None) (syscall_read wakeups fd buffer n).
Proof. unfold syscall_read, read_char_step, keyboard_read_getchar. kern. Qed.
Lemma keeps_syscall_write fd buffer n : keeps (ok None) (ok None) (syscall_write wakeups fd buffer n).
Proof. unfold syscall_write. kern. Qed.
Lemma keeps_take_foreground G h p q : keeps G (ok h) (take_foreground p q).
Proof. unfold take_foreground. kern. Qed.
Lemma keeps_fd_on_pipe G h p id i : keeps G (ok h) (fd_on_pipe p id i).
Proof. unfold fd_on_pipe. kern. Qed.
Lemma keeps_close_entry e : keeps (ok None) (ok None) (close_entry e).
Proof. unfold close_entry. kern. Qed.
#[local] Hint Resolve keeps_syscall_read keeps_syscall_write keeps_take_foreground keeps_fd_on_pipe keeps_close_entry : keeps.
Lemma keeps_syscall_create name f argv pr fg : keeps (ok None) (ok None) (syscall_create_process name f argv pr fg).
Proof. unfold syscall_create_process. kern. Qed.
Lemma keeps_syscall_wait pid : keeps (ok None) (ok None) (syscall_wait pid).
Proof. unfold syscall_wait. kern. Qed.
Lemma keeps_syscall_pipe_dup id fd m : keeps (ok None) (ok None) (syscall_pipe_dup id fd m).
Proof. unfold syscall_pipe_dup. kern. Qed.
Lemma keeps_syscall_release_fd fd : keeps (ok None) (ok None) (syscall_pipe_release_fd fd).
Proof. unfold syscall_pipe_release_fd. kern. Qed.
Lemma keeps_syscall_pipe_close id : keeps (ok None) (ok None) (syscall_pipe_close id).
Proof. unfold syscall_pipe_close. kern. Qed.
#[local] Hint Resolve keeps_syscall_create keeps_syscall_wait keeps_syscall_pipe_dup keeps_syscall_release_fd
  keeps_syscall_pipe_close : keeps.

Lemma keeps_handlers :
  Forall (fun f => forall a b c d e, keeps (ok None) (ok None) (f a b c d e)) (syscallHandlers wakeups).
Proof.
  unfold syscallHandlers. repeat (apply Forall_cons; split; [|]); [..|apply Forall_nil; done]; intros a b c d e;
    unfold syscall_clearScreen, syscall_sleep, sleep_step, syscall_video_putChar, syscall_shutdown, syscall_get_screen_dimensions,
      video_get_width, video_get_height, syscall_malloc, syscall_free, syscall_meminfo, syscall_kill, syscall_block, syscall_unblock,
      syscall_get_type_of_mm, syscall_getpid, syscall_set_priority, syscall_sem_create, syscall_sem_open, syscall_sem_close,
      syscall_sem_wait, syscall_sem_signal, syscall_sem_set, syscall_sem_get, syscall_list_processes, syscall_yield,
      syscall_pipe_create, syscall_pipe_open, syscall_get_foreground_pid; kern.
Qed.
Lemma keeps_dispatcher rdi rsi rdx r10 r8 rax :
  keeps (ok None) (ok None) (syscallDispatcher wakeups rdi rsi rdx r10 r8 rax).
Proof.
  unfold syscallDispatcher. destruct (_ >=? _); [apply keeps_ret|].
  destruct (syscallHandlers wakeups !! Z.to_nat rax) as [f|] eqn:E; [|apply leads_fault].
  by apply (Forall_lookup_1 _ _ _ _ keeps_handlers E).
Qed.
End Keeps.
