(* ===== verification/KeyboardTheorems.v ===== *)
(** * What the keyboard promises

    The buffer of typed characters is a queue of at most 256; a key press puts
    its character at the end of it and wakes the process that has waited longest;
    a process in the foreground reads a line from its front. *)
From S2P Require Import Prelude LinkedList Ring CLib MmInterface MmSimple KState ProcQueue SchedCore QueueFacts SchedView QueueTheorems Semaphore Pipe Process Keyboard Scheduler Syscalls SchedFacts SemFacts SemTheorems.

Definition typed (k : keyboard) : list Z := ring BUFFER_SIZE (kb_buffer k) (kb_readIndex k) (kb_size k).
Definition kb_wf (k : keyboard) : Prop := ring_wf BUFFER_SIZE (kb_readIndex k) (kb_writeIndex k) (kb_size k).

(** What a push, a pop and a reset make of the driver. *)
Definition pushed (c : Z) (k : keyboard) : keyboard :=
  k <| kb_buffer ::= <[kb_writeIndex k := c]> |> <| kb_writeIndex ::= fun w => (w + 1) mod BUFFER_SIZE |>
    <| kb_size ::= fun n => n + 1 |>.
Definition popped (k : keyboard) : keyboard :=
  k <| kb_readIndex ::= fun r => (r + 1) mod BUFFER_SIZE |> <| kb_size ::= fun n => n - 1 |>.
Definition cleared (k : keyboard) : keyboard :=
  k <| kb_readIndex := 0 |> <| kb_writeIndex := 0 |> <| kb_size := 0 |>.

Lemma typed_length k : kb_wf k -> Z.of_nat (length (typed k)) = kb_size k.
Proof. intros (_ & Hn & _). unfold typed. rewrite ring_length. lia. Qed.
Lemma typed_pushed k c : kb_wf k -> kb_size k < BUFFER_SIZE -> kb_wf (pushed c k) /\ typed (pushed c k) = typed k ++ [c].
Proof. intros Hk Hlt. by apply (ring_push BUFFER_SIZE ltac:(done)). Qed.
Lemma typed_popped k : kb_wf k -> 0 < kb_size k ->
  kb_wf (popped k) /\ typed k = default 0 (kb_buffer k !! kb_readIndex k) :: typed (popped k).
Proof. intros Hk Hlt. by apply (ring_pop BUFFER_SIZE ltac:(done) _ _ (kb_writeIndex k)). Qed.
Lemma typed_cleared k : kb_wf (cleared k) /\ typed (cleared k) = [].
Proof. done. Qed.

Section Buffer.
Context {MM : Type}.
Implicit Types (s t : kstate MM).

Lemma buffer_push_spec s c (Q : bool -> kstate MM -> Prop) :
  (if kb_size (k_kbd s) =? BUFFER_SIZE then Q false s else Q true (s <| k_kbd ::= pushed c |>)) ->
  runs (buffer_push c) s Q.
Proof.
  intros HQ. apply runs_bind, runs_gets. destruct (_ =? _); [by apply runs_ret|].
  do 3 apply runs_bind, runs_modify. by apply runs_ret.
Qed.

Lemma buffer_pop_spec s (Q : Z -> kstate MM -> Prop) :
  (if kb_size (k_kbd s) =? 0 then Q 0 s
   else Q (default 0 (kb_buffer (k_kbd s) !! kb_readIndex (k_kbd s))) (s <| k_kbd ::= popped |>)) ->
  runs buffer_pop s Q.
Proof.
  intros HQ. apply runs_bind, runs_gets. destruct (_ =? _); [by apply runs_ret|].
  apply runs_bind, runs_gets. do 2 apply runs_bind, runs_modify. by apply runs_ret.
Qed.

Lemma buffer_clear_spec s (Q : unit -> kstate MM -> Prop) : Q tt (s <| k_kbd ::= cleared |>) -> runs buffer_clear s Q.
Proof. intros HQ. by apply runs_modify. Qed.

(** ** The buffer as a bounded queue *)

Inductive kb_op := KPush (c : Z) | KPop | KClear.
Definition run_kb_op (o : kb_op) : M (kstate MM) Z :=
  match o with
  | KPush c => b ← buffer_push c; mret (cbool b)
  | KPop => keyboard_read_getchar
  | KClear => buffer_clear ;; mret 0
  end.
Fixpoint run_kb_ops (os : list kb_op) : M (kstate MM) (list Z) :=
  match os with [] => mret [] | o :: os => r ← run_kb_op o; rs ← run_kb_ops os; mret (r :: rs) end.
Definition spec_kb_op (o : kb_op) (l : list Z) : Z * list Z :=
  match o with
  | KPush c => if Z.of_nat (length l) <? BUFFER_SIZE then (1, l ++ [c]) else (0, l)
  | KPop => match l with [] => (0, []) | c :: l' => (c, l') end
  | KClear => (0, [])
  end.
Fixpoint spec_kb_ops (os : list kb_op) (l : list Z) : list Z * list Z :=
  match os with
  | [] => ([], l)
  | o :: os => let '(r, l) := spec_kb_op o l in let '(rs, l) := spec_kb_ops os l in (r :: rs, l)
  end.

Lemma run_kb_op_spec o s : kb_wf (k_kbd s) ->
  runs (run_kb_op o) s (fun r s' => exists k, s' = s <| k_kbd := k |> /\ kb_wf k /\
    (r, typed k) = spec_kb_op o (typed (k_kbd s))).
Proof.
  intros Hk. pose proof (typed_length _ Hk) as El. pose proof Hk as (_ & Hn & _). destruct o as [c| |]; simpl.
  - apply runs_bind, buffer_push_spec. rewrite El. destruct (Z.eqb_spec (kb_size (k_kbd s)) BUFFER_SIZE) as [E|E].
    + apply runs_ret. exists (k_kbd s). rewrite E. split; [by destruct s|]. done.
    + apply runs_ret. eexists. split; [reflexivity|]. rewrite (proj2 (Z.ltb_lt _ _)) by lia.
      destruct (typed_pushed (k_kbd s) c Hk) as [? <-]; [lia|done].
  - apply buffer_pop_spec. destruct (Z.eqb_spec (kb_size (k_kbd s)) 0) as [E|E].
    + exists (k_kbd s). split; [by destruct s|]. split; [done|]. rewrite E in El. by destruct (typed (k_kbd s)).
    + eexists. split; [reflexivity|]. destruct (typed_popped (k_kbd s) Hk) as [Hk' ->]; [lia|done].
  - apply runs_bind, buffer_clear_spec, runs_ret. eexists. split; [reflexivity|]. done.
Qed.

(** C32: the keyboard buffer is a queue of at most 256 characters.  Any sequence
    of pushes, pops and resets returns what it returns on a list (a push into a
    full buffer is refused, a pop of an empty one gives 0), leaves a buffer that
    holds that list, oldest first, and touches nothing but the driver. *)
Theorem keyboard_buffer_fifo os s :
  kb_wf (k_kbd s) ->
  runs (run_kb_ops os) s (fun rs s' => exists k, s' = s <| k_kbd := k |> /\ kb_wf k /\
    (rs, typed k) = spec_kb_ops os (typed (k_kbd s)) /\ Z.of_nat (length (typed k)) <= BUFFER_SIZE).
Proof.
  revert s. induction os as [|o os IH]; intros s Hk; cbn [run_kb_ops spec_kb_ops].
  - apply runs_ret. exists (k_kbd s). rewrite typed_length by done. split_and!; [by destruct s|done|done|destruct Hk as (_ & ? & _); lia].
  - apply runs_bind. eapply runs_mono; [by apply run_kb_op_spec|]. intros r s1 (k1 & -> & Hk1 & <-).
    apply runs_bind. eapply runs_mono; [by apply IH|]. intros rs s2 (k2 & -> & Hk2 & E & Hlen).
    apply runs_ret. exists k2. cbn in E. rewrite <- E. done.
Qed.
End Buffer.

Lemma keyboard_buffer_fifo_witness :
  runs (run_kb_ops [KPush 97; KPush 98; KPop; KPush 10; KPop; KPop; KPop; KPush 99; KClear; KPop])
    (kernel_boot tt demo_mode) (fun rs s' => rs = [1; 1; 97; 1; 98; 10; 0; 1; 0; 0] /\ typed (k_kbd s') = []).
Proof.
  eapply runs_mono; [apply keyboard_buffer_fifo; by repeat split|].
  intros rs s' (k & -> & _ & E & _). cbn in E |- *. by injection E.
Defined.

(** ** Characters *)

(** C33: a key gives a character or nothing.  Whatever the flags are, the code of
    [scToAscii] is a 7-bit character and never the end-of-file mark; a key with a
    lower-case letter gives that letter, or its capital when Shift is held or Caps
    Lock is on; and the release of a key gives nothing. *)
Theorem sc_to_ascii_letters k scancode :
  0 <= scancode < 256 ->
  0 <= sc_to_ascii k scancode < 128 /\ sc_to_ascii k scancode <> 0x04 /\
  (KEY_COUNT <= scancode -> sc_to_ascii k scancode = 0) /\
  (97 <= scancode_char scancode 0 <= 122 ->
   sc_to_ascii k scancode =
     if ctrue (activeShift k) || ctrue (activeCapsLock k) then scancode_char scancode 0 - 32 else scancode_char scancode 0).
Proof.
  intros Hs. unfold sc_to_ascii, ctrue, scancode_char.
  assert (scancode ∈ seqZ 0 256) as Hin by (apply elem_of_seqZ; lia). clear Hs.
  destruct (activeShift k =? 0), (activeCapsLock k =? 0); cbn [negb orb]; revert scancode Hin; apply Forall_forall;
    apply (bool_decide_unpack _); vm_compute; exact I.
Qed.

Lemma sc_to_ascii_letters_witness :
  sc_to_ascii (mk_keyboard 0 1 0 ∅ ∅ 0 0 0 0) 0x1E = 65.
Proof. apply (sc_to_ascii_letters (mk_keyboard 0 1 0 ∅ ∅ 0 0 0 0) 0x1E); vm_compute; split; congruence. Defined.

(** The key of the closing bracket has the scan code that the driver takes for
    Escape: it gives nothing. *)
Lemma bracket_key_is_mute k : scancode_char 0x1B 0 = 93 /\ sc_to_ascii k 0x1B = 0.
Proof. done. Qed.

(** ** A key press *)

Section Interrupt.
Context {MM : Type}.
Implicit Types (s t : kstate MM) (L : qref -> list Z) (W : nat -> list Z).

Lemma shows_set_kbd s L t f : shows s L t -> shows (s <| k_kbd ::= f |>) L (t <| k_kbd ::= f |>).
Proof. intros [Hq <-]. split; [by eapply queues_ext; [..|exact Hq]|done]. Qed.

Lemma shows_kbd s L t f (Q : unit -> kstate MM -> Prop) :
  shows s L t -> (forall s', shows s' L (t <| k_kbd ::= f |>) -> Q tt s') -> runs (modify_kbd f) s Q.
Proof. intros Hs HQ. unfold modify_kbd. by eapply shows_modify; [exact Hs|..]. Qed.

Lemma kbd_twice t f g : t <| k_kbd ::= f |> <| k_kbd ::= g |> = t <| k_kbd ::= fun k => g (f k) |>.
Proof. done. Qed.
Lemma sched_ok_kbd t L f : sched_ok t L -> sched_ok (t <| k_kbd ::= f |>) L.
Proof. by intros []. Qed.

Lemma shows_buffer_push s L t c (Q : bool -> kstate MM -> Prop) :
  shows s L t -> kb_size (k_kbd t) < BUFFER_SIZE ->
  (forall s', shows s' L (t <| k_kbd ::= pushed c |>) -> Q true s') -> runs (buffer_push c) s Q.
Proof.
  intros Hs Hlt HQ. unfold buffer_push, buffer_full, gets_kbd. apply runs_bind.
  eapply shows_gets; [exact Hs|done|]. rewrite (proj2 (Z.eqb_neq _ _)) by lia.
  apply runs_bind. eapply shows_kbd; [exact Hs|]. intros s1 H1.
  apply runs_bind. eapply shows_kbd; [exact H1|]. intros s2 H2.
  apply runs_bind. eapply shows_kbd; [exact H2|]. intros s3 H3. by apply runs_ret, HQ.
Qed.

(** The driver once it has noted the key, and the character of the key. *)
Definition noted (scancode : Z) (k : keyboard) : keyboard := record_key scancode (update_flags scancode k).
Definition key_char (scancode : Z) (k : keyboard) : Z := sc_to_ascii (noted scancode k) scancode.

Lemma noted_buffer sc k : typed (noted sc k) = typed k /\ kb_size (noted sc k) = kb_size k /\
  kbd_sem_id (noted sc k) = kbd_sem_id k /\ (kb_wf (noted sc k) <-> kb_wf k).
Proof. unfold noted, record_key, update_flags. repeat case_match; done. Qed.

(** The keyboard's handler up to the signal. *)
Lemma key_press_spec s L t W scancode i x (Q : unit -> kstate MM -> Prop) :
  let k := k_kbd t in
  let c := key_char scancode k in
  let t2 := t <| k_kbd ::= fun k => pushed c (noted scancode k) |> in
  shows s L t -> sched_ok t L -> sems_ok t W -> kb_wf k -> kb_size k < BUFFER_SIZE ->
  c <> 0 -> activeCtrl (noted scancode k) = 0 -> slot_of t (kbd_sem_id k) = Some i -> k_sems t !! i = Some x ->
  (forall s2, shows s2 L t2 -> sched_ok t2 L -> sems_ok t2 W -> kb_wf (k_kbd t2) -> typed (k_kbd t2) = typed k ++ [c] ->
     runs (sem_signal_by_id (kbd_sem_id k)) s2 (fun _ s' => Q tt s')) ->
  runs (keyboard_interrupt_handler scancode) s Q.
Proof.
  intros k c t2 Hs Hso Hse Hk Hlt Hc Hctrl Hslot Hx HQ.
  destruct (noted_buffer scancode k) as (Et & Esz & Eid & Ewf).
  unfold keyboard_interrupt_handler, updateFlags. apply runs_bind. eapply shows_kbd; [exact Hs|]. intros s1 H1.
  apply runs_bind. eapply shows_kbd; [exact H1|]. rewrite kbd_twice. clear s1 H1. intros s1 H1.
  apply runs_bind. unfold scToAscii, gets_kbd. eapply shows_gets; [exact H1|done|].
  apply runs_bind. eapply shows_gets; [exact H1|done|].
  change (activeCtrl (k_kbd (t <| k_kbd ::= _ |>))) with (activeCtrl (noted scancode k)).
  change (sc_to_ascii (k_kbd (t <| k_kbd ::= _ |>)) scancode) with c. rewrite Hctrl. cbn [ctrue negb Z.eqb andb].
  unfold ctrue at 1. rewrite (proj2 (Z.eqb_neq c 0) Hc). cbn [negb]. unfold push_and_signal.
  change (t <| k_kbd ::= _ |>) with (t <| k_kbd ::= noted scancode |>) in H1.
  apply runs_bind. eapply shows_buffer_push; [exact H1|change (kb_size (noted scancode k) < BUFFER_SIZE); lia|].
  rewrite kbd_twice. intros s2 H2. change (shows s2 L t2) in H2.
  destruct (typed_pushed (noted scancode k) c) as [Hk2 Et2]; [tauto|lia|].
  apply runs_bind. unfold gets_kbd. eapply shows_gets; [exact H2|done|].
  change (kbd_sem_id (k_kbd t2)) with (kbd_sem_id (noted scancode k)). rewrite Eid.
  assert (kbd_sem_id k <> 0) as Hid.
  { intros E. rewrite E in Hslot. unfold slot_of in Hslot. by rewrite Z.eqb_refl in Hslot. }
  unfold ctrue. rewrite (proj2 (Z.eqb_neq _ 0) Hid). cbn [negb when].
  apply runs_bind. eapply runs_mono; [apply HQ; [exact H2|by apply sched_ok_kbd|by eapply sems_ok_frame; [..|exact Hse]|exact Hk2|]|].
  - change (typed (pushed c (noted scancode k)) = typed k ++ [c]). by rewrite Et2, Et.
  - intros r s' K. by apply runs_ret.
Qed.

(** C34: a key press reaches the process that waits for it.  When the buffer has
    room, Control is not held and the key has a character, the interrupt handler puts
    the character behind what was typed, and signals the semaphore of the keyboard.
    If processes wait for a key, the one that has waited longest becomes ready, at the
    tail of the ready queue of its priority and off the blocked queue, the others
    keep their order and the unit is handed over; if none waits, the queues are as
    they were and a unit is left for the next reader.  The invariants of the
    scheduler and the semaphores hold after it. *)
Theorem key_press_reaches_reader s L t W scancode i x :
  let k := k_kbd t in
  let c := key_char scancode k in
  shows s L t -> sched_ok t L -> sems_ok t W -> kb_wf k -> kb_size k < BUFFER_SIZE ->
  c <> 0 -> activeCtrl (noted scancode k) = 0 ->
  slot_of t (kbd_sem_id k) = Some i -> k_sems t !! i = Some x -> sem_value x < INT_MAX ->
  runs (keyboard_interrupt_handler scancode) s (fun _ s' => exists L' t' x',
    shows s' L' t' /\ sched_ok t' L' /\ kb_wf (k_kbd t') /\ typed (k_kbd t') = typed k ++ [c] /\ k_sems t' !! i = Some x' /\
    match W i with
    | [] => L' = L /\ sems_ok t' W /\ sem_value x' = sem_value x + 1 /\ k_procs t' = k_procs t
    | w :: ws => exists b b', k_procs t !! w = Some b /\ k_procs t' !! w = Some b' /\
        p_state b' = PROCESS_STATE_READY /\ p_waiting_on_sem b' = 0 /\ sem_value x' = sem_value x /\ sems_ok t' (updW W i ws) /\
        let pr := clamp_priority (p_priority b) in
        L' = upd (upd L Blocked (without w (L Blocked))) (Ready pr) (L (Ready pr) ++ [w])
    end).
Proof.
  intros k c Hs Hso Hse Hk Hlt Hc Hctrl Hslot Hx Hv.
  eapply (key_press_spec s L t W scancode i x); [done..|]. fold k c. set (t2 := t <| k_kbd ::= _ |>). intros s2 H2 Hso2 Hse2 Hk2 Et2.
  destruct (W i) as [|w ws] eqn:HW.
  - eapply (signal_frees s2 L t2 W _ i x); [exact H2|exact Hse2|exact Hslot|exact Hx|exact HW|done|]. intros s' t' H' Hse'.
    eexists L, t', _. split_and!; [exact H'| |exact Hk2|exact Et2|apply list_lookup_insert_eq; by eapply lookup_lt_Some|done|exact Hse'|done|done].
    eapply wframe_ok; [|exact Hso2]. apply wframe_sems.
  - destruct (sk_blocked _ _ Hse i w) as (b & Hb & _); [rewrite HW; by left|].
    eapply (signal_wakes s2 L t2 W _ i x w ws b); [exact H2|exact Hso2|exact Hse2|exact Hslot|exact Hx|exact HW|exact Hb|].
    intros s' t' b' H' Hso' Hse' [(x' & Es & Ev & _) Er _ _] Hb' Hst Hws. eexists _, t', x'.
    assert (k_kbd t' = k_kbd t2) as Ek by by rewrite Er.
    split; [exact H'|]. rewrite Ek. split_and!; [done|done|done| |].
    + rewrite Es. apply list_lookup_insert_eq. by eapply lookup_lt_Some.
    + exists b, b'. by split_and!.
Qed.
End Interrupt.

(** In the system of [SemTheorems] the semaphore 1 is the keyboard's: 0x3000
    waits for a key, and the key of the letter A comes. *)
Lemma key_press_reaches_reader_witness :
  runs (keyboard_interrupt_handler 0x1E)
    (demo_sem <| k_kbd ::= fun k => k <| kbd_sem_id := 1 |> |>) (fun _ s' => exists L' t' b',
    shows s' L' t' /\ typed (k_kbd t') = [97] /\ k_procs t' !! 0x3000 = Some b' /\ p_state b' = PROCESS_STATE_READY).
Proof.
  eapply runs_mono.
  - eapply (key_press_reaches_reader _ demo_blocked
      (strip demo_sem_start <| k_kbd ::= fun k => k <| kbd_sem_id := 1 |> |>) demo_waiters 0x1E 0%nat
      (mk_sem 1 0 1 0 0x3000 0x3000 true)); try reflexivity.
    + apply shows_set_kbd, demo_sem_shows.
    + apply sched_ok_kbd, demo_sem_sched_ok.
    + apply (sems_ok_frame (strip demo_sem_start)); [reflexivity|reflexivity|exact demo_sems_ok].
    + by repeat split.
    + vm_compute. discriminate.
  - intros _ s' (L' & t' & x' & Hs & _ & _ & Et & _ & K). change (demo_waiters 0%nat) with [0x3000] in K.
    destruct K as (b & b' & _ & Hb' & Est & _). exists L', t', b'. done.
Defined.

(** ** Reading a line from the terminal *)

(** What is taken from the characters [l] for a request of [n], and what is left:
    up to and with the first line feed, up to an end-of-file mark, which is
    dropped.  [None]: the reader has to wait for more. *)
Fixpoint take_line (n : nat) (l : list Z) : option (list Z * list Z) :=
  match n, l with
  | O, _ => Some ([], l)
  | _, [] => None
  | S n', c :: l' =>
      if c =? 0x04 then Some ([], l') else
      if c =? 10 then Some ([c], l') else
      match take_line n' l' with Some (got, rest) => Some (c :: got, rest) | None => None end
  end.

Section Read.
Context {MM : Type}.
Context (wakeups : nat).
Implicit Types (s : kstate MM).

Lemma read_chars_spec buffer count : forall n fuel s read l got rest (Q : Z -> kstate MM -> Prop),
  Z.of_nat n = count - read -> (n < fuel)%nat -> kb_wf (k_kbd s) -> typed (k_kbd s) = l -> 0 ∉ l ->
  take_line n l = Some (got, rest) ->
  (forall k, kb_wf k -> typed k = rest ->
     Q (read + Z.of_nat (length got)) (s <| k_kbd := k |> <| k_mem ::= store_bytes (buffer + read) got |>)) ->
  runs (while_fuel fuel (read_char_step wakeups buffer count) read) s Q.
Proof.
  induction n as [|n IH]; intros [|fuel] s read l got rest Q En Hf Hk El Hl0 Et HQ; try lia; cbn [while_fuel];
    apply runs_bind; unfold read_char_step at 1.
  - rewrite (proj2 (Z.ltb_ge read count)) by lia. apply runs_ret, runs_ret. injection Et as <- <-.
    specialize (HQ _ Hk El). cbn in HQ. rewrite Z.add_0_r in HQ. by destruct s.
  - rewrite (proj2 (Z.ltb_lt read count)) by lia. cbn [negb]. destruct l as [|c l]; [done|].
    pose proof (typed_length _ Hk) as Elen. rewrite El in Elen. cbn [length] in Elen.
    destruct (typed_popped (k_kbd s) Hk) as [Hk1 E1]; [lia|]. rewrite El in E1. injection E1 as Ec E1.
    assert (c <> 0) as Hc by (intros ->; apply Hl0; by left).
    apply runs_bind, buffer_pop_spec. rewrite (proj2 (Z.eqb_neq (kb_size _) 0)) by lia. rewrite <- Ec.
    rewrite (proj2 (Z.eqb_neq c 0) Hc). cbn [take_line] in Et.
    destruct (Z.eqb_spec c 0x04).
    { injection Et as <- <-. apply runs_ret, runs_ret. specialize (HQ _ Hk1 (eq_sym E1)).
      cbn in HQ. rewrite Z.add_0_r in HQ. by destruct s. }
    apply runs_bind, runs_modify. destruct (Z.eqb_spec c 10) as [->|].
    { injection Et as <- <-. apply runs_ret, runs_ret. exact (HQ _ Hk1 (eq_sym E1)). }
    destruct (take_line n l) as [[got' rest']|] eqn:Et'; [|done]. injection Et as <- <-.
    apply runs_ret. eapply (IH fuel _ (read + 1) l got' rest'); [lia|lia|exact Hk1|by cbn|by intros ?; apply Hl0; right|done|].
    intros k' Hk' Er. specialize (HQ k' Hk' Er). cbn [length store_bytes] in HQ.
    replace (read + 1 + Z.of_nat (length got')) with (read + Z.of_nat (S (length got'))) by lia.
    rewrite <- Z.add_assoc in HQ. exact HQ.
Qed.

Lemma terminal_read_spec s b e l buffer count got rest :
  k_procs s !! current (k_sched s) = Some b -> current (k_sched s) <> 0 ->
  p_fds b !! 0%nat = Some e -> fd_type e = FD_TYPE_TERMINAL -> p_is_foreground b <> 0 ->
  kb_wf (k_kbd s) -> typed (k_kbd s) = l -> 0 ∉ l ->
  buffer <> 0 -> 0 < count < 2 ^ 31 -> take_line (Z.to_nat count) l = Some (got, rest) ->
  runs (syscall_read wakeups 0 buffer count) s (fun r s' => r = Z.of_nat (length got) /\ exists k,
    kb_wf k /\ typed k = rest /\ s' = s <| k_kbd := k |> <| k_mem ::= store_bytes buffer got |>).
Proof.
  intros Hb Hc0 He Ety Hfg Hk El Hl0 Hbuf Hc Et. unfold syscall_read. rewrite (swrap_small 32 count) by lia.
  rewrite (proj2 (Z.eqb_neq buffer 0) Hbuf). destruct (Z.leb_spec count 0); [lia|]. cbn -[read_char_step].
  apply runs_bind, runs_gets. rewrite (proj2 (Z.eqb_neq _ 0) Hc0).
  apply runs_bind, runs_bind. eapply runs_gets_opt; [exact Hb|]. eapply runs_gets_opt; [exact He|]. rewrite Ety.
  apply runs_bind. eapply runs_gets_opt; [exact Hb|]. rewrite (proj2 (Z.eqb_neq _ 0) Hfg).
  eapply (read_chars_spec buffer count (Z.to_nat count) (S (Z.to_nat count + wakeups))); [lia|lia|exact Hk|exact El|exact Hl0|exact Et|].
  intros k Hk' Er. rewrite Z.add_0_r. split; [done|]. by exists k.
Qed.

(** a process in the foreground reads what was typed.  When the buffer holds
    a line, an end-of-file mark or as many characters as the process asked for,
    [syscall_read] of the standard input returns at once: it stores the
    characters in the order they were typed, up to and with the first line feed,
    leaves the rest in the buffer, and changes nothing else. *)
Theorem terminal_read_line s b e l buffer count got rest :
  k_procs s !! current (k_sched s) = Some b -> current (k_sched s) <> 0 ->
  p_fds b !! 0%nat = Some e -> fd_type e = FD_TYPE_TERMINAL -> p_is_foreground b <> 0 ->
  kb_wf (k_kbd s) -> typed (k_kbd s) = l -> 0 ∉ l ->
  buffer <> 0 -> 0 < count < 2 ^ 31 -> take_line (Z.to_nat count) l = Some (got, rest) ->
  runs (syscall_read wakeups 0 buffer count) s (fun r s' => r = Z.of_nat (length got) /\ exists k,
    kb_wf k /\ typed k = rest /\ s' = s <| k_kbd := k |> <| k_mem ::= store_bytes buffer got |>).
Proof. apply terminal_read_spec. Qed.
End Read.

(** The line "hi" and one character more have been typed. *)
Definition demo_typing : kstate mm :=
  demo_sem_start
    <| k_kbd := k_kbd (after (run_kb_ops [KPush 104; KPush 105; KPush 10; KPush 33]) demo_sem_start) |>
    <| k_procs ::= alter (fun b => b <| p_is_foreground := 1 |>) 0x2000 |>.

Lemma terminal_read_line_witness :
  runs (syscall_read 0 0 0x8000 16) demo_typing (fun r s' =>
    r = 3 /\ typed (k_kbd s') = [33] /\ bytes_at (k_mem s') 0x8000 3 = [104; 105; 10]).
Proof.
  eapply runs_mono.
  - eapply (terminal_read_line 0 demo_typing _ fd_terminal [104; 105; 10; 33] 0x8000 16 [104; 105; 10] [33]);
      [reflexivity|vm_compute; discriminate|reflexivity|reflexivity|vm_compute; discriminate|by repeat split|reflexivity
      |rewrite !elem_of_cons, elem_of_nil; lia|discriminate|lia|reflexivity].
  - intros r s' (-> & k & _ & Ek & ->). split; [reflexivity|]. split; [exact Ek|reflexivity].
Defined.
