(* ===== verification/Machine.v ===== *)
(** * The machine (src/Kernel/kernel.c, src/Kernel/asm/interrupts.asm)

    Boot, and the steps of the running system: a process makes a system call,
    the timer or the keyboard interrupts it, it raises an exception, it goes on
    with a system call that had handed the processor over, or it ends.

    System calls and handlers run with interrupts masked; [_hlt] enables them, but
    what [syscall_sleep] does between two halts only reads the ticks.  The end of a
    process is different: [process_start] calls [scheduler_finish_current] with
    interrupts enabled.  [step_return] is such an end that no interrupt falls into;
    an end that is interrupted, which can leave a spin lock taken
    ([WaitTheorems.interrupted_end_hangs]), is not a step. *)
From S2P Require Import Prelude CLib MmInterface Video Exceptions KState SchedCore Semaphore Pipe Process Keyboard Scheduler Syscalls.

Section Machine.
Context {MM : Type} `{MemManager MM} `{Text}.
Context (wakeups : nat).
Abbreviation K := (M (kstate MM)).

(** The constant of kernel.c. *)
Definition sampleCodeModuleAddress : Z := 0x400000.
(** "shell" *)
Definition shell_name : cstring := CLit [115; 104; 101; 108; 108].

(** [main] up to [_sti]: the loading of the interrupt table is in [Idt]. *)
Definition main : K unit :=
  on_mm mm_init_heap ;;
  init_scheduler ;;
  pipe_system_init ;;
  keyboard_init ;;
  scheduler_spawn_process shell_name sampleCodeModuleAddress 0 0 2 1 0 0 ;;
  mret tt.

(** The part of a process below its own code: nothing, or the rest of a system
    call that handed the processor over. *)
Inductive context :=
  | User
  | InKernel (t : trap) (k : kstate MM -> outcome (kstate MM) Z).

(** [m_contexts] is indexed by pid: control blocks are reused, pids are not. *)
Record machine := mk_machine { m_kernel : kstate MM; m_contexts : gmap Z context }.

Definition pid_of (s : kstate MM) (p : Z) : Z := match k_procs s !! p with Some b => p_pid b | None => 0 end.
Definition running_pid (m : machine) : Z := pid_of (m_kernel m) (current (k_sched (m_kernel m))).
Definition context_of (m : machine) (pid : Z) : context := default User (m_contexts m !! pid).
Definition running (m : machine) : context := context_of m (running_pid m).

(** What becomes of a process whose system call stops: it returned; it executed
    [int 20h], whose handler runs at once on its stack [rsp]; it halts. *)
Definition settle (m : machine) (rsp : Z) (o : outcome (kstate MM) Z) : option machine :=
  let pid := running_pid m in
  match o with
  | Done _ s => Some (mk_machine s (<[pid := User]> (m_contexts m)))
  | Suspend TimerTick s k =>
      match irq00 rsp s with
      | Done _ s' => Some (mk_machine s' (<[pid := InKernel TimerTick k]> (m_contexts m)))
      | _ => None
      end
  | Suspend Halt s k => Some (mk_machine s (<[pid := InKernel Halt k]> (m_contexts m)))
  | Fault | Diverge => None
  end.

(** An interrupt handler runs to its end with interrupts masked. *)
Definition interrupt {A} (m : machine) (h : K A) : option machine :=
  match h (m_kernel m) with Done _ s => Some (mk_machine s (m_contexts m)) | _ => None end.

(** Interrupts are taken in user code and while a system call halts (and in the end of
    a process, see above). *)
Definition interruptible (m : machine) : Prop :=
  running m = User \/ exists k, running m = InKernel Halt k.

Inductive step : machine -> machine -> Prop :=
  | step_syscall m m' rsp rdi rsi rdx r10 r8 rax :
      running m = User ->
      settle m rsp (syscallDispatcher wakeups rdi rsi rdx r10 r8 rax (m_kernel m)) = Some m' ->
      step m m'
  | step_timer m m' rsp :
      interruptible m -> interrupt m (irq00 rsp) = Some m' -> step m m'
  | step_keyboard m m' scancode :
      interruptible m -> 0 <= scancode < 256 -> interrupt m (irqDispatcher 1 scancode) = Some m' -> step m m'
  | step_resume m m' rsp t k :
      running m = InKernel t k -> settle m rsp (k (m_kernel m)) = Some m' -> step m m'
  | step_exception m m' exception exceptionRegisters :
      (* [exceptionHandler]: the registers are shown, and the process starts again
         at the beginning of its module *)
      running m = User -> exception = ZERO_EXCEPTION_ID \/ exception = INVALID_OPCODE_ID ->
      interrupt m (on_video (exceptionDispatcher exception exceptionRegisters)) = Some m' ->
      step m m'
  | step_return m m' rsp :
      (* [process_start], once the entry point has returned, without an interrupt
         until [scheduler_finish_current] has returned as well *)
      running m = User ->
      settle m rsp ((scheduler_finish_current ;; mret 0) (m_kernel m)) = Some m' ->
      step m m'.

Inductive reachable (m0 : machine) : machine -> Prop :=
  | reachable_refl : reachable m0 m0
  | reachable_step m m' : reachable m0 m -> step m m' -> reachable m0 m'.
End Machine.
