(* ===== verification/SemSystem.v ===== *)
(** * Processes that share semaphores

    A system of processes that enter and leave critical sections with the system
    calls of the semaphores, on the machine of [Machine]: each event is one of its
    steps, the calls go through the dispatcher, a process that blocks is switched
    away and goes on when it is scheduled again.  The units of a semaphore are
    conserved, so no more processes are inside a section than its semaphore had
    units; no event is ever stuck. *)
From S2P Require Import Prelude LinkedList CLib MmInterface MmSimple KState ProcQueue SchedCore QueueFacts SchedView QueueTheorems Semaphore Pipe Process Scheduler SchedFacts SchedSwitch SemFacts SchedTheorems SchedCalls SemTheorems Syscalls Machine.

Section System.
Context {MM : Type} {mmgr : MemManager MM} {txt : Text} (wakeups : nat).

(** Who is in which section, by pid and semaphore, and what a process waits for. *)
Record clients := mk_clients { inside : list (Z * Z); asked : gmap Z Z }.

(** A process waits on a semaphore, signals it, yields, goes on with its call; the timer. *)
Inductive event := Enter (id : Z) | Leave (id : Z) | Yield | Resume | Tick.

(** The positions in the table of the dispatcher. *)
Definition SYS_SEM_WAIT : Z := 21.
Definition SYS_SEM_SIGNAL : Z := 22.
Definition SYS_YIELD : Z := 26.

Implicit Types (m : machine (MM := MM)) (c : clients) (e : event).

(** Code of a process runs; the idle process only halts. *)
Definition user_running m : bool :=
  match running m with
  | User => negb (current (k_sched (m_kernel m)) =? idle_p (k_sched (m_kernel m)))
  | InKernel _ _ => false
  end.
(** A process leaves a section it is in and does not enter it twice. *)
Definition permitted m c e : bool :=
  match e with
  | Enter id => user_running m && negb (bool_decide ((running_pid m, id) ∈ inside c))
  | Leave id => user_running m && bool_decide ((running_pid m, id) ∈ inside c)
  | Yield => user_running m
  | Resume => match running m with InKernel _ _ => true | User => false end
  | Tick => match running m with InKernel TimerTick _ => false | _ => true end
  end.
Definition runs_code m e : outcome (kstate MM) Z :=
  match e with
  | Enter id => syscallDispatcher wakeups id 0 0 0 0 SYS_SEM_WAIT (m_kernel m)
  | Leave id => syscallDispatcher wakeups id 0 0 0 0 SYS_SEM_SIGNAL (m_kernel m)
  | Yield => syscallDispatcher wakeups 0 0 0 0 0 SYS_YIELD (m_kernel m)
  | Resume => match running m with InKernel _ k => k (m_kernel m) | User => Fault end
  | Tick => Fault
  end.

(** A process is inside once its wait has returned 1. *)
Definition returned c (pid id r : Z) : clients :=
  if r =? 1 then mk_clients ((pid, id) :: inside c) (delete pid (asked c)) else mk_clients (inside c) (delete pid (asked c)).
Definition noted c (pid : Z) e (o : outcome (kstate MM) Z) : clients :=
  match e, o with
  | Enter id, Done r _ => returned c pid id r
  | Enter id, _ => mk_clients (inside c) (<[pid := id]> (asked c))
  | Resume, Done r _ => match asked c !! pid with Some id => returned c pid id r | None => c end
  | Leave id, _ => mk_clients (filter (fun x => x <> (pid, id)) (inside c)) (asked c)
  | _, _ => c
  end.

Definition act (rsp : Z) m c e : option (machine * clients) :=
  if permitted m c e then
    match e with
    | Tick => m' ← interrupt m (irq00 rsp); Some (m', c)
    | _ => m' ← settle m rsp (runs_code m e); Some (m', noted c (running_pid m) e (runs_code m e))
    end
  else None.
Fixpoint acts (es : list (event * Z)) m c : option (machine * clients) :=
  match es with
  | [] => Some (m, c)
  | (e, rsp) :: es => '(m', c') ← act rsp m c e; acts es m' c'
  end.

(** Every event is a step of the machine. *)
Lemma act_step rsp m c e m' c' : act rsp m c e = Some (m', c') -> step wakeups m m'.
Proof.
  unfold act, permitted, user_running. intros E. destruct e as [id|id| | |]; cbn [runs_code] in E.
  - destruct (running m) eqn:Er; [|done]. destruct (_ && _); [|done]. apply bind_Some in E as (m1 & E & [= <- <-]). by eapply step_syscall.
  - destruct (running m) eqn:Er; [|done]. destruct (_ && _); [|done]. apply bind_Some in E as (m1 & E & [= <- <-]). by eapply step_syscall.
  - destruct (running m) eqn:Er; [|done]. destruct (negb _); [|done]. apply bind_Some in E as (m1 & E & [= <- <-]). by eapply step_syscall.
  - destruct (running m) eqn:Er; [done|]. apply bind_Some in E as (m1 & E & [= <- <-]). by eapply step_resume.
  - assert (interruptible m) as Hi.
    { unfold interruptible. destruct (running m) as [|[] k]; [by left|done|right; eauto]. }
    destruct (match running m with InKernel TimerTick _ => false | _ => true end); [|done].
    apply bind_Some in E as (m1 & E & [= <- <-]). by eapply step_timer.
Qed.

(** ** What is observed *)

Definition value_of (s : kstate MM) (id : Z) : option Z := i ← slot_of s id; sem_value <$> k_sems s !! i.
Definition inside_of c (id : Z) : list (Z * Z) := filter (fun x => x.2 = id) (inside c).
Definition blocked_pid (s : kstate MM) (pid : Z) : Prop :=
  exists p b, k_procs s !! p = Some b /\ p_pid b = pid /\ p_state b = PROCESS_STATE_BLOCKED.
Definition no_clients : clients := mk_clients [] ∅.

(** ** The invariant *)

Section Invariant.
Context (cap : Z -> option Z).
Implicit Types (t : kstate MM) (L : qref -> list Z) (W : nat -> list Z) (G : Z -> list Z).

(** [W i] wait for the slot [i]; [G id] were handed a unit of [id] and have not yet
    gone on; units free, handed over and inside add up to the capacity. *)
Record shared t W G c : Prop := {
  sh_sems : sems_ok t W;
  sh_pids : forall p q b d, k_procs t !! p = Some b -> k_procs t !! q = Some d -> p_pid b = p_pid d -> p = q;
  sh_asked : forall pid id, asked c !! pid = Some id -> exists p b i, k_procs t !! p = Some b /\ p_pid b = pid /\
    slot_of t id = Some i /\ p <> idle_p (k_sched t) /\
    (p_state b = PROCESS_STATE_BLOCKED /\ p ∈ W i \/ p_state b <> PROCESS_STATE_BLOCKED /\ pid ∈ G id);
  sh_waits : forall i p, p ∈ W i -> exists b id, k_procs t !! p = Some b /\ slot_of t id = Some i /\ asked c !! p_pid b = Some id;
  sh_woken : forall id pid, pid ∈ G id -> asked c !! pid = Some id /\
    exists p b, k_procs t !! p = Some b /\ p_pid b = pid /\ p_state b <> PROCESS_STATE_BLOCKED;
  sh_once : forall id, NoDup (G id);
  sh_units : forall id i x, slot_of t id = Some i -> k_sems t !! i = Some x -> 0 <= sem_value x /\
    exists v0, cap id = Some v0 /\ v0 <= INT_MAX /\
      sem_value x + Z.of_nat (length (inside_of c id)) + Z.of_nat (length (G id)) = v0;
  sh_inside : NoDup (inside c) /\ forall pid id, (pid, id) ∈ inside c -> is_Some (slot_of t id) /\ asked c !! pid <> Some id;
  sh_cap : forall id, is_Some (cap id) -> is_Some (slot_of t id) }.

Lemma slot_of_inj t id id' i : slot_of t id = Some i -> slot_of t id' = Some i -> id = id'.
Proof.
  intros (x & Hx & _ & <-)%slot_of_some (x' & Hx' & _ & <-)%slot_of_some. congruence.
Qed.

(** *** A switch *)

Lemma quiet_proc t t' p b' : quiet t t' -> k_procs t' !! p = Some b' -> exists b, k_procs t !! p = Some b /\
  p_pid b = p_pid b' /\ p_sem_waiter_next b = p_sem_waiter_next b' /\ (p_state b = PROCESS_STATE_BLOCKED <-> p_state b' = PROCESS_STATE_BLOCKED).
Proof.
  intros Hq Hb'. pose proof (qt_view _ _ Hq p) as E. rewrite Hb' in E. symmetry in E. apply fmap_Some in E as (b & Hb & E).
  exists b. unfold view in E. injection E as E1 E2 E3. split_and!; try done. unfold parked in E3. destruct (p_state b), (p_state b'); split; congruence || lia.
Qed.
Lemma quiet_sym t t' : quiet t t' -> quiet t' t.
Proof. intros [V S I]. split; [|congruence..]. intros p. by rewrite V. Qed.

Lemma quiet_sems_ok t t' W : quiet t t' -> sems_ok t W -> sems_ok t' W.
Proof.
  intros Hq [K1 K2 K3 K4]. split; rewrite ?(qt_sems _ _ Hq); try done.
  - intros i x Hx. destruct (K1 i x Hx) as [? ? Hn ?]. split; try done. eapply sll_ext; [exact Hn|]. intros p _. unfold nxt.
    pose proof (qt_view _ _ Hq p) as E. destruct (k_procs t !! p), (k_procs t' !! p); try done. cbn in *. by injection E as _ -> _.
  - intros i p Hp. destruct (K3 i p Hp) as (b & Hb & Hs). destruct (quiet_proc _ _ _ _ (quiet_sym _ _ Hq) Hb) as (b' & Hb' & _ & _ & Hs').
    exists b'. split; [done|]. by apply Hs'.
Qed.

Lemma shared_quiet t t' W G c : quiet t t' -> shared t W G c -> shared t' W G c.
Proof.
  intros Hq [S1 S2 S3 S4 S5 S6 S7 S8 S9]. pose proof (qt_sems _ _ Hq) as Es.
  assert (forall id, slot_of t' id = slot_of t id) as Esl by (intros id; apply slot_of_keys; unfold keys; by rewrite Es).
  assert (forall p b, k_procs t !! p = Some b -> exists b', k_procs t' !! p = Some b' /\ p_pid b' = p_pid b /\
    (p_state b' = PROCESS_STATE_BLOCKED <-> p_state b = PROCESS_STATE_BLOCKED)) as Hp.
  { intros p b Hb. destruct (quiet_proc _ _ _ _ (quiet_sym _ _ Hq) Hb) as (b' & ? & ? & _ & ?). eauto. }
  split; [by eapply quiet_sems_ok|..|done| | |].
  - intros p q b d Hb Hd E. destruct (quiet_proc _ _ _ _ Hq Hb) as (b' & Hb' & E1 & _). destruct (quiet_proc _ _ _ _ Hq Hd) as (d' & Hd' & E2 & _).
    eapply S2; [done..|congruence].
  - intros pid id Ha. destruct (S3 pid id Ha) as (p & b & i & Hb & Epid & Hsl & Hi & Hst). destruct (Hp p b Hb) as (b' & Hb' & Ep & Hs).
    exists p, b', i. rewrite Esl, (qt_idle _ _ Hq), Hs. split_and!; congruence || done.
  - intros i p Hw. destruct (S4 i p Hw) as (b & id & Hb & Hsl & Ha). destruct (Hp p b Hb) as (b' & Hb' & Ep & _).
    exists b', id. rewrite Esl, Ep. done.
  - intros id pid Hw. destruct (S5 id pid Hw) as (Ha & p & b & Hb & Epid & Hs). destruct (Hp p b Hb) as (b' & Hb' & Ep & Hs').
    split; [done|]. exists p, b'. rewrite Hs'. split_and!; congruence || done.
  - intros id i x. rewrite Esl, Es. apply S7.
  - destruct S8 as [? S8]. split; [done|]. intros pid id. rewrite Esl. apply S8.
  - intros id. rewrite Esl. apply S9.
Qed.

(** *** Counting *)

Lemma filter_out_absent {A} `{EqDecision A} (x : A) (l : list A) : x ∉ l -> filter (fun y => y <> x) l = l.
Proof.
  induction l as [|y l IH]; [done|]. intros [Hy Hl]%not_elem_of_cons. rewrite filter_cons_True by congruence. by rewrite IH.
Qed.
Lemma length_filter_out {A} `{EqDecision A} (x : A) (l : list A) : NoDup l -> x ∈ l -> length l = S (length (filter (fun y => y <> x) l)).
Proof.
  induction l as [|y l IH]; [by intros _ ?%elem_of_nil|]. intros [Hy Hl]%NoDup_cons [->|Hx]%elem_of_cons.
  - rewrite filter_cons_False by tauto. simpl. by rewrite filter_out_absent.
  - rewrite filter_cons_True by (by intros ->). simpl. by rewrite IH.
Qed.

Lemma inside_of_cons pid id l a id' :
  inside_of (mk_clients ((pid, id) :: l) a) id' =
  if decide (id = id') then (pid, id) :: inside_of (mk_clients l a) id' else inside_of (mk_clients l a) id'.
Proof. unfold inside_of. cbn [inside]. by rewrite filter_cons. Qed.
Lemma inside_of_same c a id : inside_of (mk_clients (inside c) a) id = inside_of c id.
Proof. done. Qed.
(** One process less is inside the section it leaves. *)
Lemma inside_of_leave c a pid id id' : NoDup (inside c) -> (pid, id) ∈ inside c ->
  length (inside_of c id') = (length (inside_of (mk_clients (filter (fun x => x <> (pid, id)) (inside c)) a) id')
    + if decide (id' = id) then 1 else 0)%nat.
Proof.
  intros Hnd Hin. unfold inside_of. cbn [inside]. rewrite list_filter_filter. case_decide as E.
  - subst id'. rewrite (length_filter_out (pid, id) (filter (fun x => x.2 = id) (inside c))).
    + rewrite Nat.add_1_r. f_equal. f_equal. rewrite list_filter_filter. apply list_filter_iff. tauto.
    + by apply NoDup_filter.
    + by apply list_elem_of_filter.
  - rewrite Nat.add_0_r. f_equal. apply list_filter_iff. intros [q j]. simpl. split; [|tauto]. intros ->. split; [done|]. congruence.
Qed.

(** *** A wait that takes a unit *)

Lemma shared_takes t W G c pid id i x : shared t W G c -> slot_of t id = Some i -> k_sems t !! i = Some x -> 0 < sem_value x ->
  asked c !! pid = None -> (pid, id) ∉ inside c ->
  let t' := t <| k_sems ::= <[i := x <| sem_value := sem_value x - 1 |>]> |> in
  sems_ok t' W -> shared t' W G (returned c pid id 1).
Proof.
  intros [S1 S2 S3 S4 S5 S6 S7 S8 S9] Hsl Hx Hv Ha Hni t' Hok. unfold returned. rewrite Z.eqb_refl, delete_id by done.
  assert (forall j, slot_of t' j = slot_of t j) as Esl by (intros j; by apply slot_of_keys, keys_insert with x).
  split; [done|done| | |exact S5|exact S6| | |].
  - intros q j Hq. rewrite Esl. by apply S3.
  - intros j p Hp. setoid_rewrite Esl. by apply S4.
  - intros j k y. rewrite Esl, inside_of_cons, inside_of_same. intros Hk Hy. cbn in Hy. apply list_lookup_insert_Some in Hy as [(-> & <- & _)|[Hne Hy]].
    + rewrite (slot_of_inj _ _ _ _ Hk Hsl). rewrite decide_True by done.
      destruct (S7 id k x Hsl Hx) as (? & v0 & ? & ? & ?). split; [cbn; lia|]. exists v0. split_and!; [done|done|]. cbn. lia.
    + rewrite decide_False; [by apply (S7 j k)|]. intros <-. congruence.
  - destruct S8 as [N8 S8]. split; [by apply NoDup_cons|]. intros q j [[= -> ->]|Hq]%elem_of_cons; rewrite Esl.
    + split; [by eexists|]. cbn. congruence.
    + by apply S8.
  - intros j. rewrite Esl. apply S9.
Qed.

(** *** A process that was handed a unit goes on *)

Definition off (G : Z -> list Z) (id pid : Z) : Z -> list Z := fun j => if decide (j = id) then without pid (G id) else G j.

Lemma shared_resumes t W G c pid id p b : shared t W G c -> asked c !! pid = Some id -> k_procs t !! p = Some b -> p_pid b = pid ->
  p_state b <> PROCESS_STATE_BLOCKED -> shared t W (off G id pid) (returned c pid id 1).
Proof.
  intros [S1 S2 S3 S4 S5 S6 S7 S8 S9] Ha Hb Epid Hs. unfold returned. rewrite Z.eqb_refl.
  assert (pid ∈ G id) as HG.
  { destruct (S3 _ _ Ha) as (q & d & i & Hd & Ed & _ & _ & Hst). assert (q = p) as -> by (eapply S2; [done..|congruence]).
    rewrite Hb in Hd. injection Hd as <-. destruct Hst as [[? _]|[_ ?]]; done. }
  assert (forall j q, q ∈ off G id pid j <-> q ∈ G j /\ (j = id -> q <> pid)) as Hoff.
  { intros j q. unfold off. case_decide; [subst; rewrite elem_of_without|]; tauto. }
  split; [done|done| | | | | | |exact S9]; cbn [asked inside].
  - intros q j Hq. rewrite lookup_delete_Some in Hq. destruct Hq as [Hne Hq]. destruct (S3 q j Hq) as (r & d & i & ? & ? & ? & ? & Hst).
    exists r, d, i. split_and!; try done. rewrite Hoff. destruct Hst as [?|[? ?]]; [by left|right]. split_and!; done || congruence.
  - intros i q Hq. destruct (S4 i q Hq) as (d & j & Hd & Hsl & Hj). exists d, j. split_and!; [done|done|].
    rewrite lookup_delete_ne; [done|]. intros E. destruct (sk_blocked _ _ S1 i q Hq) as (d' & Hd' & Hbl).
    assert (q = p) as -> by (eapply S2; [done..|congruence]). congruence.
  - intros j q [Hq Hne]%Hoff. destruct (S5 j q Hq) as [Hj Hex]. split; [|done]. rewrite lookup_delete_ne; [done|].
    intros <-. apply Hne; [congruence|done].
  - intros j. unfold off. case_decide; [apply NoDup_filter|]; apply S6.
  - intros j i x Hj Hx. rewrite inside_of_cons, inside_of_same. destruct (S7 j i x Hj Hx) as (? & v0 & ? & ? & E). split; [done|].
    exists v0. split_and!; [done|done|]. unfold off. destruct (decide (id = j)) as [<-|]; [|by rewrite decide_False by done].
    rewrite decide_True by done. rewrite (length_filter_out pid (G id)) in E by done. unfold without. cbn [length]. lia.
  - destruct S8 as [N8 S8]. split; [apply NoDup_cons; split; [|done]; intros Hin; by apply (S8 _ _ Hin)|].
    intros q j [[= -> ->]|Hq]%elem_of_cons.
    + split; [|by rewrite lookup_delete_eq]. destruct (S3 _ _ Ha) as (_ & _ & i & _ & _ & Hsl & _). by eexists.
    + destruct (S8 q j Hq) as [? Hn]. split; [done|]. by intros [_ ?]%lookup_delete_Some.
Qed.

(** *** A wait that blocks *)

Lemma keys_slot t t' i x x' : k_sems t !! i = Some x -> k_sems t' = <[i := x']> (k_sems t) ->
  sem_used x' = sem_used x -> sem_id x' = sem_id x -> forall id, slot_of t' id = slot_of t id.
Proof.
  intros Hx Es Eu Ei id. apply slot_of_keys. rewrite <- (keys_insert t i x x' Hx Eu Ei). unfold keys. cbn. by rewrite Es.
Qed.

Lemma parks_proc t t' i x me p b' : parks t t' i x me -> k_procs t' !! p = Some b' -> exists b, k_procs t !! p = Some b /\
  p_pid b = p_pid b' /\ (p <> me -> p_state b = p_state b').
Proof.
  intros [_ _ (bm & bm' & Hm & Hm' & Em & _) Ho] Hb'. destruct (decide (p = me)) as [->|Hne].
  - exists bm. split_and!; [done|congruence|done].
  - specialize (Ho p Hne). rewrite Hb' in Ho. symmetry in Ho. apply fmap_Some in Ho as (b & Hb & E). injection E as E1 E2. eauto.
Qed.
Lemma parks_proc_after t t' i x me p b : parks t t' i x me -> k_procs t !! p = Some b -> exists b', k_procs t' !! p = Some b' /\
  p_pid b' = p_pid b /\ (p <> me -> p_state b' = p_state b).
Proof.
  intros [_ _ (bm & bm' & Hm & Hm' & Em & _) Ho] Hb. destruct (decide (p = me)) as [->|Hne].
  - exists bm'. split_and!; [done|congruence|done].
  - specialize (Ho p Hne). rewrite Hb in Ho. apply fmap_Some in Ho as (b' & Hb' & E). injection E as E1 E2. eauto.
Qed.

Lemma shared_blocks t t' W G c id i x me b : shared t W G c -> slot_of t id = Some i -> k_sems t !! i = Some x ->
  k_procs t !! me = Some b -> asked c !! p_pid b = None -> (p_pid b, id) ∉ inside c -> me <> idle_p (k_sched t) ->
  parks t t' i x me -> sems_ok t' (updW W i (W i ++ [me])) ->
  shared t' (updW W i (W i ++ [me])) G (mk_clients (inside c) (<[p_pid b := id]> (asked c))).
Proof.
  intros [S1 S2 S3 S4 S5 S6 S7 S8 S9] Hsl Hx Hb Ha Hni Hi Hpk Hok. pose proof Hpk as [(x' & Es & Ev & Eu & Ex) [_ Ei] (_ & bm & _ & Hbm & _ & Hbl) _].
  pose proof (keys_slot _ _ _ _ _ Hx Es Eu Ex) as Esl.
  assert (forall p d, k_procs t !! p = Some d -> p <> me -> p_pid d <> p_pid b) as Hpid.
  { intros p d Hd Hne E. apply Hne. by eapply S2. }
  assert (forall j p, p ∈ W j -> p ∈ updW W i (W i ++ [me]) j) as HW.
  { intros j p Hp. unfold updW. case_decide; [subst; rewrite elem_of_app; by left|done]. }
  split; [exact Hok| | | | |exact S6| | |]; cbn [asked inside].
  - intros p q d e Hd He E. destruct (parks_proc _ _ _ _ _ _ _ Hpk Hd) as (d0 & Hd0 & E1 & _).
    destruct (parks_proc _ _ _ _ _ _ _ Hpk He) as (e0 & He0 & E2 & _). eapply S2; [done..|congruence].
  - intros pid j Hj. rewrite Esl, Ei. apply lookup_insert_Some in Hj as [[<- <-]|[Hne Hj]].
    + destruct (parks_proc _ _ _ _ _ _ _ Hpk Hbm) as (b0 & Hb0 & E & _). rewrite Hb in Hb0. injection Hb0 as <-.
      exists me, bm, i. split_and!; try done. left. split; [done|]. unfold updW. rewrite decide_True by done.
      rewrite elem_of_app, list_elem_of_singleton. by right.
    + destruct (S3 pid j Hj) as (p & d & k & Hd & Ed & Hk & Hpi & Hst). destruct (parks_proc_after _ _ _ _ _ _ _ Hpk Hd) as (d' & Hd' & E1 & E2).
      assert (p <> me) as Hpm by (intros ->; apply Hne; congruence). exists p, d', k. rewrite (E2 Hpm).
      split_and!; try done; [congruence|]. destruct Hst as [[? ?]|?]; [left; auto|by right].
  - intros j p Hp. setoid_rewrite Esl. destruct (decide (p = me)) as [->|Hpm].
    + destruct (parks_proc _ _ _ _ _ _ _ Hpk Hbm) as (b0 & Hb0 & E & _). rewrite Hb in Hb0. injection Hb0 as <-.
      exists bm, id. split; [done|]. split; [|rewrite <- E; apply lookup_insert_eq].
      unfold updW in Hp. case_decide as Ej; [by subst|]. destruct (sk_blocked _ _ Hok i me) as (b1 & _ & _).
      { unfold updW. rewrite decide_True, elem_of_app, list_elem_of_singleton by done. by right. }
      exfalso. apply Ej. eapply (sk_disjoint _ _ Hok j i me); unfold updW; [by rewrite decide_False|].
      rewrite decide_True, elem_of_app, list_elem_of_singleton by done. by right.
    + assert (p ∈ W j) as Hp'.
      { unfold updW in Hp. case_decide; [subst|done]. by apply elem_of_app in Hp as [|?%list_elem_of_singleton]. }
      destruct (S4 j p Hp') as (d & k & Hd & Hk & Hak). destruct (parks_proc_after _ _ _ _ _ _ _ Hpk Hd) as (d' & Hd' & E1 & _).
      exists d', k. split; [done|]. split; [done|]. rewrite E1, lookup_insert_ne; [done|]. symmetry. by eapply Hpid.
  - intros j pid Hp. destruct (S5 j pid Hp) as (Haj & p & d & Hd & Ed & Hs). destruct (parks_proc_after _ _ _ _ _ _ _ Hpk Hd) as (d' & Hd' & E1 & E2).
    assert (pid <> p_pid b) as Hne by (intros ->; congruence). assert (p <> me) as Hpm by (intros ->; congruence).
    split; [by rewrite lookup_insert_ne|]. exists p, d'. rewrite (E2 Hpm). split_and!; congruence || done.
  - intros j k y. rewrite Esl, inside_of_same, Es. intros Hk [(-> & <- & _)|[_ Hy]]%list_lookup_insert_Some; [rewrite Ev|]; by eapply S7.
  - destruct S8 as [N8 S8]. split; [done|]. intros pid j Hj. rewrite Esl. destruct (S8 pid j Hj) as [? Hn]. split; [done|].
    intros [[<- <-]|[_ ?]]%lookup_insert_Some; done.
  - intros j. rewrite Esl. apply S9.
Qed.

(** *** A signal *)

(** [handed] is who got the unit, if somebody waited. *)
Definition hand (G : Z -> list Z) (id : Z) (handed : list Z) : Z -> list Z := fun j => if decide (j = id) then handed ++ G id else G j.

Lemma shared_leaves t t' W W' G c pid id i x v handed : shared t W G c -> slot_of t id = Some i -> k_sems t !! i = Some x ->
  (pid, id) ∈ inside c -> signalled t t' i x v -> sems_ok t' W' ->
  v + Z.of_nat (length handed) = sem_value x + 1 -> 0 <= v -> NoDup handed ->
  (forall j p, p ∈ W' j -> p ∈ W j) ->
  (forall j p, p ∈ W j -> p ∈ W' j \/ j = i /\ exists b, k_procs t' !! p = Some b /\ p_pid b ∈ handed /\ p_state b = PROCESS_STATE_READY) ->
  (forall q, q ∈ handed -> asked c !! q = Some id /\ exists p b, k_procs t' !! p = Some b /\ p_pid b = q /\ p_state b = PROCESS_STATE_READY /\ p ∈ W i) ->
  shared t' W' (hand G id handed) (mk_clients (filter (fun y => y <> (pid, id)) (inside c)) (asked c)).
Proof.
  intros [S1 S2 S3 S4 S5 S6 S7 S8 S9] Hsl Hx Hin [(x' & Es & Ev & Eu & Ex) _ [_ Ei] Hf Hp] Hok Hcount Hv Hnd HW' HW Hh.
  pose proof (keys_slot _ _ _ _ _ Hx Es Eu Ex) as Esl.
  assert (forall p b, k_procs t !! p = Some b -> exists b', k_procs t' !! p = Some b' /\ p_pid b' = p_pid b /\
    (p_state b' = p_state b \/ p_state b = PROCESS_STATE_BLOCKED /\ p_state b' = PROCESS_STATE_READY)) as Hp'.
  { intros p b Hb. specialize (Hf p). rewrite Hb in Hf. apply fmap_Some in Hf as (b' & Hb' & _).
    destruct (Hp p b' Hb') as (b0 & Hb0 & E & Hs). rewrite Hb in Hb0. injection Hb0 as <-. eauto. }
  assert (forall j q, q ∈ hand G id handed j <-> q ∈ G j \/ j = id /\ q ∈ handed) as Hhand.
  { intros j q. unfold hand. case_decide; [subst; rewrite elem_of_app|]; tauto. }
  split; [exact Hok| | | | | | | |]; cbn [asked inside].
  - intros p q b d Hb Hd E. destruct (Hp p b Hb) as (b0 & Hb0 & E1 & _). destruct (Hp q d Hd) as (d0 & Hd0 & E2 & _).
    eapply S2; [done..|congruence].
  - intros q j Hq. rewrite Esl, Ei. destruct (S3 q j Hq) as (p & b & k & Hb & Eb & Hk & Hpi & Hst).
    destruct (Hp' p b Hb) as (b' & Hb' & E1 & E2). exists p, b', k. split_and!; try done; [congruence|]. rewrite Hhand.
    destruct Hst as [[Hbl Hw]|[Hn Hg]].
    + destruct (HW k p Hw) as [Hw'|(-> & b1 & Hb1 & Hin1 & Hs1)].
      * left. split; [|done]. destruct (sk_blocked _ _ Hok k p Hw') as (b2 & Hb2 & ?). congruence.
      * right. rewrite Hb' in Hb1. injection Hb1 as <-. split; [congruence|]. right.
        split; [by eapply slot_of_inj|]. by rewrite <- Eb, <- E1.
    + right. split; [destruct E2 as [?|[? ?]]; congruence|]. by left.
  - intros j p Hw. setoid_rewrite Esl. destruct (S4 j p (HW' j p Hw)) as (b & k & Hb & Hk & Ha).
    destruct (Hp' p b Hb) as (b' & Hb' & E1 & _). exists b', k. rewrite E1. done.
  - intros j q [Hq|[-> Hq]]%Hhand.
    + destruct (S5 j q Hq) as (Ha & p & b & Hb & Eb & Hs). destruct (Hp' p b Hb) as (b' & Hb' & E1 & E2).
      split; [done|]. exists p, b'. split_and!; [done|congruence|destruct E2 as [?|[? ?]]; congruence].
    + destruct (Hh q Hq) as (Ha & p & b & Hb & Eb & Hs & _). split; [done|]. exists p, b. split_and!; congruence || done.
  - intros j. unfold hand. case_decide; [subst|by apply S6]. apply NoDup_app. split_and!; [done| |apply S6].
    intros q Hq Hg. destruct (Hh q Hq) as (_ & p & b' & Hb' & Eb & _ & Hw). destruct (S5 _ _ Hg) as (_ & p2 & b2 & Hb2 & Eb2 & Hn).
    destruct (Hp p b' Hb') as (b & Hb & E & _). assert (p2 = p) as -> by (eapply S2; [done..|congruence]).
    destruct (sk_blocked _ _ S1 i p Hw) as (b3 & Hb3 & ?). congruence.
  - intros j k y. rewrite Esl, Es. intros Hk Hy. destruct (decide (k = i)) as [->|Hki].
    + apply list_lookup_insert_Some in Hy as [(_ & <- & _)|[? _]]; [|done]. rewrite (slot_of_inj _ _ _ _ Hk Hsl).
      destruct (S7 id i x Hsl Hx) as (? & v0 & ? & ? & E). rewrite Ev. split; [done|]. exists v0. split_and!; [done|done|].
      rewrite (inside_of_leave c (asked c) pid id id) in E by (done || apply S8). rewrite decide_True in E by done.
      unfold hand. rewrite decide_True by done. rewrite length_app. lia.
    + apply list_lookup_insert_Some in Hy as [(? & _ & _)|[_ Hy]]; [done|]. destruct (S7 j k y Hk Hy) as (? & v0 & ? & ? & E).
      split; [done|]. exists v0. split_and!; [done|done|]. assert (j <> id) as Hj by (intros ->; congruence).
      rewrite (inside_of_leave c (asked c) pid id j) in E by (done || apply S8). rewrite decide_False in E by done.
      unfold hand. rewrite decide_False by done. lia.
  - destruct S8 as [N8 S8]. split; [by apply NoDup_filter|]. intros q j [_ Hq]%list_elem_of_filter. rewrite Esl. by apply S8.
  - intros j. rewrite Esl. apply S9.
Qed.

(** ** Events *)

(** A suspended call returns 1 when it goes on. *)
Definition contexts_ok m c : Prop := forall pid,
  match context_of m pid with
  | User => asked c !! pid = None
  | InKernel tr k => forall s, k s = Done 1 s
  end.
(** The pids of those who wait for a semaphore, the longest waiting first. *)
Definition pid_in t (p : Z) : Z := default 0 (p_pid <$> k_procs t !! p).
Definition line_of t W (id : Z) : list Z := match slot_of t id with Some i => pid_in t <$> W i | None => [] end.
(** The invariant, with the lines [N] of the semaphores. *)
Definition sys_at (N : Z -> list Z) m c : Prop := exists L t W G b,
  shows (m_kernel m) L t /\ steady t L /\ k_procs t !! current (k_sched t) = Some b /\ p_state b = PROCESS_STATE_RUNNING /\
  shared t W G c /\ contexts_ok m c /\ forall id, N id = line_of t W id.
Definition sys_inv m c : Prop := exists N, sys_at N m c.
(** What an event of the process [pid] does to the lines: who blocks goes to the tail,
    who leaves lets the head go on. *)
Definition moved (pid : Z) e c (N : Z -> list Z) : Z -> list Z :=
  match e with
  | Enter id => if decide (asked c !! pid = Some id) then fun j => if decide (j = id) then N id ++ [pid] else N j else N
  | Leave id => fun j => if decide (j = id) then tail (N id) else N j
  | _ => N
  end.

Lemma line_same t t' W : (forall id, slot_of t' id = slot_of t id) -> (forall p, pid_in t' p = pid_in t p) ->
  forall id, line_of t' W id = line_of t W id.
Proof. intros Esl Ep id. unfold line_of. rewrite Esl. destruct (slot_of t id); [|done]. apply list_fmap_ext. intros; apply Ep. Qed.
Lemma line_upd t W id i ws j : slot_of t id = Some i ->
  line_of t (updW W i ws) j = if decide (j = id) then pid_in t <$> ws else line_of t W j.
Proof.
  intros Hsl. unfold line_of, updW. case_decide as Ej; [by rewrite Ej, Hsl, decide_True|].
  destruct (slot_of t j) eqn:E; [|done]. rewrite decide_False; [done|]. intros ->. destruct Ej. by eapply slot_of_inj.
Qed.
Lemma pid_in_some t p b : k_procs t !! p = Some b -> pid_in t p = p_pid b.
Proof. intros E. unfold pid_in. by rewrite E. Qed.
Lemma line_quiet t t' W id : quiet t t' -> line_of t' W id = line_of t W id.
Proof.
  intros Hq. apply line_same; [intros j; apply slot_of_keys; unfold keys; by rewrite (qt_sems _ _ Hq)|]. intros p.
  pose proof (qt_view _ _ Hq p) as E. unfold pid_in. destruct (k_procs t !! p), (k_procs t' !! p); try done. cbn in *. by injection E as -> _ _.
Qed.
Lemma line_parks t t' W id i x me j : parks t t' i x me -> slot_of t id = Some i -> k_sems t !! i = Some x ->
  line_of t' (updW W i (W i ++ [me])) j = if decide (j = id) then line_of t W id ++ [pid_in t me] else line_of t W j.
Proof.
  intros Hpk Hsl Hx. destruct (pk_slot _ _ _ _ _ Hpk) as (x' & Es & _ & Eu & Ei).
  rewrite (line_same t t'); [|by eapply keys_slot|].
  - rewrite (line_upd t W id) by done. unfold line_of at 2. rewrite Hsl, fmap_app. done.
  - intros p. unfold pid_in. destruct (k_procs t !! p) as [b|] eqn:E.
    + destruct (parks_proc_after _ _ _ _ _ _ _ Hpk E) as (b' & -> & Ep & _). cbn. by rewrite Ep.
    + destruct (k_procs t' !! p) as [b'|] eqn:E'; [|done]. destruct (parks_proc _ _ _ _ _ _ _ Hpk E') as (b & ? & _). congruence.
Qed.
Lemma line_signalled t t' W id i x v ws j : signalled t t' i x v -> slot_of t id = Some i -> k_sems t !! i = Some x ->
  line_of t' (updW W i ws) j = if decide (j = id) then pid_in t <$> ws else line_of t W j.
Proof.
  intros [(x' & Es & _ & Eu & Ei) _ _ Hf Hp] Hsl Hx. rewrite (line_same t t'); [by apply line_upd|by eapply keys_slot|].
  intros p. unfold pid_in. specialize (Hf p). destruct (k_procs t' !! p) as [b'|] eqn:E'.
  - destruct (Hp p b' E') as (b & -> & Ep & _). cbn. by rewrite Ep.
  - by destruct (k_procs t !! p).
Qed.

Lemma tick_spec s L t rsp : shows s L t -> steady t L ->
  runs (irq00 rsp) s (fun _ s' => exists L' t' b, shows s' L' t' /\ steady t' L' /\ quiet t t' /\
    k_procs t' !! current (k_sched t') = Some b /\ p_state b = PROCESS_STATE_RUNNING).
Proof.
  intros Hs Hst. unfold irq00, timer_handler. apply runs_bind. eapply shows_modify; [exact Hs|done..|]. intros s1 H1.
  set (t1 := t <| k_ticks ::= _ |>) in *.
  assert (steady t1 L) as Hst1 by (destruct Hst as [[? ? ? ? ?] ? ? ?]; by split).
  eapply schedule_spec; [exact H1|apply Hst1|apply Hst1|intros b; apply (st_none_finished _ _ Hst1)|].
  intros r s' t2 L2 t' L' D E Hs' Hok'. destruct (tick_quiet _ _ _ _ _ _ _ _ _ H1 Hst1 D E Hok') as (Hq & Hst' & b & Hb & Hr).
  exists L', t', b. split_and!; try done. etrans; [|exact Hq]. by split.
Qed.

Lemma running_pid_shows m L t b : shows (m_kernel m) L t -> k_procs t !! current (k_sched t) = Some b -> running_pid m = p_pid b.
Proof.
  intros Hs Hb. destruct (shows_proc _ _ _ _ _ Hs Hb) as (b' & Hb' & <-). destruct Hs as [_ <-]. unfold running_pid, pid_of.
  change (current (k_sched (strip (m_kernel m)))) with (current (k_sched (m_kernel m))) in Hb'. by rewrite Hb'.
Qed.
Lemma user_running_shows m L t : shows (m_kernel m) L t -> user_running m = true ->
  running m = User /\ current (k_sched t) <> idle_p (k_sched t).
Proof.
  intros [_ <-] Hu. unfold user_running in Hu. destruct (running m); [|done]. split; [done|].
  change (current (k_sched (m_kernel m)) <> idle_p (k_sched (m_kernel m))). intros E. by rewrite E, Z.eqb_refl in Hu.
Qed.

Lemma context_of_insert s cs pid x q : context_of (mk_machine s (<[pid := x]> cs)) q =
  if decide (q = pid) then x else context_of (MM := MM) (mk_machine s cs) q.
Proof.
  unfold context_of. cbn [m_contexts]. case_decide; [subst; by rewrite lookup_insert_eq|by rewrite lookup_insert_ne].
Qed.

(** A call that returns. *)
Lemma settle_done m rsp r s : settle m rsp (Done r s) = Some (mk_machine s (<[running_pid m := User]> (m_contexts m))).
Proof. done. Qed.
Lemma inv_done N m c s c' L t W G b : contexts_ok m c -> shows s L t -> steady t L -> k_procs t !! current (k_sched t) = Some b ->
  p_state b = PROCESS_STATE_RUNNING -> shared t W G c' -> asked c' = delete (running_pid m) (asked c) ->
  (forall id, N id = line_of t W id) -> sys_at N (mk_machine s (<[running_pid m := User]> (m_contexts m))) c'.
Proof.
  intros Hc Hs Hst Hb Hr Hsh Ea HN. exists L, t, W, G, b. split_and!; try done. intros pid. rewrite context_of_insert, Ea.
  case_decide; [subst; apply lookup_delete_eq|]. rewrite lookup_delete_ne by done. apply Hc.
Qed.

Lemma sem_wait_takes_spec s L t W id i x : shows s L t -> sems_ok t W -> slot_of t id = Some i -> k_sems t !! i = Some x ->
  0 < sem_value x -> current (k_sched t) <> 0 ->
  let t' := t <| k_sems ::= <[i := x <| sem_value := sem_value x - 1 |>]> |> in
  exists s', sem_wait_by_id id s = Done 1 s' /\ shows s' L t' /\ sems_ok t' W.
Proof.
  intros Hs Hok Hsl Hx Hv H0 t'. destruct (wait_spec s L t W id i x (fun r s' => r = 1 /\ shows s' L t' /\ sems_ok t' W)) as (r & s' & E & -> & ?); eauto.
Qed.
Lemma dispatch_wait id s : syscallDispatcher wakeups id 0 0 0 0 SYS_SEM_WAIT s = sem_wait_by_id id s.
Proof. done. Qed.
Lemma dispatch_signal id s : syscallDispatcher wakeups id 0 0 0 0 SYS_SEM_SIGNAL s = sem_signal_by_id id s.
Proof. done. Qed.
Lemma dispatch_yield s : syscallDispatcher wakeups 0 0 0 0 0 SYS_YIELD s = syscall_yield s.
Proof. done. Qed.

Lemma steady_parks t t' L i x me : steady t L -> sched_ok t' L -> me = current (k_sched t) -> parks t t' i x me -> steady t' L.
Proof.
  intros [_ Hnf Hfin (b & Hb & _ & Ho)] Hok -> Hpk. pose proof Hpk as [_ [Ec _] (_ & bm & _ & Hbm & _ & Hbl) _].
  split; [done| |done|].
  - intros p b' Hb'. destruct (parks_proc _ _ _ _ _ _ _ Hpk Hb') as (b0 & Hb0 & _ & Hs).
    destruct (decide (p = current (k_sched t))) as [->|Hne]; [congruence|]. rewrite <- Hs by done. by apply (Hnf p).
  - rewrite Ec. exists bm. auto.
Qed.

Lemma clients_eta c pid : asked c !! pid = None -> mk_clients (inside c) (delete pid (asked c)) = c.
Proof. intros Ha. rewrite delete_id by done. by destruct c. Qed.

Lemma enter_ok N rsp m c id : sys_at N m c -> permitted m c (Enter id) = true ->
  exists m' c', act rsp m c (Enter id) = Some (m', c') /\ sys_at (moved (running_pid m) (Enter id) c' N) m' c'.
Proof.
  intros (L & t & W & G & b & Hs & Hst & Hb & Hr & Hsh & Hc & HN) Hp. unfold act. rewrite Hp.
  cbn [permitted] in Hp. apply andb_true_iff in Hp as [Hu Hni%negb_true_iff%bool_decide_eq_false].
  destruct (user_running_shows _ _ _ Hs Hu) as [Hctx Hi]. pose proof (Hc (running_pid m)) as Ha. fold (running m) in Ha. rewrite Hctx in Ha.
  pose proof (running_pid_shows _ _ _ _ Hs Hb) as Epid. rewrite Epid in Ha, Hni.
  cbn [runs_code noted]. rewrite dispatch_wait. pose proof (sh_sems _ _ _ _ Hsh) as Hsem. pose proof (st_sched _ _ Hst) as Hok.
  assert (forall r s' t' c', sem_wait_by_id id (m_kernel m) = Done r s' -> shows s' L t' -> steady t' L ->
    k_procs t' !! current (k_sched t') = Some b -> shared t' W G c' -> returned c (running_pid m) id r = c' ->
    (forall j, line_of t' W j = line_of t W j) ->
    exists m' c', (m'' ← settle m rsp (sem_wait_by_id id (m_kernel m));
      Some (m'', noted c (running_pid m) (Enter id) (sem_wait_by_id id (m_kernel m)))) = Some (m', c') /\
      sys_at (moved (running_pid m) (Enter id) c' N) m' c') as Hdone.
  { intros r s' t' c' E Hs' Hst' Hb' Hsh' <- Hline. rewrite E, settle_done. cbn [mbind option_bind noted]. eexists _, _. split; [reflexivity|].
    eapply inv_done; [done|exact Hs'|done|exact Hb'|done|exact Hsh'| |].
    - unfold returned. by destruct (r =? 1).
    - intros j. rewrite Hline, <- HN. cbn [moved]. rewrite decide_False; [done|].
      unfold returned. destruct (r =? 1); cbn [asked]; by rewrite lookup_delete_eq. }
  destruct (slot_of t id) as [i|] eqn:Hsl.
  2: { assert (runs (sem_wait_by_id id) (m_kernel m) (fun r s' => r = 0 /\ s' = m_kernel m)) as (r & s' & E & -> & ->).
       { apply runs_bind. eapply sem_get_spec; [exact Hs|]. rewrite Hsl. by apply runs_ret. }
       eapply Hdone; [exact E|exact Hs|done..| |done]. rewrite Epid. by apply clients_eta. }
  destruct (slot_of_some _ _ _ Hsl) as (x & Hx & _ & _). destruct (Z.lt_ge_cases 0 (sem_value x)) as [Hv|Hv].
  - assert (current (k_sched t) <> 0) as H0 by (eapply shows_null; [exact Hs|by eexists]).
    destruct (sem_wait_takes_spec (m_kernel m) L t W id i x Hs Hsem Hsl Hx Hv H0) as (s' & E & Hs' & Hok').
    eapply Hdone; [exact E|exact Hs'| |exact Hb|by eapply shared_takes|by rewrite Epid|].
    + destruct Hst as [[? ? ? ? ?] ? ? ?]. by split.
    + apply line_same; [|done]. intros j. by apply slot_of_keys, keys_insert with x.
  - destruct (wait_blocks (m_kernel m) L t W id i x b (fun s' k => exists t', (forall s'', k s'' = Done 1 s'') /\ shows s' L t' /\
      sched_ok t' L /\ sems_ok t' (updW W i (W i ++ [current (k_sched t)])) /\ parks t t' i x (current (k_sched t))))
      as (s1 & k & E & t1 & Hk & H1 & Hok1 & Hsem1 & Hpk); [exact Hs|done..| |].
    { intros s' k t' Hk H' Hsok' Hok' _ Hpk. by exists t'. }
    rewrite E. cbn [settle].
    destruct (tick_spec s1 L t1 rsp H1 (steady_parks _ _ _ _ _ _ Hst Hok1 eq_refl Hpk)) as (r & s2 & E2 & L2 & t2 & b2 & H2 & Hst2 & Hq & Hb2 & Hr2).
    rewrite E2. cbn [mbind option_bind]. eexists _, _. split; [reflexivity|]. rewrite Epid.
    exists L2, t2, (updW W i (W i ++ [current (k_sched t)])), G, b2. split_and!; try done.
    + eapply shared_quiet; [exact Hq|]. by eapply shared_blocks.
    + intros pid. rewrite context_of_insert. cbn [asked]. case_decide as Eq.
      * exact Hk.
      * rewrite lookup_insert_ne by done. apply Hc.
    + intros j. rewrite (line_quiet _ _ _ _ Hq), (line_parks t t1 W id i x _ j Hpk Hsl Hx), (pid_in_some _ _ _ Hb), <- !HN.
      cbn [moved asked]. by rewrite decide_True by apply lookup_insert_eq.
Qed.

Lemma leave_ok N rsp m c id : sys_at N m c -> permitted m c (Leave id) = true ->
  exists m' c', act rsp m c (Leave id) = Some (m', c') /\ sys_at (moved (running_pid m) (Leave id) c' N) m' c'.
Proof.
  intros (L & t & W & G & b & Hs & Hst & Hb & Hr & Hsh & Hc & HN) Hp. unfold act. rewrite Hp.
  cbn [permitted] in Hp. apply andb_true_iff in Hp as [Hu Hin%bool_decide_eq_true].
  destruct (user_running_shows _ _ _ Hs Hu) as [Hctx _]. pose proof (Hc (running_pid m)) as Ha. fold (running m) in Ha. rewrite Hctx in Ha.
  cbn [runs_code noted]. rewrite dispatch_signal. set (pid := running_pid m) in *.
  pose proof (sh_sems _ _ _ _ Hsh) as Hsem. pose proof (st_sched _ _ Hst) as Hok.
  destruct (proj2 (sh_inside _ _ _ _ Hsh) pid id Hin) as [[i Hsl] _]. destruct (slot_of_some _ _ _ Hsl) as (x & Hx & Hu1 & _).
  set (c' := mk_clients (filter (fun y => y <> (pid, id)) (inside c)) (asked c)).
  assert (forall r s' L' t' W' G', sem_signal_by_id id (m_kernel m) = Done r s' -> shows s' L' t' -> sched_ok t' L' ->
    L' Finished = [] -> (forall p b', k_procs t' !! p = Some b' -> exists b, k_procs t !! p = Some b /\ (p_state b' = p_state b \/ p_state b = PROCESS_STATE_BLOCKED /\ p_state b' = PROCESS_STATE_READY)) ->
    current (k_sched t') = current (k_sched t) -> (forall b', k_procs t' !! current (k_sched t) = Some b' -> p_state b' = PROCESS_STATE_RUNNING) ->
    shared t' W' G' c' -> (forall j, line_of t' W' j = moved pid (Leave id) c' N j) ->
    exists m' c'', (m'' ← settle m rsp (sem_signal_by_id id (m_kernel m)); Some (m'', c')) = Some (m', c'') /\
      sys_at (moved pid (Leave id) c'' N) m' c'') as Hdone.
  { intros r s' L' t' W' G' E Hs' Hok' Hfin' Hprocs Ec Hrun Hsh' Hline. rewrite E, settle_done. cbn [mbind option_bind]. eexists _, _. split; [reflexivity|].
    destruct (so_current _ _ Hok') as [b' Hb']. pose proof Hb' as Hb2. rewrite Ec in Hb2. pose proof (Hrun _ Hb2) as Hr'.
    eapply inv_done; [exact Hc|exact Hs'| |exact Hb'|exact Hr'|exact Hsh'|cbn; by rewrite delete_id|by intros j].
    eapply steady_running; [exact Hok'| |exact Hfin'|exact Hb'|exact Hr'].
    intros p d' Hd' Ef. destruct (Hprocs p d' Hd') as (d & Hd & [E1|[_ E1]]); [|congruence].
    apply (st_none_finished _ _ Hst p d Hd). congruence. }
  destruct (sh_units _ _ _ _ Hsh id i x Hsl Hx) as (Hv & v0 & _ & Hv0 & Hcount).
  assert (1 <= length (inside_of c id))%nat as Hlen.
  { assert ((pid, id) ∈ inside_of c id) as Hi by (by apply list_elem_of_filter). destruct (inside_of c id); [by apply elem_of_nil in Hi|simpl; lia]. }
  destruct (W i) as [|w ws] eqn:HW.
  - destruct (signal_frees (m_kernel m) L t W id i x (fun r s' => let t' := t <| k_sems ::= <[i := x <| sem_value := sem_value x + 1 |>]> |> in
      shows s' L t' /\ sems_ok t' W)) as (r & s' & E & Hs' & Hok'); [exact Hs|exact Hsem|done|done|done|lia|done|].
    eapply (Hdone r s' L _ W (hand G id [])); [exact E|exact Hs'| |apply Hst|eauto|done| | |].
    + destruct Hok; by split.
    + intros b' Hb'. cbn in Hb'. congruence.
    + eapply (shared_leaves t _ W W G c pid id i x (sem_value x + 1) []); [exact Hsh|done|done|done| |exact Hok'|simpl; lia|lia|constructor|auto|auto|].
      * split; [by eexists|by destruct t|done|done|eauto].
      * by intros q ?%elem_of_nil.
    + intros j. rewrite (line_same t); [|intros k; by apply slot_of_keys, keys_insert with x|done]. rewrite <- HN. cbn [moved].
      case_decide; [subst|done]. rewrite HN. unfold line_of. by rewrite Hsl, HW.
  - assert (w ∈ W i) as Hw by (rewrite HW; by left). destruct (sk_blocked _ _ Hsem i w Hw) as (bw & Hbw & Hbl).
    destruct (signal_wakes (m_kernel m) L t W id i x w ws bw (fun r s' => exists t' b',
      let pr := clamp_priority (p_priority bw) in let L' := upd (upd L Blocked (without w (L Blocked))) (Ready pr) (L (Ready pr) ++ [w]) in
      shows s' L' t' /\ sched_ok t' L' /\ sems_ok t' (updW W i ws) /\ signalled t t' i x (sem_value x) /\
      k_procs t' !! w = Some b' /\ p_state b' = PROCESS_STATE_READY)) as (r & s' & E & t' & b' & Hs' & Hok' & Hsem' & Hsg & Hb' & Hr'); try done.
    { intros s' t' b' H' Hsok' Hok' Hsg Hb' Hr' _. by exists t', b'. }
    destruct (sh_waits _ _ _ _ Hsh i w Hw) as (bw0 & id0 & Hbw0 & Hsl0 & Ha0). rewrite Hbw in Hbw0. injection Hbw0 as <-.
    rewrite (slot_of_inj _ _ _ _ Hsl0 Hsl) in Ha0. pose proof Hsg as [_ _ [Ec _] _ Hprocs].
    assert (p_pid b' = p_pid bw) as Epw by (destruct (Hprocs w b' Hb') as (d & Hd & ? & _); congruence).
    eapply (Hdone r s' _ t' (updW W i ws) (hand G id [p_pid bw])); [exact E|exact Hs'|exact Hok'| | |exact Ec| | |].
    + rewrite !upd_ne by done. apply Hst.
    + intros p d' Hd'. destruct (Hprocs p d' Hd') as (d & ? & _ & ?). eauto.
    + intros d' Hd'. destruct (Hprocs _ d' Hd') as (d & Hd & _ & Hsd). rewrite Hb in Hd. injection Hd as <-.
      destruct Hsd as [?|[? _]]; congruence.
    + pose proof (sk_list _ _ Hsem i x Hx) as [_ _ _ Hnd]. rewrite HW in Hnd. apply NoDup_cons in Hnd as [_ [Hwn _]%NoDup_cons].
      eapply (shared_leaves t t' W); [exact Hsh|exact Hsl|exact Hx|exact Hin|exact Hsg|exact Hsem'|simpl; lia|done|apply NoDup_singleton| | |].
      * intros j p. unfold updW. case_decide; [subst; rewrite HW, elem_of_cons; tauto|done].
      * intros j p Hp. unfold updW. case_decide; [subst|by left]. rewrite HW in Hp. apply elem_of_cons in Hp as [->|Hp]; [right|by left].
        split; [done|]. exists b'. rewrite Epw. split_and!; [done|by left|done].
      * intros q ->%list_elem_of_singleton. split; [done|]. exists w, b'. done.
    + intros j. rewrite (line_signalled t t' W id i x _ ws j Hsg Hsl Hx), <- HN. cbn [moved].
      case_decide; [subst|done]. rewrite HN. unfold line_of. by rewrite Hsl, HW.
Qed.

Lemma steady_tick t L now : steady t L -> steady (t <| k_sched ::= fun d => d <| last_switch_tick := now |> |>) L.
Proof. intros [[? ? ? ? ?] ? ? ?]. split; [by split|done..]. Qed.

Lemma yield_ok N rsp m c : sys_at N m c -> permitted m c Yield = true ->
  exists m' c', act rsp m c Yield = Some (m', c') /\ sys_at (moved (running_pid m) Yield c' N) m' c'.
Proof.
  intros (L & t & W & G & b & Hs & Hst & Hb & Hr & Hsh & Hc & HN) Hp. unfold act. rewrite Hp. cbn [permitted runs_code] in *.
  destruct (user_running_shows _ _ _ Hs Hp) as [_ Hi].
  assert (current (k_sched t) <> 0) as H0 by (eapply shows_null; [exact Hs|by eexists]).
  rewrite dispatch_yield. unfold syscall_yield, scheduler_current_process, gets_sched.
  assert (suspends (me ← gets (fun s => current (k_sched s)); if me =? 0 then mret 0 else scheduler_yield_current ;; mret 1) (m_kernel m) TimerTick
    (fun s' k => (forall s, k s = Done 1 s) /\ exists now, shows s' L (t <| k_sched ::= fun d => d <| last_switch_tick := now |> |>)))
    as (s1 & k & E & Hk & now & H1).
  { apply suspends_bind. eapply shows_gets; [exact Hs|done|]. rewrite (proj2 (Z.eqb_neq _ 0) H0).
    eapply yield_spec; [exact Hs|done|done|]. intros s' now H'. split; [done|by exists now]. }
  rewrite E. cbn [settle noted].
  destruct (tick_spec s1 L _ rsp H1 (steady_tick _ _ _ Hst)) as (r & s2 & E2 & L2 & t2 & b2 & H2 & Hst2 & Hq & Hb2 & Hr2).
  rewrite E2. cbn [mbind option_bind]. eexists _, _. split; [reflexivity|].
  exists L2, t2, W, G, b2. split_and!; try done.
  - eapply shared_quiet; [|exact Hsh]. etrans; [|exact Hq]. by split.
  - intros pid. rewrite context_of_insert. case_decide; [exact Hk|apply Hc].
  - intros j. cbn [moved]. rewrite HN, (line_quiet _ _ _ _ Hq). symmetry. by apply line_same.
Qed.

Lemma resume_ok N rsp m c : sys_at N m c -> permitted m c Resume = true ->
  exists m' c', act rsp m c Resume = Some (m', c') /\ sys_at (moved (running_pid m) Resume c' N) m' c'.
Proof.
  intros (L & t & W & G & b & Hs & Hst & Hb & Hr & Hsh & Hc & HN) Hp. unfold act. rewrite Hp. cbn [permitted runs_code] in *.
  pose proof (Hc (running_pid m)) as Hk. fold (running m) in Hk. destruct (running m) as [|tr k]; [done|].
  rewrite Hk, settle_done. cbn [mbind option_bind noted]. pose proof (running_pid_shows _ _ _ _ Hs Hb) as Epid.
  eexists _, _. split; [reflexivity|]. destruct (asked c !! running_pid m) as [id|] eqn:Ha.
  - eapply inv_done; [exact Hc|exact Hs|done|exact Hb|done| | |exact HN].
    + eapply shared_resumes; [exact Hsh|exact Ha|exact Hb|done|congruence].
    + unfold returned. by rewrite Z.eqb_refl.
  - eapply inv_done; [exact Hc|exact Hs|done|exact Hb|done|exact Hsh|by rewrite delete_id|exact HN].
Qed.

Lemma tick_ok N rsp m c : sys_at N m c -> permitted m c Tick = true ->
  exists m' c', act rsp m c Tick = Some (m', c') /\ sys_at (moved (running_pid m) Tick c' N) m' c'.
Proof.
  intros (L & t & W & G & b & Hs & Hst & Hb & Hr & Hsh & Hc & HN) Hp. unfold act. rewrite Hp. unfold interrupt.
  destruct (tick_spec _ _ _ rsp Hs Hst) as (r & s' & E & L' & t' & b' & Hs' & Hst' & Hq & Hb' & Hr'). rewrite E.
  cbn [mbind option_bind]. eexists _, _. split; [reflexivity|]. exists L', t', W, G, b'. split_and!; try done; [by eapply shared_quiet|].
  intros j. cbn [moved]. by rewrite HN, (line_quiet _ _ _ _ Hq).
Qed.

(** No event is stuck: a permitted one leads to a state in which the invariant holds. *)
Lemma act_ok N rsp m c e : sys_at N m c -> permitted m c e = true ->
  exists m' c', act rsp m c e = Some (m', c') /\ sys_at (moved (running_pid m) e c' N) m' c'.
Proof. destruct e; [apply enter_ok|apply leave_ok|apply yield_ok|apply resume_ok|apply tick_ok]. Qed.

Lemma act_keeps N rsp m c e m' c' : sys_at N m c -> act rsp m c e = Some (m', c') -> sys_at (moved (running_pid m) e c' N) m' c'.
Proof.
  intros Hi E. destruct (permitted m c e) eqn:Hp; [|unfold act in E; by rewrite Hp in E].
  destruct (act_ok N rsp m c e Hi Hp) as (m2 & c2 & E2 & Hi2). rewrite E in E2. by injection E2 as <- <-.
Qed.
Lemma acts_ok es : forall m c m' c', sys_inv m c -> acts es m c = Some (m', c') -> sys_inv m' c'.
Proof.
  induction es as [|[e rsp] es IH]; intros m c m' c' Hi E; simpl in E; [by injection E as <- <-|].
  apply bind_Some in E as ([m1 c1] & E1 & E). destruct Hi as [N Hi]. eapply IH; [|exact E]. eexists. by eapply act_keeps.
Qed.
End Invariant.

(** ** The theorem *)

(** Nobody waits yet, pids are distinct, no semaphore has a negative value. *)
Definition fresh_system m : Prop := exists L t b,
  shows (m_kernel m) L t /\ steady t L /\ k_procs t !! current (k_sched t) = Some b /\ p_state b = PROCESS_STATE_RUNNING /\
  sems_ok t (fun _ => []) /\ (forall pid, context_of m pid = User) /\
  (forall p q b d, k_procs t !! p = Some b -> k_procs t !! q = Some d -> p_pid b = p_pid d -> p = q) /\
  (forall id v, value_of t id = Some v -> 0 <= v).

Lemma fresh_inv m : fresh_system m -> sys_inv (value_of (m_kernel m)) m no_clients.
Proof.
  intros (L & t & b & Hs & Hst & Hb & Hr & Hsem & Hc & Hpid & Hv). exists (fun _ => []), L, t, (fun _ => []), (fun _ => []), b.
  assert (forall id, value_of (m_kernel m) id = value_of t id) as Ev by (destruct Hs as [_ <-]; done).
  split_and!; try done; [|intros pid; by rewrite Hc|intros id; unfold line_of; by destruct (slot_of t id)]. split; try done.
  - by intros i p ?%elem_of_nil.
  - by intros id pid ?%elem_of_nil.
  - intros id. constructor.
  - intros id i x Hsl Hx. assert (value_of t id = Some (sem_value x)) as E by (unfold value_of; rewrite Hsl; cbn; by rewrite Hx).
    split; [by eapply Hv|]. exists (sem_value x). rewrite Ev, E. split_and!; [done| |simpl; lia].
    destruct (slot_of_some _ _ _ Hsl) as (x' & Hx' & Hu & _). rewrite Hx in Hx'. injection Hx' as <-. by apply (sk_unit _ _ Hsem i x Hx Hu).
  - split; [constructor|]. by intros pid id ?%elem_of_nil.
  - intros id [v E]. rewrite Ev in E. unfold value_of in E. destruct (slot_of t id); [by eexists|done].
Qed.

Lemma blocked_pid_shows m L t pid p b : shows (m_kernel m) L t ->
  (forall p q b d, k_procs t !! p = Some b -> k_procs t !! q = Some d -> p_pid b = p_pid d -> p = q) ->
  k_procs t !! p = Some b -> p_pid b = pid -> blocked_pid (m_kernel m) pid <-> p_state b = PROCESS_STATE_BLOCKED.
Proof.
  intros Hs Hinj Hb Epid. split.
  - intros (q & d & Hd & Ed & Hbl). pose proof (shows_lookup _ _ _ q Hs) as E. rewrite Hd in E. cbn in E.
    assert (q = p) as -> by (eapply Hinj; [exact E|exact Hb|by rewrite Epid]). rewrite Hb in E. by injection E as ->.
  - intros Hbl. destruct (shows_proc _ _ _ _ _ Hs Hb) as (b' & Hb' & <-). exists p, b'. done.
Qed.

(** C3: mutual exclusion.  Whatever sequence of waits, signals, resumptions and
    timer interrupts the processes of a fresh system go through, the units of every
    semaphore are conserved: those that are free, those of the processes inside
    their section, and those handed to processes that were woken and have not yet
    gone on add up to what there was.  So at most that many processes are inside,
    one for a semaphore that starts at 1; nobody stays blocked while a unit is free;
    and the kernel never gets stuck: every call that the rules permit completes. *)
Theorem mutual_exclusion m0 es m c :
  fresh_system m0 -> acts es m0 no_clients = Some (m, c) ->
  (forall id v0, value_of (m_kernel m0) id = Some v0 -> exists v woken,
     value_of (m_kernel m) id = Some v /\ 0 <= v /\ NoDup (inside_of c id) /\ NoDup woken /\
     v + Z.of_nat (length (inside_of c id)) + Z.of_nat (length woken) = v0 /\
     (forall pid, pid ∈ woken <-> asked c !! pid = Some id /\ ~ blocked_pid (m_kernel m) pid) /\
     (0 < v -> forall pid, asked c !! pid = Some id -> pid ∈ woken)) /\
  (forall e rsp, permitted m c e = true -> is_Some (act rsp m c e)).
Proof.
  intros Hf Hes. pose proof (acts_ok _ _ _ _ _ _ (fresh_inv _ Hf) Hes) as [N Hi]. split.
  - intros id v0 Hv0. destruct Hi as (L & t & W & G & b & Hs & Hst & Hb & Hr & Hsh & Hc & _).
    destruct (sh_cap _ _ _ _ _ Hsh id) as [i Hsl]; [by eexists|]. destruct (slot_of_some _ _ _ Hsl) as (x & Hx & Hu & _).
    destruct (sh_units _ _ _ _ _ Hsh id i x Hsl Hx) as (Hv & v & Ev & _ & Ecount). rewrite Hv0 in Ev. injection Ev as <-.
    assert (forall pid, asked c !! pid = Some id -> exists p b, k_procs t !! p = Some b /\ p_pid b = pid /\
      (p_state b = PROCESS_STATE_BLOCKED /\ p ∈ W i \/ p_state b <> PROCESS_STATE_BLOCKED /\ pid ∈ G id)) as Hasked.
    { intros pid Ha. destruct (sh_asked _ _ _ _ _ Hsh pid id Ha) as (p & d & j & Hd & Ed & Hj & _ & Hst'). rewrite Hsl in Hj. injection Hj as <-. eauto. }
    exists (sem_value x), (G id). split_and!; [|done|by apply NoDup_filter, Hsh|by apply Hsh|done| |].
    + assert (value_of (m_kernel m) id = value_of t id) as -> by (destruct Hs as [_ <-]; done).
      unfold value_of. rewrite Hsl. cbn. by rewrite Hx.
    + intros pid. split.
      * intros Hg. destruct (sh_woken _ _ _ _ _ Hsh id pid Hg) as (Ha & p & d & Hd & Ed & Hn). split; [done|].
        by rewrite (blocked_pid_shows m L t pid p d Hs (sh_pids _ _ _ _ _ Hsh) Hd Ed).
      * intros [Ha Hn]. destruct (Hasked pid Ha) as (p & d & Hd & Ed & [[Hbl _]|[_ ?]]); [|done].
        destruct Hn. by rewrite (blocked_pid_shows m L t pid p d Hs (sh_pids _ _ _ _ _ Hsh) Hd Ed).
    + intros Hpos pid Ha. destruct (Hasked pid Ha) as (p & d & _ & _ & [[_ Hw]|[_ ?]]); [|done].
      destruct (sk_unit _ _ (sh_sems _ _ _ _ _ Hsh) i x Hx Hu) as (_ & _ & Hnil). rewrite (Hnil Hpos) in Hw. by apply elem_of_nil in Hw.
  - intros e rsp Hp. destruct (act_ok _ N rsp m c e Hi Hp) as (m' & c' & E & _). by eexists.
Qed.
End System.

(** ** Two processes and a semaphore with one unit *)

#[local] Instance section_text : Text := { process_start := 0x100; idle_entry := 0x200 }.
#[local] Instance section_manager : MemManager mm := simple_manager 0x20000.

(** The process 2 runs, 3 is ready. *)
Definition section_start : kstate mm :=
  kernel_boot mm_boot demo_mode
    <| k_procs := list_to_map
         [(0x1000, demo_process 1 1 0 PROCESS_STATE_RUNNING);
          (0x2000, demo_process 2 1 0 PROCESS_STATE_RUNNING);
          (0x3000, demo_process 3 1 0 PROCESS_STATE_READY)] |>
    <| k_sems ::= fun l => mk_sem 1 1 1 0 0 0 true :: drop 1 l |>
    <| k_next_sem_id := 2 |>
    <| k_sched ::= fun c => c <| current := 0x2000 |> <| idle_p := 0x1000 |> |>.
Definition section_queues : qref -> list Z := (spec_ops [OpPush (Ready 1) 0x3000] (fun _ => [])).2.
Definition section_machine : machine := mk_machine (after (run_ops [OpPush (Ready 1) 0x3000]) section_start) ∅.

Lemma section_shows : shows (m_kernel section_machine) section_queues (strip section_start).
Proof.
  assert (queues section_start (fun _ => [])) as Hq.
  { apply queues_empty; try reflexivity. apply (bool_decide_unpack (map_Forall _ _)). vm_compute. exact I. }
  pose proof (run_ops_shows [OpPush (Ready 1) 0x3000] section_start _ Hq) as H.
  apply runs_after in H as (rs & _ & H); [exact H|]. simpl. unfold op_ok.
  split_and!; try done; try (eexists; vm_compute; reflexivity). intros q' _. apply not_elem_of_nil.
Qed.

Lemma section_procs : map_Forall (fun p b => sound b /\ p_state b <> PROCESS_STATE_FINISHED /\
    (p_state b = PROCESS_STATE_RUNNING -> p = 0x2000 \/ p = 0x1000) /\
    map_Forall (fun q d => p_pid b = p_pid d -> p = q) (k_procs (strip section_start))) (k_procs (strip section_start)).
Proof. apply (bool_decide_unpack _). vm_compute. exact I. Qed.

Lemma section_steady : steady (strip section_start) section_queues.
Proof.
  eapply steady_running; [split| |reflexivity|vm_compute; reflexivity|reflexivity].
  - intros p b Hb. by apply (section_procs p b Hb).
  - intros q p b Hp. unfold section_queues in Hp. cbn in Hp. unfold upd in Hp. case_decide; subst; cbn in Hp.
    + apply list_elem_of_singleton in Hp as ->. vm_compute. by intros [= <-].
    + by apply elem_of_nil in Hp.
  - eexists. split; vm_compute; reflexivity.
  - intros p b Hb. by apply (section_procs p b Hb).
  - eexists. vm_compute. reflexivity.
  - intros p b Hb. by apply (section_procs p b Hb).
Qed.

Lemma section_sems i x : k_sems (strip section_start) !! i = Some x -> x = mk_sem 1 1 1 0 0 0 true \/ x = zero_sem.
Proof.
  destruct i as [|i]; cbn [k_sems lookup list_lookup]; [intros [= <-]; by left|]. intros Hx.
  change (replicate 63 zero_sem !! i = Some x) in Hx. right. by apply lookup_replicate in Hx as [-> _].
Qed.

Lemma section_fresh : fresh_system section_machine.
Proof.
  exists section_queues, (strip section_start). eexists. split; [exact section_shows|]. split; [exact section_steady|].
  split; [vm_compute; reflexivity|]. split; [reflexivity|]. split; [|split; [|split]].
  - split.
    + intros i x [->| ->]%section_sems; split; try reflexivity; apply NoDup_singleton.
    + intros i x [->| ->]%section_sems; done.
    + by intros i p ?%elem_of_nil.
    + by intros i j p ?%elem_of_nil.
  - intros pid. unfold context_of. cbn [m_contexts section_machine]. by rewrite lookup_empty.
  - intros p q b d Hb Hd E. destruct (section_procs p b Hb) as (_ & _ & _ & Hq). by apply (Hq q d Hd).
  - intros id v E. unfold value_of in E. apply bind_Some in E as (i & _ & E). apply fmap_Some in E as (x & Hx & ->).
    by destruct (section_sems i x Hx) as [->| ->].
Qed.

(** Process 2 is inside when its time is over; 3 blocks, and goes on when 2 has left. *)
Definition section_events : list (event * Z) :=
  [(Enter 1, 0x8000)] ++ replicate 8 (Tick, 0x8000) ++ [(Enter 1, 0x7000); (Leave 1, 0x8000)] ++ replicate 8 (Tick, 0x8000) ++ [(Resume, 0x7000)].
Definition section_end : machine * clients := default (section_machine, no_clients) (acts 0 section_events section_machine no_clients).

Lemma section_acts : acts 0 section_events section_machine no_clients = Some (section_end.1, section_end.2).
Proof.
  assert (bool_decide (is_Some (acts 0 section_events section_machine no_clients)) = true) as E by (vm_compute; reflexivity).
  apply bool_decide_eq_true in E as [[m c] E]. unfold section_end. by rewrite E.
Qed.

Lemma mutual_exclusion_witness :
  inside section_end.2 = [(3, 1)] /\ value_of (m_kernel section_machine) 1 = Some 1 /\
  ((forall id v0, value_of (m_kernel section_machine) id = Some v0 -> exists v woken,
     value_of (m_kernel section_end.1) id = Some v /\ 0 <= v /\ NoDup (inside_of section_end.2 id) /\ NoDup woken /\
     v + Z.of_nat (length (inside_of section_end.2 id)) + Z.of_nat (length woken) = v0 /\
     (forall pid, pid ∈ woken <-> asked section_end.2 !! pid = Some id /\ ~ blocked_pid (m_kernel section_end.1) pid) /\
     (0 < v -> forall pid, asked section_end.2 !! pid = Some id -> pid ∈ woken)) /\
   (forall e rsp, permitted section_end.1 section_end.2 e = true -> is_Some (act 0 rsp section_end.1 section_end.2 e))).
Proof.
  split; [vm_compute; reflexivity|]. split; [vm_compute; reflexivity|].
  exact (mutual_exclusion 0 section_machine section_events section_end.1 section_end.2 section_fresh section_acts).
Defined.
