(* ===== verification/SemFair.v ===== *)
(** * Fairness of the semaphores

    On the system of [SemSystem]: who is blocked in a wait goes on after at most as
    many signals as processes wait, and nobody who asks later comes first. *)
From S2P Require Import Prelude LinkedList CLib MmInterface MmSimple KState ProcQueue SchedCore QueueFacts SchedView QueueTheorems Semaphore Pipe Process Scheduler SchedFacts SchedSwitch SemFacts SchedTheorems SchedCalls SemTheorems Syscalls Machine SemSystem.

#[export] Instance event_eq_dec : EqDecision event.
Proof. solve_decision. Defined.

Section Fair.
Context {MM : Type} {mmgr : MemManager MM} {txt : Text} (wakeups : nat).
Implicit Types (m : machine (MM := MM)) (c : clients) (e : event) (N : Z -> list Z).

(** The signals of a run, and the processes that have asked for a semaphore. *)
Definition leaves (id : Z) (es : list (event * Z)) : nat := length (filter (fun x => x.1 = Leave id) es).
Definition askers (c : clients) (id : Z) : nat := size (filter (fun x => x.2 = id) (asked c)).
(** The process is blocked from the first to the last state of a run. *)
Fixpoint stays (pid : Z) (es : list (event * Z)) m c : Prop :=
  blocked_pid (m_kernel m) pid /\
  match es with
  | [] => True
  | (e, rsp) :: es => match act wakeups rsp m c e with Some (m', c') => stays pid es m' c' | None => True end
  end.

Section Lines.
Context (cap : Z -> option Z).

(** ** The lines *)

Lemma in_line N m c pid id : sys_at cap N m c -> pid ∈ N id <-> asked c !! pid = Some id /\ blocked_pid (m_kernel m) pid.
Proof.
  intros (L & t & W & G & b & Hs & _ & _ & _ & Hsh & _ & HN). rewrite HN. unfold line_of.
  assert (forall p d, k_procs t !! p = Some d -> p_pid d = pid ->
    blocked_pid (m_kernel m) pid <-> p_state d = PROCESS_STATE_BLOCKED) as Hbl
    by (intros p d Hd Ed; by apply (blocked_pid_shows m L t pid p d Hs (sh_pids _ _ _ _ _ Hsh))).
  split.
  - destruct (slot_of t id) as [i|] eqn:Hsl; [|by intros ?%elem_of_nil]. intros (p & -> & Hp)%list_elem_of_fmap.
    destruct (sh_waits _ _ _ _ _ Hsh i p Hp) as (d & id' & Hd & Hsl' & Ha). rewrite (pid_in_some _ _ _ Hd) in Hbl |- *.
    rewrite (slot_of_inj _ _ _ _ Hsl' Hsl) in Ha. split; [done|]. rewrite (Hbl p d Hd eq_refl).
    destruct (sk_blocked _ _ (sh_sems _ _ _ _ _ Hsh) i p Hp) as (d' & Hd' & E). congruence.
  - intros [Ha Hb]. destruct (sh_asked _ _ _ _ _ Hsh pid id Ha) as (p & d & i & Hd & Ed & -> & _ & Hst).
    rewrite (Hbl p d Hd Ed) in Hb. destruct Hst as [[_ Hw]|[Hn _]]; [|done]. apply list_elem_of_fmap. exists p.
    by rewrite (pid_in_some _ _ _ Hd).
Qed.

Lemma line_nodup N m c id : sys_at cap N m c -> NoDup (N id).
Proof.
  intros (L & t & W & G & b & Hs & _ & _ & _ & Hsh & _ & HN). rewrite HN. unfold line_of.
  destruct (slot_of t id) as [i|] eqn:Hsl; [|constructor]. destruct (slot_of_some _ _ _ Hsl) as (x & Hx & _ & _).
  apply NoDup_fmap_2_strong.
  - intros p q Hp Hq. destruct (sh_waits _ _ _ _ _ Hsh i p Hp) as (d & _ & Hd & _). destruct (sh_waits _ _ _ _ _ Hsh i q Hq) as (e & _ & He & _).
    rewrite (pid_in_some _ _ _ Hd), (pid_in_some _ _ _ He). by apply (sh_pids _ _ _ _ _ Hsh).
  - pose proof (sk_list _ _ (sh_sems _ _ _ _ _ Hsh) i x Hx) as [_ _ _ Hnd]. by apply NoDup_cons in Hnd as [_ ?].
Qed.

Lemma line_short N m c id : sys_at cap N m c -> (length (N id) <= askers c id)%nat.
Proof.
  intros Hi. unfold askers. rewrite <- (size_dom (D := gset Z)), <- (size_list_to_set (C := gset Z)) by (by eapply line_nodup).
  apply subseteq_size. intros pid. rewrite elem_of_list_to_set, (in_line N m c) by done. intros [Ha _].
  apply elem_of_dom. exists id. by apply map_lookup_filter_Some.
Qed.

Lemma running_not_blocked N m c : sys_at cap N m c -> ~ blocked_pid (m_kernel m) (running_pid m).
Proof.
  intros (L & t & W & G & b & Hs & _ & Hb & Hr & Hsh & _ & _). rewrite (running_pid_shows _ _ _ _ Hs Hb).
  rewrite (blocked_pid_shows m L t _ _ b Hs (sh_pids _ _ _ _ _ Hsh) Hb eq_refl). congruence.
Qed.

(** While somebody waits, who asks has to wait. *)
Lemma enter_waits N rsp m c id m' c' : sys_at cap N m c -> N id <> [] -> act wakeups rsp m c (Enter id) = Some (m', c') ->
  inside c' = inside c.
Proof.
  intros (L & t & W & G & b & Hs & Hst & Hb & Hr & Hsh & Hc & HN) Hne E. unfold act in E.
  destruct (permitted m c (Enter id)) eqn:Hp; [|done]. cbn [permitted] in Hp. apply andb_true_iff in Hp as [Hu _].
  destruct (user_running_shows _ _ _ Hs Hu) as [_ Hi]. cbn [runs_code] in E. rewrite dispatch_wait in E. rewrite HN in Hne. unfold line_of in Hne.
  destruct (slot_of t id) as [i|] eqn:Hsl; [|done]. destruct (slot_of_some _ _ _ Hsl) as (x & Hx & Hux & _).
  pose proof (sh_sems _ _ _ _ _ Hsh) as Hsem. destruct (sk_unit _ _ Hsem i x Hx Hux) as (_ & _ & Hw).
  destruct (Z.lt_ge_cases 0 (sem_value x)) as [Hv|Hv]; [by rewrite (Hw Hv) in Hne|].
  destruct (wait_blocks (m_kernel m) L t W id i x b (fun _ _ => True)) as (s1 & k & E1 & _); [done..|apply Hst|done|done|done|done|done|done|done|done|].
  rewrite E1 in E. by apply bind_Some in E as (m1 & _ & [= _ <-]).
Qed.

(** ** Runs *)

Lemma acts_cons e rsp es m c m' c' : acts wakeups ((e, rsp) :: es) m c = Some (m', c') ->
  exists m1 c1, act wakeups rsp m c e = Some (m1, c1) /\ acts wakeups es m1 c1 = Some (m', c').
Proof. intros ([m1 c1] & E1 & E)%bind_Some. eauto. Qed.
Lemma leaves_cons id e rsp es : leaves id ((e, rsp) :: es) = ((if decide (e = Leave id) then 1 else 0) + leaves id es)%nat.
Proof. unfold leaves. rewrite filter_cons. cbn [fst]. by repeat case_decide. Qed.

(** What an event notes of the processes: of the one that runs only. *)
Lemma act_clients rsp m c e m' c' pid id : act wakeups rsp m c e = Some (m', c') ->
  match e with
  | Enter j =>
      asked c' !! pid = Some id -> asked c !! pid = Some id \/ pid = running_pid m /\ j = id
  | _ => asked c' !! pid = Some id -> asked c !! pid = Some id
  end /\
  ((pid, id) ∈ inside c' -> (pid, id) ∈ inside c \/ pid = running_pid m /\ (e = Enter id \/ e = Resume /\ asked c !! pid = Some id)).
Proof.
  unfold act. destruct (permitted m c e); [|done]. set (q := running_pid m). intros E.
  assert (forall i r, (asked (returned c q i r) !! pid = Some id -> asked c !! pid = Some id) /\
    ((pid, id) ∈ inside (returned c q i r) -> (pid, id) ∈ inside c \/ pid = q /\ i = id)) as Hret.
  { intros i r. unfold returned. destruct (r =? 1); cbn [asked inside]; rewrite ?elem_of_cons; (split; [by intros [_ ?]%lookup_delete_Some|]); [|tauto].
    intros [[= -> ->]|?]; tauto. }
  destruct e as [j|j| | |]; apply bind_Some in E as (m1 & _ & [= _ <-]); cbn [runs_code noted].
  - destruct (syscallDispatcher _ _ _ _ _ _ _ _) as [r s|tr k s| |]; cbn [asked inside].
    1: destruct (Hret j r) as [Ha Hin]; split; [auto|intros [?|[? ->]]%Hin; auto].
    all: split; [intros [[<- <-]|[_ ?]]%lookup_insert_Some|]; auto.
  - cbn [asked inside]. split; [done|]. intros [_ ?]%list_elem_of_filter. auto.
  - auto.
  - destruct (running m) as [|tr k]; [auto|]. destruct (k (m_kernel m)) as [r s|? ? ?| |]; try by auto.
    destruct (asked c !! q) as [i|] eqn:Hi; [|auto]. destruct (Hret i r) as [Ha Hin]. split; [done|].
    intros [?|[-> ->]]%Hin; auto.
  - auto.
Qed.

(** Who stands behind [l1] in the line and stays blocked: a signal takes the first of
    [l1] away; who has not asked before does not get in but joins those behind. *)
Lemma step_line N rsp m c e m' c' pid id l1 l2 : sys_at cap N m c -> act wakeups rsp m c e = Some (m', c') ->
  N id = l1 ++ pid :: l2 -> blocked_pid (m_kernel m') pid -> exists l1' l2',
    moved (running_pid m) e c' N id = l1' ++ pid :: l2' /\ length l1 = ((if decide (e = Leave id) then 1 else 0) + length l1')%nat /\
    forall pid', (pid', id) ∉ inside c -> (asked c !! pid' = Some id -> pid' ∈ l2) ->
      ((pid', id) ∉ inside c') /\ (asked c' !! pid' = Some id -> pid' ∈ l2').
Proof.
  intros Hi E HN Hb. pose proof (act_keeps _ _ _ _ _ _ _ _ _ Hi E) as Hi'. pose proof (fun p => act_clients _ _ _ _ _ _ p id E) as Hc.
  assert (asked c' !! pid = Some id -> e <> Leave id \/ l1 <> []) as Hfirst.
  { intros Ha. destruct (decide (e = Leave id)) as [->|]; [|by left]. destruct l1 as [|z l1]; [|by right]. exfalso.
    pose proof (line_nodup _ _ _ id Hi) as Hnd. rewrite HN in Hnd. apply NoDup_cons in Hnd as [Hnot _]. apply Hnot.
    assert (pid ∈ moved (running_pid m) (Leave id) c' N id) as Hin by by apply (in_line _ _ _ _ _ Hi').
    cbn in Hin. by rewrite decide_True, HN in Hin. }
  assert (forall pid', (pid', id) ∉ inside c -> (asked c !! pid' = Some id -> pid' ∈ l2) -> (pid', id) ∉ inside c') as Hout.
  { intros q Hni Hq Hin. destruct (Hc q) as [_ Hin']. destruct (Hin' Hin) as [|[-> [->|[-> Ha]]]]; [done| |].
    - rewrite (enter_waits N rsp m c id m' c' Hi) in Hin; [done| |exact E]. rewrite HN. by destruct l1.
    - apply (running_not_blocked _ _ _ Hi). apply (in_line _ _ _ (running_pid m) id Hi). rewrite HN, elem_of_app, elem_of_cons. auto. }
  assert (asked c !! pid = Some id) as Hp by (apply (in_line _ _ _ _ _ Hi); rewrite HN, elem_of_app, elem_of_cons; auto).
  destruct e as [j|j| | |]; cbn [moved].
  2: destruct (decide (id = j)) as [<-|].
  2: { rewrite decide_True by done. destruct l1 as [|z l1].
       - exfalso. destruct Hfirst; [|done..]. unfold act in E. destruct (permitted m c (Leave id)); [|done].
         by apply bind_Some in E as (m2 & _ & [= _ <-]).
       - exists l1, l2. rewrite HN. split_and!; [done|done|]. intros q Hni Hq. split; [auto|]. intros Ha. by apply Hq, Hc. }
  1: { exists l1. destruct (decide (asked c' !! running_pid m = Some j)) as [Ha|Ha]; [destruct (decide (id = j)) as [<-|]|].
       1: exists (l2 ++ [running_pid m]); rewrite HN, <- app_assoc.
       2,3: exists l2.
       all: rewrite decide_False by done; split_and!; [done|done|]; intros q Hni Hq; split; [auto|]; intros Hq'.
       1: rewrite elem_of_app, list_elem_of_singleton.
       all: destruct (Hc q) as [Hx _]; destruct (Hx Hq') as [|[Eq Ej]]; [auto|]; first [by right|congruence]. }
  all: exists l1, l2; rewrite decide_False by congruence; split_and!; [done|done|]; intros q Hni Hq; split; [auto|].
  all: intros Ha; apply Hq; by apply Hc.
Qed.

Lemma stays_line pid id es : forall N m c m' c' l1 l2, sys_at cap N m c -> N id = l1 ++ pid :: l2 ->
  stays pid es m c -> acts wakeups es m c = Some (m', c') ->
  (leaves id es <= length l1)%nat /\
  forall pid', (pid', id) ∉ inside c -> (asked c !! pid' = Some id -> pid' ∈ l2) -> (pid', id) ∉ inside c'.
Proof.
  induction es as [|[e rsp] es IH]; intros N m c m' c' l1 l2 Hi HN [_ Hst] E; [injection E as <- <-; split; [cbn; lia|done]|].
  apply acts_cons in E as (m1 & c1 & E1 & E). rewrite E1 in Hst. assert (blocked_pid (m_kernel m1) pid) as Hb by by destruct es, Hst.
  destruct (step_line _ _ _ _ _ _ _ _ _ _ _ Hi E1 HN Hb) as (l1' & l2' & HN1 & Hl & Hnext).
  destruct (IH _ _ _ _ _ _ _ (act_keeps _ _ _ _ _ _ _ _ _ Hi E1) HN1 Hst E) as [Hle Hrest].
  rewrite leaves_cons. split; [lia|]. intros q Hni Hq. destruct (Hnext q Hni Hq) as [? ?]. by apply Hrest.
Qed.
End Lines.

(** ** The theorem *)

(** C4: bounded waiting.  A process that is blocked in a wait on a semaphore goes on
    after at most as many signals as processes have asked for it: a run through
    which it stays blocked has fewer of them.  Nor is it overtaken: through such a
    run no process gets into the section that had not asked for it before. *)
Theorem bounded_waiting m0 es0 m c es m' c' pid id :
  fresh_system m0 -> acts wakeups es0 m0 no_clients = Some (m, c) ->
  asked c !! pid = Some id -> acts wakeups es m c = Some (m', c') -> stays pid es m c ->
  (leaves id es < askers c id)%nat /\
  forall pid', asked c !! pid' <> Some id -> (pid', id) ∉ inside c -> (pid', id) ∉ inside c'.
Proof.
  intros Hf E0 Ha E Hst. destruct (acts_ok _ _ _ _ _ _ _ (fresh_inv _ Hf) E0) as [N Hi].
  assert (pid ∈ N id) as Hin by (apply (in_line _ _ _ _ _ _ Hi); split; [done|by destruct es, Hst]).
  apply list_elem_of_split in Hin as (l1 & l2 & HN). pose proof (line_short _ _ _ _ id Hi) as Hs. rewrite HN, length_app in Hs. cbn in Hs.
  destruct (stays_line _ _ _ _ _ _ _ _ _ _ _ Hi HN Hst E) as [Hl Hn]. split; [lia|]. intros q Hq Hni. by apply Hn.
Qed.
End Fair.

(** ** Process 3 waits while 2 is inside *)

#[local] Existing Instance section_text.
#[local] Existing Instance section_manager.

Section Decide.
Context {MM : Type} {mmgr : MemManager MM} {txt : Text} (wakeups : nat).
Definition is_blocked (s : kstate MM) (pid : Z) : bool :=
  bool_decide (Exists (fun x => p_pid x.2 = pid /\ p_state x.2 = PROCESS_STATE_BLOCKED) (map_to_list (k_procs s))).
Fixpoint is_kept (pid : Z) (es : list (event * Z)) (m : machine (MM := MM)) c : bool :=
  is_blocked (m_kernel m) pid &&
  match es with
  | [] => true
  | (e, rsp) :: es => match act wakeups rsp m c e with Some (m', c') => is_kept pid es m' c' | None => true end
  end.
Lemma is_blocked_ok s pid : is_blocked s pid = true -> blocked_pid s pid.
Proof.
  intros E%bool_decide_eq_true. apply Exists_exists in E as ([p b] & Hp & E1 & E2). apply elem_of_map_to_list in Hp. by exists p, b.
Qed.
Lemma is_kept_ok pid es : forall m c, is_kept pid es m c = true -> stays wakeups pid es m c.
Proof.
  induction es as [|[e rsp] es IH]; intros m c [Hb E]%andb_true_iff; (split; [by apply is_blocked_ok|]); [done|].
  destruct (act wakeups rsp m c e) as [[m' c']|]; [by apply IH|done].
Qed.
End Decide.

(** 2 enters and its time runs out, 3 asks; then 2 yields, goes on and yields again. *)
Definition asking : list (event * Z) := [(Enter 1, 0x8000)] ++ replicate 8 (Tick, 0x8000) ++ [(Enter 1, 0x7000)].
Definition waiting : list (event * Z) := [(Yield, 0x8000); (Resume, 0x8000); (Yield, 0x8000)].
Definition asked_end := default (section_machine, no_clients) (acts 0 asking section_machine no_clients).
Definition waited_end := default (section_machine, no_clients) (acts 0 waiting asked_end.1 asked_end.2).

Lemma acts_default es m c d : bool_decide (is_Some (acts 0 es m c)) = true -> acts 0 es m c = Some ((default d (acts 0 es m c)).1, (default d (acts 0 es m c)).2).
Proof. intros [[m' c'] ->]%bool_decide_eq_true. done. Qed.

Lemma bounded_waiting_witness :
  (leaves 1 waiting < askers asked_end.2 1)%nat /\
  forall pid', asked asked_end.2 !! pid' <> Some 1 -> (pid', 1) ∉ inside asked_end.2 -> (pid', 1) ∉ inside waited_end.2.
Proof.
  refine (bounded_waiting 0 section_machine asking asked_end.1 asked_end.2 waiting waited_end.1 waited_end.2 3 1 section_fresh _ _ _ _).
  - apply (acts_default asking). vm_compute. reflexivity.
  - vm_compute. reflexivity.
  - apply (acts_default waiting). vm_compute. reflexivity.
  - apply is_kept_ok. vm_compute. reflexivity.
Defined.
