(* ===== verification/MachineTheorems.v ===== *)
(** * What holds in every state the machine reaches

    Processes may make any system calls with any arguments, raise exceptions, and be
    interrupted by the timer and the keyboard wherever [Machine] takes interrupts.
    By induction on the steps, the invariant of [KernelInv] holds in every state, and what is left of a
    suspended system call will keep it when it is resumed. *)
From S2P Require Import Prelude Ring CLib MmInterface MmSimple MmSimpleFacts MmSimpleTheorems Font Video VideoFacts VideoTheorems Exceptions KState ProcQueue SchedCore Semaphore Pipe Process Keyboard Scheduler Syscalls KernelInv KernelKeeps Machine.

Section Reachable.
Context {MM : Type} `{MemManager MM} `{Text} (wakeups : nat).
Context (mode : vbe_mode_info) (cols rows : Z) (Hgrid : grid_mode mode 1 cols rows).
Abbreviation ok := (@kernel_ok mode 1 cols rows MM None).
Implicit Types (s : kstate MM) (m : machine (MM := MM)).

Lemma boot_ok heap : ok (kernel_boot heap mode).
Proof.
  split.
  - intros i x Hx _. change (replicate 64 zero_sem !! i = Some x) in Hx. apply lookup_replicate_1 in Hx as [-> _]. done.
  - intros p b Hb. change ((∅ : gmap Z process_t) !! p = Some b) in Hb. by rewrite lookup_empty in Hb.
  - done.
  - split; [done|]. intros i x Hx. change (replicate 64 zero_pipe !! i = Some x) in Hx.
    apply lookup_replicate_1 in Hx as [-> _]. apply zero_pipe_ok.
  - split; [done|..]; intros a [c E]; change ((∅ : gmap Z Z) !! a = Some c) in E; by rewrite lookup_empty in E.
  - apply (ok_boot mode 1 cols rows Hgrid).
Qed.

Lemma keeps_main : keeps ok ok main.
Proof.
  unfold main, pipe_system_init. eapply leads_bind; [apply keeps_on_mm|intros _].
  eapply leads_bind; [apply keeps_init_scheduler|intros _]. apply (leads_bind _ _ ok); [|intros _].
  - eapply leads_bind; [apply keeps_for_up; intros i Hi; apply keeps_pipe_store; sound_pipe|intros _].
    apply leads_modify. intros s [? ? ? ? ? ?]. by split.
  - eapply leads_bind; [apply keeps_keyboard_init|intros _]. eapply leads_bind; [apply keeps_spawn|intros _]. apply keeps_ret.
Qed.

Lemma keeps_exceptionDispatcher id regs : keeps ok ok (on_video (exceptionDispatcher id regs)).
Proof.
  apply keeps_on_video. assert (forall names values, keeps (screen_ok mode 1 cols rows) (screen_ok mode 1 cols rows) (print_registers names values)) as Hregs.
  { induction names as [|n names IH]; intros [|v values]; cbn [print_registers]; try apply keeps_ret.
    unfold video_printRegister. keep; eauto using keeps_putString, keeps_newLine. }
  unfold exceptionDispatcher, zero_division, invalidOperation, video_printError, video_printRegisters.
  keep; eauto using keeps_putString, keeps_newLine.
Qed.

(** The rest of a suspended system call keeps the invariant. *)
Definition context_ok (c : context) : Prop :=
  match c with
  | User => True
  | InKernel _ k => forall s, ok s -> owp ok (fun _ => ok) (k s)
  end.
Definition machine_ok m : Prop := ok (m_kernel m) /\ forall pid, context_ok (context_of m pid).

Lemma context_ok_insert (cs : gmap Z context) pid c s s' : context_ok c ->
  (forall q, context_ok (context_of (mk_machine s cs) q)) -> forall q, context_ok (context_of (mk_machine s' (<[pid := c]> cs)) q).
Proof.
  intros Hc Hcs q. unfold context_of. cbn [m_contexts]. destruct (decide (q = pid)) as [->|].
  - by rewrite lookup_insert_eq.
  - rewrite lookup_insert_ne by done. apply (Hcs q).
Qed.

Lemma settle_ok m m' rsp o : machine_ok m -> owp ok (fun _ => ok) o -> settle m rsp o = Some m' -> machine_ok m'.
Proof.
  intros [Hk Hc] Ho E. destruct m as [s cs]. destruct o as [a t|[] t k| |]; simpl in E; try discriminate.
  - injection E as <-. split; [exact Ho|]. by apply (context_ok_insert _ _ _ s).
  - destruct Ho as [Ht Hrest]. pose proof (keeps_irq00 rsp t Ht) as Hirq.
    destruct (irq00 rsp t) as [a t'| | |]; try discriminate. injection E as <-. split; [exact Hirq|].
    by apply (context_ok_insert _ _ _ s).
  - destruct Ho as [Ht Hrest]. injection E as <-. split; [exact Ht|]. by apply (context_ok_insert _ _ _ s).
Qed.

Lemma interrupt_ok {A} m m' (h : M (kstate MM) A) : machine_ok m -> keeps ok ok h -> interrupt m h = Some m' -> machine_ok m'.
Proof.
  intros [Hk Hc] Hh E. unfold interrupt in E. specialize (Hh _ Hk). destruct (h (m_kernel m)); try discriminate.
  injection E as <-. by split.
Qed.

Lemma step_ok m m' : machine_ok m -> step wakeups m m' -> machine_ok m'.
Proof.
  intros Hm Hstep. destruct Hstep.
  - eapply settle_ok; [done| |done]. apply keeps_dispatcher; [done|]. apply Hm.
  - eapply interrupt_ok; [done| |done]. apply keeps_irq00.
  - eapply interrupt_ok; [done| |done]. by apply keeps_irqDispatcher.
  - eapply settle_ok; [done| |done]. destruct Hm as [Hk Hc]. specialize (Hc (running_pid m)).
    unfold running in *. match goal with E : context_of _ _ = _ |- _ => rewrite E in Hc end. by apply Hc.
  - eapply interrupt_ok; [done| |done]. by apply keeps_exceptionDispatcher.
  - eapply settle_ok; [done| |done].
    assert (keeps ok ok (scheduler_finish_current ;; mret 0)) as Hinv.
    { eapply leads_bind; [apply keeps_finish_current|intros _; apply keeps_ret]. }
    apply Hinv, Hm.
Qed.

Lemma reachable_machine_ok heap s m :
  main (kernel_boot heap mode) = Done tt s -> reachable wakeups (mk_machine s ∅) m -> machine_ok m.
Proof.
  intros Hmain Hr. induction Hr as [|m m' _ IH Hstep]; [|by eapply step_ok].
  split.
  - pose proof (keeps_main _ (boot_ok heap)) as Hinv. by rewrite Hmain in Hinv.
  - intros pid. unfold context_of. cbn [m_contexts]. by rewrite lookup_empty.
Qed.

(** C1: in every state reached from boot, by any system calls of the processes, timer
    and keyboard interrupts, exceptions, and ends of processes that no interrupt
    falls into, all spin locks are free, the buffers of the pipes and of the keyboard
    are sound rings that were written inside their arrays, every control block has
    priorities that name a ready queue, sixteen descriptors and a name of bounded
    length, and the cursor and what was drawn are on the screen.  Two kinds of runs
    are left out: those in which an interrupt falls into the end of a process
    ([step_return]; a lock can then stay taken), and those that go on after
    undefined behaviour of C. *)
Theorem reachable_kernel_ok heap s m :
  main (kernel_boot heap mode) = Done tt s -> reachable wakeups (mk_machine s ∅) m -> ok (m_kernel m).
Proof. intros Hmain Hr. exact (proj1 (reachable_machine_ok heap s m Hmain Hr)). Qed.
End Reachable.

(** ** A machine with the first-fit manager *)

#[local] Instance machine_text : Text := { process_start := 0x100; idle_entry := 0x200 }.
#[local] Instance machine_manager : MemManager mm := simple_manager 0x20000.
Definition screen_mode : vbe_mode_info := mk_vbe 3072 1024 768 24 0xFD000000.
Lemma screen_grid : grid_mode screen_mode 1 128 48.
Proof. by split; cbn. Qed.

(** After boot, and after the timer has chosen the shell. *)
Definition machine_boot : machine := mk_machine (after main (kernel_boot mm_boot screen_mode)) ∅.
Definition machine_shell : machine := default machine_boot (interrupt machine_boot (irq00 0x90000)).

Lemma machine_booted : main (kernel_boot mm_boot screen_mode) = Done tt (m_kernel machine_boot).
Proof.
  assert (match main (kernel_boot mm_boot screen_mode) with Done _ _ => true | _ => false end = true) as E by (vm_compute; reflexivity).
  unfold machine_boot, after. cbn [m_kernel]. destruct (main _) as [[] s| | |]; done.
Qed.
Lemma machine_switched : interrupt machine_boot (irq00 0x90000) = Some machine_shell.
Proof.
  assert (bool_decide (is_Some (interrupt machine_boot (irq00 0x90000))) = true) as E by (vm_compute; reflexivity).
  apply bool_decide_eq_true in E as [m E]. unfold machine_shell. by rewrite E.
Qed.

Lemma reachable_kernel_ok_witness :
  running_pid machine_shell = 2 /\ kernel_ok screen_mode 1 128 48 None (m_kernel machine_shell).
Proof.
  split; [vm_compute; reflexivity|].
  apply (reachable_kernel_ok 0 screen_mode 128 48 screen_grid mm_boot (m_kernel machine_boot) machine_shell machine_booted).
  eapply reachable_step; [apply reachable_refl|]. eapply step_timer; [|exact machine_switched].
  left. reflexivity.
Defined.
