(* ===== verification/WaitTheorems.v ===== *)
(** * Waiting for a process to end

    [syscall_wait] puts the caller first among the waiters of the process and
    blocks it.  What happens when the process ends shows two defects, on a run of
    the booted machine: the waiter stays in the queue of blocked processes, and the
    wait, resumed, reads the control block that the same switch has freed. *)
From S2P Require Import Prelude LinkedList CLib MmInterface MmSimple KState ProcQueue SchedCore QueueFacts SchedView QueueTheorems Semaphore Pipe Process Scheduler SchedFacts SchedSwitch SemFacts SchedTheorems SchedCalls SemTheorems Syscalls Machine SemSystem MachineTheorems.

Section Wait.
Context {MM : Type} {mmgr : MemManager MM} {txt : Text}.
Implicit Types (s t : kstate MM) (L : qref -> list Z).

(** What is left of the call when it is resumed. *)
Lemma take_foreground_fault s target me : k_procs s !! target = None ->
  (take_foreground target me ;; mret 1) s = Fault.
Proof. intros E. unfold take_foreground, pload, gets_opt, mbind, M_bind. by rewrite E. Qed.
Lemma take_foreground_done s target me d dm : k_procs s !! target = Some d -> k_procs s !! me = Some dm ->
  (take_foreground target me ;; mret 1) s =
    Done 1 (if ctrue (p_is_foreground d) then s <| k_procs ::= alter (fun x => x <| p_is_foreground := 1 |>) me |> else s).
Proof.
  intros E Em. unfold take_foreground, pstore, pload, gets_opt, mbind, M_bind. rewrite E. cbn [obind].
  destruct (ctrue _); cbn [when]; [|done]. unfold mbind, M_bind. cbn. by rewrite Em.
Qed.

(** C17: a wait for a process that has not ended blocks.  The caller becomes the
    first of the waiters of the process, before those that waited already, is
    marked as blocked and hands the processor over; the scheduler's invariant
    holds.  Resumed, it returns 1 and takes the foreground over from the process
    if that still has its control block, and reads a freed block if not. *)
Theorem wait_joins_waiters s L t pid b bm :
  let me := current (k_sched t) in
  let target := find_pid t L pid in
  shows s L t -> steady t L -> 0 < i64 pid -> target <> 0 -> target <> me -> me <> idle_p (k_sched t) ->
  k_procs t !! target = Some b -> k_procs t !! me = Some bm ->
  suspends (syscall_wait pid) s TimerTick (fun s' k =>
    (exists t', shows s' L t' /\ steady t' L /\ need_resched (k_sched t') = true /\
       k_procs t' = <[me := bm <| p_waiting_on_pid := pid |> <| p_waiter_next := p_waiters_head b |> <| p_state := PROCESS_STATE_BLOCKED |>]>
                      (<[target := b <| p_waiters_head := me |>]> (k_procs t))) /\
    (forall s'' d dm, k_procs s'' !! target = Some d -> k_procs s'' !! me = Some dm ->
       exists s3, k s'' = Done 1 s3 /\ (ctrue (p_is_foreground d) = true -> exists b3, k_procs s3 !! me = Some b3 /\ p_is_foreground b3 = 1)) /\
    (forall s'', k_procs s'' !! target = None -> k s'' = Fault)).
Proof.
  intros me target H Hst Hpid H0 Hne Hi Hb Hbm. unfold syscall_wait. rewrite (proj2 (Z.leb_gt (i64 pid) 0) Hpid).
  assert (me <> 0) as Hm0 by (eapply shows_null; [exact H|by eexists]).
  pose proof (st_none_finished _ _ Hst _ _ Hb) as Hnf. pose proof (so_sound _ _ (st_sched _ _ Hst) _ _ Hbm) as Hsd.
  apply suspends_bind. eapply find_by_pid_spec; [exact H|by eexists|]. fold target. rewrite (proj2 (Z.eqb_neq target 0) H0).
  apply suspends_bind. eapply shows_pload; [exact H|exact Hb|]. intros b1 E1 _.
  assert (p_state b1 = p_state b) as -> by (by subst b). rewrite bool_decide_false by done.
  apply suspends_bind. unfold scheduler_current_process, gets_sched. eapply shows_gets; [exact H|done|]. fold me.
  rewrite (proj2 (Z.eqb_neq me 0) Hm0), (proj2 (Z.eqb_neq me target)) by congruence. cbn [orb].
  apply suspends_bind. eapply shows_pstore; [exact H|exact Hbm|done|done|]. intros s2 H2.
  apply suspends_bind. eapply shows_pload; [exact H2|cbn; rewrite lookup_insert_ne by congruence; exact Hb|]. intros b3 E3 _.
  assert (p_waiters_head b3 = p_waiters_head b) as -> by (by rewrite <- E3).
  apply suspends_bind. eapply shows_pstore; [exact H2|cbn; apply lookup_insert_eq|done|done|]. intros s4 H4. rewrite store_twice in H4.
  apply suspends_bind. eapply shows_pstore; [exact H4|cbn; rewrite lookup_insert_ne by congruence; exact Hb|done|done|]. intros s5 H5.
  set (bm' := bm <| p_waiting_on_pid := pid |> <| p_waiter_next := p_waiters_head b |>) in *.
  eapply (block_and_yield s5 L _ bm'); [exact H5|exact Hi|exact (eq_trans (lookup_insert_ne _ _ _ _ Hne) (lookup_insert_eq _ _ _))|].
  intros s6 now H6. split; [|split].
  - eexists. split; [exact H6|]. cbn. fold me. split; [|split; [done|]].
    + apply (steady_tick (with_resched (with_proc (with_proc (with_proc t me bm') target (b <| p_waiters_head := me |>))
        me (bm' <| p_state := PROCESS_STATE_BLOCKED |>)) true) L now), steady_with_resched.
      assert (steady (with_proc t me bm') L) as Hst1 by (by eapply steady_fields).
      assert (steady (with_proc (with_proc t me bm') target (b <| p_waiters_head := me |>)) L) as Hst2.
      { eapply steady_fields; [exact Hst1|exact (eq_trans (lookup_insert_ne _ _ _ _ (not_eq_sym Hne)) Hb)|done..]. }
      apply (steady_update_current (with_proc (with_proc t me bm') target (b <| p_waiters_head := me |>)) L bm'); [exact Hst2|exact (eq_trans (lookup_insert_ne _ _ _ _ Hne) (lookup_insert_eq _ _ _))|exact Hsd|by left].
    + rewrite (insert_insert_ne _ target me) by exact Hne. by rewrite insert_insert_eq.
  - intros s'' d dm Hd Hdm. rewrite (take_foreground_done _ _ _ _ _ Hd Hdm). eexists. split; [reflexivity|].
    intros ->. eexists. split; [cbn; by rewrite lookup_alter_eq, Hdm|done].
  - intros s'' Hd. by apply take_foreground_fault.
Qed.
End Wait.

(** Process 2 waits for process 3. *)
Lemma wait_joins_waiters_witness :
  find_pid (strip section_start) section_queues 3 = 0x3000 /\
  suspends (syscall_wait (MM := mm) 3) (m_kernel section_machine) TimerTick (fun s' k =>
    (exists t', shows s' section_queues t' /\ steady t' section_queues /\ need_resched (k_sched t') = true /\
       k_procs t' = <[0x2000 := demo_process 2 1 0 PROCESS_STATE_RUNNING <| p_waiting_on_pid := 3 |> <| p_waiter_next := 0 |> <| p_state := PROCESS_STATE_BLOCKED |>]>
                      (<[0x3000 := demo_process 3 1 0 PROCESS_STATE_READY <| p_waiters_head := 0x2000 |>]> (k_procs (strip section_start)))) /\
    (forall s'' d dm, k_procs s'' !! 0x3000 = Some d -> k_procs s'' !! 0x2000 = Some dm ->
       exists s3, k s'' = Done 1 s3 /\ (ctrue (p_is_foreground d) = true -> exists b3, k_procs s3 !! 0x2000 = Some b3 /\ p_is_foreground b3 = 1)) /\
    (forall s'', k_procs s'' !! 0x3000 = None -> k s'' = Fault)).
Proof.
  split; [vm_compute; reflexivity|].
  apply (wait_joins_waiters (m_kernel section_machine) section_queues (strip section_start) 3
           (demo_process 3 1 0 PROCESS_STATE_READY) (demo_process 2 1 0 PROCESS_STATE_RUNNING) section_shows section_steady);
    try (vm_compute; reflexivity); vm_compute; discriminate.
Defined.

(** ** The end of the process that is waited for *)

#[local] Existing Instance machine_text.
#[local] Existing Instance machine_manager.
#[local] Abbreviation mach := (machine (MM := mm)).

(** A system call of the running process, its end, the timer. *)
Definition calls (rdi rsi rdx r10 r8 rax : Z) (m : mach) : option mach :=
  match running m with User => settle m 0x60000 (syscallDispatcher 0 rdi rsi rdx r10 r8 rax (m_kernel m)) | InKernel _ _ => None end.
Definition ends (m : mach) : option mach :=
  match running m with User => settle m 0x60000 ((scheduler_finish_current ;; mret 0) (m_kernel m)) | InKernel _ _ => None end.
Definition ticks (m : mach) : option mach :=
  match running m with User => interrupt m (irq00 0x60000) | InKernel _ _ => None end.

Lemma calls_step rdi rsi rdx r10 r8 rax m m' : calls rdi rsi rdx r10 r8 rax m = Some m' -> step 0 m m'.
Proof. unfold calls. destruct (running m) eqn:E; [|done]. intros E'. by eapply step_syscall. Qed.
Lemma ends_step m m' : ends m = Some m' -> step 0 m m'.
Proof. unfold ends. destruct (running m) eqn:E; [|done]. intros E'. by eapply step_return. Qed.
Lemma ticks_step m m' : ticks m = Some m' -> step 0 m m'.
Proof. unfold ticks. destruct (running m) eqn:E; [|done]. intros E'. eapply step_timer; [by left|exact E']. Qed.

Fixpoint ticks_n (n : nat) (m : mach) : option mach := match n with O => Some m | S n => m ← ticks m; ticks_n n m end.
(** What is left of a system call. *)
Definition resumes (m : mach) : option mach :=
  match running m with InKernel _ k => settle m 0x60000 (k (m_kernel m)) | User => None end.

(** The timer starts the shell, which creates process 3 and waits for it; the
    process ends, and the timer switches back. *)
Definition wait_run : option mach :=
  m ← ticks machine_boot; m ← calls 0 0x500000 0 1 1 10 m; m ← calls 3 0 0 0 0 17 m; m ← ends m; ticks m.
Definition wait_end : mach := default machine_boot wait_run.

Lemma wait_run_end : wait_run = Some wait_end.
Proof.
  assert (bool_decide (is_Some wait_run) = true) as E by (vm_compute; reflexivity).
  apply bool_decide_eq_true in E as [m E]. unfold wait_end. by rewrite E.
Qed.
Lemma wait_end_reachable : reachable 0 machine_boot wait_end.
Proof.
  pose proof wait_run_end as E. unfold wait_run in E.
  apply bind_Some in E as (m1 & E1 & E). apply bind_Some in E as (m2 & E2 & E).
  apply bind_Some in E as (m3 & E3 & E). apply bind_Some in E as (m4 & E4 & E).
  eapply reachable_step; [|by eapply ticks_step]. eapply reachable_step; [|by eapply ends_step].
  eapply reachable_step; [|by eapply calls_step]. eapply reachable_step; [|by eapply calls_step].
  eapply reachable_step; [apply reachable_refl|by eapply ticks_step].
Qed.

Definition fault_of (o : outcome (kstate mm) Z) : bool := match o with Fault => true | _ => false end.

(** In a state the machine reaches the shell has been woken by the end of process
    3: the switch has freed the control block of 3, and what is left of the shell's
    wait reads it. *)
Theorem wait_reads_freed_block : reachable 0 machine_boot wait_end /\ running_pid wait_end = 2 /\
  match running wait_end with InKernel TimerTick k => fault_of (k (m_kernel wait_end)) | _ => false end = true.
Proof. split; [exact wait_end_reachable|]. split; vm_compute; reflexivity. Qed.

(** In the same state the running process is still the head of the queue of the
    blocked ones. *)
Theorem woken_waiter_stays_blocked : reachable 0 machine_boot wait_end /\
  q_head (blocked_q (k_sched (m_kernel wait_end))) = current (k_sched (m_kernel wait_end)) /\
  p_state <$> k_procs (m_kernel wait_end) !! current (k_sched (m_kernel wait_end)) = Some PROCESS_STATE_RUNNING.
Proof. split; [exact wait_end_reachable|]. split; vm_compute; reflexivity. Qed.

(** ** An end that is interrupted *)

(** The shell creates a pipe and a process 3 that writes to it, and yields to it. *)
Definition pipe_run : option mach :=
  m ← ticks machine_boot; m ← calls 0 0 0 0 0 27 m; m ← calls 0 0x500000 0 2 0x10000 10 m; calls 0 0 0 0 0 26 m.
Definition pipe_end : mach := default machine_boot pipe_run.
Lemma pipe_end_reachable : reachable 0 machine_boot pipe_end.
Proof.
  assert (pipe_run = Some pipe_end) as E.
  { assert (bool_decide (is_Some pipe_run) = true) as E by (vm_compute; reflexivity).
    apply bool_decide_eq_true in E as [m E]. unfold pipe_end. by rewrite E. }
  apply bind_Some in E as (m1 & E1 & E). apply bind_Some in E as (m2 & E2 & E). apply bind_Some in E as (m3 & E3 & E).
  do 3 (eapply reachable_step; [|by eapply calls_step]). eapply reachable_step; [apply reachable_refl|by eapply ticks_step].
Qed.

(** What closing the descriptors of process 3 does first: it takes the lock of the
    mutex of the pipe, the fourth semaphore.  Then the timer, until its quantum is over. *)
Definition mutex_slot : nat := 3.
Definition interrupted : option mach :=
  m ← interrupt pipe_end (acquire mutex_slot); m ← ticks_n 8 m; resumes m.
Definition diverges_in (o : outcome (kstate mm) Z) : bool := match o with Diverge => true | _ => false end.

(** Why [step_return] leaves out the ends that are interrupted: process 3 is about to
    end, its end is interrupted while it holds the lock, the shell runs, with all the
    other locks free, and a call that needs the pipe spins for ever. *)
Theorem interrupted_end_hangs : reachable 0 machine_boot pipe_end /\ running_pid pipe_end = 3 /\
  sem_id <$> k_sems (m_kernel pipe_end) !! mutex_slot = pipe_mutex <$> head (k_pipes (m_kernel pipe_end)) /\
  match interrupted with
  | Some m => running_pid m = 2 /\ diverges_in (syscallDispatcher 0 1 0 0 0 0 28 (m_kernel m)) = true
  | None => False
  end.
Proof. split; [exact pipe_end_reachable|]. split_and!; vm_compute; (reflexivity || split; reflexivity). Qed.
