(* ===== verification/Loader.v ===== *)
(** * From the image to memory

    The text console (src/Kernel/console/naiveConsole.c), the loader of modules
    (src/Kernel/loader/moduleLoader.c), the first instructions of the kernel
    (src/Kernel/kernel.c) and the table of interrupts. *)
From S2P Require Import Prelude CLib.

Module Console.

Definition video : Z := 0xB8000.
Definition width : Z := 80.

(** Memory and [currentVideo]. *)
Record console := mk_console { c_mem : memory; currentVideo : Z }.
Definition eta_console (c : console) := mk_console (c_mem c) (currentVideo c).
#[export] Instance set_c_mem : Setter c_mem := ltac:(build_setter eta_console c_mem).
#[export] Instance set_currentVideo : Setter currentVideo := ltac:(build_setter eta_console currentVideo).

Definition ncPrintChar (character : Z) : M console unit :=
  modify (fun c => c <| c_mem ::= store8 (currentVideo c) character |>) ;;
  modify (fun c => c <| currentVideo ::= fun v => v + 2 |>).

Fixpoint ncPrint (string : list Z) : M console unit :=
  match string with
  | [] => mret tt
  | ch :: string => if ch =? 0 then mret tt else ncPrintChar ch ;; ncPrint string
  end.

(** [do ... while]: a line has [width] cells. *)
Definition newline_step (_ : unit) : M console (unit + unit) :=
  ncPrintChar 32 ;;
  v ← gets currentVideo;
  mret (if u64 (v - video) mod (width * 2) =? 0 then inr tt else inl tt).
Definition ncNewline : M console unit := while_fuel 81 newline_step tt.

(** The digits as the first loop of [uintToBase] writes them, units first; a
    64-bit value has at most 64 digits. *)
Definition digit_char (r : Z) : Z := if r <? 10 then r + 48 else r + 65 - 10.
Fixpoint digits_loop (fuel : nat) (value base : Z) (buffer : list Z) : option (list Z) :=
  match fuel with
  | O => None
  | S n =>
      let buffer := buffer ++ [digit_char (value mod base)] in
      if value / base =? 0 then Some buffer else digits_loop n (value / base) base buffer
  end.
(** The second loop, which swaps the ends until they meet. *)
Fixpoint reverse_loop (fuel : nat) (p1 p2 : nat) (l : list Z) : list Z :=
  match fuel with
  | O => l
  | S n =>
      if (p1 <? p2)%nat then
        match l !! p1, l !! p2 with
        | Some x, Some y => reverse_loop n (S p1) (Nat.pred p2) (<[p2 := x]> (<[p1 := y]> l))
        | _, _ => l
        end
      else l
  end.
(** The string in the buffer, without its null; the function returns its length. *)
Definition uintToBase (value base : Z) : option (list Z) :=
  match digits_loop 64 value base [] with
  | None => None
  | Some l => Some (reverse_loop (length l) 0 (Nat.pred (length l)) l)
  end.

Definition ncPrintBase (value base : Z) : M console unit :=
  s ← gets_opt (fun _ => uintToBase value base); ncPrint s.
Definition ncPrintDec (value : Z) : M console unit := ncPrintBase value 10.
Definition ncPrintHex (value : Z) : M console unit := ncPrintBase value 16.

End Console.

Module Loader.
Import Console.

(** The value and the address after it. *)
Definition readUint32 (address : Z) : M console (Z * Z) :=
  m ← gets c_mem; mret (load32 m address, address + 4).

(** "  Will copy module at 0x", " to 0x", " (", " bytes)", " [Done]" *)
Definition msg_copy : list Z :=
  [32; 32; 87; 105; 108; 108; 32; 99; 111; 112; 121; 32; 109; 111; 100; 117; 108; 101; 32; 97; 116; 32; 48; 120].
Definition msg_to : list Z := [32; 116; 111; 32; 48; 120].
Definition msg_open : list Z := [32; 40].
Definition msg_bytes : list Z := [32; 98; 121; 116; 101; 115; 41].
Definition msg_done : list Z := [32; 91; 68; 111; 110; 101; 93].

(** [*module] after the call. *)
Definition loadModule (module targetModuleAddress : Z) : M console Z :=
  '(moduleSize, module) ← readUint32 module;
  ncPrint msg_copy ;; ncPrintHex module ;;
  ncPrint msg_to ;; ncPrintHex targetModuleAddress ;;
  ncPrint msg_open ;; ncPrintDec moduleSize ;; ncPrint msg_bytes ;;
  modify (fun c => c <| c_mem ::= memcpy targetModuleAddress module moduleSize |>) ;;
  let module := module + moduleSize in
  ncPrint msg_done ;;
  ncNewline ;;
  mret module.

(** [for (i = 0; i < moduleCount; i++)]: an address past the table is undefined behaviour. *)
Fixpoint load_loop (n : nat) (currentModule : Z) (targets : list Z) : M console unit :=
  match n, targets with
  | O, _ => mret tt
  | S _, [] => fault
  | S n', t :: targets' => next ← loadModule currentModule t; load_loop n' next targets'
  end.
Definition loadModules (payloadStart : Z) (targetModuleAddress : list Z) : M console unit :=
  '(moduleCount, currentModule) ← readUint32 payloadStart;
  load_loop (Z.to_nat moduleCount) currentModule targetModuleAddress.

Definition clearBSS (bssAddress bssSize : Z) : M console unit :=
  modify (fun c => c <| c_mem ::= memset bssAddress 0 bssSize |>).

Section Linker.
(** The symbols of the linker script. *)
Variables endOfKernelBinary bss endOfKernel : Z.
Definition sampleCodeModuleAddress : Z := 0x400000.
Definition sampleDataModuleAddress : Z := 0x500000.
Definition getStackBase : Z := u64 (endOfKernel + 0x1000 * 8 - 8).
Definition initializeKernelBinary : M console Z :=
  loadModules endOfKernelBinary [sampleCodeModuleAddress; sampleDataModuleAddress] ;;
  clearBSS bss (u64 (endOfKernel - bss)) ;;
  mret getStackBase.
End Linker.

End Loader.

(** ** The interrupt table (src/Kernel/interrupts/idtLoader.c) *)
Module Idt.

(** A descriptor of sixteen bytes: [offset_l], [selector], [cero], [access],
    [offset_m], [offset_h], [other_cero]. *)
Definition ACS_INT : Z := Z.lor 0x80 0x0E.
Definition setup_IDT_entry (index offset : Z) (m : memory) : memory :=
  let a := 16 * index in
  let m := store_le 2 (a + 2) 0x08 m in
  let m := store_le 2 a (Z.land offset 0xFFFF) m in
  let m := store_le 2 (a + 6) (Z.land (Z.shiftr offset 16) 0xFFFF) m in
  let m := store32 (a + 8) (Z.land (Z.shiftr offset 32) 0xFFFFFFFF) m in
  let m := store8 (a + 5) ACS_INT m in
  let m := store8 (a + 4) 0 m in
  store32 (a + 12) 0 m.

Section Handlers.
Variables irq00Handler exception0Handler exception6Handler irq01Handler irq80Handler : Z.
(** The table, and the masks of the two interrupt controllers. *)
Definition load_idt (m : memory) : memory * (Z * Z) :=
  let m := setup_IDT_entry 0x20 irq00Handler m in
  let m := setup_IDT_entry 0x00 exception0Handler m in
  let m := setup_IDT_entry 0x06 exception6Handler m in
  let m := setup_IDT_entry 0x21 irq01Handler m in
  let m := setup_IDT_entry 0x80 irq80Handler m in
  (m, (0xFC, 0xFF)).
End Handlers.

(** What the processor reads of a descriptor. *)
Definition gate_offset (index : Z) (m : memory) : Z :=
  let a := 16 * index in
  load_le 2 m a + 2 ^ 16 * load_le 2 m (a + 6) + 2 ^ 32 * load32 m (a + 8).

End Idt.
