(* ===== verification/LoaderFacts.v ===== *)
(** * Numbers, printing and packing: the lemmas of the loader *)
From S2P Require Import Prelude CLib Loader.
Import Console Loader.

(** ** [uintToBase] *)

(** The loop that swaps the ends reverses. *)
Lemma reverse_loop_spec fuel : forall a m b : list Z, (length m <= fuel)%nat ->
  reverse_loop fuel (length a) (Nat.pred (length a + length m)) (a ++ m ++ b) = a ++ rev m ++ b.
Proof.
  induction fuel as [|fuel IH]; intros a m b Hf.
  - destruct m; [done|simpl in Hf; lia].
  - simpl reverse_loop. destruct m as [|x m]; [destruct (Nat.ltb_spec (length a) (Nat.pred (length a + length ([] : list Z)))); [simpl in *; lia|done]|].
    destruct m as [|y m _] using rev_ind.
    { destruct (Nat.ltb_spec (length a) (Nat.pred (length a + length [x]))); [simpl in *; lia|done]. }
    simpl length in *. rewrite length_app in *. simpl length in *.
    replace (Nat.pred (length a + S (length m + 1))) with (length a + S (length m))%nat by lia.
    destruct (Nat.ltb_spec (length a) (length a + S (length m))); [|lia].
    assert ((a ++ (x :: m ++ [y]) ++ b) !! length a = Some x) as -> by (by apply list_lookup_middle).
    assert ((a ++ (x :: m ++ [y]) ++ b) !! (length a + S (length m))%nat = Some y) as ->.
    { rewrite lookup_app_r by lia. replace (length a + S (length m) - length a)%nat with (S (length m)) by lia.
      simpl. rewrite <- app_assoc. by apply list_lookup_middle. }
    rewrite insert_app_r_alt by lia. rewrite Nat.sub_diag. simpl.
    rewrite insert_app_r_alt by lia. replace (length a + S (length m) - length a)%nat with (S (length m)) by lia.
    simpl. rewrite <- !app_assoc. rewrite insert_app_r_alt by lia. rewrite Nat.sub_diag. simpl.
    specialize (IH (a ++ [y]) m (x :: b) ltac:(lia)). rewrite length_app in IH. simpl in IH.
    replace (Nat.pred (length a + 1 + length m)) with (length a + length m)%nat in IH by lia.
    replace (length a + 1)%nat with (S (length a)) in IH by lia.
    replace (Nat.pred (length a + S (length m))) with (length a + length m)%nat by lia.
    rewrite <- !app_assoc in IH. simpl in IH. rewrite rev_app_distr. exact IH.
Qed.

(** The number a string of digits writes. *)
Definition digit_value (c : Z) : Z := if c <? 58 then c - 48 else c - 55.
Definition number_of (base : Z) (l : list Z) : Z := foldr (fun c n => digit_value c + base * n) 0 (rev l).
Definition is_digit_of (base c : Z) : Prop := 48 <= c /\ c <> 0 /\ c < 128 /\ 0 <= digit_value c < base.

Lemma digit_char_value base r : 0 <= r < base -> base <= 36 -> digit_value (digit_char r) = r /\ is_digit_of base (digit_char r).
Proof.
  unfold digit_value, digit_char, is_digit_of. intros Hr Hb. unfold digit_value.
  destruct (Z.ltb_spec r 10).
  - destruct (Z.ltb_spec (r + 48) 58); split; lia.
  - destruct (Z.ltb_spec (r + 65 - 10) 58); split; lia.
Qed.

Lemma digits_loop_spec base : 2 <= base <= 36 -> forall fuel value buffer, 0 <= value < 2 ^ Z.of_nat fuel -> (0 < fuel)%nat ->
  exists l, digits_loop fuel value base buffer = Some (buffer ++ l) /\ l <> [] /\
    foldr (fun c n => digit_value c + base * n) 0 l = value /\ Forall (is_digit_of base) l /\
    (forall k, (0 < k)%nat -> value < base ^ Z.of_nat k -> (length l <= k)%nat) /\
    (forall c, last l = Some c -> c = 48 -> value = 0).
Proof.
  intros Hb. induction fuel as [|fuel IH]; intros value buffer Hv Hf; [lia|]. simpl.
  pose proof (Z.mod_pos_bound value base ltac:(lia)) as Hm.
  destruct (digit_char_value base (value mod base) Hm ltac:(lia)) as [Hdv Hd].
  pose proof (Z.div_mod value base ltac:(lia)) as Edm.
  destruct (Z.eqb_spec (value / base) 0) as [E|E].
  - exists [digit_char (value mod base)]. split; [done|]. split; [done|]. split; [simpl; rewrite Hdv; lia|].
    split; [by constructor|]. split; [simpl; lia|]. intros c [= <-] Hc.
    assert (digit_value (digit_char (value mod base)) = 0) as E0 by (rewrite Hc; done). lia.
  - assert (0 < value / base) as Hq by (pose proof (Z.div_pos value base ltac:(lia) ltac:(lia)); lia).
    assert (0 <= value / base < 2 ^ Z.of_nat fuel) as Hv'.
    { split; [lia|]. apply Z.div_lt_upper_bound; [lia|]. rewrite Nat2Z.inj_succ, Z.pow_succ_r in Hv by lia. nia. }
    assert (0 < fuel)%nat as Hf' by (destruct fuel; [simpl in Hv'; lia|lia]).
    destruct (IH (value / base) (buffer ++ [digit_char (value mod base)]) Hv' Hf') as (l & El & Hl & Hn & Hall & Hk & Hlast).
    exists (digit_char (value mod base) :: l). rewrite El, <- app_assoc. split; [done|]. split; [done|].
    split; [simpl; rewrite Hn, Hdv; lia|]. split; [by constructor|]. split.
    + intros [|k] Hk0 Hlt; [lia|]. simpl. destruct k as [|k].
      * simpl in Hlt. rewrite Z.pow_1_r in Hlt. rewrite Z.div_small in Hq by lia. lia.
      * apply le_n_S. apply Hk; [lia|]. apply Z.div_lt_upper_bound; [lia|].
        rewrite (Nat2Z.inj_succ (S k)), Z.pow_succ_r in Hlt by lia. lia.
    + intros c Hc Hc48. destruct l as [|d l]; [done|]. simpl in Hc.
      specialize (Hlast c Hc Hc48). lia.
Qed.

Lemma uintToBase_spec value base : 2 <= base <= 36 -> 0 <= value < 2 ^ 64 ->
  exists l, uintToBase value base = Some l /\ l <> [] /\ number_of base l = value /\ Forall (is_digit_of base) l /\
    (forall k, (0 < k)%nat -> value < base ^ Z.of_nat k -> (length l <= k)%nat) /\ (head l = Some 48 -> value = 0).
Proof.
  intros Hb Hv. destruct (digits_loop_spec base Hb 64 value [] Hv ltac:(lia)) as (l & El & Hl & Hn & Hall & Hk & Hlast).
  exists (rev l). unfold uintToBase. rewrite El. simpl.
  pose proof (reverse_loop_spec (length l) [] l [] ltac:(lia)) as Er. rewrite !app_nil_r in Er. simpl in Er. rewrite Er.
  split; [done|]. split.
  { intros E. apply Hl. apply (f_equal (@length Z)) in E. rewrite length_rev in E. by destruct l. }
  unfold number_of. rewrite rev_involutive. split; [done|]. split; [by apply Forall_rev|].
  split; [by rewrite length_rev|]. destruct l as [|c l _] using rev_ind; [done|].
  rewrite rev_app_distr. simpl. intros [= ->]. apply (Hlast 48); [|done]. by rewrite last_snoc.
Qed.

(** ** Printing *)

(** What printing may change: the cells between the two positions of the cursor. *)
Definition printed (c c' : console) (n : Z) : Prop :=
  currentVideo c' = currentVideo c + 2 * n /\ (is_bytes (c_mem c) -> is_bytes (c_mem c')) /\
  forall a, ~ (currentVideo c <= a < currentVideo c + 2 * n) -> load8 (c_mem c') a = load8 (c_mem c) a.

Lemma printed_refl c : printed c c 0.
Proof. split; [lia|]. done. Qed.
Lemma printed_trans c1 c2 c3 n m : 0 <= n -> 0 <= m -> printed c1 c2 n -> printed c2 c3 m -> printed c1 c3 (n + m).
Proof.
  intros Hn Hm (E1 & B1 & H1) (E2 & B2 & H2). split; [lia|]. split; [tauto|].
  intros a Ha. rewrite H2 by lia. apply H1. lia.
Qed.

Lemma ncPrintChar_spec c ch (Q : unit -> console -> Prop) :
  (forall c', printed c c' 1 -> Q tt c') -> runs (ncPrintChar ch) c Q.
Proof.
  intros HQ. apply runs_bind, runs_modify, runs_modify, HQ. split; [done|]. cbn. split.
  - intros Hb a. rewrite load8_store8. case_decide; [apply wrap_range; lia|apply Hb].
  - intros a Ha. rewrite load8_store8. rewrite decide_False; [done|lia].
Qed.

Lemma ncPrint_spec l : forall c (Q : unit -> console -> Prop),
  Forall (fun x => x <> 0) l -> (forall c', printed c c' (Z.of_nat (length l)) -> Q tt c') -> runs (ncPrint l) c Q.
Proof.
  induction l as [|x l IH]; intros c Q Hl HQ; simpl.
  - apply runs_ret, HQ, printed_refl.
  - apply Forall_cons in Hl as [Hx Hl]. rewrite (proj2 (Z.eqb_neq x 0) Hx).
    apply runs_bind, ncPrintChar_spec. intros c1 H1. apply IH; [done|]. intros c2 H2. apply HQ.
    replace (Z.of_nat (length (x :: l))) with (1 + Z.of_nat (length l)) by (simpl; lia).
    eapply printed_trans; [lia|lia|done|done].
Qed.

Lemma ncPrintBase_spec c value base k (Q : unit -> console -> Prop) :
  2 <= base <= 36 -> 0 <= value < 2 ^ 64 -> (0 < k)%nat -> value < base ^ Z.of_nat k ->
  (forall c' n, 0 <= n <= Z.of_nat k -> printed c c' n -> Q tt c') -> runs (ncPrintBase value base) c Q.
Proof.
  intros Hb Hv Hk Hvk HQ. destruct (uintToBase_spec value base Hb Hv) as (l & El & _ & _ & Hall & Hlen & _).
  apply runs_bind. eapply runs_gets_opt; [exact El|]. apply ncPrint_spec.
  - eapply Forall_impl; [exact Hall|]. intros x Hx. apply Hx.
  - intros c' Hp. eapply HQ; [|exact Hp]. specialize (Hlen k Hk Hvk). lia.
Qed.

(** A new line: blanks up to the end of the line. *)
Lemma newline_loop fuel : forall c pos (Q : unit -> console -> Prop),
  (exists line, currentVideo c = video + 160 * line + 2 * pos /\ 0 <= line < 2 ^ 40) -> 0 <= pos < 80 ->
  80 - pos <= Z.of_nat fuel ->
  (forall c', printed c c' (80 - pos) -> Q tt c') -> runs (while_fuel fuel newline_step tt) c Q.
Proof.
  induction fuel as [|fuel IH]; intros c pos Q (line & Hv & Hline) Hp Hf HQ; [lia|]. simpl while_fuel.
  apply runs_bind. unfold newline_step. apply runs_bind, ncPrintChar_spec. intros c1 H1. apply runs_bind, runs_gets, runs_ret.
  assert (currentVideo c1 - video = 160 * line + 2 * (pos + 1)) as E by (destruct H1 as [-> _]; lia).
  unfold width. rewrite E, wrap_small by lia. change (80 * 2) with 160.
  destruct (Z.eqb_spec ((160 * line + 2 * (pos + 1)) mod 160) 0) as [E0|E0].
  - apply runs_ret, HQ. assert (pos = 79) as -> by dlia. done.
  - assert (pos <> 79) by (intros ->; apply E0; rewrite Z.mul_comm; replace (line * 160 + 2 * (79 + 1)) with ((line + 1) * 160) by lia; apply Z.mod_mul; lia).
    apply (IH c1 (pos + 1)); [|lia|lia|].
    + exists line. split; [|done]. destruct H1 as [-> _]. lia.
    + intros c2 H2. apply HQ. replace (80 - pos) with (1 + (80 - (pos + 1))) by lia. eapply printed_trans; [lia|lia|done|done].
Qed.

Lemma ncNewline_spec c line pos (Q : unit -> console -> Prop) :
  currentVideo c = video + 160 * line + 2 * pos -> 0 <= line < 2 ^ 40 -> 0 <= pos < 80 ->
  (forall c', printed c c' (80 - pos) -> Q tt c') -> runs ncNewline c Q.
Proof. intros Hv Hl Hp HQ. eapply newline_loop; [by exists line|done|lia|done]. Qed.

(** ** One module *)

(** Memory from one megabyte on holds [m]; the cursor is at the start of a line
    of the console, which ends below. *)
Definition console_at (line : Z) (m : memory) (c : console) : Prop :=
  currentVideo c = video + 160 * line /\ 0 <= line /\ is_bytes (c_mem c) /\
  forall a, 0x100000 <= a -> load8 (c_mem c) a = load8 m a.

Lemma load32_at line m c a : console_at line m c -> 0x100000 <= a -> load32 (c_mem c) a = load32 m a.
Proof. intros (_ & _ & _ & H) Ha. apply load_le_ext. intros i Hi. apply H. lia. Qed.

Lemma loadModule_spec c line m module target size (Q : Z -> console -> Prop) :
  console_at line m c -> line < 1800 -> load32 m module = size -> 0 <= size < 2 ^ 32 ->
  0x100000 <= module -> module + 4 < 2 ^ 32 -> 0x100000 <= target < 2 ^ 32 ->
  (target + size <= module + 4 \/ module + 4 + size <= target) ->
  (forall c' m', console_at (line + 1) m' c' ->
     (forall a, 0x100000 <= a -> load8 m' a = if decide (target <= a < target + size) then load8 m (module + 4 + (a - target)) else load8 m a) ->
     Q (module + 4 + size) c') ->
  runs (loadModule module target) c Q.
Proof.
  intros Hc Hline Hs Hsz Hm Hm32 Ht Hd HQ. pose proof Hc as (Hv & Hl0 & Hb & Hmem).
  assert (forall k (R : unit -> console -> Prop) c1 n l, 0 <= n -> printed c c1 n -> k = Z.of_nat (length l) ->
    Forall (fun x => x <> 0) l -> (forall c2, printed c c2 (n + k) -> R tt c2) -> runs (ncPrint l) c1 R) as Hprint.
  { intros k R c1 n l Hn Hp -> Hl HR. apply ncPrint_spec; [done|]. intros c2 H2. apply HR. eapply printed_trans; [lia|lia|done|done]. }
  assert (forall k (R : unit -> console -> Prop) c1 n v base, 0 <= n -> printed c c1 n -> 2 <= base <= 36 -> 0 <= v < 2 ^ 64 -> (0 < k)%nat -> v < base ^ Z.of_nat k ->
    (forall c2 n', n <= n' <= n + Z.of_nat k -> printed c c2 n' -> R tt c2) -> runs (ncPrintBase v base) c1 R) as Hnum.
  { intros k R c1 n v base Hn Hp Hb0 Hv0 Hk Hvk HR. eapply ncPrintBase_spec; [done|done|exact Hk|done|]. intros c2 n' Hn' H2.
    apply (HR c2 (n + n')); [lia|]. eapply printed_trans; [lia|lia|done|done]. }
  unfold loadModule. apply runs_bind. unfold readUint32. apply runs_bind, runs_gets, runs_ret.
  rewrite (load32_at _ _ _ _ Hc Hm), Hs.
  assert (forall l : list Z, bool_decide (Forall (fun x => x <> 0) l) = true -> Forall (fun x => x <> 0) l) as Hnz.
  { intros l. apply bool_decide_eq_true. }
  apply runs_bind. apply (Hprint 24 _ c 0); [lia|apply printed_refl|done|by apply Hnz|]. intros c1 H1.
  apply runs_bind. eapply (Hnum 8%nat); [|exact H1|lia..|]; [lia|]. intros c2 n2 Hn2 H2.
  apply runs_bind. eapply (Hprint 6); [|exact H2|done|by apply Hnz|]; [lia|]. intros c3 H3.
  apply runs_bind. eapply (Hnum 8%nat); [|exact H3|lia..|]; [lia|]. intros c4 n4 Hn4 H4.
  apply runs_bind. eapply (Hprint 2); [|exact H4|done|by apply Hnz|]; [lia|]. intros c5 H5.
  apply runs_bind. eapply (Hnum 10%nat); [|exact H5|lia..|]; [lia|]. intros c6 n6 Hn6 H6.
  apply runs_bind. eapply (Hprint 7); [|exact H6|done|by apply Hnz|]; [lia|]. intros c7 H7.
  apply runs_bind, runs_modify. set (c8 := c7 <| c_mem ::= memcpy target (module + 4) size |>). cbv zeta.
  assert (is_bytes (c_mem c7)) as Hb7 by (by apply H7).
  assert (forall a, load8 (c_mem c8) a = if decide (target <= a < target + size) then load8 (c_mem c7) (module + 4 + (a - target)) else load8 (c_mem c7) a) as Hcopy.
  { intros a. apply memcpy_spec; [done|lia|lia]. }
  assert (currentVideo c8 = currentVideo c7) as Ev8 by done.
  assert (is_bytes (c_mem c8)) as Hb8 by (intros a; rewrite Hcopy; case_decide; apply Hb7).
  destruct H7 as (E7 & _ & M7).
  apply runs_bind. apply ncPrint_spec; [by apply Hnz|]. intros c9 H9. change (Z.of_nat (length msg_done)) with 7 in H9.
  pose proof H9 as (E9 & _ & _).
  apply runs_bind. eapply (ncNewline_spec c9 line (n6 + 7 + 7)); [unfold video in *; lia|lia|lia|]. intros c10 H10.
  apply runs_ret. pose proof (printed_trans _ _ _ 7 (80 - (n6 + 7 + 7)) ltac:(lia) ltac:(lia) H9 H10) as (Ef & Bf & Mf).
  assert (forall a, 0x100000 <= a -> load8 (c_mem c10) a = load8 (c_mem c8) a) as Hhigh.
  { intros a Ha. apply Mf. unfold video in *. lia. }
  apply (HQ c10 (c_mem c10)).
  - split; [|split; [lia|split; [by apply Bf|done]]]. rewrite Ef, Ev8, E7, Hv. lia.
  - intros a Ha. rewrite Hhigh, Hcopy by done. case_decide; rewrite M7, Hmem by (unfold video in *; lia); done.
Qed.
