(* ===== verification/Packer.v ===== *)
(** * The packer (src/Toolchain/ModulePacker/main.c)

    A program of the host: it writes the kernel, the number of modules and each
    module with its size in front to one file.  Its state is the files it may
    read, by name; a write is seen at once (the buffers of stdio are not modelled).
    What [argp_parse] makes of a command line is a parameter: the sequence of its
    calls of [parse_opt]. *)
From S2P Require Import Prelude.

Definition path := list Z.
Abbreviation disk := (gmap (list Z) (list Z)).

Definition BUFFER_SIZE : nat := 128.
Definition MAX_FILES : nat := 128.
(** "packedKernel.bin" *)
Definition OUTPUT_FILE : path := [112; 97; 99; 107; 101; 100; 75; 101; 114; 110; 101; 108; 46; 98; 105; 110].

(** [array] and its [length]; a slot that was never written is [None]. *)
Record array_t := mk_array { array : list (option path); length_ : Z }.
Record arguments := mk_arguments { args : list (option path); output_file : path; count : Z }.
Definition eta_arguments (a : arguments) := mk_arguments (args a) (output_file a) (count a).
#[export] Instance set_args : Setter args := ltac:(build_setter eta_arguments args).
#[export] Instance set_output_file : Setter output_file := ltac:(build_setter eta_arguments output_file).
#[export] Instance set_count : Setter count := ltac:(build_setter eta_arguments count).

(** ** The command line *)

(** The others it is called with, which it does not know: the start, the success and
    the end of the parsing. *)
Inductive argp_key := KeyOption (c : Z) | ARGP_KEY_ARG | ARGP_KEY_END | ARGP_KEY_INIT | ARGP_KEY_SUCCESS | ARGP_KEY_FINI.
(** A call of [parse_opt]: [key], [arg] and [state->arg_num]. *)
Record argp_call := mk_call { key : argp_key; arg : path; arg_num : nat }.
(** [argp_usage] ends the program. *)
Inductive parsed := Parsed (error : Z) | Usage.
Definition ARGP_ERR_UNKNOWN : Z := 7.
Definition EX_USAGE : Z := 64.

(** A 129th file is written past the end of [args]. *)
Definition parse_opt (c : argp_call) : M arguments parsed :=
  match key c with
  | KeyOption o =>
      if o =? 111 then modify (fun a => a <| output_file := arg c |>) ;; mret (Parsed 0)
      else mret (Parsed ARGP_ERR_UNKNOWN)
  | ARGP_KEY_ARG =>
      if (arg_num c <? MAX_FILES)%nat then modify (fun a => a <| args ::= <[arg_num c := Some (arg c)]> |>) ;; mret (Parsed 0)
      else fault
  | ARGP_KEY_END =>
      if (arg_num c <? 1)%nat then mret Usage
      else modify (fun a => a <| count := i32 (Z.of_nat (arg_num c)) |>) ;; mret (Parsed 0)
  | _ => mret (Parsed ARGP_ERR_UNKNOWN)
  end.
(** Whether the program goes on after [argp_parse]. *)
Fixpoint argp_run (calls : list argp_call) : M arguments bool :=
  match calls with
  | [] => mret true
  | c :: calls => r ← parse_opt c; match r with Parsed _ => argp_run calls | Usage => mret false end
  end.

(** ** The files *)

Abbreviation H := (M disk).

Definition file_name (a : array_t) (i : Z) : H path := gets_opt (fun _ => mjoin (array a !! Z.to_nat i)).
(** A stream to read from is what is left of its file; using that of a file
    that cannot be opened is undefined behaviour. *)
Definition fopen_read (name : path) : H (list Z) := gets_opt (fun d => d !! name).
Definition fwrite (target : path) (bytes : list Z) : H unit := modify (alter (fun l => l ++ bytes) target).

(** The bytes of a 32-bit number. *)
Definition bytes_le32 (v : Z) : list Z := (fun i => u8 (v / 256 ^ Z.of_nat i)) <$> seq 0 4.

(** [while (!feof(source)) { read = fread(...); fwrite(...); }]: [feof] is set by
    the read that comes up short. *)
Definition write_step (target : path) (source : list Z) : H (list Z + unit) :=
  fwrite target (take BUFFER_SIZE source) ;;
  if (length source <? BUFFER_SIZE)%nat then mret (inr tt) else mret (inl (drop BUFFER_SIZE source)).
Definition write_file (target : path) (source : list Z) : H unit :=
  while_fuel (S (length source)) (write_step target) source.

Definition write_size (target filename : path) : H unit :=
  st ← fopen_read filename;
  fwrite target (bytes_le32 (u32 (Z.of_nat (length st)))).

(** One round of the loop over the modules. *)
Definition write_module (a : array_t) (target : path) (i : Z) : H unit :=
  name ← file_name a i;
  source ← fopen_read name;
  write_size target name ;;
  write_file target source.

Section Host.
(** What the host makes of a command line, and whether it creates a file. *)
Variable argp_parse : list path -> list argp_call.
Variable can_create : path -> bool.

Definition buildImage (fileArray : array_t) (output : path) : H Z :=
  if negb (can_create output) then mret 0 else
  modify <[output := []]> ;;
  kernel ← file_name fileArray 0;
  source ← fopen_read kernel;
  write_file output source ;;
  let extraBinaries := i32 (length_ fileArray - 1) in
  fwrite output (bytes_le32 (u32 extraBinaries)) ;;
  for_up 1 (Z.to_nat (length_ fileArray - 1)) (write_module fileArray output) ;;
  mret 1.

(** [access(..., R_OK)] *)
Definition check_file (a : array_t) (i : Z) : H (option unit) :=
  name ← file_name a i;
  found ← gets (fun d : disk => bool_decide (is_Some (d !! name)));
  mret (if found : bool then None else Some tt).
Definition checkFiles (a : array_t) : H Z :=
  r ← for_first 0 (Z.to_nat (length_ a)) (check_file a);
  mret (match r with Some _ => 0 | None => 1 end).

(** The status the program ends with. *)
Definition main (argv : list path) : H Z :=
  match argp_run (argp_parse argv) (mk_arguments (replicate MAX_FILES None) OUTPUT_FILE 0) with
  | Done true a =>
      let fileArray := mk_array (args a) (count a) in
      ok ← checkFiles fileArray;
      if ok =? 0 then mret 1 else
      built ← buildImage fileArray (output_file a);
      mret (if built =? 0 then 1 else 0)
  | Done false _ => mret EX_USAGE
  | _ => fault
  end.
End Host.
