(* ===== verification/PackerFacts.v ===== *)
(** * What the packer writes *)
From S2P Require Import Prelude Packer.

(** The modules, each with its size in front. *)
Definition payload (modules : list (list Z)) : list Z :=
  concat ((fun m => bytes_le32 (u32 (Z.of_nat (length m))) ++ m) <$> modules).
Definition image_of (kernel : list Z) (modules : list (list Z)) : list Z :=
  kernel ++ bytes_le32 (u32 (Z.of_nat (length modules))) ++ payload modules.

(** The calls of [parse_opt] for a line that names the output, or leaves it out, and
    then some files. *)
Fixpoint file_calls (k : nat) (names : list path) : list argp_call :=
  match names with [] => [] | n :: names => mk_call ARGP_KEY_ARG n k :: file_calls (S k) names end.
Definition end_calls (n : nat) : list argp_call :=
  [mk_call ARGP_KEY_END [] n; mk_call ARGP_KEY_SUCCESS [] n; mk_call ARGP_KEY_FINI [] n].
Definition line_calls (output : option path) (names : list path) : list argp_call :=
  mk_call ARGP_KEY_INIT [] 0 ::
  match output with Some o => [mk_call (KeyOption 111) o 0] | None => [] end
    ++ file_calls 0 names ++ end_calls (length names).

Lemma payload_cons m modules :
  payload (m :: modules) = bytes_le32 (u32 (Z.of_nat (length m))) ++ m ++ payload modules.
Proof. unfold payload. rewrite fmap_cons. apply symmetry, app_assoc. Qed.
Lemma payload_snoc modules m :
  payload (modules ++ [m]) = payload modules ++ bytes_le32 (u32 (Z.of_nat (length m))) ++ m.
Proof. unfold payload. rewrite fmap_app, concat_app. f_equal. apply app_nil_r. Qed.

(** ** The command line *)

(** After the files before the [k]th. *)
Definition args_upto (names : list path) (k : nat) : list (option path) :=
  (Some <$> take k names) ++ replicate (MAX_FILES - k) None.

Lemma args_next names k n : names !! k = Some n -> (length names <= MAX_FILES)%nat ->
  <[k := Some n]> (args_upto names k) = args_upto names (S k).
Proof.
  intros Hn Hlen. apply lookup_lt_Some in Hn as Hk. unfold args_upto.
  rewrite (take_S_r _ _ _ Hn), fmap_app, <- app_assoc. rewrite insert_app_r_alt by (rewrite length_fmap, length_take; lia).
  rewrite length_fmap, length_take. replace (k - k `min` length names)%nat with 0%nat by lia.
  by replace (MAX_FILES - k)%nat with (S (MAX_FILES - S k)) by lia.
Qed.

Lemma argp_files names output tail (Q : bool -> arguments -> Prop) : (length names <= MAX_FILES)%nat ->
  runs (argp_run tail) (mk_arguments (args_upto names (length names)) output 0) Q ->
  forall rest k, rest = drop k names -> (k <= length names)%nat ->
  runs (argp_run (file_calls k rest ++ tail)) (mk_arguments (args_upto names k) output 0) Q.
Proof.
  intros Hlen Htail. induction rest as [|n rest IH]; intros k Hrest Hk; cbn [file_calls app].
  - assert (k = length names) as ->; [|exact Htail].
    apply (f_equal length) in Hrest. rewrite length_drop in Hrest. simpl in Hrest. lia.
  - assert (names !! k = Some n) as Hn by (rewrite <- (Nat.add_0_r k), <- lookup_drop, <- Hrest; done).
    apply lookup_lt_Some in Hn as Hlt. cbn [argp_run]. apply runs_bind. unfold parse_opt. cbn [key arg_num arg].
    destruct (Nat.ltb_spec k MAX_FILES); [|lia]. apply runs_bind, runs_modify, runs_ret.
    change (runs (argp_run (file_calls (S k) rest ++ tail)) (mk_arguments (<[k := Some n]> (args_upto names k)) output 0) Q).
    rewrite args_next by done. apply IH; [|lia].
    change (S k) with (1 + k)%nat. rewrite Nat.add_comm, <- drop_drop, <- Hrest. done.
Qed.

Lemma argp_line output names : (0 < length names <= MAX_FILES)%nat ->
  runs (argp_run (line_calls output names)) (mk_arguments (replicate MAX_FILES None) OUTPUT_FILE 0)
    (fun r a => r = true /\ output_file a = default OUTPUT_FILE output /\ count a = Z.of_nat (length names) /\
       forall i, (i < length names)%nat -> args a !! i = Some (names !! i)).
Proof.
  intros Hlen. unfold line_calls. cbn [argp_run]. apply runs_bind. unfold parse_opt at 1. cbn [key]. apply runs_ret.
  assert (forall o (Q : bool -> arguments -> Prop),
    Q true (mk_arguments (args_upto names (length names)) o (Z.of_nat (length names))) ->
    runs (argp_run (file_calls 0 names ++ end_calls (length names))) (mk_arguments (replicate MAX_FILES None) o 0) Q) as Hrun.
  { intros o Q HQ. apply (argp_files names o _ Q); [lia| |done|lia]. cbn [argp_run]. apply runs_bind. unfold parse_opt. cbn [key arg_num].
    destruct (Nat.ltb_spec (length names) 1); [lia|]. apply runs_bind, runs_modify, runs_ret.
    do 2 (apply runs_bind, runs_ret). apply runs_ret.
    rewrite swrap_small; [exact HQ|lia|]. unfold MAX_FILES in Hlen. lia. }
  assert (forall o, let a := mk_arguments (args_upto names (length names)) o (Z.of_nat (length names)) in
    forall i, (i < length names)%nat -> args a !! i = Some (names !! i)) as Hargs.
  { intros o a i Hi. cbn [a args]. unfold args_upto. rewrite firstn_all.
    rewrite lookup_app_l by (by rewrite length_fmap). rewrite list_lookup_fmap.
    destruct (names !! i) eqn:E; [done|]. apply lookup_ge_None in E. lia. }
  destruct output as [o|]; cbn [app default].
  - cbn [argp_run]. apply runs_bind. unfold parse_opt. cbn [key]. apply runs_bind, runs_modify, runs_ret.
    change (runs (argp_run (file_calls 0 names ++ end_calls (length names))) (mk_arguments (replicate MAX_FILES None) o 0)
      (fun r a => r = true /\ output_file a = o /\ count a = Z.of_nat (length names) /\
         forall i, (i < length names)%nat -> args a !! i = Some (names !! i))).
    apply Hrun. split_and!; [done..|apply Hargs].
  - apply Hrun. split_and!; [done..|apply Hargs].
Qed.

(** ** The files *)

Section Files.
Context (out : path) (d : disk).
Implicit Types (l source bytes : list Z).
(** The disk while the image is written: [l] is in the output file. *)
Abbreviation written l := (<[out := l]> d : disk).

Lemma fwrite_runs l bytes (Q : unit -> disk -> Prop) : Q tt (written (l ++ bytes)) -> runs (fwrite out bytes) (written l) Q.
Proof.
  intros HQ. apply runs_modify. replace (alter _ out (written l)) with (written (l ++ bytes)); [done|].
  apply map_eq. intros n. destruct (decide (n = out)) as [->|].
  - by rewrite lookup_alter_eq, !lookup_insert_eq.
  - by rewrite lookup_alter_ne, !lookup_insert_ne.
Qed.

Lemma write_file_runs source l (Q : unit -> disk -> Prop) :
  Q tt (written (l ++ source)) -> runs (write_file out source) (written l) Q.
Proof.
  intros HQ. unfold write_file.
  apply (runs_while (fun rest t => exists done_, l ++ source = done_ ++ rest /\ t = written done_) (fun rest _ => length rest));
    [by exists l|lia|].
  intros rest t (done_ & E & ->). unfold write_step. apply runs_bind, fwrite_runs.
  destruct (Nat.ltb_spec (length rest) BUFFER_SIZE) as [Hlt|Hge]; apply runs_ret.
  - rewrite firstn_all2 by lia. by rewrite <- E.
  - split; [|rewrite length_drop; unfold BUFFER_SIZE in *; lia].
    exists (done_ ++ take BUFFER_SIZE rest). by rewrite <- app_assoc, firstn_skipn.
Qed.

(** The files of the command line, with their contents. *)
Context (a : array_t) (names : list path) (contents : list (list Z)).
Hypothesis Hargs : forall i, (i < length names)%nat -> array a !! i = Some (names !! i).
Hypothesis Hfiles : Forall2 (fun n c => d !! n = Some c) names contents.
Hypothesis Hout : out ∉ names.

Lemma file_name_runs (i : nat) (n : path) (d' : disk) (Q : path -> disk -> Prop) : names !! i = Some n -> Q n d' -> runs (file_name a (Z.of_nat i)) d' Q.
Proof.
  intros Hn HQ. apply (runs_gets_opt _ _ n); [|done]. rewrite Nat2Z.id, Hargs by (by eapply lookup_lt_Some). by rewrite Hn.
Qed.
Lemma fopen_runs (i : nat) (n : path) (c l : list Z) (Q : list Z -> disk -> Prop) :
  names !! i = Some n -> contents !! i = Some c -> Q c (written l) -> runs (fopen_read n) (written l) Q.
Proof.
  intros Hn Hc HQ. apply (runs_gets_opt _ _ c); [|done].
  rewrite lookup_insert_ne by (intros ->; by apply Hout, list_elem_of_lookup; exists i).
  by eapply (Forall2_lookup_lr _ _ _ _ _ _ Hfiles).
Qed.

Lemma check_files_run : length_ a = Z.of_nat (length names) -> runs (checkFiles a) d (fun r d' => r = 1 /\ d' = d).
Proof.
  intros Hlen. unfold checkFiles. rewrite Hlen, Nat2Z.id. apply runs_bind.
  assert (forall n k, (k + n = length names)%nat ->
    runs (for_first (Z.of_nat k) n (check_file a)) d (fun r d' => r = None /\ d' = d)) as Hloop.
  { induction n as [|n IH]; intros k Hk; simpl; [by apply runs_ret|].
    destruct (lookup_lt_is_Some_2 names k ltac:(lia)) as [nm Hnm].
    destruct (Forall2_lookup_l _ _ _ _ _ Hfiles Hnm) as (c & _ & Hc).
    apply runs_bind, runs_bind, (file_name_runs k nm); [done|]. apply runs_bind, runs_gets, runs_ret.
    rewrite bool_decide_true by (by exists c). replace (Z.of_nat k + 1) with (Z.of_nat (S k)) by lia. apply IH. lia. }
  eapply runs_mono; [apply (Hloop _ 0%nat); lia|]. intros r d' [-> ->]. by apply runs_ret.
Qed.

Lemma build_image_runs can_create kernel modules :
  can_create out = true -> contents = kernel :: modules -> length_ a = Z.of_nat (length names) -> (length names <= MAX_FILES)%nat ->
  runs (buildImage can_create a out) d (fun r d' => r = 1 /\ d' = written (image_of kernel modules)).
Proof.
  intros Hcan Hk Hlen Hmax. pose proof (Forall2_length _ _ _ Hfiles) as Hl. unfold MAX_FILES in Hmax.
  assert (length names = S (length modules)) as Hlm by (rewrite Hl, Hk; done).
  destruct (lookup_lt_is_Some_2 names 0 ltac:(lia)) as [kn Hkn].
  unfold buildImage. rewrite Hcan. cbn [negb]. apply runs_bind, runs_modify.
  apply runs_bind, (file_name_runs 0 kn); [done|]. apply runs_bind, (fopen_runs 0 kn kernel); [done|by rewrite Hk|].
  apply runs_bind, write_file_runs. cbv zeta. rewrite Hlen. rewrite swrap_small by lia.
  replace (Z.of_nat (length names) - 1) with (Z.of_nat (length modules)) by lia. apply runs_bind, fwrite_runs. rewrite app_nil_l, Nat2Z.id.
  apply runs_bind. apply (runs_for_up (fun i t => t = written ((kernel ++ bytes_le32 (u32 (Z.of_nat (length modules))))
    ++ payload (take (Z.to_nat (i - 1)) modules)))).
  - change (take (Z.to_nat (1 - 1)) modules) with (@nil (list Z)). by rewrite app_nil_r.
  - intros i t Hi ->. destruct (lookup_lt_is_Some_2 modules (Z.to_nat (i - 1)) ltac:(lia)) as [m Hm].
    destruct (lookup_lt_is_Some_2 names (Z.to_nat i) ltac:(lia)) as [n Hn].
    assert (contents !! Z.to_nat i = Some m) as Hc.
    { rewrite Hk. replace (Z.to_nat i) with (S (Z.to_nat (i - 1))) by lia. done. }
    unfold write_module. apply runs_bind. rewrite <- (Z2Nat.id i) by lia. apply (file_name_runs _ n); [done|].
    apply runs_bind, (fopen_runs (Z.to_nat i) n m); [done..|].
    apply runs_bind, runs_bind, (fopen_runs (Z.to_nat i) n m); [done..|]. apply fwrite_runs, write_file_runs.
    rewrite Z2Nat.id by lia. replace (Z.to_nat (i + 1 - 1)) with (S (Z.to_nat (i - 1))) by lia.
    rewrite (take_S_r _ _ _ Hm), payload_snoc, <- !app_assoc. done.
  - intros t ->. apply runs_ret. split; [done|]. unfold image_of. rewrite <- app_assoc.
    rewrite firstn_all2 by lia. done.
Qed.
End Files.

(** The program packs the files of its command line. *)
Lemma main_packs argp_parse can_create argv output names kernel modules d :
  argp_parse argv = line_calls output names -> (length names <= MAX_FILES)%nat ->
  Forall2 (fun n c => d !! n = Some c) names (kernel :: modules) ->
  let out := default OUTPUT_FILE output in
  can_create out = true -> out ∉ names ->
  runs (main argp_parse can_create argv) d (fun r d' => r = 0 /\ d' = <[out := image_of kernel modules]> d).
Proof.
  intros Hargv Hmax Hfiles out Hcan Hout. pose proof (Forall2_length _ _ _ Hfiles) as Hl. simpl in Hl.
  destruct (argp_line output names ltac:(lia)) as (r & a & E & -> & Ho & Hcount & Hargs).
  unfold main. rewrite Hargv, E. cbv zeta. set (fa := mk_array (args a) (count a)).
  apply runs_bind. eapply runs_mono; [by apply (check_files_run d fa names (kernel :: modules))|].
  intros ok d' [-> ->]. cbn [Z.eqb]. rewrite Ho. fold out. apply runs_bind.
  eapply runs_mono; [by apply (build_image_runs out d fa names (kernel :: modules) Hargs Hfiles Hout can_create kernel modules)|].
  intros built d' [-> ->]. by apply runs_ret.
Qed.
