(* ===== verification/LoaderTheorems.v ===== *)
(** * What the loader promises

    The program that packs the image and the loader agree on its format; numbers
    are printed as they are; a gate of the interrupt table leads to its handler. *)
From S2P Require Import Prelude CLib Loader LoaderFacts Packer PackerFacts.
Import Console Loader Idt.

(** ** The image *)

#[local] Arguments bytes_le32 : simpl never.

Lemma holds_load32 m a v : 0 <= v < 2 ^ 32 -> holds m a (bytes_le32 v) -> load32 m a = v.
Proof.
  intros Hv H. pose proof (H 0%nat ltac:(simpl; lia)) as H0. pose proof (H 1%nat ltac:(simpl; lia)) as H1.
  pose proof (H 2%nat ltac:(simpl; lia)) as H2. pose proof (H 3%nat ltac:(simpl; lia)) as H3.
  change (bytes_le32 v !! 0%nat) with (Some (u8 (v / 1))) in H0. change (bytes_le32 v !! 1%nat) with (Some (u8 (v / 256))) in H1.
  change (bytes_le32 v !! 2%nat) with (Some (u8 (v / 65536))) in H2. change (bytes_le32 v !! 3%nat) with (Some (u8 (v / 16777216))) in H3.
  simpl default in *. unfold load32. simpl load_le. replace (a + 1 + 1) with (a + 2) by lia. replace (a + 2 + 1) with (a + 3) by lia.
  change (Z.of_nat 0) with 0 in H0. change (Z.of_nat 1) with 1 in H1. change (Z.of_nat 2) with 2 in H2. change (Z.of_nat 3) with 3 in H3.
  rewrite Z.add_0_r in H0. rewrite H0, H1, H2, H3. unfold wrap. change (2 ^ 8) with 256 in *. dlia.
Qed.

(** Where the modules go: high addresses, apart from the payload and from each other. *)
Definition apart (t n t' n' : Z) : Prop := t + n <= t' \/ t' + n' <= t.
Fixpoint placed (lo hi : Z) (pl : list (Z * list Z)) : Prop :=
  match pl with
  | [] => True
  | (t, m) :: pl' =>
      0x100000 <= t < 2 ^ 32 /\ apart t (Z.of_nat (length m)) lo (hi - lo) /\
      Forall (fun p => apart t (Z.of_nat (length m)) p.1 (Z.of_nat (length p.2))) pl' /\ placed lo hi pl'
  end.

Lemma load_loop_spec modules : forall targets line m c current lo hi (Q : unit -> console -> Prop),
  (length modules <= length targets)%nat -> placed lo hi (zip targets modules) ->
  console_at line m c -> line + Z.of_nat (length modules) < 1800 ->
  holds m current (payload modules) -> lo <= current -> current + Z.of_nat (length (payload modules)) <= hi ->
  0x100000 <= lo -> hi < 2 ^ 32 ->
  (forall c' m', console_at (line + Z.of_nat (length modules)) m' c' ->
     Forall (fun p => holds m' p.1 p.2) (zip targets modules) ->
     (forall a, 0x100000 <= a -> Forall (fun p => ~ (p.1 <= a < p.1 + Z.of_nat (length p.2))) (zip targets modules) -> load8 m' a = load8 m a) ->
     Q tt c') ->
  runs (load_loop (length modules) current targets) c Q.
Proof.
  induction modules as [|md modules IH]; intros targets line m c current lo hi Q Hlen Hpl Hc Hline Hm Hlo Hhi Hlo1 Hhi1 HQ.
  - simpl. apply runs_ret. apply (HQ c m); [by rewrite Z.add_0_r|by destruct targets|done].
  - destruct targets as [|t targets]; [simpl in Hlen; lia|]. simpl in Hpl. destruct Hpl as (Ht & Hap & Hall & Hpl).
    rewrite payload_cons in Hm, Hhi. apply holds_app in Hm as [Hm1 Hm]. apply holds_app in Hm as [Hm2 Hm3].
    change (Z.of_nat (length (bytes_le32 _))) with 4 in *.
    rewrite !length_app in Hhi. change (length (bytes_le32 _)) with 4%nat in Hhi.
    set (size := Z.of_nat (length md)) in *.
    rewrite wrap_small in Hm1 by lia. simpl. apply runs_bind.
    eapply (loadModule_spec c line m current t size);
      [exact Hc|simpl in Hline; lia|by apply holds_load32; [lia|]|lia|lia|lia|done|unfold apart in Hap; lia|].
    intros c1 m1 Hc1 Hm1'.
    assert (forall b, 0x100000 <= b -> ~ (t <= b < t + size) -> load8 m1 b = load8 m b) as Hout.
    { intros b Hb Hn. rewrite Hm1' by done. by rewrite decide_False. }
    eapply (IH targets (line + 1) m1 c1 _ lo hi); [simpl in Hlen; lia|exact Hpl|exact Hc1|simpl in Hline; lia| |lia|lia|lia|lia|].
    { eapply holds_ext; [exact Hm3|]. intros b Hb. apply Hout; [lia|]. unfold apart in Hap. lia. }
    intros c2 m2 Hc2 Hall2 Hout2. apply (HQ c2 m2).
    + replace (line + Z.of_nat (length (md :: modules))) with (line + 1 + Z.of_nat (length modules)) by (simpl; lia). done.
    + constructor; [|exact Hall2]. cbn [fst snd]. intros i Hi. rewrite Hout2; [|lia|].
      * rewrite Hm1' by lia. rewrite decide_True by lia. rewrite <- Hm2 by done. f_equal. lia.
      * eapply Forall_impl; [exact Hall|]. intros [t' md']. simpl. unfold apart. lia.
    + intros a Ha [Hn1 Hn2]%Forall_cons. rewrite Hout2 by done. by apply Hout.
Qed.

(** Memory that holds an image, and addresses of the table apart from it, from
    each other and from the console. *)
Record loadable (image kernel : list Z) (modules : list (list Z)) m c base targets line : Prop := {
  ld_image : holds m base image;
  ld_targets : (length modules <= length targets)%nat;
  ld_placed : placed (base + Z.of_nat (length kernel)) (base + Z.of_nat (length image)) (zip targets modules);
  ld_console : console_at line m c;
  ld_lines : line + Z.of_nat (length modules) < 1800;
  ld_bounds : 0x100000 <= base + Z.of_nat (length kernel) /\ base + Z.of_nat (length image) < 2 ^ 32 }.

Lemma image_loads kernel modules m c base targets line :
  loadable (image_of kernel modules) kernel modules m c base targets line ->
  runs (loadModules (base + Z.of_nat (length kernel)) targets) c (fun _ c' =>
    Forall (fun p => bytes_at (c_mem c') p.1 (length p.2) = p.2) (zip targets modules)).
Proof.
  intros [Hm Hlen Hpl Hc Hline [Hlo Hhi]]. unfold image_of in *. set (start := base + Z.of_nat (length kernel)) in *.
  apply holds_app in Hm as [_ Hm]. apply holds_app in Hm as [Hm1 Hm2]. change (Z.of_nat (length (bytes_le32 _))) with 4 in *.
  rewrite !length_app in *. change (length (bytes_le32 _)) with 4%nat in *. fold start in Hm1, Hm2.
  pose proof (proj1 (proj2 Hc)) as Hl0. rewrite wrap_small in Hm1 by lia. unfold loadModules. apply runs_bind, runs_bind, runs_gets, runs_ret.
  rewrite (load32_at _ _ _ _ Hc Hlo). rewrite (holds_load32 m start (Z.of_nat (length modules)) ltac:(lia) Hm1), Nat2Z.id.
  eapply (load_loop_spec modules targets line m c (start + 4)); [done|exact Hpl|done|done|done|lia|lia|lia|lia|].
  intros c' m' (_ & _ & _ & Hc') Hall _. apply Forall_forall. intros p Hp. rewrite Forall_forall in Hall.
  apply holds_bytes_at. eapply holds_ext; [by apply Hall|]. intros b Hb. apply Hc'.
  assert (0x100000 <= p.1); [|lia]. clear -Hpl Hp. induction (zip targets modules) as [|[t md] pl IH]; [by apply elem_of_nil in Hp|].
  simpl in Hpl. destruct Hpl as (Ht & _ & _ & Hpl). apply elem_of_cons in Hp as [->|Hp]; [simpl; lia|auto].
Qed.

(** C31: the loader undoes the packer.  The packer, called with the names of a
    kernel and of some modules that it can read, ends with status 0 and leaves the
    other files alone; where memory holds the file it wrote, and the addresses of the
    table are apart, [loadModules] puts every module, byte for byte, at its address. *)
Theorem loadModules_unpacks argp_parse can_create argv output names kernel modules d :
  argp_parse argv = line_calls output names -> (length names <= MAX_FILES)%nat ->
  Forall2 (fun n f => d !! n = Some f) names (kernel :: modules) ->
  let out := default OUTPUT_FILE output in
  can_create out = true -> out ∉ names ->
  runs (Packer.main argp_parse can_create argv) d (fun status d' => status = 0 /\ exists image,
    d' = <[out := image]> d /\ forall m c base targets line,
    loadable image kernel modules m c base targets line ->
    runs (loadModules (base + Z.of_nat (length kernel)) targets) c (fun _ c' =>
      Forall (fun p => bytes_at (c_mem c') p.1 (length p.2) = p.2) (zip targets modules))).
Proof.
  intros Hargv Hmax Hfiles out Hcan Hout.
  eapply runs_mono; [by apply (main_packs argp_parse can_create argv output names kernel modules d)|].
  intros status d' [-> ->]. split; [done|]. exists (image_of kernel modules). split; [done|].
  intros m c base targets line. apply image_loads.
Qed.

Definition demo_kernel_bytes : list Z := [0x90; 0x90; 0xF4].
Definition demo_modules : list (list Z) := [[104; 111; 108; 97]; [42]].
Definition demo_image : list Z := image_of demo_kernel_bytes demo_modules.
(** "k", "a" and "b", and a command line without the option. *)
Definition demo_files : disk := list_to_map [([107], demo_kernel_bytes); ([97], [104; 111; 108; 97]); ([98], [42])].
Definition demo_argp (argv : list path) : list argp_call := line_calls None (drop 1 argv).
Definition demo_memory : memory := store_bytes 0x100000 demo_image ∅.

Lemma demo_image_bytes c : c ∈ demo_image -> 0 <= c < 256.
Proof. revert c. apply Forall_forall. apply (bool_decide_unpack _). vm_compute. exact I. Qed.

Lemma demo_loadable : loadable demo_image demo_kernel_bytes demo_modules demo_memory (mk_console demo_memory video)
  0x100000 [0x400000; 0x500000] 0.
Proof.
  split.
  - apply holds_store_bytes, demo_image_bytes.
  - simpl. lia.
  - replace (length demo_image) with 20%nat by reflexivity. cbn [placed zip zip_with demo_modules demo_kernel_bytes length].
    unfold apart. split_and!; try lia; repeat constructor; cbn [fst snd length]; lia.
  - split; [reflexivity|]. split; [discriminate|]. split; [|done]. intros a. unfold demo_memory. cbn [c_mem].
    rewrite load8_store_bytes by apply demo_image_bytes. case_decide; [|done].
    destruct (demo_image !! Z.to_nat (a - 0x100000)) eqn:E; [|done]. simpl.
    eapply demo_image_bytes. by eapply list_elem_of_lookup_2.
  - reflexivity.
  - replace (length demo_image) with 20%nat by reflexivity. split; [discriminate|reflexivity].
Qed.

Lemma loadModules_unpacks_witness :
  runs (Packer.main demo_argp (fun _ => true) [[112]; [107]; [97]; [98]]) demo_files (fun status d' =>
    status = 0 /\ d' !! OUTPUT_FILE = Some demo_image) /\
  runs (loadModules 0x100003 [0x400000; 0x500000]) (mk_console demo_memory video) (fun _ c' =>
    Forall (fun p => bytes_at (c_mem c') p.1 (length p.2) = p.2) [(0x400000, [104; 111; 108; 97]); (0x500000, [42])]).
Proof.
  destruct (loadModules_unpacks demo_argp (fun _ => true) [[112]; [107]; [97]; [98]] None [[107]; [97]; [98]]
    demo_kernel_bytes demo_modules demo_files eq_refl ltac:(simpl; unfold MAX_FILES; lia)
    ltac:(repeat constructor) eq_refl ltac:(by apply (bool_decide_unpack _); vm_compute))
    as (status & d' & E & -> & image & -> & Hload).
  assert (image = demo_image) as Eimage.
  { assert (match Packer.main demo_argp (fun _ => true) [[112]; [107]; [97]; [98]] demo_files with
      | Done _ d => d !! OUTPUT_FILE | _ => None end = Some demo_image) as E' by (vm_compute; reflexivity).
    rewrite E in E'. rewrite lookup_insert_eq in E'. by injection E'. }
  subst image. split; [by exists 0, (<[OUTPUT_FILE := demo_image]> demo_files)|].
  apply (Hload demo_memory (mk_console demo_memory video) 0x100000 [0x400000; 0x500000] 0 demo_loadable).
Defined.

(** [uintToBase] writes the number.  For every 64-bit value and every base
    from 2 to 36 the loops end; the string is made of digits of the base, has no
    leading zero unless the value is 0, and read back it is the value. *)
Theorem uintToBase_reads_back value base :
  2 <= base <= 36 -> 0 <= value < 2 ^ 64 ->
  exists l, uintToBase value base = Some l /\ number_of base l = value /\ Forall (is_digit_of base) l /\
    l <> [] /\ (head l = Some 48 -> value = 0).
Proof.
  intros Hb Hv. destruct (uintToBase_spec value base Hb Hv) as (l & E & Hl & Hn & Hall & _ & Hh). by exists l.
Qed.

Lemma uintToBase_reads_back_witness :
  exists l, uintToBase 48879 16 = Some l /\ number_of 16 l = 48879 /\ Forall (is_digit_of 16) l /\
    l <> [] /\ (head l = Some 48 -> 48879 = 0).
Proof. exact (uintToBase_reads_back 48879 16 ltac:(lia) ltac:(lia)). Defined.

(** ** The interrupt table *)

Lemma load_store8_ne n m a b v : b < a \/ a + Z.of_nat n <= b -> load_le n (store8 b v m) a = load_le n m a.
Proof. intros H. apply load_le_ext. intros i Hi. rewrite load8_store8. rewrite decide_False; [done|lia]. Qed.

Lemma gate_offset_same index offset m : 0 <= offset < 2 ^ 64 -> gate_offset index (setup_IDT_entry index offset m) = offset.
Proof.
  intros Ho. unfold gate_offset, setup_IDT_entry. set (a := 16 * index). cbv zeta.
  set (m1 := store_le 2 (a + 2) _ m). set (v1 := Z.land offset 0xFFFF).
  set (v2 := Z.land (Z.shiftr offset 16) 0xFFFF). set (v3 := Z.land (Z.shiftr offset 32) 0xFFFFFFFF).
  unfold load32, store32.
  rewrite (load_store_le_ne 2 4 _ (a + 12)), !(load_store8_ne 2), (load_store_le_ne 2 4), (load_store_le_ne 2 2), load_store_le by lia.
  rewrite (load_store_le_ne 2 4 _ (a + 12)), !(load_store8_ne 2), (load_store_le_ne 2 4), load_store_le by lia.
  rewrite (load_store_le_ne 4 4 _ (a + 12)), !(load_store8_ne 4), load_store_le by lia.
  assert (v1 = offset mod 2 ^ 16) as -> by apply (Z.land_ones offset 16 ltac:(lia)).
  assert (v2 = offset / 2 ^ 16 mod 2 ^ 16) as -> by (rewrite <- Z.shiftr_div_pow2 by lia; apply (Z.land_ones _ 16 ltac:(lia))).
  assert (v3 = offset / 2 ^ 32 mod 2 ^ 32) as -> by (rewrite <- Z.shiftr_div_pow2 by lia; apply (Z.land_ones _ 32 ltac:(lia))).
  change (256 ^ Z.of_nat 2) with (2 ^ 16). change (256 ^ Z.of_nat 4) with (2 ^ 32). rewrite !Z.mod_mod by lia.
  rewrite (Z.mod_small (offset / 2 ^ 32)) by dlia.
  replace (offset / 2 ^ 32) with (offset / 2 ^ 16 / 2 ^ 16) by (rewrite Z.div_div by lia; done). dlia.
Qed.

Lemma gate_offset_other i j offset m : i <> j -> gate_offset i (setup_IDT_entry j offset m) = gate_offset i m.
Proof.
  intros Hij. assert (16 * i + 16 <= 16 * j \/ 16 * j + 16 <= 16 * i) as Hd by lia. unfold gate_offset, setup_IDT_entry, load32, store32.
  cbv zeta. rewrite !(load_store_le_ne 2 4), !(load_store8_ne 2), !(load_store_le_ne 2 4), !(load_store_le_ne 2 2) by lia.
  by rewrite !(load_store_le_ne 4 4), !(load_store8_ne 4), !(load_store_le_ne 4 4), !(load_store_le_ne 4 2) by lia.
Qed.

(** the interrupt table leads to the handlers.  After [load_idt] the offset
    the processor reads in the gates 0x20, 0, 6, 0x21 and 0x80 is the address of
    the handler of the timer, of division by zero, of invalid opcodes, of the
    keyboard and of the system calls; the gates of the other vectors are as they
    were, and only the timer and the keyboard are unmasked. *)
Theorem load_idt_installs h20 h0 h6 h21 h80 m :
  Forall (fun h => 0 <= h < 2 ^ 64) [h20; h0; h6; h21; h80] ->
  let '(m', (master, slave)) := load_idt h20 h0 h6 h21 h80 m in
  gate_offset 0x20 m' = h20 /\ gate_offset 0 m' = h0 /\ gate_offset 6 m' = h6 /\ gate_offset 0x21 m' = h21 /\
  gate_offset 0x80 m' = h80 /\ (forall i, i ∉ [0x20; 0; 6; 0x21; 0x80] -> gate_offset i m' = gate_offset i m) /\
  (forall irq, 0 <= irq < 8 -> Z.testbit master irq = negb ((irq =? 0) || (irq =? 1)) /\ Z.testbit slave irq = true).
Proof.
  rewrite !Forall_cons. intros (H1 & H2 & H3 & H4 & H5 & _).
  unfold load_idt. cbv beta zeta iota.
  split_and!; try (rewrite ?gate_offset_other by lia; by apply gate_offset_same).
  - intros i Hi. rewrite !not_elem_of_cons in Hi. rewrite !gate_offset_other; [done|tauto..].
  - intros irq Hirq. assert (irq ∈ seqZ 0 8) as Hin by (apply elem_of_seqZ; lia).
    clear Hirq. revert irq Hin. apply Forall_forall. vm_compute. repeat constructor.
Qed.

Lemma load_idt_installs_witness :
  gate_offset 0x80 (load_idt 0x100100 0x100200 0x100300 0x100400 0xFFFF800012345678 ∅).1 = 0xFFFF800012345678.
Proof.
  apply (load_idt_installs 0x100100 0x100200 0x100300 0x100400 0xFFFF800012345678 ∅).
  repeat constructor; discriminate.
Defined.
