(* ===== verification/ULib.v ===== *)
(** * The library of the user programs (src/Userland/SampleCodeModule)

    Strings, numbers, formatted output and the command line of the shell.  A C
    string is the list of its characters, without the null; [ch s i] is [s[i]]. *)
From S2P Require Import Prelude.

Definition ch (s : list Z) (i : nat) : Z := default 0 (s !! i).

(** ** lib/utils/lib_utils.c *)

Fixpoint strlen_from (s : list Z) (len : Z) : Z :=
  match s with [] => len | c :: s' => if c =? 0 then len else strlen_from s' (len + 1) end.
Definition ustrlen (s : list Z) : Z := strlen_from s 0.

(** The characters [strncpy] writes, its null included; [n] is a [size_t]. *)
Fixpoint strncpy_loop (src : list Z) (room : Z) : list Z :=
  match src with
  | [] => [0]
  | c :: src' => if (0 <? room) && negb (c =? 0) then c :: strncpy_loop src' (room - 1) else [0]
  end.
Definition strncpy (src : list Z) (n : Z) : list Z := strncpy_loop src (u64 (n - 1)).

Fixpoint strcmp (s1 s2 : list Z) : Z :=
  match s1 with
  | [] => 0 - u8 (ch s2 0)
  | c1 :: s1' =>
      if negb (c1 =? 0) && (c1 =? ch s2 0) then strcmp s1' (tail s2) else u8 c1 - u8 (ch s2 0)
  end.

Definition is_blank (c : Z) : bool := (c =? 32) || (c =? 9) || (c =? 10).
Definition is_digit (c : Z) : bool := (c >=? 48) && (c <=? 57).
Fixpoint skip_blanks (s : list Z) : list Z :=
  match s with c :: s' => if is_blank c then skip_blanks s' else s | [] => [] end.
Fixpoint atoi_digits (s : list Z) (res : Z) : Z :=
  match s with
  | c :: s' => if is_digit c then atoi_digits s' (i32 (i32 (res * 10) + (c - 48))) else res
  | [] => res
  end.
Definition atoi (str : list Z) : Z :=
  let s := skip_blanks str in
  let '(sign, s) := if ch s 0 =? 45 then (-1, tail s) else if ch s 0 =? 43 then (1, tail s) else (1, s) in
  i32 (sign * atoi_digits s 0).

(** ** tests/test_util.c *)

(** The two words of the generator. *)
Definition GetUint (m_z m_w : Z) : Z * Z * Z :=
  let m_z := u32 (36969 * Z.land m_z 65535 + Z.shiftr m_z 16) in
  let m_w := u32 (18000 * Z.land m_w 65535 + Z.shiftr m_w 16) in
  (u32 (u32 (Z.shiftl m_z 16) + m_w), m_z, m_w).

Fixpoint memcheck (p : list Z) (value : Z) : bool :=
  match p with [] => true | c :: p' => if negb (c =? value) then false else memcheck p' value end.

Fixpoint satoi_loop (s : list Z) (res : Z) : option Z :=
  match s with
  | [] => Some res
  | c :: s' => if (c <? 48) || (c >? 57) then None else satoi_loop s' (i64 (i64 (i64 (res * 10) + c) - 48))
  end.
Definition satoi (str : list Z) : Z :=
  let '(sign, s) := if ch str 0 =? 45 then (-1, tail str) else (1, str) in
  match satoi_loop s 0 with Some res => i64 (res * sign) | None => 0 end.

(** ** lib/utils/lib_io.c *)

(** The arguments of a variadic call. *)
Inductive varg := VNum (n : Z) | VStr (s : list Z).

(** [while (value > 0) { buf[len++] = '0' + value % 10; value /= 10; }]: units
    first; a 64-bit value has at most twenty digits. *)
Fixpoint digits_rev (fuel : nat) (value : Z) : list Z :=
  match fuel with
  | O => []
  | S n => if value >? 0 then (value mod 10 + 48) :: digits_rev n (value / 10) else []
  end.
Definition append_unsigned_to_str (value : Z) : list Z :=
  if value =? 0 then [48] else rev (digits_rev 20 value).
Definition append_signed_to_str (value : Z) : list Z :=
  if value <? 0 then 45 :: append_unsigned_to_str (u64 (u64 (- (value + 1)) + 1))
  else append_unsigned_to_str (u64 value).

(** The case [%d] of [printf]: an [int] is negated in place. *)
Definition print_int (n : Z) : list Z :=
  if n =? 0 then [48] else
  if n <? 0 then 45 :: rev (digits_rev 12 (i32 (- n))) else rev (digits_rev 12 n).
(** The case [%lld]: the magnitude is computed as unsigned. *)
Definition print_longlong (val : Z) : list Z :=
  if val =? 0 then [48] else
  if val <? 0 then 45 :: rev (digits_rev 20 (if val =? - 2 ^ 63 then 2 ^ 63 else u64 (- val)))
  else rev (digits_rev 20 (u64 val)).
Definition print_ulonglong (val : Z) : list Z := if val =? 0 then [48] else rev (digits_rev 20 val).

(** The sixteen digits of [%llx], then the leading zeros skipped. *)
Definition hex_char (d : Z) : Z := if d <? 10 then 48 + d else 65 + d - 10.
Fixpoint hex_fill (n : nat) (v : Z) (done : list Z) : list Z :=
  match n with O => done | S n' => hex_fill n' (Z.shiftr v 4) (hex_char (Z.land v 0xF) :: done) end.
Fixpoint skip_zeros (p : list Z) : list Z :=
  match p with c :: ((_ :: _) as p') => if c =? 48 then skip_zeros p' else p | _ => p end.
Definition print_hex (v : Z) : list Z := skip_zeros (hex_fill 16 v []).
Definition printHex64 (value : Z) : list Z := [48; 120] ++ hex_fill 16 value [].

Definition add_out {A} (out : list Z) (r : option (list Z * A)) : option (list Z * A) :=
  match r with Some (o, x) => Some (out ++ o, x) | None => None end.

(** What a call prints; its result is the length.  A missing argument, or a
    format that ends in [%], is undefined behaviour: the walk leaves the string. *)
Fixpoint printf_loop (fuel : nat) (fmt : list Z) (args : list varg) : option (list Z * unit) :=
  match fuel with
  | O => None
  | S n =>
      match fmt with
      | [] => Some ([], tt)
      | c :: fmt' =>
          if negb (c =? 37) then add_out [c] (printf_loop n fmt' args) else
          match fmt' with
          | [] => None
          | d :: rest =>
              let other := add_out [37; d] (printf_loop n rest args) in
              if d =? 115 then
                match args with VStr s :: args' => add_out s (printf_loop n rest args') | _ => None end
              else if d =? 100 then
                match args with VNum v :: args' => add_out (print_int (i32 v)) (printf_loop n rest args') | _ => None end
              else if d =? 99 then
                match args with VNum v :: args' => add_out [u8 v] (printf_loop n rest args') | _ => None end
              else if (d =? 108) && (ch rest 0 =? 108) then
                let rest' := drop 2 rest in
                if ch rest 1 =? 120 then
                  match args with VNum v :: args' => add_out (print_hex (u64 v)) (printf_loop n rest' args') | _ => None end
                else if ch rest 1 =? 100 then
                  match args with VNum v :: args' => add_out (print_longlong (i64 v)) (printf_loop n rest' args') | _ => None end
                else if ch rest 1 =? 117 then
                  match args with VNum v :: args' => add_out (print_ulonglong (u64 v)) (printf_loop n rest' args') | _ => None end
                else other
              else other
          end
      end
  end.
Definition printf (fmt : list Z) (args : list varg) : option (list Z) :=
  fst <$> printf_loop (S (length fmt)) fmt args.

(** [while (fmt[i] == 'l') { long_modifiers++; i++; }] *)
Fixpoint long_modifiers (fmt : list Z) : nat * list Z :=
  match fmt with
  | c :: fmt' => if c =? 108 then let '(n, r) := long_modifiers fmt' in (S n, r) else (O, fmt)
  | [] => (O, [])
  end.
(** The string written, without its null. *)
Fixpoint sprintf_loop (fuel : nat) (fmt : list Z) (args : list varg) : option (list Z * unit) :=
  match fuel with
  | O => None
  | S n =>
      match fmt with
      | [] => Some ([], tt)
      | c :: fmt' =>
          if negb (c =? 37) then add_out [c] (sprintf_loop n fmt' args) else
          match fmt' with
          | [] => Some ([], tt)
          | d :: rest0 =>
              if d =? 37 then add_out [37] (sprintf_loop n rest0 args) else
              let '(longs, spec) := long_modifiers fmt' in
              match spec with
              | [] => None
              | d :: rest =>
                  if d =? 115 then
                    match args with VStr s :: args' => add_out s (sprintf_loop n rest args') | _ => None end
                  else if d =? 99 then
                    match args with VNum v :: args' => add_out [u8 v] (sprintf_loop n rest args') | _ => None end
                  else if d =? 100 then
                    match args with
                    | VNum v :: args' =>
                        add_out (append_signed_to_str (if (longs =? 0)%nat then i32 v else i64 v)) (sprintf_loop n rest args')
                    | _ => None
                    end
                  else if d =? 117 then
                    match args with
                    | VNum v :: args' =>
                        add_out (append_unsigned_to_str (if (longs =? 0)%nat then u32 v else u64 v)) (sprintf_loop n rest args')
                    | _ => None
                    end
                  else add_out [37; d] (sprintf_loop n rest args)
              end
          end
      end
  end.
Definition sprintf (fmt : list Z) (args : list varg) : option (list Z) :=
  fst <$> sprintf_loop (S (length fmt)) fmt args.

(** ** shell/command_parser.c *)

Definition MAX_ARGS : nat := 32.

(** The rounds of [fillCommandAndArgs] from index [i]: the offsets stored in
    [args] and what becomes of the rest of the input. *)
Fixpoint fill_loop (input : list Z) (i : Z) (argc : nat) (inArg : bool) : list Z * list Z :=
  match input with
  | [] => ([], [])
  | c :: input' =>
      if (c =? 0) || negb (argc <? MAX_ARGS)%nat then ([], input)
      else if c =? 32 then
        let '(args, out) := fill_loop input' (i + 1) argc false in (args, 0 :: out)
      else if negb inArg then
        let '(args, out) := fill_loop input' (i + 1) (S argc) true in (i :: args, c :: out)
      else
        let '(args, out) := fill_loop input' (i + 1) argc true in (args, c :: out)
  end.
Definition fillCommandAndArgs (input : list Z) : list Z * list Z := fill_loop input 0 0 false.

(** The string an offset points to after the call. *)
Fixpoint cut (s : list Z) : list Z :=
  match s with [] => [] | c :: s' => if c =? 0 then [] else c :: cut s' end.
Definition args_of (input : list Z) : list (list Z) :=
  let '(args, out) := fillCommandAndArgs input in (fun i => cut (drop (Z.to_nat i) out)) <$> args.

Definition contains_pipe_symbol (input : list Z) : bool := existsb (fun c => c =? 124) input.

(** What [CommandParse] does with a line, before it runs anything. *)
Inductive parsed :=
  | PError                                                  (* [ERROR] *)
  | PTwoPipes                                               (* one pipe per command *)
  | PPipe (left_input right_input : list Z)                             (* [execute_pipeline] *)
  | PCommand (args : list (list Z)) (is_background : bool). (* the table of commands *)

(** The loop that looks for a pipe: what is before it and what is after. *)
Fixpoint find_pipe_symbol (before input : list Z) : option (list Z * list Z) :=
  match input with
  | [] => None
  | c :: input' =>
      if c =? 0 then None else
      if c =? 124 then Some (before, input') else find_pipe_symbol (before ++ [c]) input'
  end.
Fixpoint skip_spaces (s : list Z) : list Z :=
  match s with c :: s' => if c =? 32 then skip_spaces s' else s | [] => [] end.

Definition CommandParse (commandInput : list Z) : parsed :=
  match find_pipe_symbol [] commandInput with
  | Some (left_input, right_input) =>
      let right_input := skip_spaces right_input in
      if contains_pipe_symbol right_input then PTwoPipes else PPipe left_input right_input
  | None =>
      let args := args_of commandInput in
      match last args with
      | None => PError
      | Some l =>
          if strcmp l [38] =? 0 then
            match removelast args with [] => PError | args' => PCommand args' true end
          else PCommand args false
      end
  end.

(** ** lib/process/lib_process.c *)

(** The last register of [sys_create_process]. *)
Definition packed_pipes (is_foreground stdin_pipe_id stdout_pipe_id : Z) : Z :=
  let packed := Z.lor (Z.lor (Z.land stdin_pipe_id 0xFFFF) (Z.shiftl (Z.land stdout_pipe_id 0xFFFF) 16))
                  (Z.shiftl (Z.land (u64 is_foreground) 0x1) 32) in
  if negb (stdin_pipe_id =? 0) || negb (stdout_pipe_id =? 0) then Z.lor packed (Z.shiftl 1 33) else packed.
