(* ===== verification/ULibTheorems.v ===== *)
(** * What the library of the user programs promises

    Numbers written by [sprintf] and [printf] are read back by [atoi] and
    [satoi]; a command line is cut into its words; the descriptors a process is
    created with survive the register they travel in. *)
From S2P Require Import Prelude KState Syscalls ULib.

(** ** Decimal numerals *)

(** The value of a string of digits read on from [r]. *)
Fixpoint horner (l : list Z) (r : Z) : Z :=
  match l with [] => r | c :: l' => horner l' (r * 10 + (c - 48)) end.
Definition all_digits (l : list Z) : Prop := Forall (fun c => 48 <= c <= 57) l.

Lemma horner_snoc l c r : horner (l ++ [c]) r = horner l r * 10 + (c - 48).
Proof. revert r. induction l as [|d l IH]; intros r; [done|]. apply IH. Qed.

Lemma digits_rev_spec n : forall v, 0 <= v < 10 ^ Z.of_nat n ->
  all_digits (rev (digits_rev n v)) /\ horner (rev (digits_rev n v)) 0 = v /\ (0 < v -> digits_rev n v <> []).
Proof.
  induction n as [|n IH]; intros v Hv; [simpl in Hv; split_and!; [by constructor|simpl; lia|lia]|].
  rewrite Nat2Z.inj_succ, Z.pow_succ_r in Hv by lia. simpl. destruct (Z.gtb_spec v 0) as [Hp|Hp].
  - destruct (IH (v / 10)) as (Hd & Hh & _); [split; [apply Z.div_pos; lia|apply Z.div_lt_upper_bound; lia]|].
    simpl. pose proof (Z.mod_pos_bound v 10 ltac:(lia)). split_and!; [|rewrite horner_snoc, Hh; dlia|done].
    apply Forall_app. split; [done|]. constructor; [lia|constructor].
  - split_and!; [constructor|simpl; lia|lia].
Qed.

Lemma append_unsigned_spec v : 0 <= v < 2 ^ 64 ->
  all_digits (append_unsigned_to_str v) /\ horner (append_unsigned_to_str v) 0 = v /\ append_unsigned_to_str v <> [].
Proof.
  intros Hv. unfold append_unsigned_to_str. destruct (Z.eqb_spec v 0) as [->|]; [split_and!; [by repeat constructor|done|done]|].
  destruct (digits_rev_spec 20 v) as (Hd & Hh & Hn); [lia|]. split_and!; [done|done|].
  intros E. apply (f_equal (@length Z)) in E. rewrite length_rev in E. destruct (digits_rev 20 v); [by apply Hn; [lia|]|done].
Qed.

(** The sign and the numeral of the magnitude. *)
Lemma append_signed_spec v : - 2 ^ 63 <= v < 2 ^ 63 ->
  append_signed_to_str v = (if v <? 0 then [45] else []) ++ append_unsigned_to_str (Z.abs v).
Proof.
  intros Hv. unfold append_signed_to_str. destruct (Z.ltb_spec v 0).
  - rewrite !wrap_small; rewrite ?wrap_small; try lia. simpl. do 2 f_equal. lia.
  - rewrite wrap_small by lia. simpl. f_equal. lia.
Qed.

(** ** Reading them back *)

Lemma atoi_digits_horner l : forall r, all_digits l -> exists k, atoi_digits l r = horner l r + k * 2 ^ 32.
Proof.
  induction l as [|c l IH]; intros r Hl; [exists 0; simpl; lia|]. inversion_clear Hl as [|? ? Hc Hl']. simpl.
  unfold is_digit. rewrite (proj2 (Z.geb_le c 48)), (proj2 (Z.leb_le c 57)) by lia. simpl.
  destruct (swrap_diff 32 (r * 10) ltac:(lia)) as [k1 E1]. destruct (swrap_diff 32 (i32 (r * 10) + (c - 48)) ltac:(lia)) as [k2 E2].
  destruct (IH (i32 (i32 (r * 10) + (c - 48))) Hl') as [k3 ->]. rewrite E2, E1.
  assert (forall l r d, exists k, horner l (r + d * 2 ^ 32) = horner l r + k * 2 ^ 32) as Hh.
  { clear. induction l as [|c l IH]; intros r d; simpl; [by exists d|].
    replace ((r + d * 2 ^ 32) * 10 + (c - 48)) with (r * 10 + (c - 48) + (d * 10) * 2 ^ 32) by lia. apply IH. }
  replace (r * 10 + k1 * 2 ^ 32 + (c - 48) + k2 * 2 ^ 32) with (r * 10 + (c - 48) + (k1 + k2) * 2 ^ 32) by lia.
  destruct (Hh l (r * 10 + (c - 48)) (k1 + k2)) as [k ->]. exists (k + k3). lia.
Qed.

Lemma horner_shift w l : forall r d, exists k, horner l (r + d * 2 ^ w) = horner l r + k * 2 ^ w.
Proof.
  induction l as [|c l IH]; intros r d; simpl; [by exists d|].
  replace ((r + d * 2 ^ w) * 10 + (c - 48)) with (r * 10 + (c - 48) + (d * 10) * 2 ^ w) by lia. apply IH.
Qed.

Lemma satoi_loop_horner l : forall r, all_digits l -> exists k, satoi_loop l r = Some (horner l r + k * 2 ^ 64).
Proof.
  induction l as [|c l IH]; intros r Hl; [exists 0; simpl; f_equal; lia|]. inversion_clear Hl as [|? ? Hc Hl']. cbn [satoi_loop].
  destruct (Z.ltb_spec c 48) as [|_]; [lia|]. destruct (Z.gtb_spec c 57) as [|_]; [lia|]. cbn [orb].
  destruct (swrap_diff 64 (r * 10) ltac:(lia)) as [k1 E1]. destruct (swrap_diff 64 (i64 (r * 10) + c) ltac:(lia)) as [k2 E2].
  destruct (swrap_diff 64 (i64 (i64 (r * 10) + c) - 48) ltac:(lia)) as [k3 E3].
  destruct (IH (i64 (i64 (i64 (r * 10) + c) - 48)) Hl') as [k4 ->]. rewrite E3, E2, E1. cbn [horner].
  replace (r * 10 + k1 * 2 ^ 64 + c + k2 * 2 ^ 64 - 48 + k3 * 2 ^ 64) with (r * 10 + (c - 48) + (k1 + k2 + k3) * 2 ^ 64) by lia.
  destruct (horner_shift 64 l (r * 10 + (c - 48)) (k1 + k2 + k3)) as [k ->]. exists (k + k4). f_equal. lia.
Qed.

(** The head of a numeral is no blank and no sign. *)
Lemma digits_head l : all_digits l -> l <> [] -> skip_blanks l = l /\ (ch l 0 =? 45) = false /\ (ch l 0 =? 43) = false.
Proof.
  intros Hl Hn. destruct l as [|c l]; [done|]. inversion_clear Hl as [|? ? Hc _].
  assert (forall d, d < 48 -> (c =? d) = false) as E by (intros d ?; apply Z.eqb_neq; lia).
  unfold ch. cbn. unfold is_blank. by rewrite !E.
Qed.

Lemma atoi_decimal v : - 2 ^ 31 <= v < 2 ^ 31 -> atoi (append_signed_to_str v) = v.
Proof.
  intros Hv. rewrite append_signed_spec by lia. destruct (append_unsigned_spec (Z.abs v) ltac:(lia)) as (Hd & Hh & Hn).
  destruct (digits_head _ Hd Hn) as (Hs & H45 & H43). destruct (atoi_digits_horner _ 0 Hd) as [k E]. rewrite Hh in E.
  destruct (Z.ltb_spec v 0).
  - change (i32 (-1 * atoi_digits (append_unsigned_to_str (Z.abs v)) 0) = v). rewrite E, (swrap_eq 32 _ v (- k)) by lia. apply swrap_small; lia.
  - cbn [app]. unfold atoi. rewrite Hs, H45, H43, E, (swrap_eq 32 _ v k) by lia. apply swrap_small; lia.
Qed.

Lemma satoi_decimal v : - 2 ^ 63 <= v < 2 ^ 63 -> satoi (append_signed_to_str v) = v.
Proof.
  intros Hv. rewrite append_signed_spec by lia. destruct (append_unsigned_spec (Z.abs v) ltac:(lia)) as (Hd & Hh & Hn).
  destruct (digits_head _ Hd Hn) as (_ & H45 & _). destruct (satoi_loop_horner _ 0 Hd) as [k E]. rewrite Hh in E.
  destruct (Z.ltb_spec v 0).
  - change (match satoi_loop (append_unsigned_to_str (Z.abs v)) 0 with Some res => i64 (res * -1) | None => 0 end = v). rewrite E, (swrap_eq 64 _ v (- k)) by lia. apply swrap_small; lia.
  - cbn [app]. unfold satoi. rewrite H45, E, (swrap_eq 64 _ v k) by lia. apply swrap_small; lia.
Qed.

Lemma sprintf_d v : sprintf [37; 100] [VNum v] = Some (append_signed_to_str (i32 v)).
Proof. unfold sprintf. simpl. by rewrite app_nil_r. Qed.
Lemma sprintf_lld v : sprintf [37; 108; 108; 100] [VNum v] = Some (append_signed_to_str (i64 v)).
Proof. unfold sprintf. simpl. by rewrite app_nil_r. Qed.

(** C35: a number that is written can be read back.  For every 64-bit number,
    the least one included, [satoi] reads what [sprintf] writes for "%lld"; for
    every 32-bit number "%d" writes the same and [atoi] reads it. *)
Theorem decimal_round_trip v :
  - 2 ^ 63 <= v < 2 ^ 63 ->
  exists str, sprintf [37; 108; 108; 100] [VNum v] = Some str /\ satoi str = v /\
    (- 2 ^ 31 <= v < 2 ^ 31 -> sprintf [37; 100] [VNum v] = Some str /\ atoi str = v).
Proof.
  intros Hv. exists (append_signed_to_str v). rewrite sprintf_lld, swrap_small by lia.
  split; [done|]. split; [by apply satoi_decimal|]. intros Hv'. rewrite sprintf_d, swrap_small by lia.
  split; [done|by apply atoi_decimal].
Qed.

Lemma decimal_round_trip_witness :
  exists str, sprintf [37; 108; 108; 100] [VNum (- 2 ^ 31)] = Some str /\ satoi str = - 2 ^ 31 /\
    (- 2 ^ 31 <= - 2 ^ 31 < 2 ^ 31 -> sprintf [37; 100] [VNum (- 2 ^ 31)] = Some str /\ atoi str = - 2 ^ 31).
Proof. apply (decimal_round_trip (- 2 ^ 31)). lia. Defined.

(** ** [printf] and [sprintf] *)

Lemma digits_rev_fuel n : forall m x, 0 <= x < 10 ^ Z.of_nat n -> (n <= m)%nat -> digits_rev n x = digits_rev m x.
Proof.
  induction n as [|n IH]; intros m x Hx Hnm.
  - assert (x = 0) as -> by (simpl in Hx; lia). by destruct m.
  - destruct m as [|m]; [lia|]. cbn [digits_rev]. destruct (x >? 0); [|done]. f_equal. apply IH; [|lia].
    rewrite Nat2Z.inj_succ, Z.pow_succ_r in Hx by lia. split; [apply Z.div_pos; lia|apply Z.div_lt_upper_bound; lia].
Qed.

#[local] Arguments digits_rev : simpl never.

(** C36: [printf] and [sprintf] agree on "%d" but for the least number.  The
    negation of -2^31 overflows in [printf], which prints the sign alone. *)
Theorem printf_agrees_but_least v :
  - 2 ^ 31 <= v < 2 ^ 31 ->
  printf [37; 100] [VNum v] = if v =? - 2 ^ 31 then Some [45] else sprintf [37; 100] [VNum v].
Proof.
  intros Hv. rewrite sprintf_d. unfold printf. simpl. rewrite app_nil_r, swrap_small by lia.
  destruct (Z.eqb_spec v (- 2 ^ 31)) as [->|Hne]; [reflexivity|]. f_equal. rewrite append_signed_spec by lia.
  unfold print_int, append_unsigned_to_str.
  destruct (Z.eqb_spec v 0) as [->|]; [done|]. rewrite (proj2 (Z.eqb_neq (Z.abs v) 0)) by lia.
  destruct (Z.ltb_spec v 0).
  - rewrite swrap_small by lia. cbn [app]. do 2 f_equal. rewrite (Z.abs_neq v) by lia. apply digits_rev_fuel; lia.
  - cbn [app]. f_equal. rewrite Z.abs_eq by lia. apply digits_rev_fuel; lia.
Qed.

Lemma printf_agrees_but_least_witness :
  printf [37; 100] [VNum (-42)] = Some [45; 52; 50] /\ printf [37; 100] [VNum (- 2 ^ 31)] = Some [45].
Proof. split; rewrite printf_agrees_but_least by lia; reflexivity. Defined.

(** [sprintf] has no hexadecimal: it copies the directive. *)
Lemma sprintf_llx v : sprintf [37; 108; 108; 120] [VNum v] = Some [37; 120].
Proof. reflexivity. Qed.

(** ** Comparing strings *)

(** The characters of a C string. *)
Definition is_string (s : list Z) : Prop := Forall (fun c => 0 < c < 256) s.

Lemma strcmp_zero s1 : forall s2, is_string s1 -> is_string s2 -> (strcmp s1 s2 = 0 <-> s1 = s2).
Proof.
  induction s1 as [|c1 s1 IH]; intros [|c2 s2] H1 H2; cbn [strcmp ch tail].
  - done.
  - inversion_clear H2 as [|? ? Hc _]. unfold ch. cbn. rewrite wrap_small by lia. split; [lia|done].
  - inversion_clear H1 as [|? ? Hc _]. unfold ch. cbn. rewrite (proj2 (Z.eqb_neq c1 0)) by lia. cbn.
    rewrite !wrap_small by lia. split; [lia|done].
  - inversion_clear H1 as [|? ? Hc1 H1']. inversion_clear H2 as [|? ? Hc2 H2']. unfold ch. cbn.
    rewrite (proj2 (Z.eqb_neq c1 0)) by lia. cbn. destruct (Z.eqb_spec c1 c2) as [->|Hne].
    + rewrite IH by done. split; [by intros ->|by intros [= ->]].
    + rewrite !wrap_small by lia. split; [lia|by intros [= -> _]].
Qed.

(** ** Cutting a command line

    A line is spelled by its words, each with the number of spaces before it, and
    the number of spaces at the end. *)

Fixpoint spell (ps : list (nat * list Z)) (trailing : nat) : list Z :=
  match ps with
  | [] => replicate trailing 32
  | (k, w) :: ps' => replicate k 32 ++ w ++ spell ps' trailing
  end.
Definition is_word (w : list Z) : Prop := w <> [] /\ Forall (fun c => 0 < c < 256 /\ c <> 32) w.
(** Words are apart. *)
Definition apart (ps : list (nat * list Z)) : Prop := Forall (fun p => (0 < p.1)%nat) (tail ps) /\ Forall (fun p => is_word p.2) ps.

(** What [args] points to, for a string [out] that starts at the offset 0. *)
Definition texts (r : list Z * list Z) : list (list Z) := (fun i => cut (drop (Z.to_nat i) r.2)) <$> r.1.

Lemma fill_shift input : forall i argc b,
  fill_loop input i argc b = let '(args, out) := fill_loop input 0 argc b in (Z.add i <$> args, out).
Proof.
  induction input as [|c input IH]; intros i argc b; cbn [fill_loop]; [done|].
  destruct ((c =? 0) || negb (argc <? MAX_ARGS)%nat); [done|].
  assert (forall d (l : list Z), Z.add (i + d) <$> l = Z.add i <$> (Z.add d <$> l)) as Hadd.
  { intros d l. rewrite <- list_fmap_compose. apply list_fmap_ext. intros ? ? _. unfold compose. lia. }
  destruct (c =? 32); [|destruct b; cbn [negb]].
  all: rewrite (IH (i + 1)), (IH (0 + 1)); destruct (fill_loop input 0 _ _) as [args out]; by rewrite ?fmap_cons, Hadd, ?Z.add_0_r.
Qed.

Lemma fill_nonneg input : forall argc b, Forall (fun i => 0 <= i) (fill_loop input 0 argc b).1.
Proof.
  induction input as [|c input IH]; intros argc b; cbn [fill_loop]; [constructor|].
  destruct ((c =? 0) || negb (argc <? MAX_ARGS)%nat); [constructor|].
  destruct (c =? 32); [|destruct b; cbn [negb]].
  all: rewrite (fill_shift input (0 + 1)); match goal with |- context [fill_loop _ 0 ?a ?b] => specialize (IH a b) end;
    destruct (fill_loop _ 0 _ _) as [args out]; cbn [fst snd] in *; try constructor; try lia;
    apply Forall_fmap; eapply Forall_impl; [exact IH|]; intros x Hx; unfold compose; cbn beta in Hx; lia.
Qed.

Lemma texts_shift (pre : list Z) args out : Forall (fun i => 0 <= i) args ->
  texts (Z.add (Z.of_nat (length pre)) <$> args, pre ++ out) = texts (args, out).
Proof.
  intros Ha. unfold texts. cbn. rewrite <- list_fmap_compose. apply Forall_fmap_ext_1.
  eapply Forall_impl; [exact Ha|]. intros i Hi. cbn beta in Hi. unfold compose. f_equal.
  rewrite drop_app_ge by lia. f_equal. lia.
Qed.

(** The texts and the rest of [input] when the rounds start inside a line. *)
Definition cuts (input : list Z) (argc : nat) (b : bool) : list (list Z) := texts (fill_loop input 0 argc b).
Definition rest_of (input : list Z) (argc : nat) (b : bool) : list Z := cut (fill_loop input 0 argc b).2.

Lemma fill_char c input argc b : (argc < MAX_ARGS)%nat -> c <> 0 ->
  cuts (c :: input) argc b =
    (if c =? 32 then cuts input argc false
     else if b then cuts input argc true else (c :: rest_of input (S argc) true) :: cuts input (S argc) true) /\
  rest_of (c :: input) argc b = if c =? 32 then [] else c :: rest_of input (if b then argc else S argc) true.
Proof.
  intros Ha Hc. unfold cuts, rest_of. cbn [fill_loop]. rewrite (proj2 (Z.eqb_neq c 0) Hc), (proj2 (Nat.ltb_lt _ _) Ha). cbn [orb negb].
  assert (forall argc b (d : Z), texts (Z.add (0 + 1) <$> (fill_loop input 0 argc b).1, d :: (fill_loop input 0 argc b).2) =
                 texts (fill_loop input 0 argc b)) as Hsh.
  { intros a b' d. pose proof (fill_nonneg input a b') as Hn. destruct (fill_loop input 0 a b') as [args out].
    exact (texts_shift [d] args out Hn). }
  destruct (c =? 32) eqn:E32; [|destruct b; cbn [negb]]; rewrite (fill_shift input (0 + 1));
    match goal with |- context [fill_loop _ 0 ?a ?b] => specialize (Hsh a b) end;
    destruct (fill_loop _ 0 _ _) as [args out]; cbn [fst snd] in *; cbn [cut]; rewrite ?Z.eqb_refl, ?(proj2 (Z.eqb_neq c 0) Hc).
  - by rewrite Hsh.
  - by rewrite Hsh.
  - split; [|done]. rewrite <- (Hsh c). unfold texts. cbn [fst snd]. rewrite fmap_cons. f_equal.
    change (drop (Z.to_nat 0) (c :: out)) with (c :: out). cbn [cut]. by rewrite (proj2 (Z.eqb_neq c 0) Hc).
Qed.

Lemma cut_string s : is_string s -> cut s = s.
Proof.
  induction 1 as [|c s Hc _ IH]; [done|]. cbn [cut]. rewrite (proj2 (Z.eqb_neq c 0)) by lia. by rewrite IH.
Qed.

(** A round that finds no room left leaves the line as it is. *)
Lemma fill_full input b : is_string input -> cuts input MAX_ARGS b = [] /\ rest_of input MAX_ARGS b = input.
Proof.
  intros Hs. unfold cuts, rest_of. destruct input as [|c input]; [done|]. cbn [fill_loop].
  change (negb (MAX_ARGS <? MAX_ARGS)%nat) with true. rewrite orb_true_r. split; [done|]. by apply cut_string.
Qed.

Lemma cuts_spaces k : forall input argc, (argc < MAX_ARGS)%nat -> cuts (replicate k 32 ++ input) argc false = cuts input argc false.
Proof.
  induction k as [|k IH]; intros input argc Ha; [done|]. cbn [replicate app].
  destruct (fill_char 32 (replicate k 32 ++ input) argc false Ha ltac:(done)) as [-> _]. by apply IH.
Qed.

(** The texts of a word and what follows it, once it has been entered. *)
Lemma cuts_word w : forall input argc, (argc < MAX_ARGS)%nat -> Forall (fun c => 0 < c < 256 /\ c <> 32) w ->
  cuts (w ++ input) argc true = cuts input argc true /\ rest_of (w ++ input) argc true = w ++ rest_of input argc true.
Proof.
  induction w as [|c w IH]; intros input argc Ha Hw; [done|]. inversion_clear Hw as [|? ? [Hc H32] Hw']. cbn [app].
  destruct (fill_char c (w ++ input) argc true Ha ltac:(lia)) as [-> ->]. rewrite (proj2 (Z.eqb_neq c 32) H32).
  destruct (IH input argc Ha Hw') as [-> ->]. done.
Qed.

(** What [room] arguments hold of a line: the last of them is not cut. *)
Fixpoint arguments (room : nat) (ps : list (nat * list Z)) (trailing : nat) : list (list Z) :=
  match ps, room with
  | [], _ | _, O => []
  | (k, w) :: ps', S O => [w ++ spell ps' trailing]
  | (k, w) :: ps', S room' => w :: arguments room' ps' trailing
  end.

Lemma spell_string ps trailing : Forall (fun p => is_word p.2) ps -> is_string (spell ps trailing).
Proof.
  assert (forall k, is_string (replicate k 32)) as Hr by (intros k; apply Forall_replicate; lia).
  induction ps as [|[k w] ps IH]; intros Hp; cbn [spell]; [apply Hr|]. inversion_clear Hp as [|? ? Hw Hp'].
  apply Forall_app_2; [apply Hr|]. apply Forall_app_2; [|by apply IH].
  eapply Forall_impl; [apply Hw|]. cbn. tauto.
Qed.

(** Where a word ends: at a space or at the end of the line. *)
Lemma rest_of_end ps trailing argc : (argc < MAX_ARGS)%nat -> Forall (fun p => (0 < p.1)%nat) ps ->
  cuts (spell ps trailing) argc true = cuts (spell ps trailing) argc false /\ rest_of (spell ps trailing) argc true = [].
Proof.
  intros Ha Hp. assert (forall input b, cuts (32 :: input) argc b = cuts input argc false /\ rest_of (32 :: input) argc b = []) as H32.
  { intros input b. by destruct (fill_char 32 input argc b Ha ltac:(done)) as [-> ->]. }
  destruct ps as [|[[|k] w] ps]; cbn [spell].
  - destruct trailing as [|n]; [done|]. cbn [replicate]. by rewrite !(proj1 (H32 _ _)), (proj2 (H32 _ _)).
  - inversion_clear Hp. cbn in *. lia.
  - cbn [replicate app]. by rewrite !(proj1 (H32 _ _)), (proj2 (H32 _ _)).
Qed.

Lemma cuts_spell ps trailing : forall argc, apart ps -> (argc < MAX_ARGS)%nat ->
  cuts (spell ps trailing) argc false = arguments (MAX_ARGS - argc) ps trailing.
Proof.
  induction ps as [|[k w] ps IH]; intros argc [Hk Hw] Ha.
  - cbn [spell]. rewrite <- (app_nil_r (replicate _ _)), cuts_spaces by done. by destruct (MAX_ARGS - argc)%nat.
  - cbn [tail] in Hk. inversion_clear Hw as [|? ? [Hne Hword] Hw']. cbn [snd] in *. cbn [spell]. rewrite cuts_spaces by done.
    destruct w as [|c w]; [done|]. inversion_clear Hword as [|? ? [Hc H32] Hword']. cbn [app].
    destruct (fill_char c (w ++ spell ps trailing) argc false Ha ltac:(lia)) as [-> _]. rewrite (proj2 (Z.eqb_neq c 32) H32).
    destruct (MAX_ARGS - argc)%nat as [|[|room]] eqn:Er; [lia| |].
    + assert (S argc = MAX_ARGS) as -> by lia. destruct (fill_full (w ++ spell ps trailing) true) as [-> ->]; [|done].
      apply Forall_app_2; [|by apply spell_string]. eapply Forall_impl; [exact Hword'|]. cbn. tauto.
    + destruct (cuts_word w (spell ps trailing) (S argc)) as [-> ->]; [lia|done|].
      destruct (rest_of_end ps trailing (S argc)) as [-> ->]; [lia|done|].
      rewrite app_nil_r. cbn [arguments]. rewrite IH; [|split; [by destruct ps; [|inversion_clear Hk]|done]|lia].
      by replace (MAX_ARGS - S argc)%nat with (S room) by lia.
Qed.

Lemma arguments_few ps trailing : forall room, (length ps < room)%nat -> arguments room ps trailing = ps.*2.
Proof.
  induction ps as [|[k w] ps IH]; intros room Hr; cbn [length] in Hr; [by destruct room|].
  destruct room as [|[|room]]; [lia|lia|]. change (w :: arguments (S room) ps trailing = w :: ps.*2). f_equal. apply IH. lia.
Qed.
Lemma arguments_many ps1 k w ps2 trailing : forall room, S (length ps1) = room ->
  arguments room (ps1 ++ (k, w) :: ps2) trailing = ps1.*2 ++ [w ++ spell ps2 trailing].
Proof.
  induction ps1 as [|[k' w'] ps1 IH]; intros room <-; [done|].
  change (w' :: arguments (S (length ps1)) (ps1 ++ (k, w) :: ps2) trailing = w' :: ps1.*2 ++ [w ++ spell ps2 trailing]).
  f_equal. by apply IH.
Qed.

Lemma args_of_spell ps trailing : apart ps -> args_of (spell ps trailing) = arguments MAX_ARGS ps trailing.
Proof.
  intros Hp. transitivity (cuts (spell ps trailing) 0 false).
  - change (args_of (spell ps trailing)) with
      (let '(args, out) := fill_loop (spell ps trailing) 0 0 false in (fun i => cut (drop (Z.to_nat i) out)) <$> args).
    unfold cuts, texts. by destruct (fill_loop _ 0 0 false).
  - apply (cuts_spell ps trailing 0 Hp). unfold MAX_ARGS. lia.
Qed.

(** the shell cuts a line into its words.  However many spaces are before,
    between and after them, a line of fewer than 32 words gives exactly those
    words.  The 32nd argument is not cut: it is the rest of the line from the
    32nd word on, with its spaces and the words after it. *)
Theorem args_of_words ps trailing :
  apart ps ->
  ((length ps < MAX_ARGS)%nat -> args_of (spell ps trailing) = ps.*2) /\
  (forall ps1 k w ps2, ps = ps1 ++ (k, w) :: ps2 -> S (length ps1) = MAX_ARGS ->
     args_of (spell ps trailing) = ps1.*2 ++ [w ++ spell ps2 trailing]).
Proof.
  intros Hp. rewrite args_of_spell by done.
  split; [by apply arguments_few|]. intros ps1 k w ps2 -> E. by apply arguments_many.
Qed.

(** "  cat   -n  x " *)
Lemma args_of_words_witness :
  args_of [32; 32; 99; 97; 116; 32; 32; 32; 45; 110; 32; 32; 120; 32] = [[99; 97; 116]; [45; 110]; [120]].
Proof.
  apply (args_of_words [(2%nat, [99; 97; 116]); (3%nat, [45; 110]); (2%nat, [120])] 1); [|vm_compute; lia].
  split; repeat constructor; cbn; lia || discriminate.
Defined.

(** ** Commands and pipelines *)

(** What a line of words asks for. *)
Definition parse_words (ws : list (list Z)) : parsed :=
  match last ws with
  | None => PError
  | Some w =>
      if decide (w = [38]) then match removelast ws with [] => PError | args => PCommand args true end
      else PCommand ws false
  end.

Lemma find_pipe_none s : forall before, is_string s -> 124 ∉ s -> find_pipe_symbol before s = None.
Proof.
  induction s as [|c s IH]; intros before Hs Hp; [done|]. inversion_clear Hs as [|? ? Hc Hs']. cbn [find_pipe_symbol].
  apply not_elem_of_cons in Hp as [Hne Hp]. rewrite !(proj2 (Z.eqb_neq c _)) by lia. by apply IH.
Qed.
Lemma find_pipe_some l : forall before r, is_string l -> 124 ∉ l -> find_pipe_symbol before (l ++ 124 :: r) = Some (before ++ l, r).
Proof.
  induction l as [|c l IH]; intros before r Hs Hp; [cbn; by rewrite app_nil_r|]. inversion_clear Hs as [|? ? Hc Hs'].
  apply not_elem_of_cons in Hp as [Hne Hp]. cbn [app find_pipe_symbol]. rewrite !(proj2 (Z.eqb_neq c _)) by lia.
  rewrite IH by done. by rewrite <- app_assoc.
Qed.
Lemma contains_pipe_spec s : contains_pipe_symbol s = bool_decide (124 ∈ s).
Proof.
  induction s as [|c s IH]; [done|]. cbn. unfold contains_pipe_symbol in IH. rewrite IH.
  destruct (Z.eqb_spec c 124) as [->|Hne]; cbn.
  - symmetry. apply bool_decide_eq_true. by left.
  - apply bool_decide_ext. rewrite elem_of_cons. split; [by right|by intros [|]].
Qed.
Lemma skip_spaces_pipe s : 124 ∈ skip_spaces s <-> 124 ∈ s.
Proof.
  induction s as [|c s IH]; [done|]. cbn [skip_spaces]. destruct (Z.eqb_spec c 32) as [->|]; [|done].
  rewrite IH, elem_of_cons. split; [by right|by intros [|]].
Qed.
Lemma pipe_not_in_spell ps trailing : Forall (fun p => 124 ∉ p.2) ps -> 124 ∉ spell ps trailing.
Proof.
  assert (forall k, 124 ∉ replicate k 32) as Hr by (intros k [? _]%elem_of_replicate; done).
  induction ps as [|[k w] ps IH]; intros Hp; cbn [spell]; [apply Hr|]. inversion_clear Hp as [|? ? Hw Hp'].
  rewrite !not_elem_of_app. cbn in Hw. eauto.
Qed.

(** C37: the shell understands a line.  Without a pipe symbol a line of fewer than
    32 words is the command its words make, in the background when the last word
    is an ampersand; a line with one pipe symbol is a pipeline of what is before
    it and what is after it; a second symbol is refused. *)
Theorem CommandParse_understands ps trailing l r :
  apart ps -> (length ps < MAX_ARGS)%nat -> Forall (fun p => 124 ∉ p.2) ps -> is_string l -> 124 ∉ l ->
  CommandParse (spell ps trailing) = parse_words ps.*2 /\
  CommandParse (l ++ 124 :: r) = if decide (124 ∈ r) then PTwoPipes else PPipe l (skip_spaces r).
Proof.
  intros Hp Hlen H124 Hl Hl124. split; unfold CommandParse.
  - rewrite find_pipe_none; [|apply spell_string, Hp|by apply pipe_not_in_spell].
    rewrite args_of_spell, arguments_few by done.
    unfold parse_words. destruct (last ps.*2) as [w|] eqn:Ew; [|done].
    assert (is_string w) as Hw.
    { apply last_Some in Ew as [l' E]. destruct Hp as [_ Hp]. assert (w ∈ ps.*2) as Hin by (rewrite E, elem_of_app; right; by left).
      apply list_elem_of_fmap in Hin as (p & -> & Hin). rewrite Forall_forall in Hp. eapply Forall_impl; [apply (Hp p Hin)|]. cbn. tauto. }
    pose proof (strcmp_zero w [38] Hw) as Hc. assert (is_string [38]) as H38 by (repeat constructor).
    destruct (Z.eqb_spec (strcmp w [38]) 0) as [E|E]; [rewrite decide_True by tauto|rewrite decide_False by tauto]; done.
  - rewrite find_pipe_some by done. cbn [app]. rewrite contains_pipe_spec.
    destruct (decide (124 ∈ r)) as [Hin|Hin]; [rewrite bool_decide_true|rewrite bool_decide_false]; by rewrite ?skip_spaces_pipe.
Qed.

(** "cat | wc", and "loop 5 &" *)
Lemma CommandParse_understands_witness :
  CommandParse [108; 111; 111; 112; 32; 53; 32; 38] = PCommand [[108; 111; 111; 112]; [53]] true /\
  CommandParse [99; 97; 116; 32; 124; 32; 119; 99] = PPipe [99; 97; 116; 32] [119; 99].
Proof.
  apply (CommandParse_understands [(0%nat, [108; 111; 111; 112]); (1%nat, [53]); (1%nat, [38])] 0 [99; 97; 116; 32] [32; 119; 99]).
  - split; repeat constructor; cbn; lia || discriminate.
  - vm_compute. lia.
  - repeat constructor; cbn; rewrite ?elem_of_cons, elem_of_nil; lia.
  - repeat constructor.
  - rewrite ?elem_of_cons, elem_of_nil; lia.
Defined.

(** ** The descriptors of a new process *)

Lemma join_low n a b : 0 <= n -> 0 <= a < 2 ^ n -> Z.land (Z.lor a (Z.shiftl b n)) (Z.ones n) = a.
Proof.
  intros Hn Ha. rewrite Z.land_lor_distr_l, !Z.land_ones, Z.shiftl_mul_pow2, Z.mod_mul, Z.lor_0_r by lia. by apply Z.mod_small.
Qed.
Lemma join_high n a b : 0 <= n -> 0 <= a < 2 ^ n -> Z.shiftr (Z.lor a (Z.shiftl b n)) n = b.
Proof.
  intros Hn Ha. rewrite Z.shiftr_lor, Z.shiftr_shiftl_l, Z.sub_diag, Z.shiftl_0_r by lia.
  rewrite Z.shiftr_div_pow2, Z.div_small by lia. apply Z.lor_0_l.
Qed.
Lemma join_bound n m a b : 0 <= n -> 0 <= m -> 0 <= a < 2 ^ n -> 0 <= b < 2 ^ m -> 0 <= Z.lor a (Z.shiftl b n) < 2 ^ (n + m).
Proof.
  intros Hn Hm Ha Hb. assert (0 <= Z.lor a (Z.shiftl b n)) as H0 by (apply Z.lor_nonneg; split; [lia|apply Z.shiftl_nonneg; lia]).
  split; [done|]. assert (Z.lor a (Z.shiftl b n) / 2 ^ n < 2 ^ m) as Hq by (rewrite <- Z.shiftr_div_pow2, join_high by lia; lia).
  rewrite Z.pow_add_r by lia. pose proof (Z.div_mod (Z.lor a (Z.shiftl b n)) (2 ^ n) ltac:(lia)).
  pose proof (Z.mod_pos_bound (Z.lor a (Z.shiftl b n)) (2 ^ n) ltac:(lia)). nia.
Qed.

(** the pipes of a new process survive the call.  The user library packs the
    foreground flag and the two pipes into one register and the kernel unpacks
    them; the kernel gets the flag and the identifiers, of which 16 bits are
    kept: identifiers up to 65535 arrive as they are. *)
Theorem pipes_survive_packing is_foreground stdin_pipe_id stdout_pipe_id :
  0 <= is_foreground <= 1 -> 0 <= stdin_pipe_id -> 0 <= stdout_pipe_id ->
  unpack_foreground (packed_pipes is_foreground stdin_pipe_id stdout_pipe_id) =
    (is_foreground, stdin_pipe_id mod 2 ^ 16, stdout_pipe_id mod 2 ^ 16).
Proof.
  intros Hf Hi Ho. unfold packed_pipes. change 0xFFFF with (Z.ones 16). rewrite !Z.land_ones by lia.
  set (i := stdin_pipe_id mod 2 ^ 16). set (o := stdout_pipe_id mod 2 ^ 16).
  assert (0 <= i < 2 ^ 16) as Hi16 by (apply Z.mod_pos_bound; lia). assert (0 <= o < 2 ^ 16) as Ho16 by (apply Z.mod_pos_bound; lia).
  assert (Z.land (u64 is_foreground) 1 = is_foreground) as ->.
  { assert (is_foreground = 0 \/ is_foreground = 1) as [-> | ->] by lia; reflexivity. }
  set (A := Z.lor i (Z.shiftl o 16)). assert (0 <= A < 2 ^ 32) as HA by (apply (join_bound 16 16); lia).
  assert (forall g, 0 <= g -> Z.land g 1 = is_foreground -> (Z.lor A (Z.shiftl g 32) <=? 1) = false ->
    unpack_foreground (Z.lor A (Z.shiftl g 32)) = (is_foreground, i, o)) as Hgo.
  { intros g Hg Eg Hbig. unfold unpack_foreground. rewrite Hbig, join_high, Eg by lia. change 0xFFFF with (Z.ones 16).
    assert (Z.land (Z.lor A (Z.shiftl g 32)) (Z.ones 16) = i) as ->.
    { replace (Z.shiftl g 32) with (Z.shiftl (Z.shiftl g 16) 16) by (rewrite Z.shiftl_shiftl by lia; done).
      unfold A. rewrite <- Z.lor_assoc, <- Z.shiftl_lor. by apply join_low. }
    assert (Z.shiftr (Z.lor A (Z.shiftl g 32)) 16 = Z.lor o (Z.shiftl g 16)) as ->.
    { replace (Z.shiftl g 32) with (Z.shiftl (Z.shiftl g 16) 16) by (rewrite Z.shiftl_shiftl by lia; done).
      unfold A. rewrite <- Z.lor_assoc, <- Z.shiftl_lor. by apply join_high. }
    by rewrite join_low. }
  destruct (negb (stdin_pipe_id =? 0) || negb (stdout_pipe_id =? 0)) eqn:E.
  - rewrite <- Z.lor_assoc. change (Z.shiftl 1 33) with (Z.shiftl 2 32). rewrite <- Z.shiftl_lor.
    assert (Z.land (Z.lor is_foreground 2) 1 = is_foreground /\ 2 <= Z.lor is_foreground 2) as [E1 E2]
      by (assert (is_foreground = 0 \/ is_foreground = 1) as [-> | ->] by lia; done).
    apply Hgo; [lia|done|]. apply Z.leb_gt. pose proof (Z.lor_nonneg A (Z.shiftl (Z.lor is_foreground 2) 32)).
    assert (Z.shiftr (Z.lor A (Z.shiftl (Z.lor is_foreground 2) 32)) 32 >= 2) as Hs by (rewrite join_high; lia).
    rewrite Z.shiftr_div_pow2 in Hs by lia. dlia.
  - apply orb_false_iff in E as [E1%negb_false_iff%Z.eqb_eq E2%negb_false_iff%Z.eqb_eq].
    unfold A, i, o. rewrite E1, E2. assert (is_foreground = 0 \/ is_foreground = 1) as [-> | ->] by lia; reflexivity.
Qed.

Lemma pipes_survive_packing_witness :
  unpack_foreground (packed_pipes 1 7 0) = (1, 7, 0) /\ unpack_foreground (packed_pipes 0 65543 9) = (0, 7, 9).
Proof. split; rewrite pipes_survive_packing by lia; reflexivity. Defined.
