(* ===== verification/UProc.v ===== *)
(** * The run-time of the user programs (src/Userland/SampleCodeModule/lib)

    A user program runs over a [System]: the calls of include/syscall.h.  The
    programs share one address space, so their global variables and the memory
    they allocate are part of one state; a buffer on a stack is the list of the
    characters it holds. *)
From Stdlib Require Import Ascii String SpecFloat.
From S2P Require Import Prelude CLib MmInterface KState ULib.

(** A string literal: the escapes [\n] and [\t] are those of C. *)
Fixpoint unescape (l : list Z) : list Z :=
  match l with
  | 92 :: 110 :: l' => 10 :: unescape l'
  | 92 :: 116 :: l' => 9 :: unescape l'
  | c :: l' => c :: unescape l'
  | [] => []
  end.
Definition text (s : string) : list Z := unescape ((fun a => Z.of_N (N_of_ascii a)) <$> list_ascii_of_string s).

(** The functions whose address is given to [sys_create_process]. *)
Inductive entry :=
  | Fcat | Fwc | Ffilter | Fps | Floop | Fmem | Fmmtype
  | Ftest_mm | Ftest_processes | Ftest_prio | Ftest_sync | Ftest_no_synchro
  | Fmvar_writer | Fmvar_reader
  | Fzero_to_max | Fendless_loop | Fendless_loop_print | Fmy_process_inc.
#[export] Instance entry_eq_dec : EqDecision entry.
Proof. solve_decision. Defined.

(** [process_info_t] of lib.h. *)
Record process_info := mk_info {
  info_pid : Z; info_name : list Z; info_state : Z; info_priority : Z;
  info_rsp : Z; info_rbp : Z; info_foreground : Z }.

(** include/syscall.h.  A call that fills a buffer returns what it put there,
    [None] or nothing when it returns 0. *)
Class System (W : Type) := {
  sys_read (fd count : Z) : M W (list Z);
  sys_write (fd : Z) (buffer : list Z) : M W Z;
  sys_clearScreen : M W Z;
  sys_sleep (duration : Z) : M W Z;
  sys_video_putChar (c fg bg : Z) : M W Z;
  sys_shutdown : M W Z;
  sys_screenDims : M W (option (Z * Z));
  sys_malloc (size : Z) : M W Z;
  sys_free (ptr : Z) : M W Z;
  sys_meminfo : M W (option mm_stats_t);
  sys_create_process (name : list Z) (function : entry) (argv priority is_foreground_and_pipes : Z) : M W Z;
  sys_kill (pid : Z) : M W Z;
  sys_block (pid : Z) : M W Z;
  sys_unblock (pid : Z) : M W Z;
  sys_get_type_of_mm : M W (option (list Z));
  sys_getpid : M W Z;
  sys_set_priority (pid new_priority : Z) : M W Z;
  sys_wait (pid : Z) : M W Z;
  sys_sem_create (initial : Z) : M W Z;
  sys_sem_open (sem_id : Z) : M W Z;
  sys_sem_close (sem_id : Z) : M W Z;
  sys_sem_wait (sem_id : Z) : M W Z;
  sys_sem_signal (sem_id : Z) : M W Z;
  sys_sem_set (sem_id newval : Z) : M W Z;
  sys_sem_get (sem_id : Z) : M W Z;
  sys_list_processes (max_count : Z) : M W (list process_info);
  sys_yield : M W Z;
  sys_pipe_create : M W Z;
  sys_pipe_open (pipe_id : Z) : M W Z;
  sys_pipe_close (pipe_id : Z) : M W Z;
  sys_pipe_dup (pipe_id fd mode : Z) : M W Z;
  sys_pipe_release_fd (fd : Z) : M W Z;
  sys_get_foreground_pid : M W Z;
  (** The memory the programs read and write. *)
  sys_mem : W -> memory;
  sys_set_mem : (memory -> memory) -> W -> W;
}.

(** The global variables of the programs, and the system they run on. *)
Record ustate (W : Type) := mk_ustate {
  u_sys : W;
  shellUser : list Z;
  g_run_in_background : bool;
  g_last_spawned_pid : Z;
  user_sem_names : list Z;      (* addresses of strings, 0 for a free slot *)
  user_sem_ids : list Z;
  m_z : Z; m_w : Z;
  max_value : Z;
  prio : list Z;
  global : Z }.
Arguments mk_ustate {W}.
Arguments u_sys {W}. Arguments shellUser {W}. Arguments g_run_in_background {W}. Arguments g_last_spawned_pid {W}.
Arguments user_sem_names {W}. Arguments user_sem_ids {W}. Arguments m_z {W}. Arguments m_w {W}.
Arguments max_value {W}. Arguments prio {W}. Arguments global {W}.
Section Setters.
Context {W : Type}.
Definition eta_ustate (s : ustate W) := mk_ustate (u_sys s) (shellUser s) (g_run_in_background s)
  (g_last_spawned_pid s) (user_sem_names s) (user_sem_ids s) (m_z s) (m_w s) (max_value s) (prio s) (global s).
#[export] Instance set_u_sys : Setter (@u_sys W) := ltac:(build_setter eta_ustate (@u_sys W)).
#[export] Instance set_shellUser : Setter (@shellUser W) := ltac:(build_setter eta_ustate (@shellUser W)).
#[export] Instance set_g_run_in_background : Setter (@g_run_in_background W) := ltac:(build_setter eta_ustate (@g_run_in_background W)).
#[export] Instance set_g_last_spawned_pid : Setter (@g_last_spawned_pid W) := ltac:(build_setter eta_ustate (@g_last_spawned_pid W)).
#[export] Instance set_user_sem_names : Setter (@user_sem_names W) := ltac:(build_setter eta_ustate (@user_sem_names W)).
#[export] Instance set_user_sem_ids : Setter (@user_sem_ids W) := ltac:(build_setter eta_ustate (@user_sem_ids W)).
#[export] Instance set_m_z : Setter (@m_z W) := ltac:(build_setter eta_ustate (@m_z W)).
#[export] Instance set_m_w : Setter (@m_w W) := ltac:(build_setter eta_ustate (@m_w W)).
#[export] Instance set_max_value : Setter (@max_value W) := ltac:(build_setter eta_ustate (@max_value W)).
#[export] Instance set_prio : Setter (@prio W) := ltac:(build_setter eta_ustate (@prio W)).
#[export] Instance set_global : Setter (@global W) := ltac:(build_setter eta_ustate (@global W)).
End Setters.

Definition MAX_USER_SEMS : nat := 8.
(** The initial values of the globals. *)
Definition user_boot {W} (w : W) : ustate W :=
  mk_ustate w (text "usuario") false (-1) (replicate MAX_USER_SEMS 0) (replicate MAX_USER_SEMS 0)
    362436069 521288629 0 [0; 1; 2] 0.

Section Runtime.
Context {W : Type} `{System W}.
(** A bound on the rounds of a loop that ends when something is read. *)
Context (patience : nat).
Abbreviation U := (M (ustate W)).

(** A system call. *)
Definition sys {A} (m : M W A) : U A := zoom u_sys (fun w s => s <| u_sys := w |>) m.
Definition uload {A} (f : memory -> A) : U A := gets (fun s => f (sys_mem (u_sys s))).
Definition ustore (f : memory -> memory) : U unit := modify (fun s => s <| u_sys ::= sys_set_mem f |>).

(** ** lib/utils/lib_io.c *)

Definition STDIN_FD : Z := 0.
Definition STDOUT_FD : Z := 1.

Definition putchar (c : Z) : U Z := sys (sys_write 1 [u8 c]) ;; mret c.

(** [do { n = sys_read(0, &c, 1); } while (n == 0);]; a [char] is signed. *)
Definition getchar_step (_ : unit) : U (unit + Z) :=
  got ← sys (sys_read 0 1);
  mret (match got with [] => inl tt | c :: _ => inr (i8 c) end).
Definition getchar : U Z := while_fuel patience getchar_step tt.

Fixpoint put_chars (l : list Z) : U unit :=
  match l with [] => mret tt | c :: l' => putchar c ;; put_chars l' end.
(** [ULib.printf] gives the characters it puts. *)
Definition print (fmt : string) (args : list varg) : U unit :=
  match printf (text fmt) args with Some out => put_chars out | None => fault end.

(** [while (i < n - 1) ...]: the characters read; a line ends the loop. *)
Fixpoint read_line_loop (room : nat) : U (list Z) :=
  match room with
  | O => mret []
  | S room' =>
      got ← sys (sys_read 0 1);
      match got with
      | [] => mret []
      | c :: _ => if c =? 10 then mret [c] else rest ← read_line_loop room'; mret (c :: rest)
      end
  end.
Definition read_line_internal (n : Z) : U (option (list Z)) :=
  if n <=? 0 then mret None else
  s ← read_line_loop (Z.to_nat (n - 1));
  mret (match s with [] => None | _ => Some s end).
Definition fgets (n : Z) : U (option (list Z)) := read_line_internal n.

(** [while (input[index] == ' ' || input[index] == '\t') index++;] *)
Fixpoint skip_tabs (s : list Z) : list Z :=
  match s with c :: s' => if (c =? 32) || (c =? 9) then skip_tabs s' else s | [] => [] end.
Fixpoint to_line_end (s : list Z) : list Z * list Z :=
  match s with
  | c :: s' => if (c =? 0) || (c =? 10) then ([], s) else let '(a, r) := to_line_end s' in (c :: a, r)
  | [] => ([], [])
  end.
Fixpoint take_digits (s : list Z) : list Z * list Z :=
  match s with
  | c :: s' => if is_digit c then let '(a, r) := take_digits s' in (c :: a, r) else ([], s)
  | [] => ([], [])
  end.
Definition at_line_end (s : list Z) : bool := (ch s 0 =? 10) || (ch s 0 =? 0).

(** What a directive does to the input: what it stores at its argument, and the
    rest of the input. *)
Definition scan_string (input : list Z) : option varg * list Z :=
  let '(s, rest) := to_line_end input in (match s with [] => None | _ => Some (VStr s) end, rest).
Definition scan_int (input : list Z) : option varg * list Z :=
  let input := skip_tabs input in
  let '(sign, rest) := if (ch input 0 =? 45) || (ch input 0 =? 43) then (take 1 input, drop 1 input) else ([], input) in
  if negb (is_digit (ch rest 0)) then (None, rest) else
  let '(digits, rest) := take_digits rest in
  (Some (VNum (atoi (take 31 (sign ++ digits)))), skip_tabs rest).

(** The loop over the format: a value per argument it stores to, [None] for an
    argument it takes and leaves alone; the count of [scanf] is that of the
    values.  [%[^\n]] is [%s]. *)
Fixpoint scanf_loop (fuel : nat) (fmt input : list Z) : list (option varg) :=
  match fuel with
  | O => []
  | S n =>
      match fmt with
      | [] => []
      | c :: fmt' =>
          if c =? 0 then [] else
          if is_blank c then scanf_loop n fmt' (skip_tabs input) else
          if at_line_end input then [] else
          let go (v : option varg) fmt' input := v :: (if at_line_end input then [] else scanf_loop n fmt' input) in
          if c =? 37 then
            if bool_decide (take 5 fmt' = [91; 94; 92; 110; 93]) then
              let '(v, input) := scan_string input in v :: scanf_loop n (drop 5 fmt') input
            else
            match fmt' with
            | [] => []
            | d :: fmt' =>
                if d =? 115 then let '(v, input) := scan_string input in go v fmt' input
                else if d =? 100 then let '(v, input) := scan_int input in go v fmt' input
                else if d =? 99 then go (Some (VNum (ch input 0))) fmt' (tail input)
                else scanf_loop n fmt' input
            end
          else if ch input 0 =? c then
            let input := tail input in if at_line_end input then [] else scanf_loop n fmt' input
          else []
      end
  end.
Definition BUFFER_SIZE : Z := 256.
(** The values stored and their number. *)
Definition scanf (fmt : list Z) : U (list (option varg) * Z) :=
  input ← read_line_internal BUFFER_SIZE;
  mret (match input with
        | None => ([], 0)
        | Some input =>
            let vs := scanf_loop (S (length fmt)) fmt input in
            (vs, Z.of_nat (length (filter (fun v => v <> None) vs)))
        end).

(** ** lib/utils/lib_memory.c, lib/lib.c *)

Definition malloc (size : Z) : U Z := sys (sys_malloc (u64 size)).
Definition free (ptr : Z) : U unit := when (ctrue ptr) (sys (sys_free ptr) ;; mret tt).
Definition memory_info : U (option mm_stats_t) := sys sys_meminfo.
Definition get_type_of_mm (buflen : Z) : U (option (list Z)) :=
  if buflen <=? 0 then mret None else sys sys_get_type_of_mm.

Definition try_getchar : U Z := mret 0.
Definition clearScreen : U unit := sys sys_clearScreen ;; mret tt.
Definition sleep (ms : Z) : U unit := sys (sys_sleep ms) ;; mret tt.
Definition getScreenDims : U (option (Z * Z)) := sys sys_screenDims.
Definition shutdown : U unit := sys sys_shutdown ;; mret tt.
Definition pipe_create : U Z := sys sys_pipe_create.
Definition pipe_open (pipe_id : Z) : U Z := if pipe_id =? 0 then mret 0 else sys (sys_pipe_open pipe_id).
Definition pipe_close (pipe_id : Z) : U Z := if pipe_id =? 0 then mret 0 else sys (sys_pipe_close pipe_id).
Definition pipe_dup (pipe_id fd mode : Z) : U Z :=
  if pipe_id =? 0 then mret 0 else
  if negb (mode =? 0) && negb (mode =? 1) then mret 0 else sys (sys_pipe_dup pipe_id fd mode).
Definition pipe_release_fd (fd : Z) : U Z := sys (sys_pipe_release_fd fd).
Definition get_foreground_pid : U Z := sys sys_get_foreground_pid.

(** ** Strings and vectors of arguments in memory *)

(** The string at an address, and a string written with its null. *)
Definition string_at (a : Z) : U (list Z) :=
  len ← gets_opt (fun s => strlen (sys_mem (u_sys s)) a); uload (fun m => bytes_at m a (Z.to_nat len)).
Definition write_string (a : Z) (s : list Z) : U unit := ustore (store_bytes a (s ++ [0])).
(** [argv[i]] and [argv[i] = p]. *)
Definition arg (argv i : Z) : U Z := uload (fun m => load64 m (argv + 8 * i)).
Definition set_arg (argv i p : Z) : U unit := ustore (store64 (argv + 8 * i) p).

(** ** lib/process/lib_process.c *)

Definition resolve_function_by_name (name : list Z) : option entry :=
  if strcmp name (text "zero_to_max") =? 0 then Some Fzero_to_max else
  if strcmp name (text "endless_loop") =? 0 then Some Fendless_loop else
  if strcmp name (text "endless_loop_print") =? 0 then Some Fendless_loop_print else
  if strcmp name (text "my_process_inc") =? 0 then Some Fmy_process_inc else None.

(** The part the two ways of creating share; no function is below [0x10000]. *)
Definition create_process (name : list Z) (function : option entry) (argv priority last : Z) : U Z :=
  match (match function with Some f => Some f | None => resolve_function_by_name name end) with
  | None => mret (-1)
  | Some f =>
      r ← sys (sys_create_process name f argv priority last);
      let pid := i64 r in
      when (pid >? 0) (modify (fun s => s <| g_last_spawned_pid := pid |>)) ;;
      mret pid
  end.
Definition my_create_process (name : list Z) (function : option entry) (argv priority is_foreground : Z) : U Z :=
  create_process name function argv priority (u64 is_foreground).
Definition my_create_process_with_pipes (name : list Z) (function : option entry)
    (argv priority is_foreground stdin_pipe_id stdout_pipe_id : Z) : U Z :=
  create_process name function argv priority (packed_pipes is_foreground stdin_pipe_id stdout_pipe_id).

Definition my_kill (pid : Z) : U Z := r ← sys (sys_kill (u64 pid)); mret (i64 r).
Definition my_block (pid : Z) : U Z := r ← sys (sys_block (u64 pid)); mret (i64 r).
Definition my_unblock (pid : Z) : U Z := r ← sys (sys_unblock (u64 pid)); mret (i64 r).
Definition my_getpid : U Z := r ← sys sys_getpid; mret (i64 r).
Definition my_nice (pid newPrio : Z) : U Z := r ← sys (sys_set_priority (u64 pid) (u64 newPrio)); mret (i64 r).
Definition my_yield : U Z := r ← sys sys_yield; mret (i64 r).
Definition my_wait (pid : Z) : U Z := r ← sys (sys_wait (u64 pid)); mret (i64 r).
Definition list_processes (max_count : Z) : U (list process_info) :=
  if max_count =? 0 then mret [] else sys (sys_list_processes max_count).
Definition reset_last_spawned_pid : U unit := modify (fun s => s <| g_last_spawned_pid := -1 |>).
Definition get_last_spawned_pid : U Z := gets g_last_spawned_pid.

(** One round of [find_sem_index]: the slot [i] holds the name. *)
Definition sem_named (name : list Z) (i : Z) : U (option Z) :=
  a ← gets_opt (fun s => user_sem_names s !! Z.to_nat i);
  if a =? 0 then mret None else
  n ← string_at a;
  mret (if strcmp n name =? 0 then Some i else None).
Definition find_sem_index (name : list Z) : U Z :=
  r ← for_first 0 MAX_USER_SEMS (sem_named name); mret (default (-1) r).
Definition find_free_sem_slot : U Z :=
  r ← for_first 0 MAX_USER_SEMS (fun i =>
    a ← gets_opt (fun s => user_sem_names s !! Z.to_nat i); mret (if a =? 0 then Some i else None));
  mret (default (-1) r).
Definition sem_id_at (idx : Z) : U Z := gets_opt (fun s => user_sem_ids s !! Z.to_nat idx).
Definition set_sem_slot (idx name id : Z) : U unit :=
  modify (fun s => s <| user_sem_names ::= <[Z.to_nat idx := name]> |> <| user_sem_ids ::= <[Z.to_nat idx := id]> |>).

Definition my_sem_open (name : list Z) (initialValue : Z) : U Z :=
  idx ← find_sem_index name;
  if idx >=? 0 then id ← sem_id_at idx; sys (sys_sem_open id) ;; mret 1 else
  slot ← find_free_sem_slot;
  if slot <? 0 then mret 0 else
  id ← sys (sys_sem_create (i32 initialValue));
  if id =? 0 then mret 0 else
  copy ← malloc (ustrlen name + 1);
  if copy =? 0 then sys (sys_sem_close id) ;; mret 0 else
  write_string copy name ;;
  set_sem_slot slot copy id ;;
  mret 1.
Definition my_sem_wait (name : list Z) : U Z :=
  idx ← find_sem_index name;
  if idx <? 0 then mret 0 else
  id ← sem_id_at idx; r ← sys (sys_sem_wait id); mret (i64 r).
Definition my_sem_post (name : list Z) : U Z :=
  idx ← find_sem_index name;
  if idx <? 0 then mret 0 else
  id ← sem_id_at idx; r ← sys (sys_sem_signal id); mret (i64 r).
Definition my_sem_close (name : list Z) : U Z :=
  idx ← find_sem_index name;
  if idx <? 0 then mret 0 else
  id ← sem_id_at idx;
  r ← sys (sys_sem_close id);
  a ← gets_opt (fun s => user_sem_names s !! Z.to_nat idx);
  free a ;;
  set_sem_slot idx 0 0 ;;
  mret (i64 r).

(** ** tests/test_util.c *)

Definition next_uint : U Z :=
  s ← gets id;
  let '(r, z, w) := GetUint (m_z s) (m_w s) in
  modify (fun s => s <| m_z := z |> <| m_w := w |>) ;; mret r.

(** Double precision: [2.328306435454494e-10], and a conversion to an integer. *)
Definition double_of (m : Z) : spec_float := binary_normalize 53 1024 m 0 false.
Definition uniform_scale : spec_float := binary_normalize 53 1024 9007199250546688 (-85) false.
Definition trunc_double (f : spec_float) : Z :=
  match f with S754_finite sg m e => (if sg then Z.opp else id) (Z.shiftl (Zpos m) e) | _ => 0 end.
Definition GetUniform (max : Z) : U Z :=
  u ← next_uint;
  mret (u32 (trunc_double (SFmul 53 1024 (SFmul 53 1024 (SFadd 53 1024 (double_of u) (double_of 1)) uniform_scale)
                             (double_of max)))).

Definition bussy_wait (n : Z) : U unit := for_up 0 (Z.to_nat n) (fun _ => mret tt).
Definition endless_loop : U unit := while_fuel patience (fun _ : unit => mret (inl tt)) tt.
Definition endless_loop_print (wait : Z) : U unit :=
  pid ← my_getpid;
  while_fuel patience (fun _ : unit => print "%lld " [VNum pid] ;; bussy_wait wait ;; mret (inl tt)) tt.
End Runtime.
