(* ===== verification/UPrograms.v ===== *)
(** * The programs a user process runs (shell/process_wrappers.c, tests/)

    Each takes the address of its vector of arguments.  A loop that never ends
    runs [patience] rounds. *)
From Stdlib Require Import Ascii String.
From S2P Require Import Prelude CLib MmInterface KState Process ULib UProc.

Section Programs.
Context {W : Type} `{System W}.
Context (patience : nat).
Abbreviation U := (M (ustate W)).

(** [while (1) body]: left by a [break] or a [return]. *)
Definition forever {B} (body : U (option B)) : U B :=
  while_fuel patience (fun _ : unit => r ← body; mret (match r with Some b => inr b | None => inl tt end)) tt.

(** ** cat, wc, filter *)

(** [while ((n = sys_read(STDIN_FD, buffer, size)) > 0) body] with a variable. *)
Definition read_step {A} (size : Z) (body : list Z -> A -> U A) (a : A) : U (A + A) :=
  got ← sys (sys_read STDIN_FD size);
  match got with [] => mret (inr a) | _ => a' ← body got a; mret (inl a') end.
Definition read_all {A} (size : Z) (body : list Z -> A -> U A) (a : A) : U A :=
  while_fuel patience (read_step size body) a.

Definition cat_process_entry : U unit :=
  read_all (256 - 1) (fun buffer _ => print "%s" [VStr (cut buffer)]) tt.

Definition count_lines (line_count c : Z) : Z := if c =? 10 then i32 (line_count + 1) else line_count.
Definition wc_process_entry : U unit :=
  line_count ← read_all 256 (fun buffer line_count => mret (foldl count_lines line_count buffer)) 0;
  print "%d\n" [VNum line_count].

Definition is_vowel (c : Z) : bool := existsb (fun v => c =? v) (text "aeiouAEIOU").
Fixpoint put_consonants (l : list Z) : U unit :=
  match l with
  | [] => mret tt
  | c :: l' => (if negb (is_vowel c) then print "%c" [VNum c] else mret tt) ;; put_consonants l'
  end.
Definition filter_process_entry : U unit := read_all 256 (fun buffer _ => put_consonants buffer) tt.

(** ** ps, loop, mem, mmtype *)

Definition state_to_string (state : Z) : list Z :=
  if state =? 0 then text "NEW" else if state =? 1 then text "READY" else if state =? 2 then text "RUNNING"
  else if state =? 3 then text "BLOCKED" else if state =? 4 then text "FINISHED" else text "UNKNOWN".

Definition ps_line (p : process_info) : U unit :=
  print "%llu\t" [VNum (info_pid p)] ;;
  print "%s\t\t" [VStr (info_name p)] ;;
  (if ustrlen (info_name p) <? 8 then print "\t" [] else mret tt) ;;
  print "%s\t\t" [VStr (state_to_string (info_state p))] ;;
  print "%d\t\t" [VNum (info_priority p)] ;;
  print "0x%llx\t" [VNum (info_rsp p)] ;;
  print "0x%llx\t" [VNum (info_rbp p)] ;;
  print "%s\n" [VStr (if ctrue (info_foreground p) then text "Si" else text "No")].
Fixpoint ps_lines (l : list process_info) : U unit :=
  match l with [] => mret tt | p :: l' => ps_line p ;; ps_lines l' end.
Definition ps_process_entry : U unit :=
  processes ← list_processes 64;
  match processes with
  | [] => print "No hay procesos en el sistema.\n" []
  | _ =>
      print "\nPID\tNombre\t\t\tEstado\t\tPrioridad\tRSP\t\t\tRBP\t\t\tForeground\n" [] ;;
      print "---------------------------------------------------------------------------------------------------------------------------
" [] ;;
      ps_lines processes ;;
      print "\nTotal de procesos: %llu\n" [VNum (Z.of_nat (length processes))]
  end.

(** [argv != NULL && argv[0] != NULL] *)
Definition first_arg (argv : Z) : U Z := if argv =? 0 then mret 0 else arg argv 0.

Definition loop_process_entry (argv : Z) : U unit :=
  a ← first_arg argv;
  seconds ← (if a =? 0 then mret 1 else
    s ← string_at a;
    let seconds := atoi s in
    free a ;; free argv ;;
    mret (if seconds <=? 0 then 1 else seconds));
  pid ← my_getpid;
  forever (print "Hola! Soy el proceso con ID %lld\n" [VNum pid] ;; sleep (i32 (seconds * 1000)) ;; mret None).

Definition mem_process_entry : U unit :=
  info ← memory_info;
  match info with
  | None => print "Error: no se pudo obtener la informacion de memoria.\n" []
  | Some info =>
      print "\n=== Estado de la Memoria ===\n" [] ;;
      print "Total de bytes:       %llu\n" [VNum (total_bytes info)] ;;
      print "Bytes usados:         %llu\n" [VNum (used_bytes info)] ;;
      print "Bytes libres:         %llu\n" [VNum (free_bytes info)] ;;
      print "Bloque libre mas grande: %llu bytes\n" [VNum (largest_free_block info)] ;;
      print "Asignaciones totales: %llu\n" [VNum (allocations info)] ;;
      print "Liberaciones totales: %llu\n" [VNum (frees info)] ;;
      print "Asignaciones fallidas: %llu\n" [VNum (failed_allocations info)] ;;
      (if total_bytes info >? 0 then
         print "\nPorcentaje de uso:   %llu%%\n" [VNum (u64 (used_bytes info * 100) / total_bytes info)] ;;
         print "Porcentaje libre:    %llu%%\n" [VNum (u64 (free_bytes info * 100) / total_bytes info)]
       else mret tt) ;;
      print "\n" []
  end.

Definition mmtype_process_entry : U unit :=
  buf ← get_type_of_mm 32;
  match buf with
  | Some buf => print "Memory manager activo: %s\n" [VStr buf]
  | None => print "No se pudo obtener el tipo de memory manager\n" []
  end.

(** ** The writers and readers of mvar *)

Definition delay_loop (amount : Z) : U unit :=
  let amount := if amount <=? 0 then 1 else amount in
  random_variance ← GetUniform 160000000;
  bussy_wait (u64 (amount * (240000000 + random_variance))).

(** A copy of [argv[k]] into an array of 32 characters. *)
Definition copy_arg (argv k : Z) : U (list Z) :=
  a ← arg argv k;
  if a =? 0 then mret [] else s ← string_at a; mret (take 31 s).
Definition parse_u64 (s : list Z) : Z := foldl (fun n c => u64 (n * 10 + (c - 48))) 0 s.
Definition parse_i32 (s : list Z) : Z := foldl (fun n c => i32 (n * 10 + (c - 48))) 0 s.
Definition pipe_arg (argv : Z) : U Z :=
  a ← arg argv 4;
  if a =? 0 then mret 0 else s ← string_at a; mret (parse_u64 s).
Definition delay_arg (argv : Z) : U Z :=
  a ← arg argv 5;
  if a =? 0 then mret 1 else s ← string_at a; mret (if atoi s <=? 0 then 1 else atoi s).
Definition free_mvar_args (argv : Z) : U unit :=
  for_up 0 6 (fun j => a ← arg argv j; free a) ;; free argv.

(** One round: [Some] leaves the loop. *)
Definition writer_round (writer_id : Z) (slots items mutex : list Z) (delay : Z) : U (option unit) :=
  delay_loop delay ;;
  r ← my_sem_wait slots;
  if r =? -1 then mret (Some tt) else
  r ← my_sem_wait mutex;
  if r =? -1 then my_sem_post slots ;; mret (Some tt) else
  written ← sys (sys_write 2 [writer_id]);
  (if i32 written =? 1 then my_sem_post mutex ;; my_sem_post items
   else my_sem_post mutex ;; my_sem_post slots) ;;
  mret None.
Definition mvar_writer_entry (argv : Z) : U unit :=
  a ← first_arg argv;
  if a =? 0 then mret tt else
  id ← string_at a;
  let writer_id := ch id 0 in
  slots ← copy_arg argv 1;
  items ← copy_arg argv 2;
  mutex ← copy_arg argv 3;
  pipe_id ← pipe_arg argv;
  delay ← delay_arg argv;
  free_mvar_args argv ;;
  r ← pipe_open pipe_id;
  if r =? 0 then mret tt else
  r ← pipe_dup pipe_id 2 1;
  if r =? 0 then mret tt else
  forever (writer_round writer_id slots items mutex delay).

Definition reader_colors : list Z := [0x0000FF; 0x00FF00; 0xFF0000; 0x00FFFF; 0xFF00FF; 0xFFFF00].
Definition reader_round (my_color : Z) (slots items mutex : list Z) (delay : Z) : U (option unit) :=
  delay_loop delay ;;
  r ← my_sem_wait items;
  if r =? -1 then mret (Some tt) else
  r ← my_sem_wait mutex;
  if r =? -1 then my_sem_post items ;; mret (Some tt) else
  got ← sys (sys_read 2 1);
  match got with
  | read_value :: _ =>
      sys (sys_video_putChar read_value my_color 0x000000) ;;
      my_sem_post mutex ;; my_sem_post slots ;; mret None
  | [] => my_sem_post mutex ;; my_sem_post items ;; mret None
  end.
(** A negative identifier has a negative remainder: the array is read out of
    its bounds. *)
Definition mvar_reader_entry (argv : Z) : U unit :=
  a ← first_arg argv;
  if a =? 0 then mret tt else
  id ← string_at a;
  let reader_id := parse_i32 id in
  items ← copy_arg argv 1;
  slots ← copy_arg argv 2;
  mutex ← copy_arg argv 3;
  pipe_id ← pipe_arg argv;
  delay ← delay_arg argv;
  free_mvar_args argv ;;
  r ← pipe_open pipe_id;
  if r =? 0 then mret tt else
  r ← pipe_dup pipe_id 2 0;
  if r =? 0 then mret tt else
  my_color ← (let i := Z.rem reader_id 6 in
              if i <? 0 then fault else gets_opt (fun _ => reader_colors !! Z.to_nat i));
  forever (reader_round my_color slots items mutex delay).

(** ** tests/test-mm.c *)

Definition MAX_BLOCKS : Z := 128.
(** The first loop of a round: the blocks allocated, in order, and their total. *)
Definition mm_request_step (max_memory : Z) (st : list (Z * Z) * Z) : U ((list (Z * Z) * Z) + (list (Z * Z) * Z)) :=
  let '(rqs, total) := st in
  if negb ((Z.of_nat (length rqs) <? MAX_BLOCKS) && (total <? max_memory)) then mret (inr st) else
  u ← GetUniform (u32 (max_memory - total - 1));
  let size := u32 (u + 1) in
  address ← malloc size;
  mret (if ctrue address then inl (rqs ++ [(address, size)], u32 (total + size)) else inr st).
Fixpoint mm_set (i : Z) (rqs : list (Z * Z)) : U unit :=
  match rqs with
  | [] => mret tt
  | (address, size) :: rqs' => ustore (memset address i size) ;; mm_set (i + 1) rqs'
  end.
Fixpoint mm_check (i : Z) (rqs : list (Z * Z)) : U bool :=
  match rqs with
  | [] => mret true
  | (address, size) :: rqs' =>
      ok ← uload (fun m => memcheck (bytes_at m address (Z.to_nat size)) (u8 i));
      if ok : bool then mm_check (i + 1) rqs' else mret false
  end.
Fixpoint mm_free (rqs : list (Z * Z)) : U unit :=
  match rqs with [] => mret tt | (address, _) :: rqs' => free address ;; mm_free rqs' end.
Definition mm_round (max_memory iteration : Z) : U (Z + Z) :=
  let iteration := u64 (iteration + 1) in
  print "Iteracion %llu: " [VNum iteration] ;;
  '(rqs, total) ← while_fuel (S (Z.to_nat MAX_BLOCKS)) (mm_request_step max_memory) ([], 0);
  print "Asignados %llu bloques (%llu bytes) - " [VNum (Z.of_nat (length rqs)); VNum total] ;;
  mm_set 0 rqs ;;
  print "Escritura OK - " [] ;;
  ok ← mm_check 0 rqs;
  if negb ok then print "ERROR en verificacion!\n" [] ;; mret (inr (u64 (-1))) else
  print "Verificacion OK - " [] ;;
  mm_free rqs ;;
  print "Liberacion OK\n" [] ;;
  mret (inl iteration).
Definition test_mm (argv : list (list Z)) : U Z :=
  match argv with
  | [a] =>
      let max_memory := u64 (satoi a) in
      if max_memory =? 0 then mret (u64 (-1)) else
      print "=== TEST DE MEMORIA INICIADO ===\n" [] ;;
      print "Memoria maxima: %llu bytes\n" [VNum max_memory] ;;
      print "Bloques maximos: %d\n" [VNum MAX_BLOCKS] ;;
      print "Presiona Ctrl+C para detener\n\n" [] ;;
      while_fuel patience (mm_round max_memory) 0
  | _ => mret (u64 (-1))
  end.

(** ** tests/test_prio.c *)

(** [while (value++ != max_value);] *)
Definition zero_to_max_step (value : Z) : U (Z + unit) :=
  m ← gets max_value; mret (if value =? m then inr tt else inl (u64 (value + 1))).
Definition zero_to_max : U unit :=
  m ← gets max_value;
  while_fuel (S (Z.to_nat m)) zero_to_max_step 0 ;;
  pid ← my_getpid; print "PROCESS %lld DONE!\n" [VNum pid].

(** [argv] of the processes: an array with a null in it, on the stack. *)
Definition spawn_zero_to_max (ztm_argv : Z) : U Z :=
  my_create_process (text "zero_to_max") (Some Fzero_to_max) ztm_argv 1 0.
Fixpoint each {A B} (f : A -> U B) (l : list A) : U (list B) :=
  match l with [] => mret [] | a :: l' => b ← f a; bs ← each f l'; mret (b :: bs) end.
Definition say_priority (pid p : Z) : U unit := print "  PROCESS %lld NEW PRIORITY: %lld\n" [VNum pid; VNum p].
Definition test_prio (ztm_argv : Z) (argv : list (list Z)) : U Z :=
  match argv with
  | [a] =>
      modify (fun s => s <| max_value := u64 (satoi a) |>) ;;
      if u64 (satoi a) =? 0 then mret (u64 (-1)) else
      set_arg ztm_argv 0 0 ;;
      print "SAME PRIORITY...\n" [] ;;
      pids ← each (fun _ : Z => spawn_zero_to_max ztm_argv) [0; 1; 2];
      each my_wait pids ;;
      print "SAME PRIORITY, THEN CHANGE IT...\n" [] ;;
      prios ← gets prio;
      pids ← each (fun p => pid ← spawn_zero_to_max ztm_argv; my_nice pid p ;; say_priority pid p ;; mret pid) prios;
      each my_wait pids ;;
      print "SAME PRIORITY, THEN CHANGE IT WHILE BLOCKED...\n" [] ;;
      pids ← each (fun p => pid ← spawn_zero_to_max ztm_argv; my_block pid ;; my_nice pid p ;;
                            say_priority pid p ;; mret pid) prios;
      each my_unblock pids ;;
      each my_wait pids ;;
      mret 0
  | _ => mret (u64 (-1))
  end.

(** ** tests/test_processes.c *)

Inductive test_state := RUNNING | BLOCKED | KILLED.
#[local] Instance test_state_eq_dec : EqDecision test_state.
Proof. solve_decision. Defined.
Record p_rq := mk_rq { rq_pid : Z; rq_state : test_state }.

(** The loops go on with [inl], or return a value with [inr].  The counter [rq]
    has 8 bits: the first loop does not end when [max_processes] is 256 or more. *)
Definition create_step (max_processes argvAux : Z) (st : Z * list p_rq * Z) : U ((Z * list p_rq * Z) + ((list p_rq * Z) + Z)) :=
  let '(rq, p_rqs, alive) := st in
  if negb (rq <? max_processes) then mret (inr (inl (p_rqs, alive))) else
  print "Creando proceso %d... " [VNum (rq + 1)] ;;
  pid ← my_create_process (text "endless_loop") (Some Fendless_loop) argvAux 1 0;
  let pid := i32 pid in
  if pid =? -1 then
    print "ERROR\n" [] ;; print "test_processes: ERROR creating process\n" [] ;; mret (inr (inr (-1)))
  else
    print "PID: %d\n" [VNum pid] ;;
    mret (inl (u8 (rq + 1), <[Z.to_nat rq := mk_rq pid RUNNING]> p_rqs, u8 (alive + 1))).
Definition create_loop (max_processes argvAux : Z) : U ((list p_rq * Z) + Z) :=
  while_fuel (256 + patience) (create_step max_processes argvAux)
    (0, replicate (Z.to_nat (Z.min max_processes 256)) (mk_rq 0 KILLED), 0).
Definition alive_state (st : test_state) : bool := negb (bool_decide (st = KILLED)).
(** The random action on one process. *)
Definition act_on (p : p_rq) (alive : Z) : U ((p_rq * Z) + Z) :=
  r ← GetUniform 100;
  if r mod 2 =? 0 then
    if alive_state (rq_state p) then
      print "Matando proceso PID %d... " [VNum (rq_pid p)] ;;
      k ← my_kill (rq_pid p);
      if k =? -1 then
        print "ERROR\n" [] ;; print "test_processes: ERROR killing process\n" [] ;; mret (inr (-1))
      else print "OK\n" [] ;; mret (inl (mk_rq (rq_pid p) KILLED, u8 (alive - 1)))
    else mret (inl (p, alive))
  else
    if bool_decide (rq_state p = RUNNING) then
      print "Bloqueando proceso PID %d... " [VNum (rq_pid p)] ;;
      k ← my_block (rq_pid p);
      if k =? -1 then
        print "ERROR\n" [] ;; print "test_processes: ERROR blocking process\n" [] ;; mret (inr (-1))
      else print "OK\n" [] ;; mret (inl (mk_rq (rq_pid p) BLOCKED, alive))
    else mret (inl (p, alive)).
Fixpoint act_loop (l : list p_rq) (alive : Z) : U ((list p_rq * Z) + Z) :=
  match l with
  | [] => mret (inl ([], alive))
  | p :: l' =>
      r ← act_on p alive;
      match r with
      | inr e => mret (inr e)
      | inl (p', alive) =>
          r ← act_loop l' alive;
          mret (match r with inl (l'', a) => inl (p' :: l'', a) | inr e => inr e end)
      end
  end.
Definition unblock_one (p : p_rq) : U (p_rq + Z) :=
  if bool_decide (rq_state p = BLOCKED) then
    r ← GetUniform 100;
    if r mod 2 =? 0 then mret (inl p) else
    print "Desbloqueando proceso PID %d... " [VNum (rq_pid p)] ;;
    k ← my_unblock (rq_pid p);
    if k =? -1 then
      print "ERROR\n" [] ;; print "test_processes: ERROR unblocking process\n" [] ;; mret (inr (-1))
    else print "OK\n" [] ;; mret (inl (mk_rq (rq_pid p) RUNNING))
  else mret (inl p).
Fixpoint unblock_loop (l : list p_rq) : U (list p_rq + Z) :=
  match l with
  | [] => mret (inl [])
  | p :: l' =>
      r ← unblock_one p;
      match r with
      | inr e => mret (inr e)
      | inl p' => r ← unblock_loop l'; mret (match r with inl l'' => inl (p' :: l'') | inr e => inr e end)
      end
  end.
(** [while (alive > 0)] *)
Definition manipulate_step (st : list p_rq * Z) : U ((list p_rq * Z) + option Z) :=
  let '(l, alive) := st in
  if negb (alive >? 0) then mret (inr None) else
  print "Procesos vivos: %d\n" [VNum alive] ;;
  r ← act_loop l alive;
  match r with
  | inr e => mret (inr (Some e))
  | inl (l, alive) =>
      r ← unblock_loop l;
      mret (match r with inl l => inl (l, alive) | inr e => inr (Some e) end)
  end.
Definition processes_round (max_processes argvAux : Z) : U (option Z) :=
  print "\n--- CICLO DE CREACION DE PROCESOS ---\n" [] ;;
  r ← create_loop max_processes argvAux;
  match r with
  | inr e => mret (Some e)
  | inl (l, alive) =>
      print "Total de procesos creados: %d\n" [VNum alive] ;;
      print "\n--- CICLO DE MANIPULACION DE PROCESOS ---\n" [] ;;
      r ← while_fuel patience manipulate_step (l, alive);
      match r with
      | Some e => mret (Some e)
      | None =>
          print "\n--- CICLO COMPLETADO ---\n" [] ;;
          print "Todos los procesos fueron terminados. Reiniciando...\n" [] ;; mret None
      end
  end.
(** [argvAux] is an array with a null in it, on the stack. *)
Definition test_processes (argvAux : Z) (argv : list (list Z)) : U Z :=
  match argv with
  | [a] =>
      let max_processes := u64 (satoi a) in
      if max_processes =? 0 then mret (-1) else
      print "=== TEST DE PROCESOS INICIADO ===\n" [] ;;
      print "Numero maximo de procesos: %llu\n" [VNum max_processes] ;;
      set_arg argvAux 0 0 ;;
      forever (processes_round max_processes argvAux)
  | _ => mret (-1)
  end.

(** ** tests/test_sync.c *)

Definition TOTAL_PAIR_PROCESSES : nat := 2.
Definition SEM_ID : list Z := text "sem".
Definition added (aux inc : Z) : Z := i64 (aux + inc).
Definition slowInc (inc : Z) : U unit :=
  aux ← gets global;
  my_yield ;;
  modify (fun s => s <| global := added aux inc |>).

(** The strings of a vector that ends with a null. *)
Fixpoint argv_strings (fuel : nat) (argv i : Z) : U (list (list Z)) :=
  match fuel with
  | O => diverge
  | S n =>
      a ← arg argv i;
      if a =? 0 then mret [] else
      s ← string_at a; rest ← argv_strings n argv (i + 1); mret (s :: rest)
  end.
(** The number of cells of the memory bounds the length of a vector. *)
Definition count_argv (argv : Z) : U (list (list Z)) :=
  if argv =? 0 then mret [] else
  n ← uload size; argv_strings (S n) argv 0.

Definition inc_round (use_sem inc : Z) : U unit :=
  (if ctrue use_sem then my_sem_wait SEM_ID ;; mret tt else mret tt) ;;
  slowInc inc ;;
  (if ctrue use_sem then my_sem_post SEM_ID ;; mret tt else mret tt).
Definition my_process_inc (argv : Z) : U Z :=
  args ← count_argv argv;
  match args with
  | [a0; a1; a2] =>
      let n := u64 (satoi a0) in
      if n =? 0 then mret (u64 (-1)) else
      let inc := i8 (satoi a1) in
      if inc =? 0 then mret (u64 (-1)) else
      let use_sem := i8 (satoi a2) in
      if use_sem <? 0 then mret (u64 (-1)) else
      opened ← (if ctrue use_sem then my_sem_open SEM_ID 1 else mret 1);
      if opened =? 0 then print "test_sync: ERROR opening semaphore\n" [] ;; mret (u64 (-1)) else
      for_up 0 (Z.to_nat n) (fun _ => inc_round use_sem inc) ;;
      (if ctrue use_sem then my_sem_close SEM_ID ;; mret tt else mret tt) ;;
      mret 0
  | _ => mret (u64 (-1))
  end.

(** The vectors [{argv[0], inc, argv[1], NULL}] are on the stack; [args] are the
    addresses in [argv], [dec] and [inc] those of the literals "-1" and "1". *)
Definition set_vector (v : Z) (ps : list Z) : U unit :=
  ustore (store_words v ps).
Definition test_sync (stack dec inc : Z) (args : list Z) : U Z :=
  match args with
  | [a; b] =>
      let argvDec := stack in
      let argvInc := stack + 32 in
      set_vector argvDec [a; dec; b; 0] ;;
      set_vector argvInc [a; inc; b; 0] ;;
      modify (fun s => s <| global := 0 |>) ;;
      pids ← each (fun _ : Z =>
        d ← my_create_process (text "my_process_inc") None argvDec 1 0;
        i ← my_create_process (text "my_process_inc") None argvInc 1 0; mret (d, i)) [0; 1];
      each (fun '(d, i) => my_wait d ;; my_wait i) pids ;;
      g ← gets global;
      print "Final value: %lld\n" [VNum g] ;;
      mret 0
  | _ => mret (u64 (-1))
  end.

(** ** The wrappers *)

Definition test_single_arg_wrapper (argv : Z) (test_fn : list (list Z) -> U Z) : U unit :=
  a ← first_arg argv;
  if a =? 0 then mret tt else
  s ← string_at a;
  test_fn [s] ;;
  free a ;; free argv.
(** The literals are behind the vectors. *)
Definition test_sync_wrapper_common (argv : Z) (use_sem : list Z) (stack : Z) : U unit :=
  let '(dec, inc, sem) := (stack + 64, stack + 72, stack + 80) in
  write_string dec (text "-1") ;; write_string inc (text "1") ;; write_string sem use_sem ;;
  a ← first_arg argv;
  if a =? 0 then mret tt else
  b ← arg argv 1;
  test_sync stack dec inc (if ctrue b then [a; sem; b] else [a; sem]) ;;
  free a ;;
  b ← arg argv 1;
  (if ctrue b then free b else mret tt) ;;
  free argv.

(** The function a process starts at; [stack] is a part of its stack for
    the vectors that the tests pass on. *)
Definition run_entry (f : entry) (argv stack : Z) : U unit :=
  match f with
  | Fcat => cat_process_entry
  | Fwc => wc_process_entry
  | Ffilter => filter_process_entry
  | Fps => ps_process_entry
  | Floop => loop_process_entry argv
  | Fmem => mem_process_entry
  | Fmmtype => mmtype_process_entry
  | Ftest_mm => test_single_arg_wrapper argv test_mm
  | Ftest_processes => test_single_arg_wrapper argv (test_processes stack)
  | Ftest_prio => test_single_arg_wrapper argv (test_prio stack)
  | Ftest_sync => test_sync_wrapper_common argv (text "1") stack
  | Ftest_no_synchro => test_sync_wrapper_common argv (text "0") stack
  | Fmvar_writer => mvar_writer_entry argv
  | Fmvar_reader => mvar_reader_entry argv
  | Fzero_to_max => zero_to_max
  | Fendless_loop => endless_loop patience
  | Fendless_loop_print => endless_loop_print patience argv
  | Fmy_process_inc => my_process_inc argv ;; mret tt
  end.
End Programs.
