(* ===== verification/UShell.v ===== *)
(** * The shell (src/Userland/SampleCodeModule/shell)

    The loop that reads lines, the commands, and how a line is run.  [argv] is
    the list of the words of the line, the name of the command first. *)
From Stdlib Require Import Ascii String.
From S2P Require Import Prelude CLib MmInterface KState ULib UProc UPrograms.

Section Shell.
Context {W : Type} `{System W}.
Context (patience : nat).
Abbreviation U := (M (ustate W)).

(** ** include/commands.h, include/shell.h *)

Definition OK : Z := 0.
Definition ERROR : Z := -1.
Definition EXIT_CODE : Z := 1.
Definition CMD_ERROR : Z := -2.
Definition SHELL_PID : Z := 1.
Definition MAX_LINE_LENGTH : Z := 100.
Definition MAX_USER_LENGTH : Z := 10.
Definition MAX_PROCESS_INFO : Z := 64.

Inductive command :=
  | helpCmd_ | exitCmd_ | setUserCmd_ | clearCmd_ | testMMCmd_ | testProcesesCmd_ | testSyncCmd_ | testNoSynchroCmd_
  | testPriorityCmd_ | exceptionCmd_ | mmTypeCmd_ | psCmd_ | loopCmd_ | killCmd_ | niceCmd_ | blockCmd_
  | memCmd_ | catCmd_ | wcCmd_ | filterCmd_ | mvarCmd_.
Record TShellCmd := mk_cmd { cmd_name : list Z; cmd_function : command; cmd_help : list Z; is_builtin : bool }.

(** shell/commands.c *)
Definition shellCmds : list TShellCmd := [
  mk_cmd (text "help") helpCmd_ (text ": Muestra los comandos disponibles\n") true;
  mk_cmd (text "exit") exitCmd_ (text ": Salir del shell\n") true;
  mk_cmd (text "set-user") setUserCmd_ (text ": Setea el nombre de usuario, con un maximo de 10 caracteres\n") true;
  mk_cmd (text "clear") clearCmd_ (text ": Limpia la pantalla\n") true;
  mk_cmd (text "testmm") testMMCmd_ (text ": Ejecuta el stress test de memoria. Uso: testmm <max_mem>\n") false;
  mk_cmd (text "test_proceses") testProcesesCmd_ (text ": Ejecuta el stress test de procesos. Uso: test_proceses <max_proceses>\n") false;
  mk_cmd (text "test_synchro") testSyncCmd_ (text ": Ejecuta test sincronizado con semaforos. Uso: test_synchro <repeticiones>\n") false;
  mk_cmd (text "test_no_synchro") testNoSynchroCmd_ (text ": Ejecuta test sin sincronizacion. Uso: test_no_synchro <repeticiones>\n") false;
  mk_cmd (text "test_priority") testPriorityCmd_ (text ": Ejecuta el test de prioridades. Uso: test_priority <max_value>\n") false;
  mk_cmd (text "exceptions") exceptionCmd_
    (text ": Testear excepciones. Ingrese: exceptions [zero/invalidOpcode] para testear alguna operacion\n") true;
  mk_cmd (text "mmtype") mmTypeCmd_ (text ": Muestra el tipo de memory manager activo\n") false;
  mk_cmd (text "ps") psCmd_ (text ": Lista todos los procesos con sus propiedades\n") false;
  mk_cmd (text "loop") loopCmd_ (text ": Crea un proceso que imprime su ID con saludo cada X segundos. Uso: loop <segundos>\n") false;
  mk_cmd (text "kill") killCmd_ (text ": Mata un proceso por PID. Uso: kill <pid>\n") true;
  mk_cmd (text "nice") niceCmd_ (text ": Cambia la prioridad de un proceso. Uso: nice <pid> <prioridad>\n") true;
  mk_cmd (text "block") blockCmd_ (text ": Cambia el estado de un proceso entre bloqueado y listo. Uso: block <pid>\n") true;
  mk_cmd (text "mem") memCmd_ (text ": Imprime el estado de la memoria\n") false;
  mk_cmd (text "cat") catCmd_ (text ": Imprime el stdin tal como lo recibe\n") false;
  mk_cmd (text "wc") wcCmd_ (text ": Cuenta la cantidad de lineas del input\n") false;
  mk_cmd (text "filter") filterCmd_ (text ": Filtra las vocales del input\n") false;
  mk_cmd (text "mvar") mvarCmd_ (text ": Simula MVar con lectores/escritores. Uso: mvar <escritores> <lectores>\n") false ].

(** ** shell/shell.c: reading a line *)

(** One round of [readLine]: the characters in the buffer. *)
Definition readLine_step (maxLen : Z) (buf : list Z) : U (list Z + list Z) :=
  c ← getchar patience;
  if c =? 0x04 then
    match buf with [] => print "\n" [] ;; mret (inr []) | _ => mret (inl buf) end
  else if c =? 10 then putchar 10 ;; mret (inr buf)
  else if c =? 8 then
    match buf with
    | [] => mret (inl buf)
    | _ => putchar 8 ;; putchar 32 ;; putchar 8 ;; mret (inl (removelast buf))
    end
  else if Z.of_nat (length buf) <? maxLen - 1 then putchar c ;; mret (inl (buf ++ [u8 c]))
  else mret (inl buf).
Definition readLine (maxLen : Z) : U (list Z) := while_fuel patience (readLine_step maxLen) [].

(** ** shell/command_parser.c: processes for commands *)

Definition get_process_entry_function (name : list Z) : option entry :=
  if strcmp name (text "cat") =? 0 then Some Fcat else
  if strcmp name (text "wc") =? 0 then Some Fwc else
  if strcmp name (text "filter") =? 0 then Some Ffilter else
  if strcmp name (text "ps") =? 0 then Some Fps else
  if strcmp name (text "loop") =? 0 then Some Floop else
  if strcmp name (text "mem") =? 0 then Some Fmem else
  if strcmp name (text "mmtype") =? 0 then Some Fmmtype else
  if strcmp name (text "testmm") =? 0 then Some Ftest_mm else
  if strcmp name (text "test_proceses") =? 0 then Some Ftest_processes else
  if strcmp name (text "test_synchro") =? 0 then Some Ftest_sync else
  if strcmp name (text "test_no_synchro") =? 0 then Some Ftest_no_synchro else
  if strcmp name (text "test_priority") =? 0 then Some Ftest_prio else None.

Definition execute_external_command (name : list Z) (function : entry)
    (argv is_foreground stdin_pipe_id stdout_pipe_id : Z) : U Z :=
  pid ← (if negb (stdin_pipe_id =? 0) || negb (stdout_pipe_id =? 0)
         then my_create_process_with_pipes name (Some function) argv 1 is_foreground stdin_pipe_id stdout_pipe_id
         else my_create_process name (Some function) argv 1 is_foreground);
  if pid <=? 0 then mret (-1) else
  (if ctrue is_foreground then my_wait pid ;; mret tt else mret tt) ;;
  mret pid.

(** The entry of the table at the index, [None] for -1. *)
Fixpoint find_in_table (name : list Z) (cmds : list TShellCmd) : option TShellCmd :=
  match cmds with
  | [] => None
  | c :: cmds' => if strcmp name (cmd_name c) =? 0 then Some c else find_in_table name cmds'
  end.
Definition find_command_index (name : list Z) : option TShellCmd := find_in_table name shellCmds.

(** ** shell/commands_builtin.c *)

Fixpoint help_lines (cmds : list TShellCmd) : U unit :=
  match cmds with
  | [] => mret tt
  | c :: cmds' => print "%s" [VStr (cmd_name c)] ;; print "%s" [VStr (cmd_help c)] ;; help_lines cmds'
  end.
Definition helpCmd : U Z :=
  print "%s" [VStr (text "Comandos disponibles:\n")] ;; help_lines (drop 1 shellCmds) ;; mret OK.

Definition exitCmd : U Z :=
  clearScreen ;;
  print "%s" [VStr (text "Saliendo del shell...\n")] ;;
  sleep 1000 ;;
  shutdown ;;
  mret EXIT_CODE.

Definition setUserCmd : U Z :=
  print "%s" [VStr (text "Ingrese el nuevo nombre de usuario: ")] ;;
  newName ← readLine (MAX_USER_LENGTH + 1);
  modify (fun s => s <| shellUser := cut (strncpy newName MAX_USER_LENGTH) |>) ;;
  user ← gets shellUser;
  print "Nombre de usuario actualizado a: %s\n" [VStr user] ;;
  mret OK.

Definition clearCmd : U Z := clearScreen ;; mret OK.

(** The division by zero and the invalid instruction trap. *)
Definition exceptionCmd (argv : list (list Z)) : U Z :=
  match argv with
  | [_; a] =>
      if strcmp a (text "zero") =? 0 then fault
      else if strcmp a (text "invalidopcode") =? 0 then print "Ejecutando invalidOpcode...\n" [] ;; fault
      else
        print "Error: tipo de excepcion invalido.\nIngrese exceptions [zero, invalidOpcode] para testear alguna operacion\n" [] ;;
        mret CMD_ERROR
  | _ => print "Error: cantidad invalida de argumentos.\nUso: exceptions [zero, invalidOpcode]\n" [] ;; mret CMD_ERROR
  end.

(** One argument of [kill]: whether it failed. *)
Definition kill_one (current_pid : Z) (a : list Z) : U bool :=
  let pid := atoi a in
  if pid <=? 0 then print "Error: PID invalido (%s).\n" [VStr a] ;; mret true else
  if (pid =? current_pid) || (pid =? SHELL_PID) then
    print "Error: no se puede matar el proceso de la shell (PID %lld).\n" [VNum pid] ;; mret true
  else
  result ← my_kill pid;
  if result =? 0 then
    print "Error: no se pudo matar el proceso %lld. Puede que no exista.\n" [VNum pid] ;; mret true
  else print "Proceso %lld terminado exitosamente.\n" [VNum pid] ;; mret false.
Fixpoint kill_each (current_pid : Z) (args : list (list Z)) (error_count : Z) : U Z :=
  match args with
  | [] => mret error_count
  | a :: args' => e ← kill_one current_pid a; kill_each current_pid args' (if e : bool then error_count + 1 else error_count)
  end.
Definition killCmd (argv : list (list Z)) : U Z :=
  if Z.of_nat (length argv) <? 2 then print "Uso: kill <pid1> <pid2> ...\n" [] ;; mret CMD_ERROR else
  current_pid ← my_getpid;
  error_count ← kill_each current_pid (tail argv) 0;
  mret (if error_count =? Z.of_nat (length argv) - 1 then CMD_ERROR else OK).

Definition niceCmd (argv : list (list Z)) : U Z :=
  match argv with
  | [_; a; b] =>
      let pid := atoi a in
      if pid <=? 0 then print "Error: PID invalido.\n" [] ;; mret CMD_ERROR else
      current_pid ← my_getpid;
      if (pid =? current_pid) || (pid =? SHELL_PID) then
        print "Error: no se puede cambiar la prioridad del proceso de la shell.\n" [] ;; mret CMD_ERROR
      else
      let priority := atoi b in
      if (priority <? 0) || (priority >? 2) then
        print "Error: la prioridad debe estar entre 0 y 2.\n" [] ;; mret CMD_ERROR
      else
      result ← my_nice pid priority;
      if result =? 0 then
        print "Error: no se pudo cambiar la prioridad del proceso %lld.\n" [VNum pid] ;; mret CMD_ERROR
      else
        print "Prioridad del proceso %lld cambiada a %d exitosamente.\n" [VNum pid; VNum priority] ;; mret OK
  | _ => print "Uso: nice <pid> <prioridad>\n" [] ;; mret CMD_ERROR
  end.

Fixpoint find_process (pid : Z) (l : list process_info) : option process_info :=
  match l with [] => None | p :: l' => if info_pid p =? pid then Some p else find_process pid l' end.
Definition blockCmd (argv : list (list Z)) : U Z :=
  match argv with
  | [_; a] =>
      let pid := atoi a in
      if pid <=? 0 then print "Error: PID invalido.\n" [] ;; mret CMD_ERROR else
      current_pid ← my_getpid;
      if (pid =? current_pid) || (pid =? SHELL_PID) then
        print "Error: no se puede bloquear/desbloquear el proceso de la shell.\n" [] ;; mret CMD_ERROR
      else
      processes ← list_processes MAX_PROCESS_INFO;
      match find_process pid processes with
      | None => print "Error: proceso %lld no encontrado.\n" [VNum pid] ;; mret CMD_ERROR
      | Some p =>
          if info_state p =? 3 then
            result ← my_unblock pid;
            if result =? 0 then
              print "Error: no se pudo desbloquear el proceso %lld.\n" [VNum pid] ;; mret CMD_ERROR
            else print "Proceso %lld desbloqueado exitosamente.\n" [VNum pid] ;; mret OK
          else
            result ← my_block pid;
            if result =? 0 then
              print "Error: no se pudo bloquear el proceso %lld.\n" [VNum pid] ;; mret CMD_ERROR
            else print "Proceso %lld bloqueado exitosamente.\n" [VNum pid] ;; mret OK
      end
  | _ => print "Uso: block <pid>\n" [] ;; mret CMD_ERROR
  end.

(** ** shell/commands_system.c, the simple commands of commands_pipe.c *)

Definition foreground : U Z := b ← gets g_run_in_background; mret (cbool (negb b)).

Definition psCmd : U Z :=
  is_foreground ← foreground;
  pid ← execute_external_command (text "ps") Fps 0 is_foreground 0 0;
  if pid <=? 0 then print "Error: no se pudo crear el proceso ps.\n" [] ;; mret CMD_ERROR else
  b ← gets g_run_in_background;
  (if b : bool then print "Proceso ps creado con PID: %lld (background)\n" [VNum pid] else mret tt) ;;
  mret OK.
Definition memCmd : U Z :=
  is_foreground ← foreground;
  pid ← execute_external_command (text "mem") Fmem 0 is_foreground 0 0;
  if pid <=? 0 then print "Error: no se pudo crear el proceso mem.\n" [] ;; mret CMD_ERROR else
  b ← gets g_run_in_background;
  (if b : bool then print "Proceso mem creado con PID: %lld (background)\n" [VNum pid] else mret tt) ;;
  mret OK.
Definition mmTypeCmd : U Z :=
  is_foreground ← foreground;
  pid ← execute_external_command (text "mmtype") Fmmtype 0 is_foreground 0 0;
  if pid <=? 0 then print "Error: no se pudo crear el proceso mmtype.\n" [] ;; mret CMD_ERROR else
  b ← gets g_run_in_background;
  (if b : bool then print "Proceso mmtype creado con PID: %lld (background)\n" [VNum pid] else mret tt) ;;
  mret OK.
Definition catCmd : U Z :=
  is_foreground ← foreground;
  pid ← execute_external_command (text "cat") Fcat 0 is_foreground 0 0;
  if pid <=? 0 then print "Error: no se pudo crear el proceso cat.\n" [] ;; mret CMD_ERROR else mret OK.
Definition wcCmd : U Z :=
  is_foreground ← foreground;
  pid ← execute_external_command (text "wc") Fwc 0 is_foreground 0 0;
  if pid <=? 0 then print "Error: no se pudo crear el proceso wc.\n" [] ;; mret CMD_ERROR else mret OK.
Definition filterCmd : U Z :=
  is_foreground ← foreground;
  pid ← execute_external_command (text "filter") Ffilter 0 is_foreground 0 0;
  if pid <=? 0 then print "Error: no se pudo crear el proceso filter.\n" [] ;; mret CMD_ERROR else mret OK.

Definition loopCmd (argv : list (list Z)) : U Z :=
  match argv with
  | [_; a] =>
      if atoi a <=? 0 then print "Error: el tiempo debe ser un numero positivo.\n" [] ;; mret CMD_ERROR else
      seconds_str ← malloc 32;
      if seconds_str =? 0 then
        print "Error: no se pudo asignar memoria para el proceso.\n" [] ;; mret CMD_ERROR
      else
      write_string seconds_str (take 31 a) ;;
      process_argv ← malloc (2 * 8);
      if process_argv =? 0 then
        free seconds_str ;;
        print "Error: no se pudo asignar memoria para el proceso.\n" [] ;; mret CMD_ERROR
      else
      set_arg process_argv 0 seconds_str ;;
      is_foreground ← foreground;
      pid ← execute_external_command (text "loop_process") Floop process_argv is_foreground 0 0;
      if pid <=? 0 then
        free seconds_str ;; free process_argv ;;
        print "Error: no se pudo crear el proceso loop.\n" [] ;; mret CMD_ERROR
      else
      b ← gets g_run_in_background;
      print "Proceso loop creado con PID: %lld%s\n" [VNum pid; VStr (if b : bool then text " (background)" else [])] ;;
      b ← gets g_run_in_background;
      (if negb b then print "\nProceso loop terminado.\n" [] else mret tt) ;;
      mret OK
  | _ => print "Uso: loop <segundos> [&]\n" [] ;; mret CMD_ERROR
  end.

(** ** shell/commands_tests.c *)

(** [for (int i = 0; args[i] != NULL; i++) free(args[i]);]: the number of cells of
    the memory bounds the length of a vector. *)
Definition free_step (args i : Z) : U (Z + unit) :=
  a ← arg args i; if a =? 0 then mret (inr tt) else free a ;; mret (inl (i + 1)).
Definition free_vector (args : Z) : U unit :=
  n ← uload size; while_fuel (S n) (free_step args) 0 ;; free args.
Definition free_args (args : Z) : U unit := if args =? 0 then mret tt else free_vector args.

(** The rounds of [copy_args] from argument [i]; whether every block was found. *)
Fixpoint copy_loop (process_argv i : Z) (args : list (list Z)) : U bool :=
  match args with
  | [] => mret true
  | a :: args' =>
      p ← malloc (ustrlen a + 1);
      set_arg process_argv (i - 1) p ;;
      if p =? 0 then
        for_up 0 (Z.to_nat (i - 1)) (fun j => q ← arg process_argv j; free q) ;;
        free process_argv ;; mret false
      else write_string p a ;; copy_loop process_argv (i + 1) args'
  end.
(** 0 is the failure reported through [ok]. *)
Definition copy_args (argv : list (list Z)) : U Z :=
  let argc := Z.of_nat (length argv) in
  process_argv ← malloc (argc * 8 + 8);
  if process_argv =? 0 then mret 0 else
  ok ← copy_loop process_argv 1 (tail argv);
  if negb ok then mret 0 else set_arg process_argv (argc - 1) 0 ;; mret process_argv.

Definition launch_test (proc_name : list Z) (f : entry) (argv : list (list Z)) : U Z :=
  args ← copy_args argv;
  if args =? 0 then print "Error: no se pudo asignar memoria para el proceso.\n" [] ;; mret CMD_ERROR else
  is_fg ← foreground;
  pid ← execute_external_command proc_name f args is_fg 0 0;
  if pid <=? 0 then
    free_args args ;; print "Error: no se pudo crear el proceso %s.\n" [VStr proc_name] ;; mret CMD_ERROR
  else
  b ← gets g_run_in_background;
  (if b : bool then print "Test %s iniciado con PID: %lld (background)\n" [VStr proc_name; VNum pid] else mret tt) ;;
  free_args args ;;
  mret OK.

Definition argc_is (lo hi : Z) (argv : list (list Z)) : bool :=
  (lo <=? Z.of_nat (length argv)) && (Z.of_nat (length argv) <=? hi).
Definition testMMCmd (argv : list (list Z)) : U Z :=
  if negb (argc_is 2 2 argv) then print "Uso: testmm <max_mem> [&]\n" [] ;; mret CMD_ERROR
  else launch_test (text "test_mm") Ftest_mm argv.
Definition testSyncCmd (argv : list (list Z)) : U Z :=
  if negb (argc_is 2 3 argv) then
    print "Uso: test_sync <repeticiones> [num_pares] [&]\n" [] ;;
    print "  repeticiones: número de iteraciones por proceso\n" [] ;;
    print "  num_pares: número de pares de procesos (opcional, default=2)\n" [] ;; mret CMD_ERROR
  else launch_test (text "test_synchro") Ftest_sync argv.
Definition testNoSynchroCmd (argv : list (list Z)) : U Z :=
  if negb (argc_is 2 3 argv) then
    print "Uso: test_no_synchro <repeticiones> [num_pares] [&]\n" [] ;;
    print "  repeticiones: número de iteraciones por proceso\n" [] ;;
    print "  num_pares: número de pares de procesos (opcional, default=2)\n" [] ;; mret CMD_ERROR
  else launch_test (text "test_no_synchro") Ftest_no_synchro argv.
Definition testProcesesCmd (argv : list (list Z)) : U Z :=
  if negb (argc_is 2 2 argv) then print "Uso: test_proceses <max_proceses> [&]\n" [] ;; mret CMD_ERROR
  else launch_test (text "test_processes") Ftest_processes argv.
Definition testPriorityCmd (argv : list (list Z)) : U Z :=
  if negb (argc_is 2 2 argv) then print "Uso: test_priority <max_value> [&]\n" [] ;; mret CMD_ERROR
  else launch_test (text "test_prio") Ftest_prio argv.

(** ** shell/commands_pipe.c: mvar *)

Definition format (fmt : string) (args : list varg) : U (list Z) :=
  match sprintf (text fmt) args with Some s => mret s | None => fault end.

(** [process_argv[k] = malloc(size)] and a string written there, for each of the
    arguments from [k] on; when one is not found, what was allocated is freed. *)
Fixpoint fill_vector (process_argv k : Z) (items : list (Z * list Z)) : U bool :=
  match items with
  | [] => mret true
  | (size, s) :: items' =>
      p ← malloc size;
      set_arg process_argv k p ;;
      if p =? 0 then
        for_up 0 (Z.to_nat k) (fun j => q ← arg process_argv j; free q) ;;
        free process_argv ;; mret false
      else write_string p s ;; fill_vector process_argv (k + 1) items'
  end.
(** One round of the two loops: a vector of six strings, and the process. *)
Definition spawn_mvar (who : list Z) (f : entry) (items : list (Z * list Z)) (no_memory no_process : U unit) : U unit :=
  process_argv ← malloc (7 * 8);
  if process_argv =? 0 then no_memory else
  ok ← fill_vector process_argv 0 items;
  if negb ok then mret tt else
  set_arg process_argv 6 0 ;;
  pid ← my_create_process who (Some f) process_argv 1 0;
  if pid <=? 0 then
    no_process ;;
    for_up 0 6 (fun j => q ← arg process_argv j; free q) ;; free process_argv
  else mret tt.
Definition string_item (s : list Z) : Z * list Z := (ustrlen s + 1, s).
Definition spawn_writer (slots items mutex : list Z) (pipe_id i : Z) : U unit :=
  pipe_s ← format "%llu" [VNum pipe_id];
  delay_s ← format "%d" [VNum (2 + i mod 3)];
  spawn_mvar (text "mvar_writer") Fmvar_writer
    [(2, [65 + i mod 26]); string_item slots; string_item items; string_item mutex; (32, pipe_s); (12, delay_s)]
    (print "Error: no se pudo asignar memoria para escritor %d.\n" [VNum i])
    (print "Error: no se pudo crear el escritor %c.\n" [VNum (65 + i mod 26)]).
Definition spawn_reader (slots items mutex : list Z) (pipe_id j : Z) : U unit :=
  id_s ← format "%d" [VNum j];
  pipe_s ← format "%llu" [VNum pipe_id];
  delay_s ← format "%d" [VNum (3 + j mod 3)];
  spawn_mvar (text "mvar_reader") Fmvar_reader
    [(12, id_s); string_item items; string_item slots; string_item mutex; (32, pipe_s); (12, delay_s)]
    (print "Error: no se pudo asignar memoria para lector %d.\n" [VNum j])
    (print "Error: no se pudo crear el lector %d.\n" [VNum j]).

Definition mvarCmd (argv : list (list Z)) : U Z :=
  match argv with
  | [_; a; b] =>
      let num_writers := atoi a in
      let num_readers := atoi b in
      if (num_writers <=? 0) || (num_writers >? 26) then
        print "Error: num_escritores debe estar entre 1 y 26.\n" [] ;; mret CMD_ERROR else
      if (num_readers <=? 0) || (num_readers >? 20) then
        print "Error: num_lectores debe estar entre 1 y 20.\n" [] ;; mret CMD_ERROR else
      current_pid ← my_getpid;
      suffix ← format "%llx" [VNum current_pid];
      slots ← format "mvar_slots_%s" [VStr suffix];
      items ← format "mvar_items_%s" [VStr suffix];
      mutex ← format "mvar_mutex_%s" [VStr suffix];
      r ← my_sem_open slots 1;
      if r <? 0 then print "Error: no se pudo crear el semaforo slots.\n" [] ;; mret CMD_ERROR else
      r ← my_sem_open items 0;
      if r <? 0 then
        print "Error: no se pudo crear el semaforo items.\n" [] ;; my_sem_close slots ;; mret CMD_ERROR else
      r ← my_sem_open mutex 1;
      if r <? 0 then
        print "Error: no se pudo crear el semaforo mutex.\n" [] ;;
        my_sem_close slots ;; my_sem_close items ;; mret CMD_ERROR else
      pipe_id ← pipe_create;
      if pipe_id =? 0 then
        print "Error: no se pudo crear el pipe.\n" [] ;;
        my_sem_close slots ;; my_sem_close items ;; my_sem_close mutex ;; mret CMD_ERROR else
      print "Iniciando simulacion de MVar con %d escritores y %d lectores...\n" [VNum num_writers; VNum num_readers] ;;
      print "Pipe ID: %llu\n" [VNum pipe_id] ;;
      for_up 0 (Z.to_nat num_writers) (spawn_writer slots items mutex pipe_id) ;;
      for_up 0 (Z.to_nat num_readers) (spawn_reader slots items mutex pipe_id) ;;
      print "Todos los procesos lectores y escritores han sido creados.\n" [] ;;
      print "El proceso principal termina. Los procesos continuaran ejecutandose en background.\n" [] ;;
      mret OK
  | _ =>
      print "Uso: mvar <num_escritores> <num_lectores>\n" [] ;;
      print "  num_escritores: cantidad de procesos escritores (1-26)\n" [] ;;
      print "  num_lectores: cantidad de procesos lectores (1-20)\n" [] ;;
      mret CMD_ERROR
  end.

(** The table's pointers to functions. *)
Definition run_command (c : command) (argv : list (list Z)) : U Z :=
  match c with
  | helpCmd_ => helpCmd | exitCmd_ => exitCmd | setUserCmd_ => setUserCmd | clearCmd_ => clearCmd
  | testMMCmd_ => testMMCmd argv | testProcesesCmd_ => testProcesesCmd argv | testSyncCmd_ => testSyncCmd argv
  | testNoSynchroCmd_ => testNoSynchroCmd argv | testPriorityCmd_ => testPriorityCmd argv
  | exceptionCmd_ => exceptionCmd argv | mmTypeCmd_ => mmTypeCmd | psCmd_ => psCmd | loopCmd_ => loopCmd argv
  | killCmd_ => killCmd argv | niceCmd_ => niceCmd argv | blockCmd_ => blockCmd argv
  | memCmd_ => memCmd | catCmd_ => catCmd | wcCmd_ => wcCmd | filterCmd_ => filterCmd | mvarCmd_ => mvarCmd argv
  end.

(** ** shell/command_parser.c: running a line *)

(** The vector of a process of a pipeline: the words after the first, copied; a
    word for which there is no memory is a null. *)
Fixpoint copy_words (v i : Z) (args : list (list Z)) : U unit :=
  match args with
  | [] => mret tt
  | a :: args' =>
      let len := ustrlen a + 1 in
      p ← malloc len;
      set_arg v (i - 1) p ;;
      (if ctrue p then ustore (store_bytes p (strncpy a len)) else mret tt) ;;
      copy_words v (i + 1) args'
  end.
Definition pipeline_argv (args : list (list Z)) : U Z :=
  let argc := Z.of_nat (length args) in
  if argc >? 1 then
    v ← malloc (argc * 8);
    if v =? 0 then mret 0 else
    copy_words v 1 (tail args) ;;
    set_arg v (argc - 1) 0 ;;
    mret v
  else mret 0.

Definition ends_in_background (args : list (list Z)) : bool :=
  match last args with Some l => strcmp l (text "&") =? 0 | None => false end.

(** From the creation of the two processes on. *)
Definition run_pipeline (left_cmd right_cmd : TShellCmd) (left_function right_function : entry) (left_argv right_argv pipe_id : Z) : U Z :=
  left_pid ← execute_external_command (cmd_name left_cmd) left_function left_argv 0 0 pipe_id;
  status ← (if left_pid >? 0 then
      right_pid ← execute_external_command (cmd_name right_cmd) right_function right_argv 1 pipe_id 0;
      if right_pid >? 0 then mret OK else
      print "Error: el comando '%s' no puede usarse en un pipe.\n" [VStr (cmd_name right_cmd)] ;;
      my_kill left_pid ;; mret CMD_ERROR
    else
      print "Error: el comando '%s' no puede usarse en un pipe.\n" [VStr (cmd_name left_cmd)] ;; mret CMD_ERROR);
  (if (status =? OK) && (left_pid >? 0) then my_yield ;; my_kill left_pid ;; mret tt else mret tt) ;;
  (if ctrue left_argv then free_vector left_argv else mret tt) ;;
  (if ctrue right_argv then free_vector right_argv else mret tt) ;;
  mret status.

Definition execute_pipeline (left_input right_input : list Z) : U Z :=
  let left_args := args_of left_input in
  let right_args := args_of right_input in
  match left_args, right_args with
  | l :: _, r :: _ =>
      if ends_in_background left_args || ends_in_background right_args then
        print "Error: los pipes no soportan ejecucion en background.\n" [] ;; mret CMD_ERROR else
      match find_command_index l, find_command_index r with
      | Some left_cmd, Some right_cmd =>
          if is_builtin left_cmd || is_builtin right_cmd then
            print "Error: los pipes solo pueden usarse con comandos externos.\n" [] ;; mret CMD_ERROR else
          pipe_id ← pipe_create;
          if pipe_id =? 0 then print "Error: no se pudo crear el pipe.\n" [] ;; mret CMD_ERROR else
          match get_process_entry_function (cmd_name left_cmd), get_process_entry_function (cmd_name right_cmd) with
          | Some left_function, Some right_function =>
              left_argv ← pipeline_argv left_args;
              right_argv ← pipeline_argv right_args;
              run_pipeline left_cmd right_cmd left_function right_function left_argv right_argv pipe_id
          | _, _ => print "Error: no se pudo obtener la funcion de entrada del proceso.\n" [] ;; mret CMD_ERROR
          end
      | _, _ => mret ERROR
      end
  | _, _ => print "Error: formato de pipe invalido.\n" [] ;; mret CMD_ERROR
  end.

(** [CommandParse]: [ULib.CommandParse] says what the line is. *)
Definition run_line (commandInput : list Z) : U Z :=
  match CommandParse commandInput with
  | PError => mret ERROR
  | PTwoPipes => print "Error: solo se admite un pipe por comando.\n" [] ;; mret CMD_ERROR
  | PPipe left_input right_input => execute_pipeline left_input right_input
  | PCommand args is_background =>
      match find_command_index (default [] (head args)) with
      | None => mret ERROR
      | Some c =>
          modify (fun s => s <| g_run_in_background := is_background |>) ;;
          result ← run_command (cmd_function c) args;
          modify (fun s => s <| g_run_in_background := false |>) ;;
          mret result
      end
  end.

(** ** shell/shell.c: the loop *)

Definition shellPrompt : U unit :=
  print "%s" [VStr (text "TP2-SO-")] ;;
  user ← gets shellUser;
  print "%s" [VStr user] ;;
  print "%s" [VStr (text ":~$ ")].

(** A capital of the alphabet is made small. *)
Definition lower (c : Z) : Z := if (c >=? 65) && (c <=? 90) then c + 32 else c.
(** The line feed at the end, if there is one, and the capitals. *)
Definition normalise (buffer : list Z) : list Z :=
  lower <$> (if ch buffer (length buffer - 1) =? 10 then removelast buffer else buffer).
Definition shell_round : U (option unit) :=
  shellPrompt ;;
  buffer ← readLine MAX_LINE_LENGTH;
  let buffer := cut buffer in
  match buffer with
  | [] => mret None
  | _ =>
      result ← run_line (normalise buffer);
      if result =? ERROR then
        print "%s" [VStr (text "Comando no encontrado, escriba help para ver los comandos disponibles\n")] ;; mret None
      else mret (if result =? EXIT_CODE then Some tt else None)
  end.
Definition shellLoop : U unit :=
  print "%s" [VStr (text "Bienvenido a la shell del grupo 28!\n")] ;;
  forever patience shell_round.
End Shell.
