(* ===== verification/UTheorems.v ===== *)
(** * What the user programs do with their input and output

    The programs are proved against what they need of the system they run on:
    [Prints], [Piped] and [Typed] say what the calls do to the characters to come
    and to those shown; [UKernel] shows that the kernel keeps those promises. *)
From Stdlib Require Import Ascii String.
From S2P Require Import Prelude CLib MmInterface KState ULib ULibTheorems UProc UPrograms UShell.

Definition is_ascii (l : list Z) : Prop := Forall (fun c => 0 <= c < 128) l.

(** [P w inp out]: in [w] the characters [inp] are to come from descriptor 0, and
    [out] has been shown since some moment. *)
Class Prints {W : Type} `{System W} (P : W -> list Z -> list Z -> Prop) : Prop :=
  prints w inp out c : P w inp out -> 0 <= c < 128 ->
    runs (sys_write 1 [c]) w (fun _ w' => P w' inp (out ++ [c])).
(** Descriptor 0 is a pipe that nobody writes to any more. *)
Class Piped {W : Type} `{System W} (P : W -> list Z -> list Z -> Prop) : Prop :=
  piped w inp out n : P w inp out -> 0 < n <= 256 ->
    runs (sys_read 0 n) w (fun got w' => got = take (Z.to_nat n) inp /\ P w' (drop (Z.to_nat n) inp) out).
(** Descriptor 0 is the terminal: a key comes as it is, but for the end-of-file
    mark, with which a read returns empty-handed. *)
Class Typed {W : Type} `{System W} (P : W -> list Z -> list Z -> Prop) : Prop :=
  keyed w c inp out : P w (c :: inp) out ->
    runs (sys_read 0 1) w (fun got w' => got = (if c =? 0x04 then [] else [c]) /\ P w' inp out).

Section Output.
Context {W : Type} `{System W} (P : W -> list Z -> list Z -> Prop) `{!Prints P}.
Implicit Types s : ustate W.

(** Only the system has changed, and it shows [inp] and [out]. *)
Definition io s inp out s' : Prop := exists w, s' = s <| u_sys := w |> /\ P w inp out.

Lemma io_refl s inp out : P (u_sys s) inp out -> io s inp out s.
Proof. exists (u_sys s). split; [by destruct s|done]. Qed.
Lemma io_now s inp out s' : io s inp out s' -> P (u_sys s') inp out.
Proof. intros (w & -> & Hw). exact Hw. Qed.
Lemma io_trans s inp out s' inp' out' s'' : io s inp out s' -> io s' inp' out' s'' -> io s inp' out' s''.
Proof. intros (w & -> & _) (w' & -> & Hw'). exists w'. split; [by destruct s|done]. Qed.

Lemma runs_sys {A} (m : M W A) s (Q : A -> ustate W -> Prop) :
  runs m (u_sys s) (fun a w => Q a (s <| u_sys := w |>)) -> runs (sys m) s Q.
Proof. intros Hm. unfold sys. apply (runs_zoom u_sys (fun w s => s <| u_sys := w |>)), Hm. Qed.

Lemma putchar_spec c s inp out : P (u_sys s) inp out -> 0 <= c < 128 ->
  runs (putchar c) s (fun r s' => r = c /\ io s inp (out ++ [c]) s').
Proof.
  intros HP Hc. unfold putchar. rewrite wrap_small by lia. apply runs_bind, runs_sys.
  eapply runs_mono; [by apply prints|]. intros r w Hw. apply runs_ret. split; [done|]. by exists w.
Qed.

Lemma put_chars_spec l : forall s inp out, P (u_sys s) inp out -> is_ascii l ->
  runs (put_chars l) s (fun _ s' => io s inp (out ++ l) s').
Proof.
  induction l as [|c l IH]; intros s inp out HP Hl; simpl.
  - apply runs_ret. rewrite app_nil_r. by apply io_refl.
  - inversion_clear Hl as [|? ? Hc Hl']. apply runs_bind. eapply runs_mono; [by apply putchar_spec|].
    intros r s' [_ Hio]. eapply runs_mono; [apply IH; [by eapply io_now|done]|].
    intros r2 s2 H2. rewrite <- app_assoc in H2. by eapply io_trans.
Qed.

Lemma print_spec fmt args l s inp out : printf (text fmt) args = Some l -> is_ascii l -> P (u_sys s) inp out ->
  runs (print fmt args) s (fun _ s' => io s inp (out ++ l) s').
Proof. intros E Hl HP. unfold print. rewrite E. by apply put_chars_spec. Qed.
End Output.

Lemma printf_string l : printf (text "%s") [VStr l] = Some (l ++ []).
Proof. by rewrite app_nil_r; unfold printf; simpl; rewrite app_nil_r. Qed.
Lemma printf_char c : printf (text "%c") [VNum c] = Some [u8 c].
Proof. done. Qed.
Lemma printf_int n : printf (text "%d\n") [VNum n] = Some (print_int (i32 n) ++ [10]).
Proof. change (text "%d\n") with [37; 100; 10]. unfold printf. cbn [printf_loop length Z.eqb negb add_out]. reflexivity. Qed.
Lemma digits_ascii l : all_digits l -> is_ascii l.
Proof. intros Hl. eapply Forall_impl; [exact Hl|]. cbn. lia. Qed.
Lemma print_int_ascii n : 0 <= n < 2 ^ 31 -> is_ascii (print_int n).
Proof.
  intros Hn. unfold print_int. destruct (Z.eqb_spec n 0); [by repeat constructor|].
  rewrite (proj2 (Z.ltb_ge n 0)) by lia. apply digits_ascii. by apply (digits_rev_spec 12 n); lia.
Qed.

Section Pipes.
Context {W : Type} `{System W} (P : W -> list Z -> list Z -> Prop) `{!Prints P, !Piped P}.
Implicit Types s : ustate W.

(** A loop that reads to the end: [R rest a out] holds between the rounds, of
    what has not been read, of the variable and of what has been shown. *)
Lemma read_all_spec {A} (size : Z) (body : list Z -> A -> M (ustate W) A) (R : list Z -> A -> list Z -> Prop) :
  0 < size <= 256 ->
  (forall got rest a out s, got <> [] -> R (got ++ rest) a out -> P (u_sys s) rest out ->
     runs (body got a) s (fun a' s' => exists out', R rest a' out' /\ io P s rest out' s')) ->
  forall patience inp a out s, (length inp < patience)%nat -> R inp a out -> P (u_sys s) inp out ->
  runs (read_all patience size body a) s (fun a' s' => exists out', R [] a' out' /\ io P s [] out' s').
Proof.
  intros Hsize Hbody patience. unfold read_all.
  induction patience as [|n IH]; intros inp a out s Hn HR HP; [lia|].
  cbn [while_fuel]. apply runs_bind. unfold read_step at 1. apply runs_bind, runs_sys.
  eapply runs_mono; [by apply piped|]. intros got w [-> Hw].
  pose proof (take_drop (Z.to_nat size) inp) as Etd.
  destruct (take (Z.to_nat size) inp) as [|c got] eqn:Et.
  - assert (inp = []) as -> by (destruct inp; [done|]; by destruct (Z.to_nat size) eqn:E; [lia|]).
    rewrite drop_nil in Hw. apply runs_ret, runs_ret. exists out. split; [done|]. by exists w.
  - apply runs_bind. eapply runs_mono.
    { eapply (Hbody (c :: got) (drop (Z.to_nat size) inp) a out); [done|by rewrite Etd|exact Hw]. }
    intros a' s' (out' & HR' & Hio). apply runs_ret. eapply runs_mono.
    { apply (IH (drop (Z.to_nat size) inp) a' out'); [|done|by eapply io_now].
      assert (length (take (Z.to_nat size) inp) + length (drop (Z.to_nat size) inp) = length inp)%nat as El
        by (rewrite <- length_app; by rewrite take_drop). rewrite Et in El. simpl in El. lia. }
    intros a'' s'' (out'' & HR'' & Hio''). exists out''. split; [done|].
    destruct Hio as (w1 & -> & _). destruct Hio'' as (w2 & -> & Hw2). exists w2. split; [by destruct s|done].
Qed.

Lemma cut_id l : 0 ∉ l -> cut l = l.
Proof.
  induction l as [|c l IH]; intros H0; [done|]. apply not_elem_of_cons in H0 as [Hc Hl]. simpl.
  rewrite (proj2 (Z.eqb_neq c 0)) by done. by rewrite IH.
Qed.
(** The vowels of both cases. *)
Definition vowels : list Z := [97; 101; 105; 111; 117; 65; 69; 73; 79; 85].
Definition consonants (l : list Z) : list Z := filter (fun c => c ∉ vowels) l.
Lemma is_vowel_spec c : is_vowel c = bool_decide (c ∈ vowels).
Proof.
  apply eq_bool_prop_intro. rewrite bool_decide_spec. unfold is_vowel, vowels.
  change (text "aeiouAEIOU") with [97; 101; 105; 111; 117; 65; 69; 73; 79; 85].
  rewrite Is_true_true, existsb_exists. split.
  - intros (v & Hv%list_elem_of_In & ->%Z.eqb_eq). exact Hv.
  - intros Hc. exists c. split; [by apply list_elem_of_In|apply Z.eqb_refl].
Qed.
Lemma put_consonants_spec l : forall s inp out, P (u_sys s) inp out -> is_ascii l ->
  runs (put_consonants l) s (fun _ s' => io P s inp (out ++ consonants l) s').
Proof.
  induction l as [|c l IH]; intros s inp out HP Hl; simpl.
  - apply runs_ret. rewrite app_nil_r. by apply io_refl.
  - inversion_clear Hl as [|? ? Hc Hl']. apply runs_bind. unfold consonants. rewrite filter_cons.
    rewrite is_vowel_spec. case_bool_decide; cbn [negb].
    + apply runs_ret. rewrite decide_False by (intros K; by apply K). by apply IH.
    + rewrite decide_True by done. eapply runs_mono.
      { apply (print_spec P); [apply printf_char| |exact HP]. rewrite wrap_small by lia. by constructor. }
      intros r s' Hio. rewrite wrap_small in Hio by lia. eapply runs_mono; [apply IH; [by eapply io_now|done]|].
      intros r2 s2 H2. rewrite <- app_assoc in H2. by eapply io_trans.
Qed.

Lemma count_lines_spec l : forall n, 0 <= n -> n + Z.of_nat (length l) < 2 ^ 31 ->
  foldl count_lines n l = n + Z.of_nat (count_occ Z.eq_dec l 10).
Proof.
  induction l as [|c l IH]; intros n Hn Hl; [simpl; lia|]. cbn [foldl count_occ length] in *. unfold count_lines at 2.
  destruct (Z.eqb_spec c 10) as [->|Hc]; [destruct (Z.eq_dec 10 10); [|done]|destruct (Z.eq_dec c 10); [done|]].
  - rewrite swrap_small by lia. rewrite IH by lia. lia.
  - rewrite IH by lia. lia.
Qed.

Lemma cat_spec patience s inp out : (length inp < patience)%nat -> is_ascii inp -> 0 ∉ inp -> P (u_sys s) inp out ->
  runs (cat_process_entry patience) s (fun _ s' => io P s [] (out ++ inp) s').
Proof.
  intros Hn Ha H0 HP. eapply runs_mono.
  { apply (read_all_spec (256 - 1) _ (fun rest _ o => exists seen, inp = seen ++ rest /\ o = out ++ seen)) with (inp := inp) (out := out);
      [lia| |done|exists []; split; [done|by rewrite app_nil_r]|exact HP].
    intros got rest _ o t _ (seen & E & ->) Ht. subst inp. rewrite app_assoc in H0.
    assert (is_ascii got) as Hg by (apply Forall_app in Ha as [_ [? _]%Forall_app]; done).
    rewrite cut_id by (intros Hin; apply H0; rewrite !elem_of_app; auto).
    eapply runs_mono; [by apply (print_spec P); [apply printf_string|rewrite app_nil_r|]|].
    intros [] t' Hio. rewrite app_nil_r in Hio. exists ((out ++ seen) ++ got). split; [|done].
    exists (seen ++ got). by rewrite <- !app_assoc. }
  intros r s' (out' & (seen & -> & ->) & Hio). by rewrite app_nil_r.
Qed.

Lemma wc_spec patience s inp out : (length inp < patience)%nat -> Z.of_nat (length inp) < 2 ^ 31 -> P (u_sys s) inp out ->
  runs (wc_process_entry patience) s (fun _ s' =>
    io P s [] (out ++ print_int (Z.of_nat (count_occ Z.eq_dec inp 10)) ++ [10]) s').
Proof.
  intros Hn H31 HP. unfold wc_process_entry. apply runs_bind. eapply runs_mono.
  { apply (read_all_spec 256 _ (fun rest a o => o = out /\ exists seen, inp = seen ++ rest /\ a = foldl count_lines 0 seen))
      with (inp := inp) (out := out); [lia| |done|split; [done|]; by exists []|exact HP].
    intros got rest a o t _ (-> & seen & E & ->) Ht. apply runs_ret. exists out. split; [|by apply io_refl].
    split; [done|]. exists (seen ++ got). rewrite foldl_app, <- app_assoc. done. }
  intros a s' (out' & (-> & seen & -> & ->) & Hio). rewrite app_nil_r in *.
  rewrite count_lines_spec by lia. rewrite Z.add_0_l. set (n := Z.of_nat _).
  assert (0 <= n < 2 ^ 31) as Hrange.
  { pose proof (count_occ_bound Z.eq_dec 10 seen). unfold n. lia. }
  eapply runs_mono.
  { apply (print_spec P _ _ (print_int n ++ [10])); [| |by eapply io_now].
    - rewrite printf_int, swrap_small by lia. done.
    - apply Forall_app. split; [by apply print_int_ascii|by repeat constructor]. }
  intros r2 s2 H2. by eapply io_trans.
Qed.

Lemma filter_spec patience s inp out : (length inp < patience)%nat -> is_ascii inp -> P (u_sys s) inp out ->
  runs (filter_process_entry patience) s (fun _ s' => io P s [] (out ++ consonants inp) s').
Proof.
  intros Hn Ha HP. eapply runs_mono.
  { apply (read_all_spec 256 _ (fun rest _ o => exists seen, inp = seen ++ rest /\ o = out ++ consonants seen))
      with (inp := inp) (out := out); [lia| |done|exists []; split; [done|by rewrite app_nil_r]|exact HP].
    intros got rest _ o t _ (seen & E & ->) Ht.
    assert (is_ascii got) as Hg by (rewrite E in Ha; apply Forall_app in Ha as [_ [? _]%Forall_app]; done).
    eapply runs_mono; [by apply put_consonants_spec|].
    intros [] t' Hio. eexists. split; [|exact Hio].
    exists (seen ++ got). unfold consonants. by rewrite filter_app, <- !app_assoc. }
  intros r s' (out' & (seen & -> & ->) & Hio). by rewrite app_nil_r.
Qed.

(** C14: what the programs of a pipeline make of their input.  With a pipe without
    writers at descriptor 0, [cat] shows the characters that were in it, [wc] the
    number of line feeds among them, and [filter] those that are no vowels, in
    their order; each reads to the end, in pieces of 255 or 256 characters while
    there are as many, and changes no variable of the programs. *)
Theorem pipe_programs patience s inp out :
  (length inp < patience)%nat -> Z.of_nat (length inp) < 2 ^ 31 -> is_ascii inp -> P (u_sys s) inp out ->
  (0 ∉ inp -> runs (cat_process_entry patience) s (fun _ s' => io P s [] (out ++ inp) s')) /\
  runs (wc_process_entry patience) s (fun _ s' =>
    io P s [] (out ++ print_int (Z.of_nat (count_occ Z.eq_dec inp 10)) ++ [10]) s') /\
  runs (filter_process_entry patience) s (fun _ s' => io P s [] (out ++ consonants inp) s').
Proof. intros. split_and!; [intros; by apply cat_spec|by apply wc_spec|by apply filter_spec]. Qed.
End Pipes.

(** ** Reading a line *)

(** The effect of a key on the characters typed so far. *)
Definition press (maxLen : Z) (buf : list Z) (c : Z) : list Z :=
  if c =? 8 then removelast buf else if Z.of_nat (length buf) <? maxLen - 1 then buf ++ [c] else buf.

Section Terminal.
Context {W : Type} `{System W} (P : W -> list Z -> list Z -> Prop) `{!Prints P, !Typed P}.
Implicit Types s : ustate W.

(** The end-of-file marks before a key are passed over. *)
Lemma getchar_spec k c : forall patience s rest out, (k < patience)%nat -> c <> 0x04 -> 0 <= c < 128 ->
  P (u_sys s) (replicate k 0x04 ++ c :: rest) out ->
  runs (getchar patience) s (fun r s' => r = c /\ io P s rest out s').
Proof.
  unfold getchar. induction k as [|k IH]; intros [|n] s rest out Hn Hc Hr HP; try lia; cbn [while_fuel]; cbn [replicate app] in HP.
  all: apply runs_bind; unfold getchar_step at 1; apply runs_bind, runs_sys; eapply runs_mono; [by apply keyed|].
  all: intros got w [-> Hw]; apply runs_ret.
  - rewrite (proj2 (Z.eqb_neq c 0x04)) by done. apply runs_ret. rewrite swrap_small by lia. split; [done|]. by exists w.
  - eapply runs_mono; [by apply (IH n (s <| u_sys := w |>) rest out); [lia| | |]|].
    intros r t (-> & w' & -> & Hw'). split; [done|]. exists w'. split; [by destruct s|done].
Qed.

(** The marks before the first key. *)
Lemma marks_before keys : exists k keys', keys = replicate k 0x04 ++ keys' /\ head keys' <> Some 0x04.
Proof.
  induction keys as [|c keys (k & keys' & E & Hh)]; [exists 0%nat, []; split; [done|discriminate]|]. destruct (decide (c = 0x04)) as [->|Hc].
  - exists (S k), keys'. by rewrite E.
  - exists 0%nat, (c :: keys). split; [done|]. simpl. congruence.
Qed.

Definition strokes (keys : list Z) : list Z := filter (fun c => c <> 0x04) keys.
Lemma strokes_marks k keys : strokes (replicate k 0x04 ++ keys) = strokes keys.
Proof. induction k as [|k IH]; [done|]. simpl. unfold strokes in *. rewrite filter_cons_False; [done|]. by intros ?. Qed.

(** What a key adds to the echo. *)
Definition echo_of (maxLen : Z) (buf : list Z) (c : Z) : list Z :=
  if c =? 8 then match buf with [] => [] | _ => [8; 32; 8] end
  else if Z.of_nat (length buf) <? maxLen - 1 then [c] else [].
Fixpoint echoes (maxLen : Z) (buf keys : list Z) : list Z :=
  match keys with [] => [] | c :: keys' => echo_of maxLen buf c ++ echoes maxLen (press maxLen buf c) keys' end.

Lemma key_step patience maxLen c k s rest out buf (Q : list Z + list Z -> ustate W -> Prop) :
  (k < patience)%nat -> c <> 0x04 -> 0 <= c < 128 -> P (u_sys s) (replicate k 0x04 ++ c :: rest) out ->
  (forall s', io P s rest (out ++ if c =? 10 then [10] else echo_of maxLen buf c) s' ->
     Q (if c =? 10 then inr buf else inl (press maxLen buf c)) s') ->
  runs (readLine_step patience maxLen buf) s Q.
Proof.
  intros Hk Hc Hr HP HQ. unfold readLine_step. apply runs_bind. eapply runs_mono; [by apply (getchar_spec k c)|].
  intros r s1 (-> & H1). rewrite (proj2 (Z.eqb_neq c 0x04)) by done.
  assert (forall d t o, io P s rest o t -> 0 <= d < 128 -> forall Q' : Z -> ustate W -> Prop,
    (forall t', io P s rest (o ++ [d]) t' -> Q' d t') -> runs (putchar d) t Q') as Hput.
  { intros d t o Ht Hd Q' HQ'. eapply runs_mono; [eapply (putchar_spec P); [by eapply io_now|done]|].
    intros r t' [-> Ht']. apply HQ'. by eapply io_trans. }
  destruct (Z.eqb_spec c 10) as [->|H10].
  { apply runs_bind. eapply Hput; [exact H1|lia|]. intros s2 H2. by apply runs_ret, HQ. }
  revert HQ. unfold press, echo_of. destruct (Z.eqb_spec c 8) as [->|H8]; intros HQ.
  - destruct buf as [|b buf]; [apply runs_ret, HQ; by rewrite app_nil_r|].
    apply runs_bind. eapply Hput; [exact H1|lia|]. intros s2 H2.
    apply runs_bind. eapply Hput; [exact H2|lia|]. intros s3 H3.
    apply runs_bind. eapply Hput; [exact H3|lia|]. intros s4 H4.
    apply runs_ret, HQ. by rewrite <- !app_assoc in H4.
  - destruct (Z.of_nat (length buf) <? maxLen - 1).
    + apply runs_bind. eapply Hput; [exact H1|done|]. intros s2 H2. rewrite wrap_small by lia. by apply runs_ret, HQ.
    + apply runs_ret, HQ. by rewrite app_nil_r.
Qed.

Lemma readLine_loop patience maxLen : forall fuel keys buf s rest out,
  (length keys < fuel)%nat -> (length keys < patience)%nat -> is_ascii keys -> 10 ∉ keys ->
  P (u_sys s) (keys ++ 10 :: rest) out ->
  runs (while_fuel fuel (readLine_step patience maxLen) buf) s (fun buf' s' =>
    buf' = foldl (press maxLen) buf (strokes keys) /\
    io P s rest (out ++ echoes maxLen buf (strokes keys) ++ [10]) s').
Proof.
  induction fuel as [|n IH]; intros keys buf s rest out Hf Hp Ha H10 HP; [lia|]. cbn [while_fuel]. apply runs_bind.
  destruct (marks_before keys) as (k & keys' & -> & Hh). rewrite <- app_assoc in HP. rewrite strokes_marks.
  rewrite length_app, length_replicate in Hf, Hp. apply Forall_app in Ha as [_ Ha].
  apply not_elem_of_app in H10 as [_ H10]. destruct keys' as [|c keys'].
  - eapply (key_step _ _ 10); [| | |exact HP|]; [lia..|]. intros s' H'. apply runs_ret. done.
  - inversion_clear Ha as [|? ? Hc Ha']. apply not_elem_of_cons in H10 as [Hne H10].
    assert (c <> 0x04) as H4 by (intros ->; by apply Hh). cbn [app length] in *.
    eapply (key_step _ _ c); [| | |exact HP|]; [lia|done|done|]. intros s' H'. rewrite (proj2 (Z.eqb_neq c 10)) in * by congruence.
    unfold strokes. rewrite filter_cons_True by done. cbn [foldl echoes].
    eapply runs_mono; [apply (IH keys' (press maxLen buf c) s' rest); [lia|lia|done|done|by eapply io_now]|].
    intros buf' s'' [-> H'']. split; [done|]. rewrite <- !app_assoc in H''. rewrite <- !app_assoc. by eapply io_trans.
Qed.
End Terminal.

Lemma press_bound maxLen keys : forall buf, Z.of_nat (length buf) < maxLen ->
  Z.of_nat (length (foldl (press maxLen) buf keys)) < maxLen.
Proof.
  induction keys as [|c keys IH]; intros buf Hb; [done|]. apply IH. unfold press. case_match.
  - destruct buf as [|b buf _] using rev_ind; [done|]. rewrite removelast_last. rewrite length_app in Hb. simpl in Hb. lia.
  - case_match; [|done]. rewrite length_app. simpl. lia.
Qed.
Lemma readLine_spec {W : Type} `{System W} (P : W -> list Z -> list Z -> Prop) `{!Prints P, !Typed P}
    patience maxLen keys rest s out :
  (length keys < patience)%nat -> 0 < maxLen -> is_ascii keys -> 10 ∉ keys -> P (u_sys s) (keys ++ 10 :: rest) out ->
  runs (readLine patience maxLen) s (fun buf s' =>
    buf = foldl (press maxLen) [] (strokes keys) /\ Z.of_nat (length buf) < maxLen /\
    io P s rest (out ++ echoes maxLen [] (strokes keys) ++ [10]) s').
Proof.
  intros Hn Hm Ha H10 HP. eapply runs_mono; [by apply (readLine_loop P patience maxLen patience keys [])|].
  intros buf s' [-> Hio]. split; [done|]. split; [by apply press_bound|done].
Qed.
