(* ===== verification/UKernel.v ===== *)
(** * User programs on the kernel (src/Userland/SampleCodeModule/asm)

    The system calls of the programs are those of the kernel: a stub puts its
    number in [rax] and executes [int 80h].  The kernel keeps the promises the
    programs were proved against, so that a program's theorem holds on the
    kernel, through its dispatcher, descriptors, pipes, semaphores and screen. *)
From Stdlib Require Import Ascii String.
From S2P Require Import Prelude LinkedList Ring CLib MmInterface MmSimple Video VideoFacts KState ProcQueue SchedCore QueueFacts SchedView QueueTheorems Semaphore Pipe Process Keyboard Scheduler SchedFacts SemFacts SemTheorems PipeFacts PipeTheorems Syscalls KeyboardTheorems ULib UProc UPrograms UShell UTheorems.

Section System.
Context {MM : Type} `{MemManager MM} `{Text}.
(** A buffer on the caller's stack, the addresses of the functions, and the value
    the second register happens to hold in [sys_pipe_open], which sets none. *)
Context (wakeups : nat) (scratch : Z) (address_of : entry -> Z) (stray : Z).
Abbreviation K := (M (kstate MM)).

Definition int80 (rax rdi rsi rdx rcx r8 : Z) : K Z := syscallDispatcher wakeups rdi rsi rdx rcx r8 rax.
(** The buffer as the program fills it, and what it finds there. *)
Definition put_buffer (l : list Z) : K unit := mstore (store_bytes scratch l).
Definition get_buffer (n : Z) : K (list Z) := mload (fun m => bytes_at m scratch (Z.to_nat n)).

Definition word_at (m : memory) (a : Z) (i : Z) : Z := load64 m (a + 8 * i).
Definition read_stats (m : memory) : mm_stats_t :=
  let w := word_at m scratch in mk_mm_stats (w 0) (w 1) (w 2) (w 3) (w 4) (w 5) (w 6).
Definition read_info (m : memory) (a : Z) : process_info :=
  mk_info (load64 m a) (cut (bytes_at m (a + 8) 33)) (i32 (load32 m (a + 44))) (i32 (load32 m (a + 48)))
    (load64 m (a + 56)) (load64 m (a + 64)) (i32 (load32 m (a + 72))).
Definition read_infos (n : Z) (m : memory) : list process_info :=
  (fun i => read_info m (scratch + sizeof_process_info * Z.of_nat i)) <$> seq 0 (Z.to_nat n).

(** asm/syscall.asm: the stubs, in the order of their numbers. *)
#[local] Instance kernel_system : System (kstate MM) := {
  sys_read fd count := r ← int80 0 fd scratch count 0 0; get_buffer (i32 r);
  sys_write fd buffer := put_buffer buffer ;; int80 1 fd scratch (Z.of_nat (List.length buffer)) 0 0;
  sys_clearScreen := int80 2 0 0 0 0 0;
  sys_sleep duration := int80 3 duration 0 0 0 0;
  sys_video_putChar c fg bg := int80 4 c fg bg 0 0;
  sys_shutdown := int80 5 0 0 0 0 0;
  sys_screenDims :=
    r ← int80 6 scratch (scratch + 8) 0 0 0;
    if r =? 0 then mret None else
    w ← mload (fun m => word_at m scratch 0); h ← mload (fun m => word_at m scratch 1); mret (Some (w, h));
  sys_malloc size := int80 7 size 0 0 0 0;
  sys_free ptr := int80 8 ptr 0 0 0 0;
  sys_meminfo := r ← int80 9 scratch 0 0 0 0; if r =? 0 then mret None else st ← mload read_stats; mret (Some st);
  sys_create_process name function argv priority last :=
    put_buffer (name ++ [0]) ;; int80 10 scratch (address_of function) argv priority last;
  sys_kill pid := int80 11 pid 0 0 0 0;
  sys_block pid := int80 12 pid 0 0 0 0;
  sys_unblock pid := int80 13 pid 0 0 0 0;
  sys_get_type_of_mm :=
    r ← int80 14 scratch 0 0 0 0;
    if r =? 0 then mret None else s ← mload (fun m => cut (bytes_at m scratch 32)); mret (Some s);
  sys_getpid := int80 15 0 0 0 0 0;
  sys_set_priority pid new_priority := int80 16 pid new_priority 0 0 0;
  sys_wait pid := int80 17 pid 0 0 0 0;
  sys_sem_create initial := int80 18 initial 0 0 0 0;
  sys_sem_open sem_id := int80 19 sem_id 0 0 0 0;
  sys_sem_close sem_id := int80 20 sem_id 0 0 0 0;
  sys_sem_wait sem_id := int80 21 sem_id 0 0 0 0;
  sys_sem_signal sem_id := int80 22 sem_id 0 0 0 0;
  sys_sem_set sem_id newval := int80 23 sem_id newval 0 0 0;
  sys_sem_get sem_id := int80 24 sem_id 0 0 0 0;
  sys_list_processes max_count := n ← int80 25 scratch max_count 0 0 0; mload (read_infos n);
  sys_yield := int80 26 0 0 0 0 0;
  sys_pipe_create := int80 27 0 0 0 0 0;
  sys_pipe_open pipe_id := int80 28 pipe_id stray 0 0 0;
  sys_pipe_close pipe_id := int80 29 pipe_id 0 0 0 0;
  sys_pipe_dup pipe_id fd mode := int80 30 pipe_id fd mode 0 0;
  sys_pipe_release_fd fd := int80 31 fd 0 0 0 0;
  sys_get_foreground_pid := int80 32 0 0 0 0 0;
  sys_mem := k_mem;
  sys_set_mem f s := s <| k_mem ::= f |>;
}.

(** ** The screen *)

Implicit Types (s t : kstate MM).

(** The screen shows [out], put on it since it was [v0]. *)
Definition screen (v0 : video) (out : list Z) (v : video) : Prop :=
  video_ok v /\ video_putString out FOREGROUND_COLOR BACKGROUND_COLOR v0 = Done tt v.

Lemma putString_snoc out c fg bg v0 v v' :
  video_putString out fg bg v0 = Done tt v -> video_putChar c fg bg v = Done tt v' ->
  video_putString (out ++ [c]) fg bg v0 = Done tt v'.
Proof.
  revert v0. induction out as [|d out IH]; intros v0 E E'; cbn [app video_putString] in *.
  - injection E as ->. unfold mbind, M_bind. by rewrite E'.
  - unfold mbind, M_bind in *. destruct (video_putChar d fg bg v0) as [[] v1|? ? k| |]; simpl in *; try discriminate. by apply IH.
Qed.

Lemma screen_putChar v0 out c v : screen v0 out v -> 0 <= c < 128 ->
  runs (video_putChar c FOREGROUND_COLOR BACKGROUND_COLOR) v (fun _ v' => screen v0 (out ++ [c]) v').
Proof.
  intros [Hok E] Hc. destruct (putChar_returns c FOREGROUND_COLOR BACKGROUND_COLOR Hc v Hok) as ([] & v' & E' & Hok').
  exists tt, v'. split; [done|]. split; [done|]. by eapply putString_snoc.
Qed.

Lemma int80_read fd b n : int80 0 fd b n 0 0 = syscall_read wakeups fd b n.
Proof. reflexivity. Qed.
Lemma int80_write fd b n : int80 1 fd b n 0 0 = syscall_write wakeups fd b n.
Proof. reflexivity. Qed.

(** Descriptor 1 of the running process is the terminal: a character put there
    goes to the screen. *)
Lemma write_char c s (Q : Z -> kstate MM -> Prop) b e :
  scratch <> 0 -> 0 <= c < 256 ->
  k_procs s !! current (k_sched s) = Some b -> current (k_sched s) <> 0 ->
  p_fds b !! 1%nat = Some e -> fd_type e = FD_TYPE_TERMINAL ->
  runs (video_putChar c FOREGROUND_COLOR BACKGROUND_COLOR) (k_video s) (fun _ v =>
    Q 1 (s <| k_mem ::= store_bytes scratch [c] |> <| k_video := v |>)) ->
  runs (sys_write 1 [c]) s Q.
Proof.
  intros Hs Hc Hb Hcur He Hty HQ. change (sys_write 1 [c]) with (put_buffer [c] ;; int80 1 1 scratch 1 0 0).
  rewrite int80_write. apply runs_bind, runs_modify.
  unfold syscall_write. rewrite (proj2 (Z.eqb_neq scratch 0) Hs).
  change (i32 1) with 1. cbn [orb Z.leb Z.ltb Z.geb Z.compare MAX_FDS].
  apply runs_bind, runs_gets. cbn [k_sched set_field set_k_mem]. rewrite (proj2 (Z.eqb_neq _ 0) Hcur).
  apply runs_bind, runs_bind. eapply runs_gets_opt; [exact Hb|]. eapply runs_gets_opt; [exact He|]. rewrite Hty.
  cbn [negb Z.eqb Pos.eqb STDOUT]. apply runs_bind. change (Z.to_nat 1) with 1%nat. cbn [for_up]. apply runs_bind, runs_bind.
  apply runs_gets. rewrite Z.add_0_r.
  match goal with |- context [load8 ?m ?a] => assert (load8 m a = c) as -> end.
  { cbn. rewrite load8_store8, decide_True by done. by apply wrap_small. }
  apply runs_zoom. eapply runs_mono; [exact HQ|]. intros [] v HQ'. by apply runs_ret, runs_ret.
Qed.

(** ** The terminal *)

(** The running process is in the foreground with the terminal at its first two
    descriptors; [inp] has been typed. *)
Definition terminal_io (v0 : video) s (inp out : list Z) : Prop := exists b e0 e1,
  k_procs s !! current (k_sched s) = Some b /\ current (k_sched s) <> 0 /\
  p_fds b !! 0%nat = Some e0 /\ fd_type e0 = FD_TYPE_TERMINAL /\
  p_fds b !! 1%nat = Some e1 /\ fd_type e1 = FD_TYPE_TERMINAL /\ p_is_foreground b <> 0 /\
  kb_wf (k_kbd s) /\ typed (k_kbd s) = inp /\ (0 ∉ inp) /\ is_ascii inp /\ screen v0 out (k_video s).

#[local] Instance terminal_prints v0 : scratch <> 0 -> Prints (terminal_io v0).
Proof.
  intros Hs s inp out c (b & e0 & e1 & Hb & Hc & F0 & T0 & F1 & T1 & Hfg & Hk & Et & Hz & Ha & Hscr) Hr.
  eapply write_char; [exact Hs|lia|exact Hb|exact Hc|exact F1|exact T1|].
  eapply runs_mono; [by apply screen_putChar|]. intros [] v Hv. exists b, e0, e1. by split_and!.
Qed.

#[local] Instance terminal_typed v0 : scratch <> 0 -> Typed (terminal_io v0).
Proof.
  intros Hs s c inp out (b & e0 & e1 & Hb & Hc & F0 & T0 & F1 & T1 & Hfg & Hk & Et & Hz & Ha & Hscr).
  change (sys_read 0 1) with (r ← int80 0 0 scratch 1 0 0; get_buffer (i32 r)). rewrite int80_read.
  inversion_clear Ha as [|? ? Hr Ha']. pose proof Hz as Hz'. apply not_elem_of_cons in Hz' as [_ Hz'].
  apply runs_bind. eapply runs_mono.
  { eapply (terminal_read_spec wakeups s b e0 (c :: inp) scratch 1 (if c =? 0x04 then [] else [c]) inp); try done.
    change (Z.to_nat 1) with 1%nat. cbn [take_line]. destruct (Z.eqb_spec c 0x04); [done|]. by destruct (Z.eqb_spec c 10) as [->|]. }
  intros r s' (-> & k & Hk' & Ek & ->). apply runs_gets. split.
  - destruct (c =? 0x04); [done|]. apply (bytes_at_store_bytes (k_mem s) scratch [c]). intros d ->%list_elem_of_singleton. lia.
  - exists b, e0, e1. by split_and!.
Qed.

(** ** A pipe *)

(** The running process reads at descriptor 0 from a pipe that holds [inp] and
    has no writers, and writes at descriptor 1 to the terminal. *)
Section Piping.
Context (j im ii isp : nat) (fds : list fd_entry_t).
Context (fd0 : fds !! 0%nat = Some (mk_fd FD_TYPE_PIPE_READ (Some j))).
Context (e1 : fd_entry_t) (fd1 : fds !! 1%nat = Some e1) (fd1_terminal : fd_type e1 = FD_TYPE_TERMINAL).
Context (scratch_not_null : scratch <> 0).

Definition pipe_io (v0 : video) s (inp out : list Z) : Prop := exists v m x n,
  world j im ii isp v fds m x n s /\ pipe_wf x /\ pipe_data x = inp /\ pipe_writers x = 0 /\
  Z.of_nat (List.length inp) + 256 <= n /\ is_ascii inp /\ screen v0 out v.

Lemma world_process v m x n s : world j im ii isp v fds m x n s ->
  exists b, k_procs s !! current (k_sched s) = Some b /\ p_fds b = fds /\ current (k_sched s) <> 0 /\ k_video s = v.
Proof.
  intros (L & t & W & HS & _ & _ & [_ _ _ _ _ _ _ _ _ Hc Hv Hf] & _). destruct HS as [_ <-]. cbn in *.
  rewrite lookup_fmap in Hf. destruct (k_procs s !! _) as [b|] eqn:Eb; [|done]. injection Hf as E. by exists b.
Qed.

(** The memory and the screen are not the pipe's. *)
Lemma world_devices v v' m f x n s : world j im ii isp v fds m x n s ->
  world j im ii isp v' fds (f m) x n (s <| k_mem ::= f |> <| k_video := v' |>).
Proof.
  intros (L & t & W & HS & Hso & Hse & [] & Em). set (g := fun y : kstate MM => y <| k_mem ::= f |> <| k_video := v' |>).
  assert (shows (g s) L (g t)) as H'.
  { destruct (shows_modify s L t g (fun _ s' => s' = g s -> shows s' L (g t)) HS) as ([] & s' & E & K); try done.
    injection E as <-. by apply K. }
  exists L, (g t), W. split; [exact H'|]. split; [by destruct Hso|]. split; [by eapply sems_ok_frame; [..|exact Hse]|].
  split; [by split|]. cbn. by rewrite Em.
Qed.

#[local] Instance pipe_prints v0 : Prints (pipe_io v0).
Proof.
  intros s inp out c (v & m & x & n & Hw & Hx & Hd & Hwr & Hn & Ha & Hscr) Hr.
  destruct (world_process _ _ _ _ _ Hw) as (b & Hb & Ef & Hc & Ev).
  eapply write_char; [done|lia|exact Hb|exact Hc|by rewrite Ef|done|]. rewrite Ev.
  eapply runs_mono; [by apply screen_putChar|]. intros [] v' Hv. exists v', (store_bytes scratch [c] m), x, n.
  split; [by eapply world_devices|done].
Qed.

#[local] Instance pipe_piped v0 : Piped (pipe_io v0).
Proof.
  intros s inp out k (v & m & x & n & Hw & Hx & Hd & Hwr & Hn & Ha & Hscr) Hr.
  change (sys_read 0 k) with (r ← int80 0 0 scratch k 0 0; get_buffer (i32 r)). rewrite int80_read.
  destruct (world_process _ _ _ _ _ Hw) as (b & Hb & Ef & Hc & Ev).
  pose proof (pipe_data_length x Hx) as El. rewrite Hd in El.
  apply runs_bind. unfold syscall_read. rewrite (proj2 (Z.eqb_neq scratch 0)), (swrap_small 32 k) by (done || lia).
  rewrite (proj2 (Z.leb_gt k 0)) by lia. change (i32 0) with 0. cbn [orb Z.leb Z.ltb Z.geb Z.compare MAX_FDS].
  apply runs_bind, runs_gets. rewrite (proj2 (Z.eqb_neq _ 0) Hc).
  apply runs_bind, runs_bind. eapply runs_gets_opt; [exact Hb|]. eapply runs_gets_opt; [rewrite Ef; exact fd0|]. cbn [fd_type fd_pipe].
  apply runs_bind. eapply read_spec; [exact Hw|exact Hx|done|lia|lia|by right|].
  intros s' x' H' Hx' Hd' Ewr. apply runs_ret.
  set (r := Z.min k (pipe_count x)) in *. assert (Z.to_nat r = List.length (take (Z.to_nat k) inp)) as Elen.
  { rewrite length_take. lia. }
  assert (take (Z.to_nat r) inp = take (Z.to_nat k) inp) as Etake.
  { rewrite Elen, length_take. destruct (decide (Z.to_nat k <= List.length inp)%nat).
    - by rewrite Nat.min_l by done.
    - rewrite Nat.min_r by lia. by rewrite !take_ge by lia. }
  assert (drop (Z.to_nat r) inp = drop (Z.to_nat k) inp) as Edrop.
  { rewrite Elen, length_take. destruct (decide (Z.to_nat k <= List.length inp)%nat).
    - by rewrite Nat.min_l by done.
    - rewrite Nat.min_r by lia. by rewrite !drop_ge by lia. }
  apply runs_gets. rewrite wrap_small, swrap_small by (unfold r; lia). rewrite Hd, Etake in H'. rewrite Hd, Edrop in Hd'. split.
  - destruct H' as (L & t & W & HS & _ & _ & _ & Em). destruct HS as [_ <-]. cbn in Em. cbn. rewrite Em, Elen.
    apply bytes_at_store_bytes. intros c Hin. unfold is_ascii in Ha. rewrite Forall_forall in Ha.
    assert (c ∈ inp) as Hi by (rewrite <- (take_drop (Z.to_nat k) inp), elem_of_app; by left). apply Ha in Hi. lia.
  - exists v. eexists. exists x', (n - r). split; [exact H'|]. split; [done|]. split; [done|]. split; [by rewrite Ewr|].
    split; [rewrite length_drop; unfold r; lia|]. split; [|done]. by apply Forall_drop.
Qed.

(** C10: the programs of a pipeline, run on the kernel.  A process that reads at
    descriptor 0 from a pipe of the kernel without writers, and whose descriptor
    1 is the terminal, runs [cat], [wc] or [filter] to its end: through the
    dispatcher, the pipe and its semaphores it empties the pipe, and what
    [video_putChar] has drawn is the text that was in the pipe, the number of its
    lines, or its text without vowels. *)
Theorem kernel_pipeline v0 (us : ustate (kstate MM)) inp patience :
  pipe_io v0 (u_sys us) inp [] -> (List.length inp < patience)%nat ->
  ((0 ∉ inp) -> runs (cat_process_entry patience) us (fun _ us' => pipe_io v0 (u_sys us') [] inp)) /\
  runs (wc_process_entry patience) us (fun _ us' =>
    pipe_io v0 (u_sys us') [] (print_int (Z.of_nat (count_occ Z.eq_dec inp 10)) ++ [10])) /\
  runs (filter_process_entry patience) us (fun _ us' => pipe_io v0 (u_sys us') [] (consonants inp)).
Proof.
  intros HP Hn. pose proof HP as (v & m & x & n & _ & Hx & Hd & _ & _ & Ha & _).
  pose proof (pipe_data_length x Hx) as El. rewrite Hd in El. pose proof Hx as (_ & Hc & _). unfold PIPE_BUFFER_SIZE in Hc.
  split_and!; [intros H0'|..].
  - eapply runs_mono; [by apply (cat_spec (pipe_io v0))|]. intros r us' Hio. exact (io_now (pipe_io v0) _ _ _ _ Hio).
  - eapply runs_mono; [apply (wc_spec (pipe_io v0)); [done|lia|exact HP]|]. intros r us' Hio. exact (io_now (pipe_io v0) _ _ _ _ Hio).
  - eapply runs_mono; [by apply (filter_spec (pipe_io v0))|]. intros r us' Hio. exact (io_now (pipe_io v0) _ _ _ _ Hio).
Qed.
End Piping.
End System.

(** ** On the system of [PipeTheorems] *)

#[local] Instance demo_text : Text := { process_start := 0x100; idle_entry := 0x200 }.
#[local] Instance demo_manager : MemManager mm := simple_manager 0.
#[local] Instance demo_calls : System (kstate mm) := kernel_system 0 0x7000 (fun _ => 0x400000) 0.
(** "hola\n" is in the pipe of the running process. *)
Definition demo_hola : pipe_t := mk_pipe 1 (list_to_map [(0, 104); (1, 111); (2, 108); (3, 97); (4, 10)]) 0 5 5 1 0 1 2 3 true.
Definition demo_ends : list fd_entry_t := mk_fd FD_TYPE_PIPE_READ (Some 0%nat) :: drop 1 demo_fds.
Definition demo_reader : ustate (kstate mm) :=
  user_boot (demo_piped_at demo_ends <| k_pipes ::= fun l => demo_hola :: drop 1 l |>).

Lemma demo_reader_io : pipe_io 0 2 0 1 demo_ends (video_boot demo_mode) (u_sys demo_reader) [104; 111; 108; 97; 10] [].
Proof.
  eexists _, _, demo_hola, 1000. split; [by apply demo_piped_world_at|].
  split; [vm_compute; split_and!; (done || discriminate)|]. split; [reflexivity|]. split; [reflexivity|].
  split; [cbn; lia|]. split; [by repeat constructor|]. split; [|reflexivity]. vm_compute. discriminate.
Qed.

Lemma kernel_pipeline_witness :
  runs (filter_process_entry 6) demo_reader (fun _ us' =>
    pipe_io 0 2 0 1 demo_ends (video_boot demo_mode) (u_sys us') [] [104; 108; 10]).
Proof.
  apply (kernel_pipeline 0 0x7000 (fun _ => 0x400000) 0 0 2 0 1 demo_ends eq_refl fd_terminal eq_refl eq_refl ltac:(lia)
    (video_boot demo_mode) demo_reader [104; 111; 108; 97; 10] 6 demo_reader_io). simpl. lia.
Defined.

Lemma pipe_programs_witness :
  runs (wc_process_entry 6) demo_reader (fun _ us' =>
    io (pipe_io 0 2 0 1 demo_ends (video_boot demo_mode)) demo_reader [] [49; 10] us').
Proof.
  assert (is_ascii [104; 111; 108; 97; 10]) as Ha by by repeat constructor.
  destruct (pipe_programs (pipe_io 0 2 0 1 demo_ends (video_boot demo_mode))
    (Prints0 := pipe_prints 0 0x7000 (fun _ => 0x400000) 0 0 2 0 1 demo_ends fd_terminal eq_refl eq_refl ltac:(lia) _)
    (Piped0 := pipe_piped 0 0x7000 (fun _ => 0x400000) 0 0 2 0 1 demo_ends eq_refl ltac:(lia) _)
    6 demo_reader [104; 111; 108; 97; 10] [] ltac:(simpl; lia) ltac:(simpl; lia) Ha demo_reader_io) as (_ & Hwc & _).
  exact Hwc.
Defined.
