(* ===== verification/ULine.v ===== *)
(** * The line that the shell reads, and what its user sees

    [readLine] on the kernel: the keys go through the keyboard's buffer, the echo
    through the dispatcher to the video driver. *)
From S2P Require Import Prelude Ring CLib MmInterface MmSimple Video VideoFacts VideoTheorems ScreenText KState ProcQueue SchedCore SchedView QueueTheorems Semaphore SemTheorems Pipe Process Keyboard Scheduler Syscalls KeyboardTheorems ULib UProc UPrograms UShell UTheorems UKernel.

(** ** The echo *)

(** A key that takes one cell of the screen, or erases one. *)
Definition is_stroke (c : Z) : Prop := c = 8 \/ is_glyph c.

Section Echo.
Context (mode : vbe_mode_info) (scale cols rows : Z) (Hgrid : grid_mode mode scale cols rows).
Context (maxLen n fg bg : Z) (v0 : video).
Context (Hcursor : cursor_at mode scale cols rows n v0) (Hroom : n + maxLen <= cols * rows)
        (Hblank : blank_from mode scale cols n (n + maxLen) v0).

(** The screen [v] is that of the characters [buf] alone. *)
Definition pictures (buf : list Z) (v : video) : Prop :=
  exists vb, video_putString buf fg bg v0 = Done tt vb /\ same_picture v vb.

Lemma drawn buf : Forall is_glyph buf -> Z.of_nat (length buf) < maxLen -> exists vb,
  video_putString buf fg bg v0 = Done tt vb /\ cursor_at mode scale cols rows (n + Z.of_nat (length buf)) vb /\
  blank_from mode scale cols (n + Z.of_nat (length buf)) (n + maxLen) vb.
Proof. intros Hb Hl. eapply putString_draws; [exact Hgrid|done|done|lia|done|done]. Qed.

Lemma echo_draws_one buf c v : Forall is_glyph buf -> Z.of_nat (length buf) < maxLen -> is_stroke c -> pictures buf v ->
  Forall is_glyph (press maxLen buf c) /\ Z.of_nat (length (press maxLen buf c)) < maxLen /\
  exists v', video_putString (echo_of maxLen buf c) fg bg v = Done tt v' /\ pictures (press maxLen buf c) v'.
Proof.
  intros Hb Hl Hc (vb & Evb & Hsame). pose proof (cu_cell _ _ _ _ _ _ Hcursor) as Hcell. unfold press, echo_of. destruct (Z.eqb_spec c 8) as [->|H8].
  - destruct buf as [|b buf _] using rev_ind; [split; [done|]; split; [done|]; exists v; split; [done|by exists vb]|].
    rewrite removelast_last. apply Forall_app in Hb as [Hb Hg]. rewrite length_app in Hl. cbn [length] in Hl.
    inversion_clear Hg as [|? ? Hgb _]. split; [done|]. split; [lia|].
    assert (match buf ++ [b] with [] => [] | _ :: _ => [8; 32; 8] end = [8; 32; 8]) as -> by by destruct buf.
    destruct (drawn buf Hb ltac:(lia)) as (v1 & E1 & Hv1 & Hb1).
    destruct (erase_undoes mode scale cols rows Hgrid (n + Z.of_nat (length buf)) b fg bg v1 v) as (v' & E' & Hs'); [done|done|lia| | |].
    + intros a Ha. eapply Hb1; [|exact Ha]. lia.
    + rewrite (putString_app fg bg buf [b] v0 v1 E1) in Evb. exists vb. split; [|done]. cbn [video_putString] in Evb.
      unfold mbind, M_bind in Evb. by destruct (video_putChar b fg bg v1) as [[] ?| | |].
    + exists v'. split; [done|]. by exists v1.
  - destruct Hc as [|Hc]; [done|]. destruct (Z.ltb_spec (Z.of_nat (length buf)) (maxLen - 1)).
    + split; [apply Forall_app; by split; [|constructor]|]. split; [rewrite length_app; cbn; lia|].
      destruct (drawn buf Hb ltac:(lia)) as (v1 & E1 & Hv1 & _). rewrite E1 in Evb. injection Evb as ->.
      destruct (same_putChar mode scale cols rows Hgrid (n + Z.of_nat (length buf)) c fg bg v vb) as (w & w' & Ew & Ew' & Hs); [done| |lia|done|done|].
      { by eapply same_cursor. }
      exists w. split; [cbn [video_putString]; unfold mbind, M_bind; by rewrite Ew|]. exists w'. split; [|done].
      rewrite (putString_app fg bg buf [c] v0 vb E1). cbn [video_putString]. unfold mbind, M_bind. by rewrite Ew'.
    + split; [done|]. split; [done|]. exists v. split; [done|by exists vb].
Qed.

Lemma echo_draws keys : forall buf v, Forall is_glyph buf -> Z.of_nat (length buf) < maxLen -> Forall is_stroke keys -> pictures buf v ->
  exists v', video_putString (echoes maxLen buf keys) fg bg v = Done tt v' /\ pictures (foldl (press maxLen) buf keys) v'.
Proof.
  induction keys as [|c keys IH]; intros buf v Hb Hl Hk Hv; [by exists v|]. inversion_clear Hk as [|? ? Hc Hk'].
  destruct (echo_draws_one buf c v Hb Hl Hc Hv) as (Hb' & Hl' & v1 & E1 & Hv1). cbn [echoes foldl].
  destruct (IH _ v1 Hb' Hl' Hk' Hv1) as (v' & E' & Hv'). exists v'. split; [|done]. by rewrite (putString_app fg bg _ _ v v1 E1).
Qed.
End Echo.

(** ** The theorem *)

Section Line.
Context {MM : Type} `{MemManager MM} `{Text}.
Context (wakeups : nat) (scratch : Z) (address_of : entry -> Z) (stray : Z) (scratch_not_null : scratch <> 0).
#[local] Instance line_system : System (kstate MM) := kernel_system wakeups scratch address_of stray.

(** C13: the shell reads the line that its user sees.  On the kernel, with the keys in
    the keyboard's buffer, [readLine] returns the keys up to Enter after their
    backspaces, cut to fewer than [maxLen] characters; end-of-file marks are
    ignored, and what comes after Enter is left for later.  When the keys are
    characters of one cell and backspaces (no Tab), and from the cursor on there are
    [maxLen] black cells before the end of the screen, what the echo has drawn at
    Enter is, pixel by pixel and with the same cursor, what [video_putString] of the
    line draws; then the cursor goes to the next line. *)
Theorem readLine_edits (us : ustate (kstate MM)) patience maxLen keys rest :
  let v0 := k_video (u_sys us) in
  let line := foldl (press maxLen) [] (strokes keys) in
  (length keys < patience)%nat -> 0 < maxLen -> is_ascii keys -> 10 ∉ keys ->
  terminal_io v0 (u_sys us) (keys ++ 10 :: rest) [] ->
  runs (readLine patience maxLen) us (fun buf us' =>
    buf = line /\ Z.of_nat (length buf) < maxLen /\
    (exists out, terminal_io v0 (u_sys us') rest out) /\
    forall mode scale cols rows n, grid_mode mode scale cols rows -> cursor_at mode scale cols rows n v0 ->
      n + maxLen <= cols * rows -> blank_from mode scale cols n (n + maxLen) v0 -> Forall is_stroke (strokes keys) ->
      exists ve vl, same_picture ve vl /\ video_putString line FOREGROUND_COLOR BACKGROUND_COLOR v0 = Done tt vl /\
        video_newLine ve = Done tt (k_video (u_sys us'))).
Proof.
  intros v0 line Hn Hm Ha H10 HP.
  pose proof (terminal_prints wakeups scratch address_of stray v0 scratch_not_null) as Hprints.
  pose proof (terminal_typed wakeups scratch address_of stray v0 scratch_not_null) as Htyped.
  eapply runs_mono; [by apply (readLine_spec (terminal_io v0))|]. intros buf us' (-> & Hl & Hio).
  pose proof (io_now (terminal_io v0) _ _ _ _ Hio) as Ht. split; [done|]. split; [done|]. split; [by eexists|].
  intros mode scale cols rows n Hgrid Hcur Hroom Hblank Hk.
  destruct Ht as (b & e0 & e1 & _ & _ & _ & _ & _ & _ & _ & _ & _ & _ & _ & _ & Escreen).
  destruct (echo_draws mode scale cols rows Hgrid maxLen n FOREGROUND_COLOR BACKGROUND_COLOR v0 Hcur Hroom Hblank (strokes keys) [] v0)
    as (ve & Ee & vl & El & Hs); [done|done|done|by exists v0|].
  exists ve, vl. split; [done|]. split; [done|]. cbn [app] in Escreen.
  rewrite (putString_app _ _ _ [10] v0 ve Ee) in Escreen. cbn [video_putString] in Escreen.
  unfold video_putChar, isSpecialChar, mbind, M_bind, mret, M_ret in Escreen. cbn in Escreen.
  by destruct (video_newLine ve) as [[] ?| | |].
Qed.
End Line.

(** ** A line at the demo terminal *)

#[local] Existing Instance demo_calls.

(** The keys h, o, backspace, i, Enter and one more have been typed. *)
Definition demo_keys : ustate (kstate mm) :=
  user_boot (demo_typing
    <| k_kbd := k_kbd (after (run_kb_ops [KPush 104; KPush 111; KPush 8; KPush 105; KPush 10; KPush 33]) demo_sem_start) |>).

Lemma demo_keys_io : terminal_io (video_boot demo_mode) (u_sys demo_keys) [104; 111; 8; 105; 10; 33] [].
Proof.
  eexists _, fd_terminal, fd_terminal. split; [reflexivity|]. split; [vm_compute; discriminate|].
  split; [reflexivity|]. split; [reflexivity|]. split; [reflexivity|]. split; [reflexivity|]. split; [vm_compute; discriminate|].
  split; [by repeat split|]. split; [reflexivity|]. split; [rewrite !elem_of_cons, elem_of_nil; lia|].
  split; [by repeat constructor|]. split; [vm_compute; discriminate|reflexivity].
Qed.
Lemma demo_grid : grid_mode demo_mode 1 128 48.
Proof. split; vm_compute; repeat split; done || discriminate. Qed.

Lemma readLine_edits_witness :
  runs (readLine 8 100) demo_keys (fun buf us' => buf = [104; 105] /\ exists ve vl,
    same_picture ve vl /\ video_putString [104; 105] FOREGROUND_COLOR BACKGROUND_COLOR (video_boot demo_mode) = Done tt vl /\
    video_newLine ve = Done tt (k_video (u_sys us'))).
Proof.
  eapply runs_mono.
  - apply (readLine_edits 0 0x7000 (fun _ => 0x400000) 0 ltac:(lia) demo_keys 8 100 [104; 111; 8; 105] [33]);
      [simpl; lia|lia|by repeat constructor|rewrite !elem_of_cons, elem_of_nil; lia|exact demo_keys_io].
  - intros buf us' (-> & _ & _ & Hscreen). split; [reflexivity|].
    apply (Hscreen demo_mode 1 128 48 0 demo_grid).
    + split; try reflexivity. lia.
    + lia.
    + intros n a _ _. reflexivity.
    + unfold is_stroke, is_glyph. repeat constructor; lia.
Defined.
