(* ===== verification/UMmTest.v ===== *)
(** * The memory test passes (src/Userland/SampleCodeModule/tests/test-mm.c)

    The test fills what it allocates with numbers and looks whether they are still
    there.  On any system whose allocator gives out blocks that do not overlap it
    never reports an error; the kernel, with either of its memory managers, is such
    a system. *)
From Stdlib Require Import Ascii String.
From S2P Require Import Prelude CLib MmInterface MmSimple MmSimpleFacts MmSimpleTheorems Video VideoFacts KState QueueTheorems Process ProcessTheorems Syscalls ULib ULibTheorems UProc UPrograms UShell UTheorems UKernel.

(** [P w out live]: in [w] the program holds the blocks [live], and [out] has been
    shown since some moment.  A character on its way to the screen may pass through
    the cells [io], which belong to no block of the program. *)
Class Allocates {W : Type} `{System W} (P : W -> list Z -> gmap Z Z -> Prop) (io : Z -> Prop) : Prop := {
  alloc_apart w out live p n q m :
    P w out live -> live !! p = Some n -> live !! q = Some m -> p <> q -> p + n <= q \/ q + m <= p;
  alloc_io w out live p n a : P w out live -> live !! p = Some n -> p <= a < p + n -> ~ io a;
  alloc_malloc w out live n : P w out live -> 0 <= n < 2 ^ 32 -> runs (sys_malloc n) w (fun p w' =>
    sys_mem w' = sys_mem w /\ (p = 0 /\ P w' out live \/
      exists m, n <= m /\ p <> 0 /\ live !! p = None /\ P w' out (<[p := m]> live)));
  alloc_free w out live p n : P w out live -> live !! p = Some n -> runs (sys_free p) w (fun _ w' =>
    sys_mem w' = sys_mem w /\ P w' out (delete p live));
  alloc_write w out live c : P w out live -> 0 <= c < 128 -> runs (sys_write 1 [c]) w (fun _ w' =>
    P w' (out ++ [c]) live /\ forall a, ~ io a -> load8 (sys_mem w') a = load8 (sys_mem w) a);
  alloc_store w out live f : P w out live ->
    P (sys_set_mem f w) out live /\ sys_mem (sys_set_mem f w) = f (sys_mem w) }.

(** ** Blocks *)

Definition block_apart (p q : Z * Z) : Prop := p.1 + p.2 <= q.1 \/ q.1 + q.2 <= p.1.
Fixpoint separated (rqs : list (Z * Z)) : Prop :=
  match rqs with [] => True | p :: rqs' => Forall (block_apart p) rqs' /\ separated rqs' end.

(** [live] holds the requested blocks and nothing else. *)
Record blocks (rqs : list (Z * Z)) (live : gmap Z Z) : Prop := {
  blk_nodup : NoDup rqs.*1;
  blk_live : forall p, p ∈ rqs -> p.1 <> 0 /\ 0 <= p.2 /\ exists m, p.2 <= m /\ live !! p.1 = Some m;
  blk_only : forall a, is_Some (live !! a) -> a ∈ rqs.*1 }.

Lemma blocks_nil live : blocks [] live <-> live = ∅.
Proof.
  split.
  - intros [_ _ Ho]. apply map_empty. intros a. destruct (live !! a) as [m|] eqn:E; [|done].
    destruct (not_elem_of_nil a). apply Ho. by exists m.
  - intros ->. split; [constructor|by intros p ?%not_elem_of_nil|]. intros a [m E]. by rewrite lookup_empty in E.
Qed.
Lemma blocks_snoc rqs live a s m : blocks rqs live -> live !! a = None -> a <> 0 -> 0 <= s <= m ->
  blocks (rqs ++ [(a, s)]) (<[a := m]> live).
Proof.
  intros [Hn Hl Ho] Ha Ha0 Hs. assert (a ∉ rqs.*1) as Hnew.
  { intros ([a' s'] & -> & Hin)%list_elem_of_fmap. destruct (Hl _ Hin) as (_ & _ & m' & _ & E). cbn in *. congruence. }
  split.
  - rewrite fmap_app. apply NoDup_app. split_and!; [done| |by apply NoDup_singleton].
    intros x Hx ->%list_elem_of_singleton. done.
  - intros p [Hp| ->%list_elem_of_singleton]%elem_of_app.
    + destruct (Hl _ Hp) as (H1' & H2' & m' & H3' & E). split_and!; [done..|]. exists m'. split; [done|].
      rewrite lookup_insert_ne; [done|]. congruence.
    + cbn. split_and!; [done|lia|]. exists m. split; [lia|]. apply lookup_insert_eq.
  - intros x [y E]. rewrite fmap_app, elem_of_app. destruct (decide (x = a)) as [->|]; [right; by left|].
    rewrite lookup_insert_ne in E by done. left. apply Ho. by exists y.
Qed.
Lemma blocks_tail p rqs live : blocks (p :: rqs) live -> blocks rqs (delete p.1 live).
Proof.
  intros [Hn Hl Ho]. cbn in Hn. apply NoDup_cons in Hn as [Hp Hn]. split; [done|..].
  - intros q Hq. destruct (Hl q (list_elem_of_further _ _ _ Hq)) as (H1' & H2' & m & H3' & E). split_and!; [done..|].
    exists m. split; [done|]. rewrite lookup_delete_ne; [done|]. intros Epq. apply Hp. rewrite Epq. apply list_elem_of_fmap. by exists q.
  - intros a [m E]. apply lookup_delete_Some in E as [Hne E]. pose proof (Ho a (ex_intro _ m E)) as Ha.
    cbn in Ha. apply elem_of_cons in Ha as [->|]; done.
Qed.

(** ** Filling and checking *)

Fixpoint fill (i : Z) (rqs : list (Z * Z)) (m : memory) : memory :=
  match rqs with [] => m | (a, s) :: rqs' => fill (i + 1) rqs' (memset a i s m) end.

Lemma load8_memset a i s m x : 0 <= s -> load8 (memset a i s m) x = if decide (a <= x < a + s) then u8 i else load8 m x.
Proof. intros Hs. unfold memset. rewrite memset_loop_spec, Z2Nat.id by done. unfold wrap. by rewrite Z.mod_mod by done. Qed.

Lemma fill_outside rqs : forall i m x, Forall (fun p => 0 <= p.2 /\ (x < p.1 \/ p.1 + p.2 <= x)) rqs ->
  load8 (fill i rqs m) x = load8 m x.
Proof.
  induction rqs as [|[a s] rqs IH]; intros i m x Hx; simpl; [done|]. apply Forall_cons in Hx as [[Hs Hx] Hxs]. cbn in *.
  rewrite IH, load8_memset, decide_False by (done || lia). done.
Qed.
(** Every block holds its number. *)
Definition filled (i : Z) (rqs : list (Z * Z)) (m : memory) : Prop :=
  forall k a s, rqs !! k = Some (a, s) -> forall x, a <= x < a + s -> load8 m x = u8 (i + Z.of_nat k).
Lemma fill_fills rqs : forall i m, separated rqs -> Forall (fun p => 0 <= p.2) rqs -> filled i rqs (fill i rqs m).
Proof.
  induction rqs as [|[a s] rqs IH]; intros i m Hsep Hs k a' s' Hk x Hx; [done|].
  destruct Hsep as [Hap Hsep]. apply Forall_cons in Hs as [Hs0 Hs]. cbn in Hs0. cbn [fill]. destruct k as [|k].
  - injection Hk as <- <-. rewrite fill_outside.
    + rewrite load8_memset, decide_True by lia. by rewrite Z.add_0_r.
    + apply Forall_forall. intros q Hq. rewrite Forall_forall in Hap, Hs. specialize (Hap q Hq). specialize (Hs q Hq).
      unfold block_apart in Hap. cbn in Hap. split; [done|]. lia.
  - rewrite (IH (i + 1) _ Hsep Hs k a' s' Hk x Hx). f_equal. lia.
Qed.

Lemma memcheck_bytes m a n v : (forall x, a <= x < a + Z.of_nat n -> load8 m x = v) -> memcheck (bytes_at m a n) v = true.
Proof.
  intros Hm. unfold bytes_at.
  assert (forall k j, (j + k = n)%nat -> memcheck ((fun i => load8 m (a + Z.of_nat i)) <$> seq j k) v = true) as Hloop; [|by apply Hloop].
  induction k as [|k IH]; intros j Hj; [done|]. cbn [seq]. rewrite fmap_cons. cbn [memcheck].
  rewrite Hm, Z.eqb_refl by lia. apply IH. lia.
Qed.

(** ** A round of the test *)

Lemma ulonglong_ascii n : 0 <= n < 2 ^ 64 -> is_ascii (print_ulonglong n).
Proof.
  intros Hn. unfold print_ulonglong. destruct (n =? 0); [by repeat constructor|].
  apply digits_ascii. by apply (digits_rev_spec 20 n); lia.
Qed.

(** What a round that allocates [k] blocks of [total] bytes shows. *)
Definition round_text (iteration k total : Z) : list Z :=
  (text "Iteracion " ++ print_ulonglong iteration ++ text ": ") ++
  (text "Asignados " ++ print_ulonglong k ++ text " bloques (" ++ print_ulonglong total ++ text " bytes) - ") ++
  text "Escritura OK - " ++ text "Verificacion OK - " ++ text "Liberacion OK\n".

(** A loop none of whose rounds leaves it. *)
Lemma while_never {S A B : Type} (I : A -> S -> Prop) (body : A -> M S (A + B)) :
  (forall a s, I a s -> runs (body a) s (fun r s' => exists a', r = inl a' /\ I a' s')) ->
  forall n a s, I a s -> while_fuel n body a s = Diverge.
Proof.
  intros Hb. induction n as [|n IH]; intros a s Ha; [done|]. cbn [while_fuel].
  destruct (Hb a s Ha) as (r & s' & E & a' & -> & Ha'). unfold mbind, M_bind. rewrite E. cbn [obind]. by apply IH.
Qed.
Lemma diverge_bind {S A B : Type} (m : M S A) (f : A -> M S B) s :
  runs m s (fun a s' => f a s' = Diverge) -> (m ≫= f) s = Diverge.
Proof. intros (a & s' & E & HQ). unfold mbind, M_bind. by rewrite E. Qed.

Section Round.
Context {W : Type} `{System W} (P : W -> list Z -> gmap Z Z -> Prop) (cells : Z -> Prop) `{!Allocates P cells}.
Implicit Types (s : ustate W) (rqs : list (Z * Z)) (live : gmap Z Z).

(** The blocks are held, and memory is [m] but for the cells of the output. *)
Definition holding live (m : memory) (w : W) (inp out : list Z) : Prop :=
  P w out live /\ forall a, ~ cells a -> load8 (sys_mem w) a = load8 m a.
#[local] Instance holding_prints live m : Prints (holding live m).
Proof.
  intros w inp out c [HP Hm] Hc. eapply runs_mono; [by apply (alloc_write w out live c)|].
  intros r w' [HP' Hm']. split; [done|]. intros a Ha. rewrite Hm' by done. auto.
Qed.

(** Printing, with what it does to the memory. *)
Lemma say fmt args l s out live (Q : unit -> ustate W -> Prop) :
  printf (text fmt) args = Some l -> is_ascii l -> P (u_sys s) out live ->
  (forall s', P (u_sys s') (out ++ l) live -> (forall a, ~ cells a -> load8 (sys_mem (u_sys s')) a = load8 (sys_mem (u_sys s)) a) ->
     Q tt s') ->
  runs (print fmt args) s Q.
Proof.
  intros E Hl HP HQ. eapply runs_mono; [by apply (print_spec (holding live (sys_mem (u_sys s))) fmt args l s [] out)|].
  intros [] s' (w & -> & HP' & Hm). by apply HQ.
Qed.

Lemma uniform_runs max s (Q : Z -> ustate W -> Prop) :
  (forall u s', u_sys s' = u_sys s -> Q u s') -> runs (GetUniform max) s Q.
Proof.
  intros HQ. unfold GetUniform, next_uint. apply runs_bind, runs_bind, runs_gets. cbn [id].
  destruct (GetUint (m_z s) (m_w s)) as [[r z] w]. apply runs_bind, runs_modify, runs_ret, runs_ret. by apply HQ.
Qed.

(** The requests: at most 128 blocks. *)
Lemma request_runs max s out : P (u_sys s) out ∅ ->
  runs (while_fuel (S (Z.to_nat MAX_BLOCKS)) (mm_request_step max) ([], 0)) s (fun st s' =>
    exists live, P (u_sys s') out live /\ blocks st.1 live /\ 0 <= st.2 < 2 ^ 32 /\ Z.of_nat (length st.1) <= MAX_BLOCKS).
Proof.
  intros HP. apply (runs_while (fun st s' => exists live, P (u_sys s') out live /\ blocks st.1 live /\ 0 <= st.2 < 2 ^ 32 /\
    Z.of_nat (length st.1) <= MAX_BLOCKS) (fun st _ => Z.to_nat (MAX_BLOCKS - Z.of_nat (length st.1)))).
  - exists ∅. split_and!; [done|by apply blocks_nil|done|done|done].
  - cbn [fst length]. lia.
  - intros [rqs total] t (live & HP' & Hb & Ht & Hlen). cbn [fst snd] in *. unfold mm_request_step.
    destruct (Z.ltb_spec (Z.of_nat (length rqs)) MAX_BLOCKS) as [Hlt|]; [|apply runs_ret; by exists live].
    destruct (total <? max); [|apply runs_ret; by exists live]. cbn [andb negb].
    apply runs_bind, uniform_runs. intros u t' Et. cbv zeta. set (size := u32 (u + 1)).
    pose proof (wrap_range 32 (u + 1) ltac:(lia)) as Hsize. fold size in Hsize.
    apply runs_bind. unfold malloc. apply runs_sys. rewrite Et, wrap_small by lia.
    eapply runs_mono; [by apply (alloc_malloc _ out live size)|].
    intros a w (_ & [[-> Hw]|(n & Hn & Ha & Hfresh & Hw)]).
    + apply runs_ret. by exists live.
    + apply runs_ret. assert (ctrue a = true) as -> by (unfold ctrue; by rewrite (proj2 (Z.eqb_neq a 0) Ha)).
      cbn [fst snd]. split; [|rewrite length_app; cbn [length]; lia].
      exists (<[a := n]> live). split_and!; [exact Hw|apply blocks_snoc; (done || lia)|..].
      * pose proof (wrap_range 32 (total + size) ltac:(lia)). lia.
      * pose proof (wrap_range 32 (total + size) ltac:(lia)). lia.
      * rewrite length_app. cbn [length]. lia.
Qed.

Lemma set_runs out live rqs : forall i s, P (u_sys s) out live ->
  runs (mm_set i rqs) s (fun _ s' => P (u_sys s') out live /\ sys_mem (u_sys s') = fill i rqs (sys_mem (u_sys s))).
Proof.
  induction rqs as [|[a n] rqs IH]; intros i s HP; cbn [mm_set fill]; [by apply runs_ret|].
  apply runs_bind, runs_modify. destruct (alloc_store _ _ _ (memset a i n) HP) as [HP' Em].
  eapply runs_mono; [apply (IH (i + 1) (s <| u_sys ::= sys_set_mem (memset a i n) |>)); exact HP'|].
  intros [] s' [H1' H2']. split; [done|]. rewrite H2'. f_equal. exact Em.
Qed.

Lemma check_runs rqs : forall i s, filled i rqs (sys_mem (u_sys s)) -> Forall (fun p => 0 <= p.2) rqs ->
  runs (mm_check i rqs) s (fun ok s' => ok = true /\ s' = s).
Proof.
  induction rqs as [|[a n] rqs IH]; intros i s Hf Hs; cbn [mm_check]; [by apply runs_ret|].
  apply Forall_cons in Hs as [Hs0 Hs]. cbn in Hs0. apply runs_bind, runs_gets. rewrite memcheck_bytes.
  - apply IH; [|done]. intros k a' n' Hk x Hx. rewrite (Hf (S k) a' n' Hk x Hx). f_equal. lia.
  - intros x Hx. rewrite (Hf 0%nat a n eq_refl x) by lia. f_equal. lia.
Qed.

Lemma free_runs out rqs : forall s live, P (u_sys s) out live -> blocks rqs live ->
  runs (mm_free rqs) s (fun _ s' => P (u_sys s') out ∅).
Proof.
  induction rqs as [|[a n] rqs IH]; intros s live HP Hb; cbn [mm_free].
  - apply runs_ret. apply blocks_nil in Hb as ->. done.
  - destruct (blk_live _ _ Hb (a, n) ltac:(by left)) as (Ha & _ & m & _ & E). cbn in Ha, E.
    apply runs_bind. unfold free. assert (ctrue a = true) as -> by (unfold ctrue; by rewrite (proj2 (Z.eqb_neq a 0) Ha)).
    cbn [when]. apply runs_bind, runs_sys. eapply runs_mono; [by apply (alloc_free _ out live a m)|].
    intros r w [_ Hw]. apply runs_ret. eapply IH; [exact Hw|]. exact (blocks_tail _ _ _ Hb).
Qed.

Lemma blocks_separated w out live rqs : P w out live -> blocks rqs live -> separated rqs.
Proof.
  intros HP. assert (forall l live', (forall p, p ∈ l -> 0 <= p.2 /\ exists m, p.2 <= m /\ live !! p.1 = Some m) -> NoDup l.*1 ->
    live' = live -> separated l) as Hsep.
  { induction l as [|p l IH]; intros live' Hl Hn ->; [done|]. cbn in Hn. apply NoDup_cons in Hn as [Hp Hn]. split.
    - apply Forall_forall. intros q Hq. destruct (Hl p ltac:(by left)) as (H1' & m & H2' & E).
      destruct (Hl q ltac:(by right)) as (H3' & m' & H4' & E'). unfold block_apart.
      destruct (alloc_apart _ _ _ _ _ _ _ HP E E'); [|lia|lia].
      intros Epq. apply Hp. rewrite Epq. apply list_elem_of_fmap. by exists q.
    - apply (IH live); [|done|done]. intros q Hq. apply Hl. by right. }
  intros [Hn Hl _]. apply (Hsep rqs live); [|done|done]. intros p Hp. destruct (Hl p Hp) as (_ & ? & ?). done.
Qed.

Lemma fmt_iteration n : printf (text "Iteracion %llu: ") [VNum n] = Some (text "Iteracion " ++ print_ulonglong (u64 n) ++ text ": ").
Proof. reflexivity. Qed.
Lemma fmt_blocks k t : printf (text "Asignados %llu bloques (%llu bytes) - ") [VNum k; VNum t] =
  Some (text "Asignados " ++ print_ulonglong (u64 k) ++ text " bloques (" ++ print_ulonglong (u64 t) ++ text " bytes) - ").
Proof. reflexivity. Qed.
Lemma text_ascii t : forallb (fun c => (0 <=? c) && (c <? 128)) (text t) = true -> is_ascii (text t).
Proof.
  intros Ht. apply Forall_forall. intros c Hc. rewrite forallb_forall in Ht. specialize (Ht c). rewrite <- list_elem_of_In in Ht.
  specialize (Ht Hc). lia.
Qed.

Lemma round_runs max it s out : P (u_sys s) out ∅ -> runs (mm_round max it) s (fun r s' =>
  r = inl (u64 (it + 1)) /\ exists k total, 0 <= k <= 128 /\ P (u_sys s') (out ++ round_text (u64 (it + 1)) k total) ∅).
Proof.
  intros HP. unfold mm_round. cbv zeta. pose proof (wrap_range 64 (it + 1) ltac:(lia)) as Hit. set (n := u64 (it + 1)) in *.
  assert (forall a b, is_ascii a -> is_ascii b -> is_ascii (a ++ b)) as Happ by (intros a b; apply Forall_app_2).
  apply runs_bind. eapply say; [apply fmt_iteration| |exact HP|].
  { rewrite wrap_small by lia. repeat apply Happ; [by apply text_ascii|by apply ulonglong_ascii|by apply text_ascii]. }
  intros s1 HP1 _. rewrite (wrap_small 64 n) in HP1 by lia.
  apply runs_bind. eapply runs_mono; [by apply request_runs|].
  intros [rqs total] s2 (live & HP2 & Hb & Ht & Hlen). cbn [fst snd] in *. unfold MAX_BLOCKS in Hlen.
  apply runs_bind. eapply say; [apply fmt_blocks| |exact HP2|].
  { rewrite !wrap_small by lia.
    repeat apply Happ; (by apply text_ascii) || (apply ulonglong_ascii; lia). }
  intros s3 HP3 _. rewrite !(wrap_small 64) in HP3 by lia.
  pose proof (blocks_separated _ _ _ _ HP3 Hb) as Hsep.
  assert (Forall (fun p : Z * Z => 0 <= p.2) rqs) as Hs by (apply Forall_forall; intros p Hp; by destruct (blk_live _ _ Hb p Hp) as (_ & ? & _)).
  apply runs_bind. eapply runs_mono; [eapply (set_runs _ live rqs 0); exact HP3|]. intros [] s4 [HP4 Em4].
  apply runs_bind. eapply (say _ _ (text "Escritura OK - ")); [reflexivity|by apply text_ascii|exact HP4|]. intros s5 HP5 Em5.
  apply runs_bind. eapply runs_mono; [apply (check_runs rqs 0); [|done]|].
  { intros k a m Hk x Hx. rewrite Em5.
    - rewrite Em4. by apply (fill_fills rqs 0 _ Hsep Hs k a m Hk x).
    - assert ((a, m) ∈ rqs) as Hin by (by eapply list_elem_of_lookup_2). destruct (blk_live _ _ Hb _ Hin) as (_ & _ & m' & Hm' & E).
      cbn in Hm', E. eapply (alloc_io _ _ _ _ _ _ HP4 E). lia. }
  intros ok s6 [-> ->]. cbn [negb]. apply runs_bind. eapply (say _ _ (text "Verificacion OK - ")); [reflexivity|by apply text_ascii|exact HP5|]. intros s7 HP7 _.
  apply runs_bind. eapply runs_mono; [by eapply free_runs|]. intros [] s8 HP8.
  apply runs_bind. eapply (say _ _ (text "Liberacion OK\n")); [reflexivity|by apply text_ascii|exact HP8|]. intros s9 HP9 _. apply runs_ret. split; [done|].
  exists (Z.of_nat (length rqs)), total. split; [clear -Hlen; lia|]. unfold round_text. rewrite <- !app_assoc in HP9. rewrite <- !app_assoc. exact HP9.
Qed.

Lemma fmt_memory n : printf (text "Memoria maxima: %llu bytes\n") [VNum n] =
  Some (text "Memoria maxima: " ++ print_ulonglong (u64 n) ++ text " bytes\n").
Proof. reflexivity. Qed.

(** The test passes.  However long it runs it does not return, so it
    never reports an error, and neither faults; every round fills at most 128 blocks,
    finds in each what it wrote there, says so, and gives them all back. *)
Lemma never_fails a s out : u64 (satoi a) <> 0 -> P (u_sys s) out ∅ ->
  (forall patience, test_mm patience [a] s = Diverge) /\
  forall max_memory it t shown_, P (u_sys t) shown_ ∅ -> runs (mm_round max_memory it) t (fun r t' =>
    r = inl (u64 (it + 1)) /\ exists k total, 0 <= k <= 128 /\ P (u_sys t') (shown_ ++ round_text (u64 (it + 1)) k total) ∅).
Proof.
  intros Ha HP. split; [|intros max it t shown_; apply round_runs]. intros patience. unfold test_mm. cbv zeta.
  rewrite (proj2 (Z.eqb_neq _ 0) Ha). pose proof (wrap_range 64 (satoi a) ltac:(lia)) as Hmax. set (max := u64 (satoi a)) in *.
  apply diverge_bind. eapply (say _ _ (text "=== TEST DE MEMORIA INICIADO ===\n")); [reflexivity|by apply text_ascii|exact HP|].
  intros s1 HP1 _. apply diverge_bind. eapply say; [apply fmt_memory| |exact HP1|].
  { rewrite wrap_small by lia. repeat apply Forall_app_2; [by apply text_ascii|by apply ulonglong_ascii|by apply text_ascii]. }
  intros s2 HP2 _. apply diverge_bind. eapply (say _ _ (text "Bloques maximos: 128\n")); [reflexivity|by apply text_ascii|exact HP2|].
  intros s3 HP3 _. apply diverge_bind. eapply (say _ _ (text "Presiona Ctrl+C para detener\n\n")); [reflexivity|by apply text_ascii|exact HP3|].
  intros s4 HP4 _. apply (while_never (fun _ t => exists o, P (u_sys t) o ∅)); [|by eexists].
  intros it t [o Ho]. eapply runs_mono; [by apply round_runs|]. intros r t' (-> & k & total & _ & Ho'). eexists. split; [done|]. by eexists.
Qed.
End Round.

(** ** The kernel *)

Section Kernel.
Context {MM : Type} `{MemManagerLaws MM} `{Text}.
Context (wakeups : nat) (scratch : Z) (address_of : entry -> Z) (stray : Z).
#[local] Instance kernel_calls : System (kstate MM) := kernel_system wakeups scratch address_of stray.

(** The running process writes to the terminal; it holds [live], and the cell of
    its stack through which characters go is in a block that is among [others]. *)
Record tester (v0 : video) (others : gmap Z Z) (s : kstate MM) (out : list Z) (live : gmap Z Z) : Prop := {
  tst_terminal : exists b e, k_procs s !! current (k_sched s) = Some b /\ current (k_sched s) <> 0 /\
    p_fds b !! 1%nat = Some e /\ fd_type e = FD_TYPE_TERMINAL;
  tst_screen : screen v0 out (k_video s);
  tst_memory : mm_live (k_mm s) (live ∪ others) /\ live ##ₘ others /\
    exists q n, others !! q = Some n /\ q <= scratch < q + n }.

Lemma union_live (live others : gmap Z Z) p n : live !! p = Some n -> (live ∪ others) !! p = Some n.
Proof. intros E. by apply lookup_union_Some_l. Qed.

#[local] Instance kernel_allocates v0 others : scratch <> 0 -> Allocates (tester v0 others) (eq scratch).
Proof.
  intros Hscr. split.
  - intros s out live p n q m [_ _ (Hl & _ & _)] Ep Eq Hne. by eapply live_disjoint; [exact Hl|by apply union_live..|].
  - intros s out live p n a [_ _ (Hl & Hd & q & k & Eq & Hq)] Ep Ha <-.
    assert ((live ∪ others) !! q = Some k) as Eq' by (by apply lookup_union_Some_r).
    assert (p <> q) as Hne by (intros ->; by eapply map_disjoint_spec).
    destruct (live_disjoint _ _ _ _ _ _ Hl (union_live _ others _ _ Ep) Eq' Hne); lia.
  - intros s out live n [Ht Hs (Hl & Hd & Hc)] Hn. change (sys_malloc n) with (syscall_malloc (MM := MM) n). unfold syscall_malloc.
    destruct (Z.eqb_spec n 0) as [->|Hn0].
    { apply runs_ret. split; [done|]. left. split; [done|]. by split. }
    apply runs_zoom. eapply runs_mono; [apply (malloc_law _ (live ∪ others) n); [exact Hl|lia]|].
    intros p a [[-> Ha]|(m & Hm & Hp & Hfresh & Ha)]; (split; [done|]).
    + left. split; [done|]. by split.
    + right. apply lookup_union_None in Hfresh as [Hf1 Hf2]. exists m. split_and!; [done..|].
      split; [exact Ht|exact Hs|]. rewrite insert_union_l in Ha. split_and!; [exact Ha|by apply map_disjoint_insert_l_2|done].
  - intros s out live p n [Ht Hs (Hl & Hd & Hc)] Ep. change (sys_free p) with (syscall_free (MM := MM) p). unfold syscall_free.
    pose proof (live_bounds _ _ _ _ Hl (union_live _ others _ _ Ep)) as Hb. rewrite (proj2 (Z.eqb_neq p 0)) by lia.
    apply runs_bind, runs_zoom. eapply runs_mono; [by apply (mfree_law _ (live ∪ others) p n); [|apply union_live]|].
    intros [] a Ha. apply runs_ret. split; [done|]. split; [exact Ht|exact Hs|].
    rewrite delete_union, (delete_id others) in Ha by (by eapply map_disjoint_Some_l). split_and!; [exact Ha|by apply map_disjoint_delete_l|done].
  - intros s out live c [(b & e & Hb & Hcur & He & Hty) Hs Hm] Hc.
    eapply (write_char wakeups scratch address_of stray); [exact Hscr|lia|exact Hb|exact Hcur|exact He|exact Hty|].
    eapply runs_mono; [by apply screen_putChar|]. intros [] v Hv. split.
    + split; [by exists b, e|exact Hv|exact Hm].
    + intros a Ha. change (load8 (store_bytes scratch [c] (k_mem s)) a = load8 (k_mem s) a). cbn [store_bytes].
      rewrite load8_store8, decide_False; [done|]. congruence.
  - intros s out live f [Ht Hs Hm]. split; [by split|done].
Qed.

(** C15: the memory test of the user programs passes on the kernel, with any memory
    manager that keeps the promises of the interface.  However long it runs it does
    not return, so it never reports an error, and it does not fault; every round
    fills at most 128 blocks, finds in each what it wrote there, says so on the
    screen, and gives them all back: the memory of the [others] is what is left. *)
Theorem test_mm_passes v0 others a (us : ustate (kstate MM)) out :
  scratch <> 0 -> u64 (satoi a) <> 0 -> tester v0 others (u_sys us) out ∅ ->
  (forall patience, test_mm patience [a] us = Diverge) /\
  forall max_memory it t shown_, tester v0 others (u_sys t) shown_ ∅ -> runs (mm_round max_memory it) t (fun r t' =>
    r = inl (u64 (it + 1)) /\ exists k total, 0 <= k <= 128 /\
      tester v0 others (u_sys t') (shown_ ++ round_text (u64 (it + 1)) k total) ∅).
Proof. intros Hs Ha HP. pose proof (kernel_allocates v0 others Hs). by apply (never_fails (tester v0 others) (eq scratch) a us out). Qed.
End Kernel.

(** ** With the first-fit manager *)

#[local] Instance test_text : Text := { process_start := 0x100; idle_entry := 0x200 }.
#[local] Instance test_manager : MemManager mm := simple_manager 0.
#[local] Instance test_laws : MemManagerLaws mm := simple_laws 0.
#[local] Instance test_calls : System (kstate mm) := kernel_system 0 65600 (fun _ => 0x400000) 0.

(** A heap in which the stack of the running process has been allocated. *)
Definition test_heap : mm := after (mm_alloc 0 4096) demo_large_heap.
Definition test_state : kstate mm := kernel_boot test_heap demo_mode <| k_procs := {[ 0x9000 := zero_process ]} |>
  <| k_sched ::= fun c => c <| current := 0x9000 |> |>.

Lemma test_heap_live : exists n, 4096 <= n /\ mm_live test_heap ({[ 65576 := n ]} : gmap Z Z).
Proof.
  destruct (malloc_law demo_large_heap ∅ 4096 demo_boot_live ltac:(lia)) as (p & t & E & HQ).
  change (mm_alloc 0 4096 demo_large_heap = Done p t) in E.
  assert (p = 65576) as ->.
  { change p with (match @Done mm Z p t with Done q _ => q | _ => 0 end). rewrite <- E. vm_compute. reflexivity. }
  destruct HQ as [[? _]|(n & Hn & _ & _ & Hl)]; [done|]. exists n. split; [done|].
  unfold test_heap, after. rewrite E. exact Hl.
Qed.

Lemma test_state_ready : exists others, tester 65600 (video_boot demo_mode) others test_state [] ∅.
Proof.
  destruct test_heap_live as (n & Hn & Hl). exists {[ 65576 := n ]}. split.
  - exists zero_process, fd_terminal. by split_and!.
  - split; [vm_compute; discriminate|reflexivity].
  - rewrite (left_id_L ∅ (∪)). split_and!; [exact Hl|apply map_disjoint_empty_l|].
    exists 65576, n. split; [apply lookup_singleton_eq|lia].
Qed.

Lemma test_mm_passes_witness :
  (forall patience, test_mm patience [text "1000"] (user_boot test_state) = Diverge) /\
  runs (mm_round 1000 0) (user_boot test_state) (fun r _ => r = inl 1).
Proof.
  destruct test_state_ready as [others Hready].
  destruct (test_mm_passes 0 65600 (fun _ => 0x400000) 0 (video_boot demo_mode) others (text "1000") (user_boot test_state) []
    ltac:(lia) ltac:(by vm_compute) Hready) as [Hdiv Hround].
  split; [exact Hdiv|]. eapply runs_mono; [exact (Hround 1000 0 (user_boot test_state) [] Hready)|]. intros r t' [-> _]. reflexivity.
Defined.
