(* ===== verification/Bmfs.v ===== *)
(** * The file system utility (src/Bootloader/BMFS/bmfs.c)

    The image of the kernel is put on a disk by this program.  A disk has a
    directory of 64 records in its first block of 2 MiB; a file is contiguous.
    A C string is the list of its characters; a byte of the disk that was never
    written reads as 0. *)
From S2P Require Import Prelude CLib ULib.

Module Bmfs.

Definition minimumDiskSize : Z := 6 * 1024 * 1024.
Definition BLOCK : Z := 2097152.

Record BMFSEntry := mk_entry {
  FileName : list Z; StartingBlock : Z; ReservedBlocks : Z; FileSize : Z; Unused : Z }.
Definition eta_entry (e : BMFSEntry) := mk_entry (FileName e) (StartingBlock e) (ReservedBlocks e) (FileSize e) (Unused e).
#[export] Instance set_FileName : Setter FileName := ltac:(build_setter eta_entry FileName).
#[export] Instance set_StartingBlock : Setter StartingBlock := ltac:(build_setter eta_entry StartingBlock).
#[export] Instance set_ReservedBlocks : Setter ReservedBlocks := ltac:(build_setter eta_entry ReservedBlocks).
#[export] Instance set_FileSize : Setter FileSize := ltac:(build_setter eta_entry FileSize).
Definition zero_entry : BMFSEntry := mk_entry (replicate 32 0) 0 0 0 0.

(** The global variables, the disk with its length, and the files of the host. *)
Record bmfs := mk_bmfs {
  disk : memory; disk_len : Z; disksize : Z; Directory : list BMFSEntry; DiskInfo : list Z;
  host_files : gmap (list Z) (list Z) }.
Definition eta_bmfs (s : bmfs) := mk_bmfs (disk s) (disk_len s) (disksize s) (Directory s) (DiskInfo s) (host_files s).
#[export] Instance set_disk : Setter disk := ltac:(build_setter eta_bmfs disk).
#[export] Instance set_disk_len : Setter disk_len := ltac:(build_setter eta_bmfs disk_len).
#[export] Instance set_disksize : Setter disksize := ltac:(build_setter eta_bmfs disksize).
#[export] Instance set_Directory : Setter Directory := ltac:(build_setter eta_bmfs Directory).
#[export] Instance set_DiskInfo : Setter DiskInfo := ltac:(build_setter eta_bmfs DiskInfo).
#[export] Instance set_host_files : Setter host_files := ltac:(build_setter eta_bmfs host_files).

(** What a command reports. *)
Inductive report :=
  | Usage | UnableToOpenDisk | NotFormatted | UnknownCommand | NoFileName | InvalidFileSize
  | FormatComplete | FormatAborted | Listing (rows : list (list Z * Z * Z))
  | Complete | FileExists | NoFreeEntries | CannotCreate (maxsize : Z)
  | FileNotFound | NoLocalFile | NotEnoughSpace
  | NoNumber | SizeTooLarge | SizeInvalid | SizeTooSmall | NoFile (name : list Z) | ReadFailed | Initialized.

(** ** Records and bytes *)

Fixpoint le_bytes (n : nat) (v : Z) : list Z :=
  match n with O => [] | S n' => v mod 256 :: le_bytes n' (v / 256) end.
Definition entry_bytes (e : BMFSEntry) : list Z :=
  FileName e ++ le_bytes 8 (StartingBlock e) ++ le_bytes 8 (ReservedBlocks e) ++ le_bytes 8 (FileSize e) ++ le_bytes 8 (Unused e).
Definition directory_bytes (d : list BMFSEntry) : list Z := d ≫= entry_bytes.
Definition read_entry (m : memory) (a : Z) : BMFSEntry :=
  mk_entry (bytes_at m a 32) (load64 m (a + 32)) (load64 m (a + 40)) (load64 m (a + 48)) (load64 m (a + 56)).
Definition read_directory (m : memory) : list BMFSEntry := (fun i => read_entry m (4096 + 64 * Z.of_nat i)) <$> seq 0 64.

(** [FileName[0]], and its two marks. *)
Definition first_char (e : BMFSEntry) : Z := ch (FileName e) 0.
Definition is_end (e : BMFSEntry) : bool := first_char e =? 0x00.
Definition is_empty (e : BMFSEntry) : bool := first_char e =? 0x01.
(** The string that starts at [FileName]. *)
Definition name_of (e : BMFSEntry) : list Z := cut (entry_bytes e).
(** [strcmp(a, b) == 0] and [strcasecmp(a, b) == 0]. *)
Definition streq (a b : list Z) : bool := bool_decide (a = b).
Definition lower (c : Z) : Z := if (c >=? 65) && (c <=? 90) then c + 32 else c.
Definition strcaseeq (a b : list Z) : bool := bool_decide (lower <$> a = lower <$> b).

(** ** Writing to the disk *)

(** [fseek(disk, pos, SEEK_SET)] and [fwrite] of some bytes. *)
Definition write_at (pos : Z) (bytes : list Z) : M bmfs unit :=
  modify (fun s => s <| disk ::= store_bytes pos bytes |>
    <| disk_len ::= fun n => Z.max n (pos + Z.of_nat (length bytes)) |>).
Definition flush_directory : M bmfs unit := d ← gets Directory; write_at 4096 (directory_bytes d).
(** [getc(disk)]: past the end it gives EOF, which is stored as 255. *)
Definition get_char (s : bmfs) (pos : Z) : Z := if pos <? disk_len s then load8 (disk s) pos else 255.

(** ** The commands *)

Fixpoint find_entry (filename : list Z) (tint : nat) (d : list BMFSEntry) : option (BMFSEntry * nat) :=
  match d with
  | [] => None
  | e :: d' =>
      if is_end e then None
      else if is_empty e then find_entry filename (S tint) d'
      else if streq filename (name_of e) then Some (e, tint)
      else find_entry filename (S tint) d'
  end.
Definition findfile (filename : list Z) : M bmfs (option (BMFSEntry * nat)) := gets (fun s => find_entry filename 0 (Directory s)).

Fixpoint list_rows (d : list BMFSEntry) : list (list Z * Z * Z) :=
  match d with
  | [] => []
  | e :: d' =>
      if is_end e then []
      else if is_empty e then list_rows d'
      else (name_of e, FileSize e, u64 (ReservedBlocks e * 2)) :: list_rows d'
  end.
Definition list_files : M bmfs report := gets (fun s => Listing (list_rows (Directory s))).

(** "BMFS" *)
Definition fs_tag : list Z := [66; 77; 70; 83].
Definition format : M bmfs report :=
  modify (fun s => s <| DiskInfo := replicate 512 0 |>) ;;
  modify (fun s => s <| Directory := replicate 64 zero_entry |>) ;;
  modify (fun s => s <| DiskInfo ::= fun l => fs_tag ++ drop 4 l |>) ;;
  info ← gets DiskInfo;
  write_at 1024 info ;;
  flush_directory ;;
  mret FormatComplete.

Definition StartingBlockCmp (ea eb : BMFSEntry) : Z :=
  if is_empty ea then 1 else
  if is_empty eb then -1 else
  i32 (u64 (StartingBlock ea - StartingBlock eb)).
(** [qsort] of the C library. *)
Fixpoint sorted_insert (e : BMFSEntry) (l : list BMFSEntry) : list BMFSEntry :=
  match l with
  | [] => [e]
  | x :: l' => if StartingBlockCmp e x <=? 0 then e :: x :: l' else x :: sorted_insert e l'
  end.
Definition qsort (l : list BMFSEntry) : list BMFSEntry := foldr sorted_insert [] l.

(** The loop that counts the records: [num_used_entries], which stays 0 when
    there is no end mark, and [first_free_entry]. *)
Fixpoint scan_entries (tint : nat) (first_free : option nat) (d : list BMFSEntry) : nat * option nat :=
  match d with
  | [] => (O, first_free)
  | e :: d' =>
      let this := match first_free with None => Some tint | _ => first_free end in
      if is_end e then (tint, this)
      else if is_empty e then scan_entries (S tint) this d'
      else scan_entries (S tint) first_free d'
  end.

(** The loop over the sorted copy: [new_file_start], 0 when nothing fits. *)
Fixpoint find_area (num_blocks blocks_requested prev_file_end : Z) (l : list BMFSEntry) : Z :=
  match l with
  | [] => if u64 (u64 (num_blocks - 1) - prev_file_end) >=? blocks_requested then prev_file_end else 0
  | e :: l' =>
      let this_file_start := if is_empty e then u64 (num_blocks - 1) else StartingBlock e in
      if u64 (this_file_start - prev_file_end) >=? blocks_requested then prev_file_end
      else find_area num_blocks blocks_requested (u64 (StartingBlock e + ReservedBlocks e)) l'
  end.

(** [strcpy] into [FileName]: a name of 32 characters or more runs over the
    fields behind it. *)
Definition new_record (filename : list Z) (start blocks : Z) (e : BMFSEntry) : BMFSEntry :=
  e <| StartingBlock := start |> <| ReservedBlocks := blocks |> <| FileSize := 0 |>
    <| FileName ::= fun old => filename ++ [0] ++ drop (S (length filename)) old |>.
Definition mark (c : Z) (e : BMFSEntry) : BMFSEntry := e <| FileName ::= <[0%nat := c]> |>.

Definition create (filename : list Z) (maxsize : Z) : M bmfs report :=
  let maxsize := if maxsize mod 2 =? 0 then maxsize else u64 (maxsize + 1) in
  found ← findfile filename;
  match found with
  | Some _ => mret FileExists
  | None =>
      s ← gets id;
      let blocks_requested := maxsize / 2 in
      let num_blocks := disksize s / 2 in
      let '(num_used_entries, first_free_entry) := scan_entries 0 None (Directory s) in
      match first_free_entry with
      | None => mret NoFreeEntries
      | Some first_free_entry =>
          let dir_copy := qsort (take num_used_entries (Directory s)) in
          let new_file_start := find_area num_blocks blocks_requested 1 dir_copy in
          if new_file_start =? 0 then mret (CannotCreate maxsize) else
          if (32 <=? length filename)%nat then fault else
          modify (fun s => s <| Directory ::= alter (new_record filename new_file_start blocks_requested) first_free_entry |>) ;;
          when ((first_free_entry =? num_used_entries)%nat && (S num_used_entries <? 64)%nat)
            (modify (fun s => s <| Directory ::= alter (mark 0x00) (S num_used_entries) |>)) ;;
          flush_directory ;;
          mret Complete
      end
  end.

(** [for (tint = 0; tint < n; tint++)] with [int tint]: the counter runs up to [n], so
    from 2^31 on it overflows. *)
Definition int_loop (n : Z) : M bmfs unit := if n <? 2 ^ 31 then mret tt else fault.

(** To the file of the host that has the name of the record, if it can be created
    ([fopen] with "wb", a parameter). *)
Definition read (can_create : list Z -> bool) (filename : list Z) : M bmfs report :=
  found ← findfile filename;
  match found with
  | None => mret FileNotFound
  | Some (tempentry, _) =>
      if negb (can_create (name_of tempentry)) then mret NoLocalFile else
      int_loop (FileSize tempentry) ;;
      s ← gets id;
      let start := u64 (StartingBlock tempentry * BLOCK) in
      let bytes := (fun i => get_char s (start + Z.of_nat i)) <$> seq 0 (Z.to_nat (FileSize tempentry)) in
      modify (fun s => s <| host_files ::= <[name_of tempentry := bytes]> |>) ;;
      mret Complete
  end.

Definition write (filename : list Z) : M bmfs report :=
  found ← findfile filename;
  match found with
  | None => mret FileNotFound
  | Some (tempentry, slot) =>
      tfile ← gets (fun s => host_files s !! filename);
      match tfile with
      | None => mret NoLocalFile
      | Some bytes =>
          let tempfilesize := Z.of_nat (length bytes) in
          if u64 (ReservedBlocks tempentry * BLOCK) <? tempfilesize then mret NotEnoughSpace else
          int_loop tempfilesize ;;
          write_at (u64 (StartingBlock tempentry * BLOCK)) bytes ;;
          modify (fun s => s <| Directory ::= alter (fun e => e <| FileSize := tempfilesize |>) slot |>) ;;
          flush_directory ;;
          mret Complete
      end
  end.

Definition delete_file (filename : list Z) : M bmfs report :=
  found ← findfile filename;
  match found with
  | None => mret FileNotFound
  | Some (_, slot) =>
      modify (fun s => s <| Directory ::= alter (mark 0x01) slot |>) ;;
      flush_directory ;;
      mret Complete
  end.

(** ** Making a disk *)

(** The power of 1024 of a unit. *)
Definition size_factor (c : Z) : option nat :=
  let c := if (c >=? 97) && (c <=? 122) then c - 32 else c in
  if c =? 75 then Some 1%nat else if c =? 77 then Some 2%nat else if c =? 71 then Some 3%nat
  else if c =? 84 then Some 4%nat else if c =? 80 then Some 5%nat else None.
(** The loop over the size string from index [i]. *)
Fixpoint parse_digits (i : nat) (size : list Z) (diskSize : Z) : (Z * nat) + report :=
  match size with
  | [] => inl (diskSize, 0%nat)
  | c :: size' =>
      if is_digit c then
        let n := c - 48 in
        if u64 (diskSize * 10) >? diskSize then parse_digits (S i) size' (u64 (u64 (diskSize * 10) + n))
        else if diskSize =? 0 then parse_digits (S i) size' (u64 (diskSize + n))
        else inr SizeTooLarge
      else if (i =? 0)%nat then inr NoNumber
      else
        match size_factor c, size' with
        | None, _ => inr SizeInvalid
        | Some f, [] => inl (diskSize, f)
        | Some _, _ :: _ => inr SizeInvalid
        end
  end.
(** [while (diskSizeFactor--) { ... }] *)
Fixpoint scale_size (diskSizeFactor : nat) (diskSize : Z) (ok : bool) : Z * bool :=
  match diskSizeFactor with
  | O => (diskSize, ok)
  | S n =>
      if u64 (diskSize * 1024) >? diskSize then scale_size n (u64 (diskSize * 1024)) ok
      else scale_size n diskSize false
  end.
Definition parse_size (size : list Z) : Z + report :=
  match parse_digits 0 size 0 with
  | inr e => inr e
  | inl (diskSize, factor) =>
      let '(diskSize, ok) := if diskSize >? 0 then scale_size factor diskSize true else (diskSize, true) in
      if negb ok then inr SizeTooLarge
      else if diskSize <? minimumDiskSize then inr SizeTooSmall
      else inl diskSize
  end.

(** [for (;;) { chunkSize = fread(buffer, 1, bufferSize, f); ... }]: from [pos]. *)
Definition bufferSize : nat := Z.to_nat (50 * 1024).
Fixpoint copy_chunks (fuel : nat) (pos : Z) (bytes : list Z) : M bmfs Z :=
  match fuel with
  | O => diverge
  | S n =>
      match bytes with
      | [] => mret pos
      | _ =>
          let chunk := take bufferSize bytes in
          write_at pos chunk ;;
          copy_chunks n (pos + Z.of_nat (length chunk)) (drop bufferSize bytes)
      end
  end.
Definition copy_file (pos : Z) (bytes : list Z) : M bmfs Z := copy_chunks (S (length bytes)) pos bytes.

(** [fopen(name, "rb")] of a file that may have been given. *)
Definition open_file (name : option (list Z)) : M bmfs (option (list Z) + report) :=
  match name with
  | None => mret (inl None)
  | Some n => f ← gets (fun s => host_files s !! n); mret (match f with Some b => inl (Some b) | None => inr (NoFile n) end)
  end.

(** From the opening of the disk on; the loop that fills it with zeros leaves
    [diskSize] bytes. *)
Definition write_image (diskSize : Z) (mbrFile bootFile kernelFile : option (list Z)) : M bmfs (Z * report) :=
  modify (fun s => s <| disk := ∅ |> <| disk_len := diskSize |>) ;;
  format ;;
  ok ← match mbrFile with
       | None => mret true
       | Some b => if (512 <=? length b)%nat then write_at 0 (take 512 b) ;; mret true else mret false
       end;
  if negb ok then mret (1, ReadFailed) else
  pos ← match bootFile with None => mret (match mbrFile with None => 8192 | Some _ => 512 end) | Some b => copy_file 8192 b end;
  match kernelFile with None => mret tt | Some b => copy_file pos b ;; mret tt end ;;
  mret (0, Initialized).

Definition initialize (size : list Z) (mbr boot kernel : option (list Z)) : M bmfs (Z * report) :=
  match parse_size size with
  | inr e => mret (1, e)
  | inl diskSize =>
      m ← open_file mbr;
      match m with inr e => mret (1, e) | inl mbrFile =>
      b ← open_file boot;
      match b with inr e => mret (1, e) | inl bootFile =>
      k ← open_file kernel;
      match k with inr e => mret (1, e) | inl kernelFile =>
      write_image diskSize mbrFile bootFile kernelFile
      end end end
  end.

(** ** The program *)

Definition s_list : list Z := [108; 105; 115; 116].
Definition s_format : list Z := [102; 111; 114; 109; 97; 116].
Definition s_initialize : list Z := [105; 110; 105; 116; 105; 97; 108; 105; 122; 101].
Definition s_create : list Z := [99; 114; 101; 97; 116; 101].
Definition s_read : list Z := [114; 101; 97; 100].
Definition s_write : list Z := [119; 114; 105; 116; 101].
Definition s_delete : list Z := [100; 101; 108; 101; 116; 101].
(** "/FORCE" *)
Definition s_force : list Z := [47; 70; 79; 82; 67; 69].

(** [fopen] of the disk and the reads that follow it. *)
Definition mount : M bmfs unit :=
  modify (fun s => s <| disksize := u32 (disk_len s / 1048576) |>) ;;
  modify (fun s => s <| DiskInfo := bytes_at (disk s) 1024 512 |>) ;;
  modify (fun s => s <| Directory := read_directory (disk s) |>).

(** A command on a disk that is formatted; [args] is [argv] from the third on.
    [answer] is the line typed when the size is missing. *)
Definition run_command (can_create : list Z -> bool) (command : list Z) (args : list (list Z)) (answer : list Z) : M bmfs report :=
  let filename := args !! 0%nat in
  let with_name (f : list Z -> M bmfs report) := match filename with Some n => f n | None => fault end in
  if strcaseeq s_list command then list_files
  else if strcaseeq s_format command then
    match filename with
    | Some force => if strcaseeq force s_force then format else mret FormatAborted
    | None => mret FormatAborted
    end
  else if strcaseeq s_create command then
    match filename with
    | None => mret NoFileName
    | Some n =>
        let filesize := match args !! 1%nat with Some a => atoi a | None => u32 (atoi answer) end in
        if filesize >=? 1 then create n filesize else mret InvalidFileSize
    end
  else if strcaseeq s_read command then with_name (read can_create)
  else if strcaseeq s_write command then with_name write
  else if strcaseeq s_delete command then with_name delete_file
  else mret UnknownCommand.

(** [argv] from the second on: the disk, the command and its arguments.
    [exists_disk]: the disk can be opened. *)
Definition main (can_create : list Z -> bool) (exists_disk : bool) (args : list (list Z)) (answer : list Z) : M bmfs (Z * report) :=
  match args with
  | _diskname :: command :: rest =>
      if strcaseeq s_initialize command then
        match rest with
        | [] => mret (1, Usage)
        | size :: files => initialize size (files !! 0%nat) (files !! 1%nat) (files !! 2%nat)
        end
      else if negb exists_disk then mret (0, UnableToOpenDisk) else
      mount ;;
      info ← gets DiskInfo;
      if negb (strcaseeq (cut info) fs_tag) then
        if strcaseeq s_format command then r ← format; mret (0, r) else mret (0, NotFormatted)
      else r ← run_command can_create command rest answer; mret (0, r)
  | _ => mret (0, Usage)
  end.

End Bmfs.
