(* ===== verification/BmfsFacts.v ===== *)
(** * Facts about the file system utility

    The records of a directory are those before its end mark.  [sound] is a
    directory whose files are apart, inside the data blocks of the disk; on it the
    search for an area finds the first gap that is large enough. *)
From S2P Require Import Prelude CLib ULib ULibTheorems Bmfs.
Import Bmfs.

(** ** Records *)

Fixpoint records (d : list BMFSEntry) : list BMFSEntry :=
  match d with [] => [] | e :: d' => if is_end e then [] else e :: records d' end.
Definition live (d : list BMFSEntry) : list BMFSEntry := filter (fun e => is_empty e = false) (records d).

Lemma records_split d : (length (records d) < length d)%nat ->
  exists e rest, d = records d ++ e :: rest /\ is_end e = true.
Proof.
  induction d as [|e d IH]; cbn [records length]; [lia|]. destruct (is_end e) eqn:E; [by exists e, d|].
  cbn [length]. intros Hl. destruct IH as (e' & rest & E1 & E2); [lia|]. exists e', rest. by rewrite E1 at 1.
Qed.
Lemma records_ends d : Forall (fun e => is_end e = false) (records d).
Proof. induction d as [|e d IH]; cbn [records]; [constructor|]. destruct (is_end e) eqn:E; by constructor. Qed.
Lemma records_app l d : Forall (fun e => is_end e = false) l -> records (l ++ d) = l ++ records d.
Proof. induction 1 as [|e l He _ IH]; [done|]. cbn [app records]. by rewrite He, IH. Qed.

Lemma find_records n d : forall t, find_entry n t d = find_entry n t (records d).
Proof.
  induction d as [|e d IH]; intros t; [done|]. cbn [records find_entry]. destruct (is_end e) eqn:E; [done|].
  cbn [find_entry]. rewrite E, !IH. done.
Qed.
Lemma find_app n l1 l2 : forall t, Forall (fun e => is_end e = false) l1 ->
  find_entry n t (l1 ++ l2) =
    match find_entry n t l1 with Some r => Some r | None => find_entry n (t + length l1) l2 end.
Proof.
  induction l1 as [|e l1 IH]; intros t Hl; cbn [app find_entry length]; [by rewrite Nat.add_0_r|].
  inversion_clear Hl as [|? ? He Hl']. rewrite He, !IH by done. replace (t + S (length l1))%nat with (S t + length l1)%nat by lia.
  destruct (is_empty e); [done|]. by destruct (streq n (name_of e)).
Qed.

(** What a search finds is a live record of that name. *)
Lemma find_some n d : forall t e i, find_entry n t d = Some (e, i) ->
  exists l1 l2, d = l1 ++ e :: l2 /\ i = (t + length l1)%nat /\ Forall (fun x => is_end x = false) l1 /\
    is_end e = false /\ is_empty e = false /\ name_of e = n.
Proof.
  induction d as [|x d IH]; intros t e i; cbn [find_entry]; [done|]. destruct (is_end x) eqn:Ex; [done|].
  assert (find_entry n (S t) d = Some (e, i) -> exists l1 l2, x :: d = l1 ++ e :: l2 /\ i = (t + length l1)%nat /\
    Forall (fun x => is_end x = false) l1 /\ is_end e = false /\ is_empty e = false /\ name_of e = n) as Hgo.
  { intros (l1 & l2 & -> & -> & Hl & H)%IH. exists (x :: l1), l2. split_and!; [done|cbn; lia|by constructor|apply H..]. }
  destruct (is_empty x) eqn:Em; [exact Hgo|]. unfold streq. case_bool_decide as En; [|exact Hgo].
  intros [= -> ->]. exists [], d. split_and!; [done|cbn; lia|constructor|done|done|done].
Qed.

(** ** The scan *)

Lemma scan_clean d : forall t, Forall (fun e => is_empty e = false) (records d) -> (length (records d) < length d)%nat ->
  scan_entries t None d = ((t + length (records d))%nat, Some (t + length (records d))%nat).
Proof.
  induction d as [|e d IH]; intros t Hc Hl; cbn [records length] in *; [lia|]. cbn [scan_entries].
  destruct (is_end e) eqn:E; [by rewrite Nat.add_0_r|]. inversion_clear Hc as [|? ? He Hc'].
  cbn [length] in *. rewrite He, IH by (done || lia). by replace (S t + length (records d))%nat with (t + S (length (records d)))%nat by lia.
Qed.

(** ** Extents *)

Definition ends (e : BMFSEntry) : Z := StartingBlock e + ReservedBlocks e.
Definition area_apart (a b c d : Z) : Prop := b <= c \/ d <= a.
Definition apart_of (e e' : BMFSEntry) : Prop := area_apart (StartingBlock e) (ends e) (StartingBlock e') (ends e').
Fixpoint pairwise {A} (R : A -> A -> Prop) (l : list A) : Prop :=
  match l with [] => True | x :: l' => Forall (R x) l' /\ pairwise R l' end.

Lemma pairwise_perm {A} (R : A -> A -> Prop) l l' : Symmetric R -> l ≡ₚ l' -> pairwise R l -> pairwise R l'.
Proof.
  intros HR. induction 1 as [|x l l' Hp IH|x y l|l1 l2 l3 _ IH1 _ IH2]; cbn [pairwise]; auto.
  - intros [Hx Hl]. split; [by rewrite <- Hp|auto].
  - rewrite !Forall_cons. intros ((Hyx & Hy) & Hx & Hl). by split_and!.
Qed.
#[export] Instance apart_of_sym : Symmetric apart_of.
Proof. intros e e'. unfold apart_of, area_apart. lia. Qed.
Lemma pairwise_app_single {A} (R : A -> A -> Prop) l x : Symmetric R -> pairwise R l -> Forall (R x) l -> pairwise R (l ++ [x]).
Proof.
  intros HR Hl Hx. apply (pairwise_perm R (x :: l)); [done|by rewrite Permutation_app_comm|]. done.
Qed.

(** Inside the data blocks of a disk of [N] blocks. *)
Definition inside (N : Z) (e : BMFSEntry) : Prop := 1 <= StartingBlock e /\ 0 < ReservedBlocks e /\ ends e <= N - 1.

(** ** Sorting *)

Definition before (e e' : BMFSEntry) : Prop := StartingBlock e <= StartingBlock e'.
Definition small (e : BMFSEntry) : Prop := is_empty e = false /\ 0 <= StartingBlock e < 2 ^ 31.

Lemma cmp_small e e' : small e -> small e' -> (StartingBlockCmp e e' <=? 0) = (StartingBlock e <=? StartingBlock e').
Proof.
  intros [He Hs] [He' Hs']. unfold StartingBlockCmp. rewrite He, He'.
  assert (i32 (u64 (StartingBlock e - StartingBlock e')) = StartingBlock e - StartingBlock e') as ->.
  { transitivity (i32 (StartingBlock e - StartingBlock e')); [|apply swrap_small; lia].
    apply (swrap_eq 32 _ _ (- ((StartingBlock e - StartingBlock e') / 2 ^ 64) * 2 ^ 32)); [lia|].
    unfold wrap. rewrite Z.mod_eq by lia. lia. }
  destruct (Z.leb_spec (StartingBlock e - StartingBlock e') 0), (Z.leb_spec (StartingBlock e) (StartingBlock e')); lia.
Qed.

Lemma insert_perm e l : sorted_insert e l ≡ₚ e :: l.
Proof.
  induction l as [|x l IH]; cbn [sorted_insert]; [done|]. destruct (_ <=? _); [done|].
  rewrite IH. apply Permutation_swap.
Qed.
Lemma qsort_perm l : qsort l ≡ₚ l.
Proof. induction l as [|e l IH]; [done|]. unfold qsort in *. cbn [foldr]. by rewrite insert_perm, IH. Qed.

Lemma qsort_sorted l : Forall small l -> pairwise before (qsort l).
Proof.
  assert (forall e l, small e -> Forall small l -> pairwise before l -> pairwise before (sorted_insert e l)) as Hins.
  { clear. induction l as [|x l IH]; intros He Hl Hp; cbn [sorted_insert]; [done|].
    inversion_clear Hl as [|? ? Hx Hl']. destruct Hp as [Hxl Hp]. rewrite cmp_small by done. destruct (Z.leb_spec (StartingBlock e) (StartingBlock x)).
    - cbn [pairwise]. split; [|done]. constructor; [done|]. eapply Forall_impl; [exact Hxl|]. unfold before. intros y Hy. lia.
    - cbn [pairwise]. split; [|by apply IH]. rewrite insert_perm. constructor; [unfold before; lia|done]. }
  induction 1 as [|e l He Hl IH]; [done|]. unfold qsort in *. cbn [foldr]. apply Hins; [done| |done]. fold (qsort l). by rewrite qsort_perm.
Qed.

(** ** The first gap *)

Lemma find_area_spec N req : forall l prev, 0 < req -> N < 2 ^ 63 -> 1 <= prev <= N - 1 ->
  Forall (fun e => is_empty e = false) l -> Forall (inside N) l -> Forall (fun e => prev <= StartingBlock e) l ->
  pairwise before l -> pairwise apart_of l ->
  let r := find_area N req prev l in
  if r =? 0
  then forall a, prev <= a -> a + req <= N - 1 -> exists e, e ∈ l /\ ~ area_apart a (a + req) (StartingBlock e) (ends e)
  else prev <= r /\ r + req <= N - 1 /\ Forall (fun e => area_apart r (r + req) (StartingBlock e) (ends e)) l.
Proof.
  induction l as [|e l IH]; intros prev Hreq HN Hprev Hc Hin Hp Hs Ha; cbn [find_area].
  - rewrite (wrap_small 64 (N - 1)), wrap_small by lia. destruct (Z.geb_spec (N - 1 - prev) req).
    + rewrite (proj2 (Z.eqb_neq prev 0)) by lia. split_and!; [lia|lia|constructor].
    + rewrite Z.eqb_refl. intros a H1 H2. lia.
  - inversion_clear Hc as [|? ? He Hc']. inversion_clear Hin as [|? ? Hie Hin']. inversion_clear Hp as [|? ? Hpe Hp'].
    destruct Hs as [Hse Hs], Ha as [Hae Ha]. rewrite He. destruct Hie as (Hi1 & Hi2 & Hi3). unfold ends in Hi3.
    rewrite wrap_small by lia. destruct (Z.geb_spec (StartingBlock e - prev) req).
    + rewrite (proj2 (Z.eqb_neq prev 0)) by lia. split_and!; [lia|lia|]. constructor; [unfold area_apart; lia|].
      eapply Forall_impl; [exact Hse|]. unfold before, area_apart. intros y Hy. lia.
    + rewrite wrap_small by lia. specialize (IH (ends e) Hreq HN). unfold ends in IH at 1 2 3.
      assert (Forall (fun y => ends e <= StartingBlock y) l) as Hp2.
      { rewrite Forall_forall in *. intros y Hy. specialize (Hse y Hy). specialize (Hae y Hy). specialize (Hin' y Hy).
        unfold before, apart_of, area_apart, inside, ends in *. lia. }
      specialize (IH ltac:(lia) Hc' Hin' Hp2 Hs Ha). cbv zeta in IH. unfold ends in IH at 1 2.
      destruct (find_area N req (StartingBlock e + ReservedBlocks e) l =? 0).
      * intros a H1 H2. destruct (Z.le_gt_cases (ends e) a) as [Hle|Hgt].
        -- destruct (IH a Hle H2) as (y & Hy & Hna). exists y. split; [by right|done].
        -- exists e. split; [by left|]. unfold area_apart, ends in *. lia.
      * destruct IH as (H1 & H2 & H3). unfold ends in H1. split_and!; [lia|done|]. constructor; [unfold area_apart, ends; lia|done].
Qed.

(** ** Records on the disk *)

Definition valid_entry (e : BMFSEntry) : Prop :=
  length (FileName e) = 32%nat /\ Forall (fun c => 0 <= c < 256) (FileName e) /\
  0 <= StartingBlock e < 2 ^ 64 /\ 0 <= ReservedBlocks e < 2 ^ 64 /\ 0 <= FileSize e < 2 ^ 64 /\ 0 <= Unused e < 2 ^ 64.
Definition valid_directory (d : list BMFSEntry) : Prop := length d = 64%nat /\ Forall valid_entry d.

Lemma le_bytes_length n : forall v, length (le_bytes n v) = n.
Proof. induction n as [|n IH]; intros v; [done|]. cbn [le_bytes length]. by rewrite IH. Qed.
Lemma le_bytes_range n : forall v, Forall (fun c => 0 <= c < 256) (le_bytes n v).
Proof. induction n as [|n IH]; intros v; constructor; [apply Z.mod_pos_bound; lia|apply IH]. Qed.

Lemma holds_load_le n : forall m a v, holds m a (le_bytes n v) -> load_le n m a = v mod 256 ^ Z.of_nat n.
Proof.
  induction n as [|n IH]; intros m a v Hh; [by rewrite Z.mod_1_r|]. cbn [le_bytes] in Hh.
  apply (holds_app m a [v mod 256]) in Hh as [H1 H2]. specialize (H1 0%nat ltac:(simpl; lia)). cbn in H1. rewrite Z.add_0_r in H1.
  change (Z.of_nat (length [v mod 256])) with 1 in H2. cbn [load_le]. rewrite H1, (IH _ _ (v / 256) H2). rewrite Nat2Z.inj_succ, Z.pow_succ_r by lia. by rewrite (Z.rem_mul_r v 256) by lia.
Qed.

Lemma entry_bytes_length e : length (FileName e) = 32%nat -> length (entry_bytes e) = 64%nat.
Proof. intros E. unfold entry_bytes. by rewrite !length_app, !le_bytes_length, E. Qed.

Lemma read_entry_holds m a e : valid_entry e -> holds m a (entry_bytes e) -> read_entry m a = e.
Proof.
  intros (El & _ & H1 & H2 & H3 & H4) Hh. unfold entry_bytes in Hh.
  apply holds_app in Hh as [Hn Hh]. rewrite El in Hh.
  do 3 (apply holds_app in Hh as [? Hh]; rewrite le_bytes_length in Hh). change (Z.of_nat 32) with 32 in *. change (Z.of_nat 8) with 8 in *.
  unfold read_entry, load64. rewrite <- El at 1. rewrite (holds_bytes_at _ _ _ Hn).
  rewrite (holds_load_le 8 m (a + 32) (StartingBlock e)) by done.
  replace (a + 40) with (a + 32 + 8) by lia. rewrite (holds_load_le 8 m (a + 32 + 8) (ReservedBlocks e)) by done.
  replace (a + 48) with (a + 32 + 8 + 8) by lia. rewrite (holds_load_le 8 m (a + 32 + 8 + 8) (FileSize e)) by done.
  replace (a + 56) with (a + 32 + 8 + 8 + 8) by lia. rewrite (holds_load_le 8 m (a + 32 + 8 + 8 + 8) (Unused e)) by done.
  change (256 ^ Z.of_nat 8) with (2 ^ 64). rewrite !Z.mod_small by lia. by destruct e.
Qed.

Lemma directory_bytes_app d1 d2 : directory_bytes (d1 ++ d2) = directory_bytes d1 ++ directory_bytes d2.
Proof. apply bind_app. Qed.
Lemma directory_bytes_length d : Forall valid_entry d -> length (directory_bytes d) = (64 * length d)%nat.
Proof.
  induction 1 as [|e d He _ IH]; [done|]. change (directory_bytes (e :: d)) with (entry_bytes e ++ directory_bytes d).
  rewrite length_app, IH, entry_bytes_length by apply He. cbn [length]. lia.
Qed.
Lemma directory_bytes_range d : Forall valid_entry d -> forall c, c ∈ directory_bytes d -> 0 <= c < 256.
Proof.
  intros Hd. apply Forall_forall. induction Hd as [|e d (_ & He & _) _ IH]; [constructor|].
  change (directory_bytes (e :: d)) with (entry_bytes e ++ directory_bytes d). apply Forall_app. split; [|done].
  unfold entry_bytes. repeat (apply Forall_app; split); auto using le_bytes_range.
Qed.

Lemma read_directory_holds m d : valid_directory d -> holds m 4096 (directory_bytes d) -> read_directory m = d.
Proof.
  intros [El Hd] Hh. apply list_eq. intros i. unfold read_directory. rewrite list_lookup_fmap. destruct (d !! i) as [e|] eqn:E.
  - pose proof (lookup_lt_Some _ _ _ E) as Hi. rewrite lookup_seq_lt by lia. cbn. f_equal.
    apply read_entry_holds; [by eapply Forall_lookup_1|].
    pose proof (take_drop_middle d i e E) as Ed. rewrite <- Ed in Hh. rewrite directory_bytes_app in Hh.
    apply holds_app in Hh as [_ Hh]. change (directory_bytes (e :: ?x)) with (entry_bytes e ++ directory_bytes x) in Hh.
    apply holds_app in Hh as [Hh _]. rewrite directory_bytes_length, length_take_le in Hh by (try lia; by apply Forall_take).
    by replace (4096 + 64 * Z.of_nat i) with (4096 + Z.of_nat (64 * i)) by lia.
  - apply lookup_ge_None in E. by rewrite lookup_seq_ge by lia.
Qed.

(** ** Changing a record *)

Lemma alter_middle (f : BMFSEntry -> BMFSEntry) l1 : forall e l2, alter f (length l1) (l1 ++ e :: l2) = l1 ++ f e :: l2.
Proof. induction l1 as [|x l1 IH]; intros e l2; [done|]. cbn. f_equal. apply IH. Qed.

Lemma mark_end e : length (FileName e) = 32%nat -> is_end (mark 0 e) = true.
Proof. unfold is_end, first_char, mark. cbn. by destruct (FileName e). Qed.
Lemma mark_empty e : length (FileName e) = 32%nat -> is_end (mark 1 e) = false /\ is_empty (mark 1 e) = true.
Proof. unfold is_end, is_empty, first_char, mark. cbn. by destruct (FileName e). Qed.
Lemma mark_valid c e : 0 <= c < 256 -> valid_entry e -> valid_entry (mark c e).
Proof.
  intros Hc (H1 & H2 & H3). split_and!; [cbn; by rewrite length_insert| |apply H3..]. cbn. by apply Forall_insert.
Qed.

(** A name that fits, and does not look like a mark. *)
Definition good_name (n : list Z) : Prop := is_string n /\ (0 < length n < 32)%nat /\ ch n 0 <> 1.

Lemma cut_app_null (n l : list Z) : is_string n -> cut (n ++ 0 :: l) = n.
Proof.
  induction 1 as [|c n Hc _ IH]; [done|]. cbn [app cut]. rewrite (proj2 (Z.eqb_neq c 0)) by lia. by rewrite IH.
Qed.

Lemma new_record_spec n start blocks e :
  good_name n -> valid_entry e -> 0 <= start < 2 ^ 64 -> 0 <= blocks < 2 ^ 64 ->
  let x := new_record n start blocks e in
  valid_entry x /\ is_end x = false /\ is_empty x = false /\ name_of x = n /\
  StartingBlock x = start /\ ReservedBlocks x = blocks /\ FileSize x = 0.
Proof.
  intros (Hn & Hl & H1) (E1 & E2 & _ & _ & _ & E6) Hs Hb x.
  assert (FileName x = n ++ 0 :: drop (S (length n)) (FileName e)) as Ef by done.
  assert (first_char x = ch n 0 /\ 0 < ch n 0) as [Ec Hc].
  { unfold first_char. rewrite Ef. destruct n as [|c n]; [cbn in Hl; lia|]. inversion_clear Hn. unfold ch. cbn. split; [done|lia]. }
  split_and!; try done.
  - unfold valid_entry. rewrite Ef. split; [rewrite length_app; cbn [length]; rewrite length_drop, E1; lia|].
    split; [|cbn; lia]. apply Forall_app. split; [eapply Forall_impl; [exact Hn|]; cbn; lia|].
    constructor; [lia|]. by apply Forall_drop.
  - unfold is_end. rewrite Ec. apply Z.eqb_neq. lia.
  - unfold is_empty. rewrite Ec. apply Z.eqb_neq. done.
  - unfold name_of, entry_bytes. rewrite Ef, <- app_assoc. by apply cut_app_null.
Qed.

(** The directory after a new record has taken the place of the end mark. *)
Lemma new_directory d f :
  valid_directory d -> (length (records d) < 64)%nat -> (forall e, valid_entry e -> valid_entry (f e) /\ is_end (f e) = false) ->
  let k := length (records d) in
  let d1 := alter f k d in
  let d2 := if (S k <? 64)%nat then alter (mark 0x00) (S k) d1 else d1 in
  exists e, valid_entry e /\ records d2 = records d ++ [f e] /\ valid_directory d2.
Proof.
  intros [El Hd] Hk Hf k d1 d2. destruct (records_split d) as (e & rest & Ed & He); [lia|]. fold k in Hk.
  assert (Forall valid_entry (records d) /\ valid_entry e /\ Forall valid_entry rest) as (Hr & Hve & Hrest).
  { rewrite Ed in Hd. apply Forall_app in Hd as [? Hd]. by inversion_clear Hd. }
  destruct (Hf e Hve) as [Hvf Hef]. exists e. split; [done|].
  assert (d1 = records d ++ f e :: rest) as E1 by (unfold d1; rewrite Ed at 1; apply alter_middle).
  assert (length (records d ++ e :: rest) = 64%nat) as El' by by rewrite <- Ed. rewrite length_app in El'. cbn [length] in El'. fold k in El'.
  unfold d2. destruct (Nat.ltb_spec (S k) 64) as [Hlt|Hge].
  - destruct rest as [|e1 rest]; [cbn in El'; lia|]. inversion_clear Hrest as [|? ? Hv1 Hrest'].
    assert (alter (mark 0x00) (S k) d1 = (records d ++ [f e]) ++ mark 0 e1 :: rest) as ->.
    { rewrite E1. replace (S k) with (length (records d ++ [f e])) by (rewrite length_app; cbn; lia).
      replace (records d ++ f e :: e1 :: rest) with ((records d ++ [f e]) ++ e1 :: rest) by by rewrite <- app_assoc. apply alter_middle. }
    split.
    + rewrite records_app by (apply Forall_app; split; [apply records_ends|by apply Forall_singleton]).
      cbn [records]. rewrite mark_end by apply Hv1. by rewrite app_nil_r.
    + split; [rewrite !length_app in *; cbn in *; lia|]. apply Forall_app. split; [apply Forall_app; split; [done|by apply Forall_singleton]|].
      constructor; [apply mark_valid; [lia|done]|done].
  - destruct rest as [|e1 rest]; [|cbn in El'; lia]. rewrite E1. split.
    + rewrite records_app by apply records_ends. cbn [records]. by rewrite Hef.
    + split; [rewrite length_app; cbn; lia|]. apply Forall_app. split; [done|by apply Forall_singleton].
Qed.
