(* ===== verification/BmfsTheorems.v ===== *)
(** * What the file system utility promises

    Creating a file keeps all files apart and finds room whenever there is a gap,
    as long as nothing was deleted; what is written is read back, and the other
    files keep their contents; a disk that is made can be used. *)
From S2P Require Import Prelude CLib ULib ULibTheorems Bmfs BmfsFacts.
Import Bmfs.

Definition num_blocks (s : bmfs) : Z := disksize s / 2.

(** The directory in memory is the one on the disk, its files are apart and
    inside the data blocks, and no file is longer than its area. *)
Record sound (s : bmfs) : Prop := {
  sd_size : 0 <= disksize s < 2 ^ 32 /\ 3 <= num_blocks s /\ num_blocks s * BLOCK <= disk_len s;
  sd_dir : valid_directory (Directory s);
  sd_disk : holds (disk s) 4096 (directory_bytes (Directory s));
  sd_inside : Forall (inside (num_blocks s)) (live (Directory s));
  sd_apart : pairwise apart_of (live (Directory s));
  sd_sizes : Forall (fun e => FileSize e <= ReservedBlocks e * BLOCK) (live (Directory s)) }.

(** The bytes of a file. *)
Definition file_bytes (s : bmfs) (e : BMFSEntry) : list Z :=
  (fun i => get_char s (u64 (StartingBlock e * BLOCK) + Z.of_nat i)) <$> seq 0 (Z.to_nat (FileSize e)).
Definition contents (s : bmfs) (name : list Z) : option (list Z) :=
  match find_entry name 0 (Directory s) with Some (e, _) => Some (file_bytes s e) | None => None end.

Lemma num_blocks_bound s : sound s -> num_blocks s < 2 ^ 31.
Proof. intros [(H1 & _) _ _ _ _ _]. unfold num_blocks. apply Z.div_lt_upper_bound; lia. Qed.

Lemma live_records d e : e ∈ live d <-> e ∈ records d /\ is_empty e = false.
Proof. unfold live. rewrite list_elem_of_filter. tauto. Qed.
Lemma live_clean d : Forall (fun e => is_empty e = false) (records d) -> live d = records d.
Proof.
  intros Hc. unfold live. induction Hc as [|e l He _ IH]; [done|]. rewrite filter_cons_True by done. by rewrite IH.
Qed.
Lemma found_live n d e i : find_entry n 0 d = Some (e, i) -> e ∈ live d /\ d !! i = Some e.
Proof.
  intros H. rewrite find_records in H. pose proof H as (l1 & l2 & E & -> & Hl & He & Hm & _)%find_some.
  split; [apply live_records; split; [rewrite E, elem_of_app; right; by left|done]|].
  assert (forall d i e, records d !! i = Some e -> d !! i = Some e) as Hpre.
  { clear. induction d as [|x d IH]; intros i e; cbn [records]; [done|]. destruct (is_end x); [done|]. destruct i; [done|]. apply IH. }
  apply Hpre. rewrite E. by rewrite lookup_app_r, Nat.add_0_l, Nat.sub_diag by lia.
Qed.

(** Where the bytes of a live file are. *)
Lemma live_area s e : sound s -> e ∈ live (Directory s) ->
  u64 (StartingBlock e * BLOCK) = StartingBlock e * BLOCK /\ BLOCK <= StartingBlock e * BLOCK /\
  u64 (ReservedBlocks e * BLOCK) = ReservedBlocks e * BLOCK /\
  (StartingBlock e + ReservedBlocks e) * BLOCK <= disk_len s /\ 0 <= FileSize e <= ReservedBlocks e * BLOCK.
Proof.
  intros Hs He. pose proof (num_blocks_bound s Hs) as Hb. destruct Hs as [(H1 & H2 & H3) [_ Hd] _ Hi _ Hz]. rewrite !Forall_forall in *.
  destruct (Hi e He) as (Hi1 & Hi2 & Hi3). specialize (Hz e He). unfold ends, BLOCK in *.
  assert (0 <= FileSize e).
  { apply live_records in He as [He _]. assert (forall d, e ∈ records d -> e ∈ d) as Hin.
    { clear. induction d as [|x d IH]; cbn [records]; [done|]. destruct (is_end x); [by intros ?%elem_of_nil|].
      rewrite !elem_of_cons. intros [|]; auto. }
    destruct (Hd e (Hin _ He)) as (_ & _ & _ & _ & ? & _). lia. }
  rewrite !wrap_small by lia. split_and!; lia.
Qed.

(** The files outside an area that is written keep their contents. *)
Lemma file_bytes_ext s s' e :
  sound s -> e ∈ live (Directory s) -> disk_len s <= disk_len s' ->
  (forall a, StartingBlock e * BLOCK <= a < (StartingBlock e + ReservedBlocks e) * BLOCK -> load8 (disk s') a = load8 (disk s) a) ->
  file_bytes s' e = file_bytes s e.
Proof.
  intros Hs He Hlen Hd. destruct (live_area s e Hs He) as (E1 & H1 & _ & H2 & H3). unfold file_bytes. rewrite E1.
  apply list_fmap_ext. intros k i Hi. apply lookup_seq in Hi as [-> Hk]. unfold get_char. cbn [Nat.add] in *.
  rewrite !(proj2 (Z.ltb_lt _ _)) by lia. apply Hd. lia.
Qed.

Lemma flush_spec s (Q : unit -> bmfs -> Prop) :
  Q tt (s <| disk ::= store_bytes 4096 (directory_bytes (Directory s)) |>
          <| disk_len ::= fun n => Z.max n (4096 + Z.of_nat (length (directory_bytes (Directory s)))) |>) ->
  runs flush_directory s Q.
Proof. intros HQ. apply runs_bind, runs_gets. by apply runs_modify. Qed.

(** ** Creating a file *)

(** Storing a new directory [d] on the disk of a sound state. *)
Definition flushed (s : bmfs) (d : list BMFSEntry) : bmfs :=
  s <| Directory := d |> <| disk ::= store_bytes 4096 (directory_bytes d) |>
    <| disk_len ::= fun n => Z.max n (4096 + Z.of_nat (length (directory_bytes d))) |>.

Lemma flushed_spec s d : sound s -> valid_directory d ->
  disk_len (flushed s d) = disk_len s /\ holds (disk (flushed s d)) 4096 (directory_bytes d) /\
  (forall a, 8192 <= a -> load8 (disk (flushed s d)) a = load8 (disk s) a).
Proof.
  intros Hs [El Hd]. pose proof (directory_bytes_length d Hd) as Eb. rewrite El in Eb. destruct (sd_size s Hs) as (_ & H3 & H4). unfold BLOCK in *.
  split_and!.
  - cbn. rewrite Eb. lia.
  - cbn. apply holds_store_bytes. by apply directory_bytes_range.
  - intros a Ha. cbn. rewrite load8_store_bytes by by apply directory_bytes_range. by rewrite decide_False by (rewrite Eb; lia).
Qed.

(** Half of the megabytes asked for, rounded up. *)
Definition blocks_for (size : Z) : Z := (size + 1) / 2.

Lemma blocks_for_spec size : 1 <= size < 2 ^ 31 ->
  (if size mod 2 =? 0 then size else u64 (size + 1)) = 2 * blocks_for size /\ 0 < blocks_for size < 2 ^ 31.
Proof.
  intros Hs. unfold blocks_for. destruct (Z.eqb_spec (size mod 2) 0); [split; dlia|]. rewrite wrap_small by lia. split; dlia.
Qed.

Lemma area_search s blocks : sound s -> Forall (fun e => is_empty e = false) (records (Directory s)) -> 0 < blocks ->
  let r := find_area (num_blocks s) blocks 1 (qsort (records (Directory s))) in
  if r =? 0
  then forall a, 1 <= a -> a + blocks <= num_blocks s - 1 ->
         exists e, e ∈ live (Directory s) /\ ~ area_apart a (a + blocks) (StartingBlock e) (ends e)
  else 1 <= r /\ r + blocks <= num_blocks s - 1 /\
       Forall (fun e => area_apart r (r + blocks) (StartingBlock e) (ends e)) (live (Directory s)).
Proof.
  intros Hs Hc Hb r. pose proof (num_blocks_bound s Hs). pose proof Hs as [(_ & H3 & _) _ _ Hi Ha _].
  rewrite live_clean in * by done. pose proof (qsort_perm (records (Directory s))) as Hp.
  assert (Forall (inside (num_blocks s)) (qsort (records (Directory s)))) as Hi' by by rewrite Hp.
  pose proof (find_area_spec (num_blocks s) blocks (qsort (records (Directory s))) 1) as Hf. cbv zeta in Hf. fold r in Hf.
  assert (forall e, e ∈ qsort (records (Directory s)) <-> e ∈ records (Directory s)) as Hin by (intros e; by rewrite Hp).
  lapply Hf; [clear Hf; intros Hf|lia]. do 2 (lapply Hf; [clear Hf; intros Hf|lia]).
  specialize (Hf ltac:(by rewrite Hp) Hi').
  assert (Forall (fun e => 1 <= StartingBlock e) (qsort (records (Directory s)))) as H1.
  { eapply Forall_impl; [exact Hi'|]. unfold inside. tauto. }
  assert (pairwise before (qsort (records (Directory s)))) as H2.
  { apply qsort_sorted. rewrite Forall_forall in *. intros e He. destruct (Hi e He) as (? & ? & ?). unfold small, ends in *.
    split; [by apply Hc|lia]. }
  assert (pairwise apart_of (qsort (records (Directory s)))) as H4 by (apply (pairwise_perm _ (records (Directory s))); [apply _|by symmetry|exact Ha]).
  specialize (Hf H1 H2 H4).
  destruct (r =? 0).
  - intros a Hle Hfit. destruct (Hf a Hle Hfit) as (e & He & Hna). exists e. by rewrite <- Hin.
  - by rewrite Hp in Hf.
Qed.

(** The state after a new record: [d'] is the directory with the record [x]. *)
Lemma new_file_sound s d' x :
  sound s -> Forall (fun e => is_empty e = false) (records (Directory s)) -> valid_directory d' ->
  records d' = records (Directory s) ++ [x] -> is_end x = false -> is_empty x = false -> FileSize x = 0 ->
  inside (num_blocks s) x -> Forall (apart_of x) (live (Directory s)) -> find_entry (name_of x) 0 (Directory s) = None ->
  sound (flushed s d') /\ live d' = live (Directory s) ++ [x] /\ contents (flushed s d') (name_of x) = Some [] /\
  (forall n, n <> name_of x -> contents (flushed s d') n = contents s n).
Proof.
  intros Hs Hc Hd' Er Hx Hxe Hsz Hin Hap Hnone. destruct (flushed_spec s d' Hs Hd') as (Elen & Hh & Hout).
  assert (Forall (fun e => is_empty e = false) (records d')) as Hc' by (rewrite Er; apply Forall_app; split; [done|by apply Forall_singleton]).
  assert (live d' = live (Directory s) ++ [x]) as El by by rewrite !live_clean, Er.
  assert (forall n, find_entry n 0 d' = match find_entry n 0 (Directory s) with
            | Some r => Some r | None => find_entry n (length (records (Directory s))) [x] end) as Hfind.
  { intros n. rewrite find_records, Er, find_app by apply records_ends. by rewrite <- find_records. }
  assert (forall n, find_entry n (length (records (Directory s))) [x] =
            if decide (n = name_of x) then Some (x, length (records (Directory s))) else None) as Hone.
  { intros n. cbn [find_entry]. rewrite Hx, Hxe. unfold streq. case_decide; [by rewrite bool_decide_true|by rewrite bool_decide_false]. }
  pose proof Hs as [Hsize _ _ Hi Ha Hz]. split_and!; [|done| |].
  - split.
    + destruct Hsize as (H1 & H2 & H3). split_and!; [apply H1..|exact H2|]. rewrite Elen. exact H3.
    + exact Hd'.
    + exact Hh.
    + change (Forall (inside (num_blocks s)) (live d')). rewrite El. apply Forall_app. split; [done|by apply Forall_singleton].
    + change (pairwise apart_of (live d')). rewrite El. apply pairwise_app_single; [apply _|done|done].
    + change (Forall (fun e => FileSize e <= ReservedBlocks e * BLOCK) (live d')). rewrite El. apply Forall_app. split; [done|].
      apply Forall_singleton. rewrite Hsz. destruct Hin as (_ & ? & _). unfold BLOCK. lia.
  - unfold contents. change (Directory (flushed s d')) with d'. rewrite Hfind, Hnone, Hone, decide_True by done. unfold file_bytes. by rewrite Hsz.
  - intros n Hn. unfold contents. change (Directory (flushed s d')) with d'. rewrite Hfind.
    destruct (find_entry n 0 (Directory s)) as [[e j]|] eqn:E; [|by rewrite Hone, decide_False].
    f_equal. destruct (found_live _ _ _ _ E) as [He _]. destruct (live_area s e Hs He) as (_ & H8 & _).
    apply file_bytes_ext; [done|done|lia|]. intros a Hb. apply Hout. unfold BLOCK in *. lia.
Qed.

(** C38: creating a file keeps the files apart.  On a sound disk with a record to
    spare, from which nothing was deleted, [create] refuses a name that exists;
    otherwise, when some run of free data blocks is long enough, it adds an empty
    file of that name on such a run, and the disk is sound again, with the
    directory flushed and every other file as it was; and when it reports that
    the file cannot be created, no run of free blocks is long enough. *)
Theorem create_keeps_files_apart s name size :
  let d := Directory s in let blocks := blocks_for size in
  sound s -> Forall (fun e => is_empty e = false) (records d) -> (length (records d) < 64)%nat ->
  good_name name -> 1 <= size < 2 ^ 31 ->
  runs (create name size) s (fun r s' =>
    (r = FileExists /\ s' = s /\ contents s name <> None) \/
    (r = Complete /\ sound s' /\ contents s' name = Some [] /\
       (forall n, n <> name -> contents s' n = contents s n) /\
       exists e, live (Directory s') = live d ++ [e] /\ name_of e = name /\ ReservedBlocks e = blocks) \/
    (r = CannotCreate (2 * blocks) /\ s' = s /\
       forall a, 1 <= a -> a + blocks <= num_blocks s - 1 ->
         exists e, e ∈ live d /\ ~ area_apart a (a + blocks) (StartingBlock e) (ends e))).
Proof.
  intros d blocks Hs Hc Hk Hname Hsize. destruct (blocks_for_spec size Hsize) as [E2 Hb]. fold blocks in E2, Hb.
  unfold create. rewrite E2. apply runs_bind, runs_gets. fold d. destruct (find_entry name 0 d) as [[e0 i0]|] eqn:Enone.
  { apply runs_ret. left. unfold contents. fold d. by rewrite Enone. }
  apply runs_bind, runs_gets. cbv zeta. change (Directory (id s)) with d. change (disksize (id s) / 2) with (num_blocks s).
  pose proof (sd_dir s Hs) as Hd. fold d in Hd. rewrite scan_clean by (try done; rewrite (proj1 Hd); lia). cbn [Nat.add].
  destruct (records_split d) as (e0 & rest & Ed & _); [rewrite (proj1 Hd); lia|].
  assert (take (length (records d)) d = records d) as -> by (rewrite Ed at 2; by rewrite take_app_length).
  replace (2 * blocks / 2) with blocks by (rewrite Z.mul_comm, Z.div_mul; lia).
  pose proof (area_search s blocks Hs Hc ltac:(lia)) as Hf. cbv zeta in Hf. fold d in Hf.
  set (r := find_area _ _ _ _) in *. destruct (r =? 0); [apply runs_ret; right; right; split_and!; done|].
  destruct Hf as (H1 & H2 & H3). rewrite (proj2 (Nat.leb_gt 32 (length name))) by apply Hname.
  pose proof (num_blocks_bound s Hs). apply runs_bind, runs_modify. rewrite Nat.eqb_refl. cbn [andb].
  destruct (new_directory d (new_record name r blocks) Hd Hk) as (e & Hve & Er & Hvd).
  { intros e He. destruct (new_record_spec name r blocks e Hname He) as (? & ? & _); [lia|lia|done]. }
  destruct (new_record_spec name r blocks e Hname Hve) as (_ & X2 & X3 & X4 & X5 & X6 & X7); [lia|lia|].
  set (d' := if (S (length (records d)) <? 64)%nat then _ else _) in *. set (x := new_record name r blocks e) in *.
  destruct (new_file_sound s d' x Hs Hc Hvd Er X2 X3 X7) as (S1 & S2 & S3 & S4).
  { unfold inside, ends. rewrite X5, X6. lia. }
  { eapply Forall_impl; [exact H3|]. intros y Hy. unfold apart_of, ends. rewrite X5, X6. exact Hy. }
  { by rewrite X4. }
  rewrite X4 in S3, S4.
  assert (runs flush_directory (s <| Directory := d' |>) (fun _ s' => s' = flushed s d')) as Hflush by by apply flush_spec.
  apply runs_bind.
  enough (forall s1, s1 = s <| Directory := d' |> -> runs (flush_directory ;; mret Complete) s1 (fun r0 s' =>
    (r0 = FileExists /\ s' = s /\ contents s name <> None) \/
    (r0 = Complete /\ sound s' /\ contents s' name = Some [] /\ (forall n, n <> name -> contents s' n = contents s n) /\
       exists e, live (Directory s') = live d ++ [e] /\ name_of e = name /\ ReservedBlocks e = blocks) \/
    (r0 = CannotCreate (2 * blocks) /\ s' = s /\ forall a, 1 <= a -> a + blocks <= num_blocks s - 1 ->
         exists e, e ∈ live d /\ ~ area_apart a (a + blocks) (StartingBlock e) (ends e)))) as Hgo.
  - unfold d' in Hgo. apply runs_when; intros E; rewrite E in Hgo; [apply runs_modify|]; by apply Hgo.
  - intros s1 ->. apply runs_bind. eapply runs_mono; [exact Hflush|]. intros [] s' ->. apply runs_ret. right. left.
    split_and!; try done. by exists x.
Qed.

(** ** Writing and reading *)

Lemma cut_short (l x x' : list Z) : (length (cut (l ++ x)) < length l)%nat -> cut (l ++ x') = cut (l ++ x).
Proof.
  induction l as [|c l IH]; cbn [app cut length]; [lia|]. destruct (c =? 0); [done|]. cbn [length]. intros Hl. f_equal. apply IH. lia.
Qed.

(** A record with another size. *)
Definition resize (n : Z) (e : BMFSEntry) : BMFSEntry := e <| FileSize := n |>.
Lemma resize_name n e : valid_entry e -> (length (name_of e) < 32)%nat -> name_of (resize n e) = name_of e.
Proof. intros (El & _) Hl. unfold name_of, entry_bytes in *. apply cut_short. by rewrite El. Qed.

Lemma pairwise_replace {A} (R : A -> A -> Prop) l1 x x' l2 :
  (forall y, R x y -> R x' y) -> (forall y, R y x -> R y x') -> pairwise R (l1 ++ x :: l2) -> pairwise R (l1 ++ x' :: l2).
Proof.
  intros H1 H2. induction l1 as [|y l1 IH]; cbn [app pairwise].
  - intros [Hx Hl]. split; [|done]. eapply Forall_impl; [exact Hx|]. apply H1.
  - rewrite !Forall_app, !Forall_cons. intros [(Ha & Hb & Hc) Hl]. split_and!; auto.
Qed.

(** The directory of a sound state with one file resized. *)
Lemma resized s name e i n d' :
  sound s -> good_name name -> find_entry name 0 (Directory s) = Some (e, i) -> 0 <= n <= ReservedBlocks e * BLOCK ->
  d' = alter (resize n) i (Directory s) ->
  valid_directory d' /\ find_entry name 0 d' = Some (resize n e, i) /\
  (forall m, m <> name -> find_entry m 0 d' = find_entry m 0 (Directory s)) /\
  Forall (inside (num_blocks s)) (live d') /\ pairwise apart_of (live d') /\
  Forall (fun x => FileSize x <= ReservedBlocks x * BLOCK) (live d') /\
  (forall y, y ∈ live (Directory s) -> y = e \/ apart_of e y).
Proof.
  intros Hs (_ & Hnl & _) Hf Hn Ed'. pose proof Hf as (l1 & l2 & Ed & Ei & Hl1 & He & Hm & En)%find_some. rewrite Nat.add_0_l in Ei. subst i name.
  pose proof (live_area s e Hs (proj1 (found_live _ _ _ _ Hf))) as (_ & _ & Eres & _). pose proof Hs as [Hsz [Hlen Hd] _ Hi Ha Hz].
  rewrite Ed, alter_middle in Ed'. subst d'. rewrite Ed in *. apply Forall_app in Hd as [Hd1 Hd]. inversion_clear Hd as [|? ? Hve Hd2].
  assert (valid_entry (resize n e)) as Hvr.
  { destruct Hve as (V1 & V2 & V3 & V4 & _ & V6). unfold valid_entry. cbn. split_and!; try done; try lia.
    pose proof (wrap_range 64 (ReservedBlocks e * BLOCK)). lia. }
  assert (is_end (resize n e) = false /\ is_empty (resize n e) = false) as [He' Hm'] by done.
  assert (forall x, is_end x = false -> is_empty x = false ->
    live (l1 ++ x :: l2) = live l1 ++ x :: live l2) as Hlive.
  { intros x Hx Hxm. unfold live. rewrite records_app by done. cbn [records]. rewrite Hx, filter_app, filter_cons_True by done.
    by rewrite <- (app_nil_r l1) at 2; rewrite records_app, app_nil_r by done. }
  rewrite (Hlive e He Hm) in *. rewrite (Hlive _ He' Hm') in *.
  assert (forall m x, is_end x = false -> is_empty x = false -> name_of x = name_of e ->
     find_entry m 0 (l1 ++ x :: l2) = match find_entry m 0 l1 with Some r => Some r | None =>
       if decide (m = name_of e) then Some (x, length l1) else find_entry m (S (length l1)) l2 end) as Hfind.
  { intros m x Hx Hxm Hxn. rewrite find_app by done. rewrite Nat.add_0_l. cbn [find_entry]. rewrite Hx, Hxm, Hxn. unfold streq.
    destruct (find_entry m 0 l1); [done|]. case_decide; [by rewrite bool_decide_true|by rewrite bool_decide_false]. }
  pose proof (resize_name n e Hve ltac:(lia)) as Hrn.
  rewrite (Hfind _ e He Hm eq_refl), decide_True in Hf by done. split_and!.
  - split; [rewrite length_app in Hlen |- *; exact Hlen|]. apply Forall_app. split; [done|by constructor].
  - rewrite (Hfind _ _ He' Hm' Hrn), decide_True by done. destruct (find_entry (name_of e) 0 l1) as [[e1 j]|] eqn:E1; [|done].
    apply find_some in E1 as (a & b & E1 & -> & _). injection Hf as -> Ej. rewrite E1, length_app in Ej. cbn in Ej. lia.
  - intros m Hmne. by rewrite (Hfind _ _ He' Hm' Hrn), (Hfind _ _ He Hm eq_refl), !decide_False.
  - apply Forall_app in Hi as [Hi1 Hi]. inversion_clear Hi. apply Forall_app. split; [done|by constructor].
  - eapply pairwise_replace; [..|exact Ha]; done.
  - apply Forall_app in Hz as [Hz1 Hz]. inversion_clear Hz. apply Forall_app. split; [done|]. constructor; [cbn; lia|done].
  - intros y Hy. apply (pairwise_perm _ _ (e :: live l1 ++ live l2)) in Ha; [|apply _|by rewrite Permutation_middle].
    destruct Ha as [Ha _]. rewrite Forall_forall in Ha. rewrite elem_of_app, elem_of_cons in Hy.
    destruct Hy as [Hy|[Hy|Hy]]; [right; apply Ha; rewrite elem_of_app; by left|by left|right; apply Ha; rewrite elem_of_app; by right].
Qed.

Lemma get_char_at s a : a < disk_len s -> get_char s a = load8 (disk s) a.
Proof. intros Ha. unfold get_char. by rewrite (proj2 (Z.ltb_lt _ _)). Qed.

Lemma int_loop_spec n s (Q : unit -> bmfs -> Prop) : n < 2 ^ 31 -> Q tt s -> runs (int_loop n) s Q.
Proof. intros Hn HQ. unfold int_loop. rewrite (proj2 (Z.ltb_lt _ _) Hn). by apply runs_ret. Qed.

(** The disk after [write] has stored [bytes] in the area of [e]. *)
Lemma bmfs_write_spec s name e i bytes (Q : report -> bmfs -> Prop) :
  sound s -> good_name name -> find_entry name 0 (Directory s) = Some (e, i) -> host_files s !! name = Some bytes ->
  Z.of_nat (length bytes) <= ReservedBlocks e * BLOCK -> Z.of_nat (length bytes) < 2 ^ 31 -> Forall (fun c => 0 <= c < 256) bytes ->
  (forall s', sound s' -> contents s' name = Some bytes -> (forall m, m <> name -> contents s' m = contents s m) ->
     host_files s' = host_files s -> name_of e = name -> Q Complete s') ->
  runs (write name) s Q.
Proof.
  intros Hs Hname Hf Hb Hroom Hint Hrange HQ. destruct (found_live _ _ _ _ Hf) as [Hlive _].
  destruct (live_area s e Hs Hlive) as (E1 & A1 & E2 & A2 & A3). unfold write.
  apply runs_bind, runs_gets. rewrite Hf. apply runs_bind, runs_gets. rewrite Hb, E2.
  destruct (Z.ltb_spec (ReservedBlocks e * BLOCK) (Z.of_nat (length bytes))); [lia|].
  apply runs_bind, int_loop_spec; [done|]. apply runs_bind, runs_modify, runs_bind, runs_modify. rewrite E1.
  set (start := StartingBlock e * BLOCK) in *. set (n := Z.of_nat (length bytes)).
  destruct (resized s name e i n (alter (resize n) i (Directory s)) Hs Hname Hf ltac:(lia) eq_refl)
    as (Hd' & Hf' & Hother & Hin & Hap & Hsz & Hdis).
  set (d' := alter (resize n) i (Directory s)) in *.
  set (s1 := s <| disk ::= store_bytes start bytes |> <| disk_len ::= fun k => Z.max k (start + n) |>).
  assert (disk_len s1 = disk_len s) as Elen by (cbn; unfold BLOCK in *; lia).
  assert (forall a, load8 (disk s1) a = if decide (start <= a < start + n) then default 0 (bytes !! Z.to_nat (a - start)) else load8 (disk s) a) as Hload.
  { intros a. cbn. apply load8_store_bytes. by apply Forall_forall. }
  change (runs (flush_directory ;; mret Complete) (s1 <| Directory := d' |>) Q). apply runs_bind, flush_spec, runs_ret.
  change (Q Complete (flushed s1 d')).
  destruct (directory_bytes_length d' (proj2 Hd')) as []. pose proof (directory_bytes_length d' (proj2 Hd')) as Ebytes. rewrite (proj1 Hd') in Ebytes.
  assert (forall a, 8192 <= a -> load8 (disk (flushed s1 d')) a = load8 (disk s1) a) as Hout.
  { intros a Ha. cbn. rewrite load8_store_bytes by (apply directory_bytes_range, Hd'). by rewrite decide_False by (rewrite Ebytes; lia). }
  assert (disk_len (flushed s1 d') = disk_len s) as Elen'.
  { destruct (sd_size s Hs) as (_ & ? & ?). unfold BLOCK in *. change (Z.max (disk_len s1) (4096 + Z.of_nat (length (directory_bytes d'))) = disk_len s).
    rewrite Elen, Ebytes. lia. }
  apply HQ; [| | |done|].
  - destruct (sd_size s Hs) as (Z1 & Z2 & Z3). split; try done.
    + split_and!; [apply Z1..|exact Z2|]. rewrite Elen'. exact Z3.
    + apply holds_store_bytes, directory_bytes_range, Hd'.
  - unfold contents. change (Directory (flushed s1 d')) with d'. rewrite Hf'. f_equal. unfold file_bytes. change (StartingBlock (resize n e)) with (StartingBlock e).
    change (FileSize (resize n e)) with n. fold start. rewrite E1. apply list_eq. intros k. rewrite list_lookup_fmap.
    destruct (decide (k < length bytes)%nat) as [Hk|Hk].
    + rewrite lookup_seq_lt by lia. cbn [fmap option_fmap option_map Nat.add]. unfold BLOCK in *. rewrite get_char_at by (rewrite Elen'; lia).
      rewrite Hout, Hload, decide_True by lia. replace (Z.to_nat (start + Z.of_nat k - start)) with k by lia.
      destruct (lookup_lt_is_Some_2 _ _ Hk) as [c ->]. done.
    + rewrite lookup_seq_ge, lookup_ge_None_2 by lia. done.
  - intros m Hm. unfold contents. change (Directory (flushed s1 d')) with d'. rewrite (Hother m Hm).
    destruct (find_entry m 0 (Directory s)) as [[y j]|] eqn:Ey; [|done]. f_equal.
    destruct (found_live _ _ _ _ Ey) as [Hy _]. destruct (live_area s y Hs Hy) as (_ & B1 & _ & B2 & _).
    apply file_bytes_ext; [done|done|lia|]. intros a Ha. unfold BLOCK in *. rewrite Hout, Hload by lia.
    destruct (Hdis y Hy) as [->|Hd].
    + apply find_some in Hf as (_ & _ & _ & _ & _ & _ & _ & N1). apply find_some in Ey as (_ & _ & _ & _ & _ & _ & _ & N2). congruence.
    + rewrite decide_False; [done|]. unfold apart_of, area_apart, ends, start in *. lia.
  - by apply find_some in Hf as (_ & _ & _ & _ & _ & _ & _ & N).
Qed.

Lemma bmfs_read_spec can_create s name (Q : report -> bmfs -> Prop) :
  (match contents s name with
   | None => Q FileNotFound s
   | Some b => can_create name = true /\ Z.of_nat (length b) < 2 ^ 31 /\ Q Complete (s <| host_files ::= <[name := b]> |>)
   end) -> runs (read can_create name) s Q.
Proof.
  intros HQ. unfold contents in HQ. apply runs_bind, runs_gets. destruct (find_entry name 0 (Directory s)) as [[e i]|] eqn:E; [|by apply runs_ret].
  destruct HQ as (Hcan & Hint & HQ). apply find_some in E as (_ & _ & _ & _ & _ & _ & _ & En). rewrite En, Hcan. cbn [negb].
  apply runs_bind, int_loop_spec.
  { unfold file_bytes in Hint. rewrite length_fmap, length_seq in Hint. lia. }
  apply runs_bind, runs_gets. apply runs_bind, runs_modify, runs_ret. exact HQ.
Qed.

(** C39: what is written is read back.  A local file of less than 2^31 bytes that fits
    in the area of a file of the disk is stored by [write]; when the local file is
    gone and the host lets it be created, [read] makes it again with the same bytes.
    The disk stays sound, and every other file of the disk keeps its contents.  (From
    2^31 bytes on the counter of the copy, an [int], overflows.) *)
Theorem write_read_restores can_create s name e i bytes :
  sound s -> good_name name -> find_entry name 0 (Directory s) = Some (e, i) -> host_files s !! name = Some bytes ->
  Z.of_nat (length bytes) <= ReservedBlocks e * BLOCK -> Z.of_nat (length bytes) < 2 ^ 31 ->
  Forall (fun c => 0 <= c < 256) bytes -> can_create name = true ->
  runs (w ← write name; modify (fun s => s <| host_files ::= delete name |>) ;; r ← read can_create name; mret (w, r)) s
    (fun wr s' => wr = (Complete, Complete) /\ host_files s' !! name = Some bytes /\ sound s' /\
       forall m, m <> name -> contents s' m = contents s m).
Proof.
  intros Hs Hname Hf Hb Hroom Hint Hrange Hcan. apply runs_bind.
  eapply bmfs_write_spec; [exact Hs|exact Hname|exact Hf|exact Hb|exact Hroom|exact Hint|exact Hrange|].
  intros s1 Hs1 Hc Ho Eh _. apply runs_bind, runs_modify, runs_bind, bmfs_read_spec.
  change (contents (s1 <| host_files ::= delete name |>) name) with (contents s1 name). rewrite Hc. split; [done|]. split; [done|].
  apply runs_ret. split; [done|]. split; [cbn; apply lookup_insert_eq|]. split; [by destruct Hs1|]. intros m Hm. by rewrite <- Ho.
Qed.

(** From 2^31 bytes on the copy overflows its counter. *)
Lemma write_overflows s name e i bytes : find_entry name 0 (Directory s) = Some (e, i) -> host_files s !! name = Some bytes ->
  Z.of_nat (length bytes) <= u64 (ReservedBlocks e * BLOCK) -> 2 ^ 31 <= Z.of_nat (length bytes) -> write name s = Fault.
Proof.
  intros Hf Hb Hroom Hn. unfold write, findfile, int_loop, mbind, M_bind, gets. cbn [obind]. rewrite Hf. cbn [obind]. rewrite Hb.
  by rewrite (proj2 (Z.ltb_ge _ _) Hroom), (proj2 (Z.ltb_ge _ _) Hn).
Qed.

(** ** A disk of twelve megabytes *)

Definition empty_directory : list BMFSEntry := replicate 64 zero_entry.
Lemma empty_valid : valid_directory empty_directory.
Proof.
  split; [done|]. apply Forall_replicate. split; [done|]. split; [apply Forall_forall; intros c [-> _]%(elem_of_replicate 32 0); lia|cbn; lia].
Qed.
Lemma empty_sound s :
  0 <= disksize s < 2 ^ 32 -> 3 <= num_blocks s -> num_blocks s * BLOCK <= disk_len s -> Directory s = empty_directory ->
  holds (disk s) 4096 (directory_bytes empty_directory) -> sound s.
Proof.
  intros H1 H2 H3 Ed Hh. split; [done|rewrite Ed; apply empty_valid|by rewrite Ed|by rewrite Ed|by rewrite Ed|by rewrite Ed].
Qed.

Definition demo_disk : bmfs :=
  mk_bmfs (store_bytes 4096 (directory_bytes empty_directory) ∅) 12582912 12 empty_directory (fs_tag ++ replicate 508 0)
    {[ [104; 105] := [72; 73] ]}.
Lemma demo_disk_sound : sound demo_disk.
Proof. apply empty_sound; try done. apply holds_store_bytes, directory_bytes_range, empty_valid. Qed.
Lemma hi_good : good_name [104; 105].
Proof. split; [repeat constructor|]. split; [cbn; lia|done]. Qed.

Lemma create_keeps_files_apart_witness :
  runs (create [104; 105] 3) demo_disk (fun r s' =>
    r = Complete /\ sound s' /\ contents s' [104; 105] = Some []).
Proof.
  eapply runs_mono; [apply (create_keeps_files_apart demo_disk [104; 105] 3 demo_disk_sound)|].
  - constructor.
  - vm_compute. lia.
  - exact hi_good.
  - lia.
  - intros r s' [(_ & _ & H)|[(-> & H1 & H2 & _)|(_ & _ & H)]]; [by destruct H|done|].
    destruct (H 1) as (e & He & _); [lia|vm_compute; discriminate|]. by apply elem_of_nil in He.
Defined.

(** The same disk with an empty file "hi" of two blocks. *)
Definition demo_record : BMFSEntry := new_record [104; 105] 1 2 zero_entry.
Definition demo_file_disk : bmfs := flushed demo_disk (demo_record :: replicate 63 zero_entry).
Lemma demo_file_sound : sound demo_file_disk.
Proof.
  destruct (new_record_spec [104; 105] 1 2 zero_entry hi_good) as (V & X); [|lia|lia|].
  { pose proof empty_valid as [_ Hv]. by inversion_clear Hv. }
  apply (new_file_sound demo_disk (demo_record :: replicate 63 zero_entry) demo_record demo_disk_sound); try reflexivity.
  - constructor.
  - split; [reflexivity|]. constructor; [exact V|]. pose proof empty_valid as [_ Hv]. by inversion_clear Hv.
  - unfold inside. vm_compute. split_and!; discriminate || reflexivity.
  - constructor.
Qed.

Lemma write_read_restores_witness :
  runs (w ← write [104; 105]; modify (fun s => s <| host_files ::= delete [104; 105] |>) ;; r ← read (fun _ => true) [104; 105]; mret (w, r))
    demo_file_disk (fun wr s' => wr = (Complete, Complete) /\ host_files s' !! [104; 105] = Some [72; 73]).
Proof.
  eapply runs_mono.
  - apply (write_read_restores (fun _ => true) demo_file_disk [104; 105] demo_record 0 [72; 73] demo_file_sound hi_good); try reflexivity; [vm_compute; discriminate|].
    repeat constructor; lia.
  - intros wr s' (H1 & H2 & _). split; [exact H1|exact H2].
Defined.

(** Two files in the same blocks: "c" is put over "b", which is still there,
    because the search goes on from the end of the deleted "a". *)
Definition names_and_areas (d : list BMFSEntry) : list (list Z * Z * Z) :=
  (fun e => (name_of e, StartingBlock e, ReservedBlocks e)) <$> live d.
Lemma create_overlaps_after_delete :
  match (create [97] 2 ;; create [98] 4 ;; delete_file [97] ;; r ← create [99] 4; mret r) demo_disk with
  | Done r s => r = Complete /\ names_and_areas (Directory s) = [([99], 2, 2); ([98], 2, 2)]
  | _ => False
  end.
Proof. vm_compute. split; reflexivity. Qed.

(** ** Making a disk *)

Lemma store_bytes_app l1 : forall l2 a m, store_bytes (a + Z.of_nat (length l1)) l2 (store_bytes a l1 m) = store_bytes a (l1 ++ l2) m.
Proof.
  induction l1 as [|b l1 IH]; intros l2 a m; cbn [length app store_bytes]; [by rewrite Z.add_0_r|].
  rewrite <- IH. f_equal. lia.
Qed.

Lemma copy_chunks_spec fuel : forall pos bytes s (Q : Z -> bmfs -> Prop), (length bytes < fuel)%nat ->
  (forall len, disk_len s <= len <= Z.max (disk_len s) (pos + Z.of_nat (length bytes)) ->
     Q (pos + Z.of_nat (length bytes)) (s <| disk ::= store_bytes pos bytes |> <| disk_len := len |>)) ->
  runs (copy_chunks fuel pos bytes) s Q.
Proof.
  induction fuel as [|fuel IH]; intros pos [|b l] s Q Hf HQ; [cbn in Hf; lia..| |]; cbn [copy_chunks].
  - apply runs_ret. cbn [length] in HQ. rewrite Z.add_0_r in HQ. specialize (HQ (disk_len s) ltac:(lia)). by destruct s.
  - set (bytes := b :: l) in *. assert (0 < length bytes)%nat as Hpos by (unfold bytes; cbn; lia). clearbody bytes.
    assert (take bufferSize bytes ++ drop bufferSize bytes = bytes) as Esplit by apply take_drop.
    assert (0 < length (take bufferSize bytes))%nat as Hc by (rewrite length_take; unfold bufferSize; lia).
    pose proof (f_equal length Esplit) as El. rewrite length_app in El.
    apply runs_bind, runs_modify, IH; [lia|]. intros len Hlen. cbn in Hlen.
    replace (pos + Z.of_nat (length (take bufferSize bytes)) + Z.of_nat (length (drop bufferSize bytes)))
      with (pos + Z.of_nat (length bytes)) by lia.
    assert (store_bytes pos bytes (disk s) = store_bytes (pos + Z.of_nat (length (take bufferSize bytes))) (drop bufferSize bytes)
              (store_bytes pos (take bufferSize bytes) (disk s))) as E by (by rewrite store_bytes_app, Esplit).
    specialize (HQ len ltac:(lia)). unfold set_field, set_disk, set_disk_len in HQ |- *. cbn in HQ |- *. by rewrite E in HQ.
Qed.

Lemma copy_file_spec pos bytes s (Q : Z -> bmfs -> Prop) :
  (forall len, disk_len s <= len <= Z.max (disk_len s) (pos + Z.of_nat (length bytes)) ->
     Q (pos + Z.of_nat (length bytes)) (s <| disk ::= store_bytes pos bytes |> <| disk_len := len |>)) ->
  runs (copy_file pos bytes) s Q.
Proof. intros HQ. apply copy_chunks_spec; [lia|done]. Qed.

Lemma format_spec s (Q : report -> bmfs -> Prop) :
  (forall s', disk s' = store_bytes 4096 (directory_bytes empty_directory) (store_bytes 1024 (fs_tag ++ replicate 508 0) (disk s)) ->
     disk_len s <= disk_len s' <= Z.max (disk_len s) 8192 -> Q FormatComplete s') -> runs format s Q.
Proof.
  intros HQ. unfold format. do 3 apply runs_bind, runs_modify. apply runs_bind, runs_gets, runs_bind, runs_modify, runs_bind, flush_spec, runs_ret.
  apply HQ; [done|]. pose proof (directory_bytes_length empty_directory (proj2 empty_valid)) as E.
  change (disk_len s <= Z.max (Z.max (disk_len s) (1024 + 512)) (4096 + Z.of_nat (length (directory_bytes empty_directory))) <= Z.max (disk_len s) 8192).
  rewrite E. change (Z.of_nat (64 * length empty_directory)) with 4096. lia.
Qed.

Lemma holds_apart m a l b l' : (forall c, c ∈ l' -> 0 <= c < 256) ->
  a + Z.of_nat (length l) <= b \/ b + Z.of_nat (length l') <= a -> holds m a l -> holds (store_bytes b l' m) a l.
Proof.
  intros Hr Hd Hh. eapply holds_ext; [exact Hh|]. intros c Hc. rewrite load8_store_bytes by done. by rewrite decide_False by lia.
Qed.

Lemma parse_size_min size n : parse_size size = inl n -> minimumDiskSize <= n.
Proof.
  unfold parse_size. destruct (parse_digits 0 size 0) as [[d f]|]; [|done].
  destruct (if d >? 0 then _ else _) as [d' ok]. destruct ok; [|done]. cbn. destruct (Z.ltb_spec d' minimumDiskSize); [done|]. by intros [= <-].
Qed.

(** C40: a disk that is made can be started and used.  When the size is valid and
    the three files can be opened, [initialize] leaves a disk with the boot record
    in its first 512 bytes, and the loader and the kernel, one after the other,
    from byte 8192 on; and a later command that opens the disk finds it formatted,
    with an empty directory and room for files. *)
Theorem initialize_makes_disk s size diskSize mbr boot kernel m b k :
  parse_size size = inl diskSize -> host_files s !! mbr = Some m -> host_files s !! boot = Some b -> host_files s !! kernel = Some k ->
  (512 <= length m)%nat -> Forall (fun c => 0 <= c < 256) (m ++ b ++ k) ->
  diskSize + 8192 + Z.of_nat (length b) + Z.of_nat (length k) < 2 ^ 51 ->
  runs (r ← initialize size (Some mbr) (Some boot) (Some kernel); mount ;; mret r) s (fun r s' =>
    r = (0, Initialized) /\ holds (disk s') 0 (take 512 m) /\ holds (disk s') 8192 (b ++ k) /\
    strcaseeq (cut (DiskInfo s')) fs_tag = true /\ Directory s' = empty_directory /\ sound s').
Proof.
  intros Hp Hm Hb Hk Hlm Hr Hsz. pose proof (parse_size_min _ _ Hp) as Hmin. unfold minimumDiskSize in Hmin.
  rewrite !Forall_app in Hr. destruct Hr as (Rm & Rb & Rk). rewrite Forall_forall in Rm, Rb, Rk.
  pose proof (directory_bytes_length empty_directory (proj2 empty_valid)) as Ed. change (64 * length empty_directory)%nat with 4096%nat in Ed.
  pose proof (directory_bytes_range empty_directory (proj2 empty_valid)) as Rd.
  assert (forall c, c ∈ fs_tag ++ replicate 508 0 -> 0 <= c < 256) as Ri.
  { intros c [Hc|[-> _]%(elem_of_replicate 508 0)]%elem_of_app; [|lia]. repeat (apply elem_of_cons in Hc as [->|Hc]; [lia|]). by apply elem_of_nil in Hc. }
  assert (forall c, c ∈ take 512 m -> 0 <= c < 256) as Rt by (apply Forall_forall, Forall_take; by apply Forall_forall).
  remember (directory_bytes empty_directory) as D eqn:HD. remember (fs_tag ++ replicate 508 0) as info eqn:HI.
  assert (length info = 512%nat) as EI by by subst info.
  apply runs_bind. unfold initialize. rewrite Hp.
  do 3 (apply runs_bind; apply runs_bind; apply runs_gets; rewrite ?Hm, ?Hb, ?Hk; apply runs_ret).
  unfold write_image. apply runs_bind, runs_modify, runs_bind, format_spec. rewrite <- HD, <- HI. intros s1 E1 L1. cbn in E1, L1.
  apply runs_bind. rewrite (proj2 (Nat.leb_le _ _) Hlm). apply runs_bind, runs_modify, runs_ret. cbn [negb].
  apply runs_bind, copy_file_spec. intros len2 L2. apply runs_bind, runs_bind, copy_file_spec. intros len3 L3. apply runs_ret, runs_ret.
  set (s3 := _ <| disk_len := len3 |>). assert (disk s3 = store_bytes (8192 + Z.of_nat (length b)) k (store_bytes 8192 b
     (store_bytes 0 (take 512 m) (disk s1)))) as E3 by done. assert (disk_len s3 = len3) as EL by done.
  cbn in L2, L3. rewrite length_take in L2. clearbody s3. rewrite store_bytes_app in E3.
  assert (forall c, c ∈ b ++ k -> 0 <= c < 256) as Rbk by (intros c [?|?]%elem_of_app; auto).
  assert (holds (disk s3) 1024 info) as Hi.
  { rewrite E3, E1. do 3 (apply holds_apart; [assumption|rewrite ?length_take, ?Ed, ?EI; lia|]). by apply holds_store_bytes. }
  assert (holds (disk s3) 4096 D) as Hdir.
  { rewrite E3, E1. do 2 (apply holds_apart; [assumption|rewrite ?length_take, ?Ed; lia|]). by apply holds_store_bytes. }
  unfold mount. apply runs_bind, runs_bind, runs_modify, runs_bind, runs_modify, runs_modify, runs_ret.
  assert (read_directory (disk s3) = empty_directory) as Erd by (apply read_directory_holds; [apply empty_valid|by rewrite <- HD]).
  split; [done|]. split; [|split; [|split; [|split]]].
  - change (holds (disk s3) 0 (take 512 m)). rewrite E3. apply holds_apart; [done|rewrite length_take; lia|]. by apply holds_store_bytes.
  - change (holds (disk s3) 8192 (b ++ k)). rewrite E3. by apply holds_store_bytes.
  - change (strcaseeq (cut (bytes_at (disk s3) 1024 512)) fs_tag = true).
    rewrite <- EI at 1. rewrite (holds_bytes_at _ _ _ Hi), HI. reflexivity.
  - change (read_directory (disk s3) = empty_directory). done.
  - rewrite HD in Hdir. apply empty_sound; [..|exact Erd|exact Hdir].
    + apply wrap_range. lia.
    + unfold num_blocks. cbn. rewrite EL, wrap_small by (split; [apply Z.div_pos|apply Z.div_lt_upper_bound]; lia). dlia.
    + unfold num_blocks, BLOCK. cbn. rewrite EL, wrap_small by (split; [apply Z.div_pos|apply Z.div_lt_upper_bound]; lia). dlia.
Qed.

(** "12M", with a boot record of 512 bytes *)
Definition demo_host : bmfs :=
  mk_bmfs ∅ 0 0 [] [] (list_to_map [([109], replicate 512 9); ([98], [1; 2; 3]); ([107], [4; 5])]).
Lemma initialize_makes_disk_witness :
  runs (r ← initialize [49; 50; 77] (Some [109]) (Some [98]) (Some [107]); mount ;; mret r) demo_host (fun r s' =>
    r = (0, Initialized) /\ holds (disk s') 8192 [1; 2; 3; 4; 5] /\ sound s').
Proof.
  eapply runs_mono.
  - apply (initialize_makes_disk demo_host [49; 50; 77] 12582912 [109] [98] [107] (replicate 512 9) [1; 2; 3] [4; 5]);
      [reflexivity|reflexivity|reflexivity|reflexivity|vm_compute; lia| |vm_compute; reflexivity].
    apply (bool_decide_unpack _). vm_compute. exact I.
  - intros r s' (Hr & _ & H8192 & _ & _ & Hs). split; [exact Hr|]. split; [exact H8192|exact Hs].
Defined.

(** The check for an overflow lets some pass: "30000000000000000000" is more than
    2^64. *)
Lemma parse_size_wraps :
  parse_size [51; 48; 48; 48; 48; 48; 48; 48; 48; 48; 48; 48; 48; 48; 48; 48; 48; 48; 48; 48] = inl (30000000000000000000 - 2 ^ 64).
Proof. reflexivity. Qed.
